(* ===== verification/_CoqProject ===== *)
-Q . S2P
Prelude.v
JsNum.v
Js.v
JsStr.v
Stream.v
Upsert.v
Chat.v
Storage.v
Amount.v
Meta.v
Federation.v
StabilityPool.v
Currency.v
Wallet.v
Cbor.v
Fi.v
KeyedMap.v
MatrixEvents.v
Matrix.v
MatrixSelect.v
Effects.v
MatrixThunks.v
MatrixClient.v
Transactions.v
TransactionHistory.v
Csv.v
Cashu.v
Mods.v
ChatRows.v
Parser.v
Browser.v
Environment.v
Slices.v
Store.v
Intl.v
AmountInput.v
AmountLimits.v
Lnurl.v
Pay.v
FiHooks.v
Multispend.v
