(* ===== verification/Prelude.v ===== *)
(** Verification of the core logic of the Fedi wallet.

    Fedi is a wallet and chat application.  Its Rust bridge (not modelled: the
    app sees it as remote procedures and streams of events) keeps keys, money
    and the chat protocol; the TypeScript under [src/ui/common] keeps what the
    screens show, decides which calls to make, and computes amounts.  This
    library models that TypeScript: the Redux slices with their reducers,
    selectors and thunks, the client of the chat, the stored state with its
    migrations, and the utilities they compute with.  Paths below are under
    [src/ui/common].

    * How the parts interact

    The bridge streams edits of lists (rooms, timelines, pinned messages).  The
    chat client ([utils/MatrixChatClient.ts]) subscribes to them and emits
    events, which listeners in [redux/matrix.ts] turn into actions of the
    matrix slice; the slice applies the edits with [utils/stream.ts] and merges
    members and users with [utils/redux.ts].  Selectors compute from the slice
    what a screen shows, with [utils/matrix.ts].  The federation slice holds
    the federations money is in; the wallet, currency and wallet-service slices
    refer to its ids and read its balances.  Amounts are converted by
    [utils/AmountUtils.ts], whose doubles are those of JsNum.v.  When a slice
    changes, [utils/storage.ts] decides whether to save, and a saved document
    of any age is migrated when it is loaded.

    * The files

    Foundations:
    - Prelude.v: record updates, generic lemmas on lists and on sorting by a
      stable insertion, hints and tactics.
    - JsNum.v: JavaScript numbers as exact binary64 values with rounding to
      nearest even; [Math.floor], [toFixed], comparison.
    - Js.v: JavaScript values [jval] and objects [obj] (own properties in
      enumeration order), property access, spread, truthiness, the result of
      code that may throw; [get], [set_prop], [spread], [truthy].
    - JsStr.v: string methods and the conversion of strings to numbers.
    - KeyedMap.v: the Maps from ids the slices merge pages of values with.
    - Effects.v: the monad of calls to the bridge, or to a server, whose answers
      depend on the calls made before; [obeys], the rules with which properties
      of all the calls of a program are proved.

    Utilities:
    - Stream.v: [utils/stream.ts].  [applyStreamUpdates_refines]: folding the
      edits refines the abstract vector of the bridge; [getNewStreamIds].
    - Upsert.v: [utils/redux.ts].  [upsertListItem_spec] and
      [upsertListItem_idempotent]: ids stay unique, untouched fields survive, no
      new reference without a change.
    - Amount.v: [utils/AmountUtils.ts].  [sats_btc_roundtrip] and
      [satToBtcString_exact] on all amounts up to the supply of bitcoin.
    - Meta.v: [utils/FederationUtils.ts].  Which of its historical names a
      metadata field is read under.
    - StabilityPool.v: [utils/stabilitypool.ts].  The deposit the user can
      afford; the promises waiting for the bridge settle exactly once over
      every sequence of events; totals of legacy accounts.
    - Cbor.v: [utils/cbor.ts].  [decodeCBOR_encode] (round trip with the
      canonical encoder [encode], a specification),
      [decodeCBOR_terminates], [decodeFloat16_exact].
    - Cashu.v: [utils/cashu.ts].  [v4_token_decodes]: a token decodes to what it
      encodes; [v2_token_rejected]; [melts_stop_at_failure]: each quote is paid
      at most once, and the sum is returned only when all were.
    - Csv.v: [utils/csv.ts].  [history_export]: a reader of RFC 4180 gets the
      exported columns back.
    - Chat.v: the queries of [utils/chat.ts] that migrations use.
    - Storage.v: [utils/storage.ts].  [migrateStoredState_total]: every
      document the app ever wrote reaches the current version;
      [migrateStoredState_frame], [migrateStoredState_resume];
      [hasStorageStateChanged_complete]; [saved_state_is_current].
    - Parser.v: [utils/parser.ts] and [utils/linking.ts].
      [parse_user_input_total]: whatever is typed or scanned, and whatever the
      bridge and the network answer, parsing ends with a value of a known type;
      [scanned_links_open]; [payment_uri].

    Slices:
    - Federation.v: [redux/federation.ts] (Module Federation).  The well-formed
      states are closed under every action and thunk; what still refers to
      a federation that was left; the suggested federation is the best one; a
      join that completes while the default one is ensured is dropped.
    - Currency.v and Wallet.v: [redux/currency.ts], [utils/currency.ts],
      [redux/wallet.ts].  Which rate is used, what may be deposited, when
      redeeming ecash settles.
    - Fi.v: [redux/fi.ts].  Progress never rewinds; the memoized shortfall
      selector answers what the live balances imply; a payment is covered.
    - Transactions.v: [utils/transaction.ts] and [redux/transactions.ts].
      [screens_agree]: what the screens say of a transaction is consistent in
      every kind and state; [fees_add_up]; [voted_down_shows_pending].
    - TransactionHistory.v: theorems on that slice.  [history_reachable_ok]; and
      [paging_reaches_everything], for a bridge that pages its log of operations
      ([list_transactions] of [src/crates/federations/src/federation_v2/mod.rs]) with no
      two in the same second and merges nothing into the first page; of two
      operations of one second the older may be lost ([same_second_lost]).
    - MatrixEvents.v: the events part of [utils/matrix.ts].  The messages that start a
      payment are shown with its latest state ([consolidatePaymentEvents_spec]), which
      payments can be claimed, grouping of messages, votes on withdrawals.
    - Matrix.v: the state and all actions of [redux/matrix.ts], and the
      listeners of [startMatrixClient].  [matrix_wf_reachable]: what is listed once,
      if the bridge names members and events once, also across restarts, and which
      requests to join stay seen; [updateMultispendEvents_spec].
    - MatrixSelect.v: the selectors of [redux/matrix.ts].  The chat list, the
      pinned messages, the indicator of requests to join.
    - MatrixThunks.v: the thunks of [redux/matrix.ts] over the methods of the
      client, in the monad of Effects.v.  [payment_messages_follow_money]: what a
      message says of money has happened; a payment has one job over every
      interleaving.
    - Mods.v: [redux/mod.ts].  [permissions_follow_decisions]: a mini app may do
      what was decided last, across restarts; [custom_mods_removable].
    - ChatRows.v: the rows of a conversation ([utils/chatConversationRows.ts]).
      [conversation_rows]: every event shown has one row, in order, and where a
      run of messages or a day begins.
    - Browser.v: [redux/browser.ts].  [browser_refines]: the sessions represent
      the tabs of an abstract browser, with ten pages at most.
    - Environment.v: [redux/environment.ts] and [utils/release.ts].
      [new_releases]: when an update is announced; [app_opens_ready].
    - Slices.v: the slices of nux steps, the reminder of backups, recovery,
      security, support, surveys, analytics, toasts and storage.
      [surveys_pace]: no survey is shown to who accepted it, or too often.
    - Store.v: [redux/index.ts] and [redux/storage.ts].  The root state, its
      document and the listener that saves it.  [restart_restores] (round trip),
      [saves_catch_up] (once in step with the state, the stored document is so
      whenever no save is pending), [failed_load_overwrites].
    - MatrixClient.v: the subscriptions of [utils/MatrixChatClient.ts].
      [client_streams]: after any operations a stream with a handle is live exactly
      once; the room list, if it is not fetched anew twice at a time
      ([refetches_overlap]), the sync status, if it was never unsubscribed
      ([sync_status_lost]), and multispend events aside.

    Entering, asking for and paying amounts (the hooks of screens that move money):
    - Intl.v: numbers as the host formats them for a locale, and the part of
      [utils/AmountUtils.ts] that writes and reads them.
    - AmountInput.v: [useAmountInput] of [hooks/amount/useAmountInput.ts].
      [amount_input_refines]: the amount reported is the one the digits on the
      screen stand for; [limit_accepted]; [text_field_shifts];
      [sats_entry_throws].
    - AmountLimits.v: the other hooks of [hooks/amount], which bound what may be
      sent, requested and deposited.  [send_within_balance],
      [deposit_form_accepts].
    - Lnurl.v: [utils/lnurl.ts], [utils/neverthrow.ts] and the withdrawal of
      [hooks/receive.ts].  [lnurl_pays_the_answer]: what is paid is the invoice
      the service answered with; [withdrawal_reported].
    - Pay.v: [hooks/pay.ts].  [shown_is_paid]: after one input, over every order of
      answers and estimates, what is sent is what the screen showed, at most once;
      with a second input it need not be ([late_answer_is_paid]); [loading_ends].
    - FiHooks.v: [hooks/fi.ts].  Async functions are programs ([prog]) that are
      resumed by answers, so that screens, effects, timers and reports interleave.
      [operation_of_formation] (once the monitor has rendered),
      [one_attach_at_a_time], [attach_records], [attach_ends]: how a provider is attached; [durable_read_complete] and
      [durable_read_ends]: the walk over the pages of durable operations;
      [poll_gives_up]; [fee_held_until_read]; [offers_are_joinable].
    - Multispend.v: [hooks/multispend.ts].  What is shown of the invitation of a
      group and of the withdrawals its signers vote on.
      [invitation_views_agree], [requests_filtered], [votes_not_shown].

    * Conventions

    A slice's state is a Record with the fields of the source; the objects that
    cross the bridge stay objects ([obj]), since the code reads them by name and
    spreads them.  A reducer is a function on the state, a slice's reducer the
    function of an Inductive of actions; "reachable" is the closure of the
    initial state under it.  A thunk that awaits is split at its awaits (as
    actions with the bridge's answers), or, in MatrixThunks.v and Cashu.v, a
    program of calls whose answers are given by a function of the calls made
    before, so that every behaviour of the bridge is covered.  Code that throws
    returns a [result]; a theorem that says a function returns says so by
    giving its result.

    Third-party code and the host are arguments: lodash's [isEqual] (where a
    law is needed, reflexive, or sound), [orderBy] (a permutation, sorted by
    its key), [omit]; [JSON.parse] and zod; the text decoder of the host (with
    an inverse encoder for the round trip); the URL class; uuids; the clock and
    the local storage that migrations read; the formatting of amounts; the
    decoding of base64 (which reads both alphabets alike) and hexadecimal
    digits; translations; query strings and the validation of bitcoin
    addresses; the tables of locales and of the decimals of currencies; the
    requests of lnurl services (calls).  The storage of the device
    completes writes in the order they were made, and a document is represented
    by its JSON value.  Each theorem with a hypothesis has a witness at concrete arguments.

    * Bounds and fuel

    Strings are 8-bit code units, and numbers that are used as indices or
    counters are integers below 2^53, beyond which doubles skip integers;
    amounts are bounded by the supply of bitcoin where a theorem says so.  The
    CBOR decoder runs on fuel [2 * length + 3]: each nested item and each turn
    of a loop consumes a byte or ends, which is what [decodeCBOR_terminates]
    proves.  The walk of FiHooks.v follows cursors on fuel one more than there
    are cursors, since one that repeats ends it ([durable_read_ends]).  No other
    definition has fuel; the migrations run once each.

    * What modelling showed

    PROJECT.json lists the findings with their lines.  Among those with a
    theorem: watching a second multispend event of a room loses the handle of
    the first ([second_event_loses_first]); an event watched before the list is
    loaded makes further paging restart ([watched_event_stops_paging]); the
    cancelation of a payment is never awaited when a payment is taken back
    ([reclaim_ignores_cancelation]); a join that completes while the default
    federation is ensured is dropped ([ensureDefault_drops_concurrent_join]); a
    page of operations that are not listed ends the history
    ([paging_reaches_everything]); two calls that fetch the room list anew leave a
    subscription that nothing ends ([refetches_overlap]); the ecash already melted is not reported when
    a later melt fails ([melts_stop_at_failure]); a token of the second format is
    always refused ([v2_token_rejected]); a store whose document could not be
    read starts saving all the same, so the first change replaces the document
    ([failed_load_overwrites]); the analytics id generated at a load is not saved
    by it ([generated_id_not_saved]); the invoice of an lnurl service is paid
    without comparing its amount with the one entered
    ([lnurl_pays_the_answer]); an answer about an invoice that is late replaces
    the next one, and of two inputs the form shows the second and pays the first
    ([late_answer_is_paid], [shown_is_not_paid]); a withdrawal that fails, or is
    paid before its listener is installed, keeps the form busy
    ([withdrawal_reported]); in a currency without decimals the limit shown may be
    refused ([yen_limit_refused]); sats cannot be typed for some currencies that
    are named by a country ([sats_entry_throws]); without decimals, text that is
    edited behind a thousands separator keeps the digits before its first
    separator ([grouped_text_truncated]); an attach of an abandoned formation is
    shown for the next one ([stale_operation_shown], [stale_error_shown]); two
    screens can start two operations ([two_screens_start_twice]), and a bridge that
    could not say whether there is one is asked for one
    ([error_counts_as_none]); the votes on a withdrawal never change its status,
    so that one that was voted down stays pending ([votes_not_shown]).

    * Not modelled

    The locale and currency tables of the host, translations and logging;
    texts of messages (links, html, mentions); network fetches and validation
    with zod; hooks that dispatch one modelled thunk or read one selector;
    screens, native modules and web providers, which draw what the slices hold;
    thunks that forward one call; the simulator of the wallet service, a
    stand-in used in development; the bridge, which is written in Rust, but for the
    paging that TransactionHistory.v relies on. *)
From Stdlib Require Import ZArith Lia Sorted.
From stdpp Require Import base tactics list strings option.

Declare Scope fedi_scope.
Delimit Scope fedi_scope with fedi.

(** ** Exceptions

    A JavaScript function that may throw returns a [result]: [Ok v] for a
    normal completion, [Throw e] for a thrown error, where [e] is the message
    of the [Error] object or the class of the built-in error. *)
Inductive result (A : Type) : Type :=
  | Ok (a : A)
  | Throw (e : string).
Arguments Ok {A} _.
Arguments Throw {A} _.

#[export] Instance result_ret : MRet result := fun _ a => Ok a.
#[export] Instance result_bind : MBind result := fun _ _ f m =>
  match m with Ok a => f a | Throw e => Throw e end.
#[export] Instance result_fmap : FMap result := fun _ _ f m =>
  match m with Ok a => Ok (f a) | Throw e => Throw e end.

#[export] Instance result_eq_dec {A} `{EqDecision A} : EqDecision (result A).
Proof. solve_decision. Defined.

Definition is_ok {A} (r : result A) : bool :=
  match r with Ok _ => true | Throw _ => false end.

Lemma bind_ok {A B} (a : A) (f : A -> result B) : (Ok a ≫= f) = f a.
Proof. reflexivity. Qed.

Lemma bind_throw {A B} e (f : A -> result B) : (Throw e ≫= f) = Throw e.
Proof. reflexivity. Qed.

Lemma bind_Ok_inv {A B} (m : result A) (f : A -> result B) b :
  m ≫= f = Ok b -> exists a, m = Ok a /\ f a = Ok b.
Proof. destruct m as [a|e]; simpl; [eauto | discriminate]. Qed.

Lemma Ok_inj {A} (a b : A) : Ok a = Ok b -> a = b.
Proof. by intros [= ->]. Qed.

(** Filters that keep or drop everything. *)
Lemma filter_all {A} (P : A -> Prop) `{forall x, Decision (P x)} l :
  Forall P l -> filter P l = l.
Proof.
  induction 1 as [|x l Px F IH]; [done|]. by rewrite filter_cons_True, IH.
Qed.

Lemma filter_none {A} (P : A -> Prop) `{forall x, Decision (P x)} l :
  Forall (fun x => ~ P x) l -> filter P l = [].
Proof.
  induction 1 as [|x l Px F IH]; [done|]. by rewrite filter_cons_False, IH.
Qed.

Lemma filter_same_length {A} (P : A -> Prop) `{forall x, Decision (P x)} l :
  length (filter P l) = length l -> filter P l = l.
Proof.
  intros E. induction l as [|x l IH]; [done|]. rewrite filter_cons in E |- *.
  case_decide; cbn in E.
  - f_equal. apply IH. lia.
  - pose proof (length_filter P l). lia.
Qed.

(** [for] loops and [reduce] callbacks that may throw. *)
Fixpoint foldM {A B} (f : B -> A -> result B) (acc : B) (l : list A) : result B :=
  match l with
  | [] => Ok acc
  | x :: l => acc ← f acc x; foldM f acc l
  end.

Fixpoint mapM_res {A B} (f : A -> result B) (l : list A) : result (list B) :=
  match l with
  | [] => Ok []
  | x :: l => y ← f x; ys ← mapM_res f l; Ok (y :: ys)
  end.

(** An accumulator invariant carries through a loop whose body neither throws
    nor breaks it. *)
Lemma foldM_ind {A B} (P : B -> Prop) (f : B -> A -> result B) (l : list A) acc :
  P acc ->
  (forall b a, a ∈ l -> P b -> exists b', f b a = Ok b' /\ P b') ->
  exists b', foldM f acc l = Ok b' /\ P b'.
Proof.
  revert acc. induction l as [|x l IH]; intros acc H0 Hs; simpl.
  - eauto.
  - destruct (Hs acc x) as (b' & -> & Hb'); [left | done |].
    apply IH; [done |]. intros b a Ha. apply Hs. by right.
Qed.

Lemma foldM_ok {A B} (f : B -> A -> B) l acc :
  foldM (fun b a => Ok (f b a)) acc l = Ok (foldl f acc l).
Proof. revert acc; induction l; simpl; auto. Qed.

Lemma foldM_app {A B} (f : B -> A -> result B) l1 l2 acc :
  foldM f acc (l1 ++ l2) = (b ← foldM f acc l1; foldM f b l2).
Proof.
  revert acc. induction l1 as [|x l1 IH]; intros acc; simpl; [done|].
  destruct (f acc x); simpl; auto.
Qed.

Lemma mapM_res_all_ok {A B} (f : A -> result B) (l : list A) :
  (forall a, a ∈ l -> exists b, f a = Ok b) -> exists bs, mapM_res f l = Ok bs.
Proof.
  induction l as [|x l IH]; intros H; simpl; [eauto|].
  destruct (H x) as [b ->]; [left|]. simpl.
  destruct IH as [bs ->]; [intros; apply H; by right|]. simpl. eauto.
Qed.

(** ** [Array.prototype.sort]

    The sort of the language is stable.  [le x y] says that the comparator
    returns a number that is not positive. *)
Section Sort.
Context {A : Type} (le : A -> A -> bool).

Fixpoint sort_insert (x : A) (l : list A) : list A :=
  match l with
  | [] => [x]
  | y :: l' => if le x y then x :: l else y :: sort_insert x l'
  end.

Definition sort_stable (l : list A) : list A := foldr sort_insert [] l.

Lemma sort_insert_perm x l : Permutation (sort_insert x l) (x :: l).
Proof.
  induction l as [|y l IH]; simpl; [done|]. destruct (le x y); [done|].
  rewrite IH. apply Permutation_swap.
Qed.

Lemma sort_stable_perm l : Permutation (sort_stable l) l.
Proof. induction l as [|x l IH]; simpl; [done|]. by rewrite sort_insert_perm, IH. Qed.

Lemma sort_insert_id x l : (forall y, y ∈ l -> le x y = true) -> sort_insert x l = x :: l.
Proof. destruct l as [|y l]; simpl; [done|]. intros H. by rewrite (H y) by left. Qed.

(** Sorting a list in which every comparison is a tie leaves it alone. *)
Lemma sort_stable_id l :
  (forall x y, x ∈ l -> y ∈ l -> le x y = true) -> sort_stable l = l.
Proof.
  induction l as [|x l IH]; simpl; [done|]. intros H.
  rewrite IH by (intros; apply H; by right).
  apply sort_insert_id. intros y Hy. apply H; [left | by right].
Qed.

(** On the elements of a set [Q] where the comparator is a total preorder. *)
Section Order.
Context (Q : A -> Prop).
Context (le_total : forall x y, Q x -> Q y -> le x y = true \/ le y x = true).
Context (le_trans : forall x y z, Q x -> Q y -> Q z ->
  le x y = true -> le y z = true -> le x z = true).

Lemma le_refl x : Q x -> le x x = true.
Proof. intros H. by destruct (le_total x x). Qed.

Lemma sort_stable_sorted l :
  Forall Q l -> StronglySorted (fun a b => le a b = true) (sort_stable l).
Proof.
  induction 1 as [|x l Hx Hl IH]; simpl; [constructor|].
  assert (HQ : Forall Q (sort_stable l)) by (by rewrite sort_stable_perm).
  clear Hl. revert HQ. induction IH as [|y l' S IH F]; intros HQ; simpl; [by repeat constructor|].
  apply list.Forall_cons in HQ as [Hy HQ].
  rewrite list.Forall_forall in F. destruct (le x y) eqn:E; constructor.
  - constructor; [done | by apply list.Forall_forall].
  - rewrite list.Forall_forall in HQ |- *. intros z [->|Hz]%elem_of_cons; eauto.
  - by apply IH.
  - apply list.Forall_forall. intros z Hz. rewrite sort_insert_perm in Hz.
    apply elem_of_cons in Hz as [->|Hz]; [|by apply F].
    destruct (le_total x y); [done | done | congruence | done].
Qed.

(** The first element of the result comes before every element, and is the
    first of those that do. *)
Lemma sort_stable_head l x :
  Forall Q l -> head (sort_stable l) = Some x ->
  (forall y, y ∈ l -> le x y = true) /\
  exists l1 l2, l = l1 ++ x :: l2 /\ forall y, y ∈ l1 -> le y x = false.
Proof.
  intros HQ. revert x. induction HQ as [|z l Hz HQ IH]; intros x; simpl; [done|].
  pose proof (sort_stable_perm l) as P. pose proof HQ as HQ'. rewrite list.Forall_forall in HQ'.
  destruct (sort_stable l) as [|h t]; simpl.
  - intros [= <-]. apply Permutation_nil_l in P. subst l.
    split; [intros y ->%list_elem_of_singleton; by apply le_refl|].
    exists [], []. split; [done|]. intros y Hy. by apply elem_of_nil in Hy.
  - destruct (IH h eq_refl) as (M & l1 & l2 & -> & F).
    assert (Hh : Q h) by (apply HQ', elem_of_app; right; left).
    destruct (le z h) eqn:E; intros [= <-].
    + split; [intros y [->|Hy]%elem_of_cons; [by apply le_refl | eauto]|].
      exists [], (l1 ++ h :: l2). split; [done|]. intros y Hy. by apply elem_of_nil in Hy.
    + split.
      * intros y [->|Hy]%elem_of_cons; [|by apply M].
        destruct (le_total z h); [done | done | congruence | done].
      * exists (z :: l1), l2. split; [done|]. intros y [->|Hy]%elem_of_cons; auto.
Qed.
End Order.
End Sort.

(** ** Record updates

    [r <| f := v |>] is [r] with the field [f] replaced, for a record whose
    eta-expansion is an instance of [Eta]. *)
Class Eta (R : Type) := eta : R -> R.
Class Setter {R T : Type} (p : R -> T) := setter : (T -> T) -> R -> R.
Arguments setter {R T} p {_} / _ _.

Ltac derive_setter :=
  match goal with
  | |- @Setter ?R ?T ?p =>
      let i := constr:(_ : Eta R) in
      let e := eval hnf in i in
      match eval pattern p in e with
      | ?b p => let t := eval cbv beta in (fun (g : T -> T) => b (fun r => g (p r))) in exact t
      end
  end.
#[export] Hint Extern 0 (Setter _) => derive_setter : typeclass_instances.

Notation "r <| f := v |>" := (setter f (fun _ => v) r)
  (at level 12, left associativity, format "r  <| f  :=  v |>").

(** ** Tactics *)

(** Invert every hypothesis that says a monadic computation returned [Ok]. *)
Ltac inv_ok :=
  repeat match goal with
  | H : Ok _ = Ok _ |- _ => apply Ok_inj in H; try subst
  | H : Throw _ = Ok _ |- _ => discriminate H
  | H : Ok _ = Throw _ |- _ => discriminate H
  | H : _ ≫= _ = Ok _ |- _ =>
      let a := fresh "a" in let H1 := fresh "H" in let H2 := fresh "H" in
      apply bind_Ok_inv in H as (a & H1 & H2)
  end.

(** Split on the scrutinee of a [match] or [if] in the goal or a hypothesis. *)
Ltac case_if :=
  match goal with
  | |- context [if ?b then _ else _] => destruct b eqn:?
  | H : context [if ?b then _ else _] |- _ => destruct b eqn:?
  end.

(** Turn boolean comparisons in the context into propositions. *)
Ltac bools :=
  repeat match goal with
  | H : (_ && _)%bool = true |- _ => apply andb_true_iff in H as [? ?]
  | H : (_ || _)%bool = false |- _ => apply orb_false_iff in H as [? ?]
  | H : negb _ = true |- _ => apply negb_true_iff in H
  | H : negb _ = false |- _ => apply negb_false_iff in H
  | H : Z.ltb _ _ = true |- _ => apply Z.ltb_lt in H
  | H : Z.ltb _ _ = false |- _ => apply Z.ltb_ge in H
  | H : Z.leb _ _ = true |- _ => apply Z.leb_le in H
  | H : Z.leb _ _ = false |- _ => apply Z.leb_gt in H
  | H : Z.eqb _ _ = true |- _ => apply Z.eqb_eq in H
  | H : Z.eqb _ _ = false |- _ => apply Z.eqb_neq in H
  end.

Create HintDb fedi.
#[export] Hint Resolve bind_ok bind_throw : fedi.
