(* ===== verification/JsNum.v ===== *)
(** JavaScript numbers. *)
From Stdlib Require Import ZArith Lia.
From stdpp Require Import base tactics strings list pretty.
From S2P Require Import Prelude.
Local Open Scope Z_scope.
Local Open Scope string_scope.
Local Open Scope Z_scope.

(** ** IEEE-754 binary64, exactly

    Every finite double is an integer multiple of 2^-1074, so a finite number
    is represented by that integer; the representation is unique, and [=] on
    [num] is numerical equality (NaN apart).  The two zeros of IEEE-754 are one
    value here: the only operation that could tell them apart is a division by
    zero, where the divisor is taken to be +0. *)
Inductive num : Type :=
  | NaN
  | Inf (neg : bool)
  | Fin (m : Z).

#[export] Instance num_eq_dec : EqDecision num.
Proof. solve_decision. Defined.

(** The number of units in 1. *)
Definition unit1 : Z := 2 ^ 1074.

(** ** Rounding to nearest, ties to even *)

(** Significand grid of a magnitude of [t] units: multiples of [2^(grid t)]. *)
Definition grid (t : Z) : Z := Z.max 0 (Z.log2 t - 52).

Definition half_even (p d : Z) : Z :=
  let n := p / d in
  let r := p mod d in
  if 2 * r <? d then n
  else if d <? 2 * r then n + 1
  else if Z.even n then n else n + 1.

(** The representable magnitude nearest to the rational [p / q], [0 <= p],
    [0 < q], in units. *)
Definition round_mag (p q : Z) : Z :=
  let k := grid (p / q) in half_even p (q * 2 ^ k) * 2 ^ k.

Definition max_units : Z := 2 ^ 2098.

(** The double nearest to [p / q] units. *)
Definition fin_round (p q : Z) : num :=
  let m := round_mag (Z.abs p) q in
  if max_units <=? m then Inf (p <? 0) else Fin (Z.sgn p * m).

(** An integer literal, or the value of an integer-valued rpc field. *)
Definition of_Z (n : Z) : num := fin_round (n * unit1) 1.

(** The double nearest to the decimal fraction [p / q] ([Number("p/q")]). *)
Definition of_frac (p q : Z) : num := fin_round (p * unit1) q.

(** ** Arithmetic *)

Definition neg (x : num) : num :=
  match x with NaN => NaN | Inf s => Inf (negb s) | Fin m => Fin (- m) end.

Definition add (x y : num) : num :=
  match x, y with
  | NaN, _ | _, NaN => NaN
  | Inf s, Inf s' => if Bool.eqb s s' then Inf s else NaN
  | Inf s, Fin _ => Inf s
  | Fin _, Inf s => Inf s
  | Fin a, Fin b => fin_round (a + b) 1
  end.

Definition sub (x y : num) : num := add x (neg y).

Definition mul (x y : num) : num :=
  match x, y with
  | NaN, _ | _, NaN => NaN
  | Inf s, Inf s' => Inf (xorb s s')
  | Inf s, Fin m | Fin m, Inf s =>
      if m =? 0 then NaN else Inf (xorb s (m <? 0))
  | Fin a, Fin b => fin_round (a * b) unit1
  end.

Definition div (x y : num) : num :=
  match x, y with
  | NaN, _ | _, NaN => NaN
  | Inf _, Inf _ => NaN
  | Inf s, Fin m => Inf (xorb s (m <? 0))
  | Fin _, Inf _ => Fin 0
  | Fin a, Fin b =>
      if b =? 0 then (if a =? 0 then NaN else Inf (a <? 0))
      else fin_round (Z.sgn b * a * unit1) (Z.abs b)
  end.

(** [x < y], [x <= y], [x === y]: every comparison with NaN is false. *)
Definition ltb (x y : num) : bool :=
  match x, y with
  | NaN, _ | _, NaN => false
  | Inf s, Inf s' => s && negb s'
  | Inf s, Fin _ => s
  | Fin _, Inf s => negb s
  | Fin a, Fin b => a <? b
  end.

Definition eqb (x y : num) : bool :=
  match x, y with
  | Inf s, Inf s' => Bool.eqb s s'
  | Fin a, Fin b => a =? b
  | _, _ => false
  end.

Definition leb (x y : num) : bool := ltb x y || eqb x y.

Definition is_nan (x : num) : bool := match x with NaN => true | _ => false end.
Definition is_finite (x : num) : bool := match x with Fin _ => true | _ => false end.

(** [Boolean(x)] *)
Definition num_truthy (x : num) : bool :=
  match x with NaN => false | Inf _ => true | Fin m => negb (m =? 0) end.

(** [Math.min] and [Math.max] of two arguments. *)
Definition min2 (x y : num) : num :=
  match x, y with NaN, _ | _, NaN => NaN | _, _ => if ltb y x then y else x end.
Definition max2 (x y : num) : num :=
  match x, y with NaN, _ | _, NaN => NaN | _, _ => if ltb x y then y else x end.

(** [Math.floor] and [Math.round] (nearest, ties towards +Infinity). *)
Definition floor (x : num) : num :=
  match x with Fin m => Fin (m / unit1 * unit1) | _ => x end.
Definition round (x : num) : num :=
  match x with Fin m => Fin ((2 * m + unit1) / (2 * unit1) * unit1) | _ => x end.

(** ** Decimal conversion *)

(** The integer [n] of [Number.prototype.toFixed]: the one for which
    [n / 10^f] is closest to the magnitude of [m] units, the larger of two. *)
Definition to_fixed_mag (m f : Z) : Z :=
  (2 * Z.abs m * 10 ^ f + unit1) / (2 * unit1).

(** [Number(x.toFixed(f))].  From 10^21 on [toFixed] falls back to
    [String(x)], which [Number] reads back as [x]. *)
Definition to_fixed_num (x : num) (f : Z) : num :=
  match x with
  | Fin m =>
      if 10 ^ 21 * unit1 <=? Z.abs m then x
      else of_frac (Z.sgn m * to_fixed_mag m f) (10 ^ f)
  | _ => x
  end.

(** [String(n)] of an integer. *)
Definition int_string (n : Z) : string := pretty n.

Fixpoint zeros (k : nat) : string :=
  match k with O => "" | S k => "0" +:+ zeros k end.

Definition pad_left (k : nat) (s : string) : string :=
  zeros (k - String.length s) +:+ s.

(** [x.toFixed(f)] below 10^21. *)
Definition to_fixed_digits (neg : bool) (n f : Z) : string :=
  (if neg then "-" else "") +:+
  (if f =? 0 then int_string n
   else int_string (n / 10 ^ f) +:+ "." +:+
        pad_left (Z.to_nat f) (int_string (n mod 10 ^ f))).

(** [m] units are below [10 ^ e]. *)
Definition below_pow10 (m e : Z) : bool :=
  if 0 <=? e then m <? 10 ^ e * unit1 else m * 10 ^ (- e) <? unit1.

Fixpoint adjust_exp (fuel : nat) (m e : Z) : Z :=
  match fuel with
  | O => e
  | S fuel => if below_pow10 m e then e else adjust_exp fuel m (e + 1)
  end.

(** The [e] with [10^(e-1) <= m < 10^e], for a positive [m]. *)
Definition dec_exp (m : Z) : Z :=
  adjust_exp 6 m (((Z.log2 m - 1074) * 1233) / 4096 - 2).

(** [s * 10 ^ x] as a fraction. *)
Definition dec_frac (s x : Z) : Z * Z :=
  if 0 <=? x then (s * 10 ^ x, 1) else (s, 10 ^ (- x)).

(** The [k]-digit decimal nearest to [m] units. *)
Definition dec_digits (m e k : Z) : Z :=
  let x := e - k in
  let '(p, q) := if 0 <=? x then (m, unit1 * 10 ^ x) else (m * 10 ^ (- x), unit1) in
  (2 * p + q) / (2 * q).

(** The shortest decimal that reads back as [m]. *)
Fixpoint shortest (fuel : nat) (m e k : Z) : Z * Z :=
  let s := dec_digits m e k in
  match fuel with
  | O => (s, k)
  | S fuel =>
      let '(p, q) := dec_frac s (e - k) in
      if decide (of_frac p q = Fin m) then (s, k) else shortest fuel m e (k + 1)
  end.

Definition dec_string (s k n : Z) : string :=
  let d := int_string s in
  if (k <=? n) && (n <=? 21) then d +:+ zeros (Z.to_nat (n - k))
  else if (0 <? n) && (n <=? 21) then
    String.substring 0 (Z.to_nat n) d +:+ "." +:+
    String.substring (Z.to_nat n) (Z.to_nat (k - n)) d
  else if (-6 <? n) && (n <=? 0) then "0." +:+ zeros (Z.to_nat (- n)) +:+ d
  else
    let e := n - 1 in
    let es := (if e <? 0 then "-" else "+") +:+ int_string (Z.abs e) in
    if k =? 1 then d +:+ "e" +:+ es
    else String.substring 0 1 d +:+ "." +:+
         String.substring 1 (Z.to_nat (k - 1)) d +:+ "e" +:+ es.

(** [String(x)] *)
Definition num_string (x : num) : string :=
  match x with
  | NaN => "NaN"
  | Inf s => if s then "-Infinity" else "Infinity"
  | Fin m =>
      if (m mod unit1 =? 0) && (Z.abs (m / unit1) <=? 2 ^ 53)
      then int_string (m / unit1)
      else
        let e := dec_exp (Z.abs m) in
        let '(s, k) := shortest 16 (Z.abs m) e 1 in
        (if m <? 0 then "-" else "") +:+ dec_string s k e
  end.

(** [x.toFixed(f)] *)
Definition to_fixed (x : num) (f : Z) : string :=
  match x with
  | Fin m =>
      if 10 ^ 21 * unit1 <=? Z.abs m then num_string x
      else to_fixed_digits (m <? 0) (to_fixed_mag m f) f
  | _ => num_string x
  end.

(** ** Integers in doubles *)

(** [x] is the integer [n], exactly. *)
Definition is_int (x : num) (n : Z) : Prop := x = Fin (n * unit1).

Definition safe (n : Z) : Prop := Z.abs n <= 2 ^ 53.

(** ** Correctness of rounding *)

Lemma unit1_pos : 0 < unit1.
Proof. reflexivity. Qed.

Lemma pow2_pos k : 0 <= k -> 0 < 2 ^ k.
Proof. intros. apply Z.pow_pos_nonneg; lia. Qed.

Lemma grid_nonneg t : 0 <= grid t.
Proof. unfold grid. lia. Qed.

#[export] Hint Resolve unit1_pos pow2_pos grid_nonneg : fedi.

Lemma half_even_nearest p d n :
  0 < d -> Z.abs (half_even p d * d - p) <= Z.abs (n * d - p).
Proof.
  intros Hd. unfold half_even.
  pose proof (Z.div_mod p d) as E. pose proof (Z.mod_pos_bound p d Hd) as B.
  set (k := p / d) in *. set (r := p mod d) in *.
  assert (n <= k \/ k + 1 <= n) as [C|C] by lia.
  all: repeat case_if; bools; nia.
Qed.

Lemma half_even_scale p d c :
  0 < d -> 0 < c -> half_even (p * c) (d * c) = half_even p d.
Proof.
  intros Hd Hc. unfold half_even.
  rewrite Z.div_mul_cancel_r, Z.mul_mod_distr_r by lia.
  replace (2 * (p mod d * c) <? d * c) with (2 * (p mod d) <? d).
  2: { apply Bool.eq_iff_eq_true. rewrite !Z.ltb_lt. nia. }
  replace (d * c <? 2 * (p mod d * c)) with (d <? 2 * (p mod d)).
  2: { apply Bool.eq_iff_eq_true. rewrite !Z.ltb_lt. nia. }
  done.
Qed.

Lemma grid_cases t : grid t = 0 \/ 2 ^ 52 * 2 ^ grid t <= t.
Proof.
  unfold grid. destruct (Z.le_gt_cases (Z.log2 t) 52); [left; lia | right].
  rewrite Z.max_r, <- Z.pow_add_r by lia.
  replace (52 + (Z.log2 t - 52)) with (Z.log2 t) by lia.
  destruct (Z.le_gt_cases t 0) as [N|N]; [rewrite Z.log2_nonpos in * by lia; lia|].
  by apply Z.log2_spec.
Qed.

Lemma grid_upper t : 0 <= t -> t < 2 ^ 53 * 2 ^ grid t.
Proof.
  intros Ht. rewrite <- Z.pow_add_r by (auto with fedi || lia).
  destruct (Z.eq_dec t 0) as [->|]; [reflexivity|].
  pose proof (Z.log2_spec t ltac:(lia)) as [_ H].
  eapply Z.lt_le_trans; [exact H|]. apply Z.pow_le_mono_r; unfold grid; lia.
Qed.

(** A magnitude with at most 53 significant bits. *)
Definition repr (m : Z) : Prop := exists a k, 0 <= a <= 2 ^ 53 /\ 0 <= k /\ m = a * 2 ^ k.

Lemma round_mag_nonneg p q : 0 <= p -> 0 < q -> 0 <= round_mag p q.
Proof.
  intros. unfold round_mag, half_even.
  assert (0 < q * 2 ^ grid (p / q)) by (pose proof (pow2_pos _ (grid_nonneg (p/q))); nia).
  pose proof (Z.div_pos p (q * 2 ^ grid (p / q)) ltac:(lia) ltac:(lia)).
  pose proof (pow2_pos _ (grid_nonneg (p/q))).
  repeat case_if; nia.
Qed.

(** The result is the best approximation among all representable numbers. *)
Lemma round_mag_nearest p q m' :
  0 <= p -> 0 < q -> repr m' ->
  Z.abs (round_mag p q * q - p) <= Z.abs (m' * q - p).
Proof.
  intros Hp Hq (a & j & Ha & Hj & ->). unfold round_mag.
  set (t := p / q). set (k := grid t).
  assert (Hk : 0 < 2 ^ k) by (apply pow2_pos, grid_nonneg).
  replace (half_even p (q * 2 ^ k) * 2 ^ k * q)
    with (half_even p (q * 2 ^ k) * (q * 2 ^ k)) by ring.
  assert (D : 0 < q * 2 ^ k) by nia.
  destruct (Z.le_gt_cases k j) as [C|C].
  - replace (2 ^ j) with (2 ^ (j - k) * 2 ^ k)
      by (rewrite <- Z.pow_add_r by (pose proof (grid_nonneg t); lia); f_equal; lia).
    replace (a * (2 ^ (j - k) * 2 ^ k) * q) with (a * 2 ^ (j - k) * (q * 2 ^ k)) by ring.
    by apply half_even_nearest.
  - destruct (grid_cases t) as [G|G]; fold k in G; [lia|].
    assert (a * 2 ^ j <= 2 ^ 52 * 2 ^ k).
    { replace (2 ^ k) with (2 ^ (k - 1 - j) * 2 * 2 ^ j).
      2: { replace 2 with (2 ^ 1) at 2 by reflexivity.
           rewrite <- !Z.pow_add_r by lia. f_equal; lia. }
      assert (0 < 2 ^ j) by (apply pow2_pos; lia).
      assert (1 <= 2 ^ (k - 1 - j)) by (pose proof (pow2_pos (k - 1 - j)); lia).
      nia. }
    assert (t * q <= p) by (unfold t; pose proof (Z.mul_div_le p q Hq); lia).
    pose proof (half_even_nearest p (q * 2 ^ k) (2 ^ 52) D). nia.
Qed.

Lemma round_mag_exact m q : 0 < q -> repr m -> round_mag (m * q) q = m.
Proof.
  intros Hq Hm. assert (0 <= m).
  { destruct Hm as (a & k & ? & ? & ->). pose proof (pow2_pos k). nia. }
  pose proof (round_mag_nearest (m * q) q m ltac:(nia) Hq Hm). nia.
Qed.

(** Relative error 2^-53 from the smallest normal number up. *)
Lemma round_mag_err p q :
  0 < q -> q * 2 ^ 52 <= p -> 2 ^ 53 * Z.abs (round_mag p q * q - p) <= p.
Proof.
  intros Hq Hp. unfold round_mag. set (t := p / q). set (k := grid t).
  assert (Hk : 0 < 2 ^ k) by (apply pow2_pos, grid_nonneg).
  assert (D : 0 < q * 2 ^ k) by nia.
  replace (half_even p (q * 2 ^ k) * 2 ^ k * q)
    with (half_even p (q * 2 ^ k) * (q * 2 ^ k)) by ring.
  assert (E : 2 * Z.abs (half_even p (q * 2 ^ k) * (q * 2 ^ k) - p) <= q * 2 ^ k).
  { pose proof (half_even_nearest p (q * 2 ^ k) (p / (q * 2 ^ k)) D).
    pose proof (half_even_nearest p (q * 2 ^ k) (p / (q * 2 ^ k) + 1) D).
    pose proof (Z.div_mod p (q * 2 ^ k)). pose proof (Z.mod_pos_bound p (q * 2 ^ k) D).
    nia. }
  assert (t * q <= p) by (unfold t; pose proof (Z.mul_div_le p q Hq); lia).
  destruct (grid_cases t) as [G|G]; fold k in G.
  - rewrite G in *. lia.
  - nia.
Qed.

Lemma round_mag_scale p q c :
  0 < q -> 0 < c -> round_mag (p * c) (q * c) = round_mag p q.
Proof.
  intros Hq Hc. unfold round_mag. rewrite Z.div_mul_cancel_r by lia.
  replace (q * c * 2 ^ grid (p / q)) with (q * 2 ^ grid (p / q) * c) by ring.
  rewrite half_even_scale; [done | | done].
  pose proof (pow2_pos _ (grid_nonneg (p / q))). nia.
Qed.

Lemma round_mag_repr p q : 0 <= p -> 0 < q -> repr (round_mag p q).
Proof.
  intros Hp Hq. exists (half_even p (q * 2 ^ grid (p / q))), (grid (p / q)).
  pose proof (grid_nonneg (p / q)). split_and!; [| | lia | done].
  - pose proof (round_mag_nonneg p q Hp Hq) as N. unfold round_mag in N.
    pose proof (pow2_pos (grid (p / q))). nia.
  - set (k := grid (p / q)) in *. pose proof (pow2_pos k H).
    assert (D : 0 < q * 2 ^ k) by nia.
    pose proof (grid_upper (p / q) (Z.div_pos _ _ Hp Hq)) as U. fold k in U.
    pose proof (Z.mul_succ_div_gt p q Hq).
    assert (p < 2 ^ 53 * (q * 2 ^ k)) by nia.
    unfold half_even.
    assert (p / (q * 2 ^ k) < 2 ^ 53) by (apply Z.div_lt_upper_bound; lia).
    repeat case_if; lia.
Qed.

(** Rounding is monotone. *)
Lemma round_mag_mono p q p' q' :
  0 <= p -> 0 < q -> 0 <= p' -> 0 < q' -> p * q' <= p' * q ->
  round_mag p q <= round_mag p' q'.
Proof.
  intros Hp Hq Hp' Hq' H.
  rewrite <- (round_mag_scale p q q'), <- (round_mag_scale p' q' q) by lia.
  rewrite (Z.mul_comm q' q). assert (D : 0 < q * q') by nia.
  set (x := p * q') in *. set (y := p' * q) in *. set (d := q * q') in *.
  destruct (Z.eq_dec x y) as [->|]; [lia|].
  assert (Hx : 0 <= x) by nia. assert (Hy : 0 <= y) by nia.
  pose proof (round_mag_nearest x d _ Hx D (round_mag_repr y d Hy D)).
  pose proof (round_mag_nearest y d _ Hy D (round_mag_repr x d Hx D)).
  destruct (Z.le_gt_cases (round_mag x d) (round_mag y d)); [done|]. nia.
Qed.

(** ** Exact integer arithmetic *)

Lemma pow53_units : 2 ^ 53 * unit1 < max_units.
Proof. reflexivity. Qed.

Lemma repr_int n : safe n -> repr (Z.abs n * unit1).
Proof.
  intros H. exists (Z.abs n), 1074. unfold safe in H.
  split_and!; [lia | lia | lia | done].
Qed.

Lemma fin_round_exact m q :
  0 < q -> repr (Z.abs m) -> Z.abs m < max_units -> fin_round (m * q) q = Fin m.
Proof.
  intros Hq Hr Hm. unfold fin_round.
  rewrite Z.abs_mul, (Z.abs_eq q), round_mag_exact by (lia || done).
  destruct (Z.leb_spec max_units (Z.abs m)); [lia|].
  f_equal. rewrite Z.sgn_mul, (Z.sgn_pos q), Z.mul_1_r, Z.mul_comm by lia.
  apply Z.abs_sgn.
Qed.

Lemma fin_round_int n q : 0 < q -> safe n -> fin_round (n * unit1 * q) q = Fin (n * unit1).
Proof.
  intros Hq Hn. pose proof unit1_pos. pose proof pow53_units.
  apply fin_round_exact; [done | |]; rewrite Z.abs_mul, (Z.abs_eq unit1) by lia.
  - by apply repr_int.
  - unfold safe in Hn. nia.
Qed.

Lemma of_Z_safe n : safe n -> of_Z n = Fin (n * unit1).
Proof.
  intros H. unfold of_Z. rewrite <- (Z.mul_1_r (n * unit1)) at 1.
  by apply fin_round_int.
Qed.

Lemma of_frac_int n q : 0 < q -> safe n -> of_frac (n * q) q = of_Z n.
Proof.
  intros. unfold of_frac. rewrite of_Z_safe by done.
  replace (n * q * unit1) with (n * unit1 * q) by ring. by apply fin_round_int.
Qed.

Lemma add_int a b : safe a -> safe b -> safe (a + b) -> add (of_Z a) (of_Z b) = of_Z (a + b).
Proof.
  intros Ha Hb Hc. rewrite !of_Z_safe by done. simpl.
  replace (a * unit1 + b * unit1) with ((a + b) * unit1 * 1) by ring.
  by apply fin_round_int.
Qed.

Lemma neg_int a : safe a -> neg (of_Z a) = of_Z (- a).
Proof.
  intros Ha. rewrite !of_Z_safe by (unfold safe in *; lia). simpl. f_equal. ring.
Qed.

Lemma sub_int a b : safe a -> safe b -> safe (a - b) -> sub (of_Z a) (of_Z b) = of_Z (a - b).
Proof.
  intros Ha Hb Hc. unfold sub. rewrite neg_int by done.
  apply add_int; [done | unfold safe in *; lia | done].
Qed.

Lemma mul_int a b : safe a -> safe b -> safe (a * b) -> mul (of_Z a) (of_Z b) = of_Z (a * b).
Proof.
  intros Ha Hb Hc. rewrite !of_Z_safe by done. simpl.
  replace (a * unit1 * (b * unit1)) with (a * b * unit1 * unit1) by ring.
  apply fin_round_int; [apply unit1_pos | done].
Qed.

Lemma floor_int n : safe n -> floor (of_Z n) = of_Z n.
Proof.
  intros. rewrite of_Z_safe by done. simpl. rewrite Z.div_mul; [done|].
  pose proof unit1_pos. lia.
Qed.

Lemma round_int n : safe n -> round (of_Z n) = of_Z n.
Proof.
  intros. rewrite of_Z_safe by done. simpl. pose proof unit1_pos. do 2 f_equal.
  symmetry. apply (Z.div_unique_pos _ _ _ unit1); lia.
Qed.

Lemma ltb_int a b : safe a -> safe b -> ltb (of_Z a) (of_Z b) = (a <? b).
Proof.
  intros. rewrite !of_Z_safe by done. simpl. pose proof unit1_pos.
  apply Bool.eq_iff_eq_true. rewrite !Z.ltb_lt. nia.
Qed.

Lemma eqb_int a b : safe a -> safe b -> eqb (of_Z a) (of_Z b) = (a =? b).
Proof.
  intros. rewrite !of_Z_safe by done. simpl. pose proof unit1_pos.
  apply Bool.eq_iff_eq_true. rewrite !Z.eqb_eq. nia.
Qed.

Lemma leb_int a b : safe a -> safe b -> leb (of_Z a) (of_Z b) = (a <=? b).
Proof.
  intros. unfold leb. rewrite ltb_int, eqb_int by done.
  apply Bool.eq_iff_eq_true. rewrite orb_true_iff, Z.ltb_lt, Z.eqb_eq, Z.leb_le. lia.
Qed.

Lemma min2_int a b : safe a -> safe b -> min2 (of_Z a) (of_Z b) = of_Z (Z.min a b).
Proof.
  intros Ha Hb. pose proof (ltb_int b a Hb Ha) as L.
  rewrite !of_Z_safe in * by (done || unfold safe in *; lia).
  simpl in *. rewrite L.
  destruct (Z.ltb_spec b a); f_equal; f_equal; lia.
Qed.

Lemma max2_int a b : safe a -> safe b -> max2 (of_Z a) (of_Z b) = of_Z (Z.max a b).
Proof.
  intros Ha Hb. pose proof (ltb_int a b Ha Hb) as L.
  rewrite !of_Z_safe in * by (done || unfold safe in *; lia).
  simpl in *. rewrite L.
  destruct (Z.ltb_spec a b); f_equal; f_equal; lia.
Qed.

Lemma truthy_int n : safe n -> num_truthy (of_Z n) = negb (n =? 0).
Proof.
  intros. rewrite of_Z_safe by done. simpl. f_equal. pose proof unit1_pos.
  apply Bool.eq_iff_eq_true. rewrite !Z.eqb_eq. nia.
Qed.

Lemma of_Z_inj a b : safe a -> safe b -> of_Z a = of_Z b -> a = b.
Proof.
  intros Ha Hb. rewrite !of_Z_safe by done. intros [= H]. pose proof unit1_pos. nia.
Qed.

(** The magnitude [toFixed] prints is the integer nearest to [x * 10^f]. *)
Lemma to_fixed_mag_err m f :
  0 <= f -> 2 * Z.abs (to_fixed_mag m f * unit1 - Z.abs m * 10 ^ f) <= unit1.
Proof.
  intros Hf. unfold to_fixed_mag. pose proof unit1_pos.
  set (p := 2 * Z.abs m * 10 ^ f + unit1).
  pose proof (Z.div_mod p (2 * unit1)). pose proof (Z.mod_pos_bound p (2 * unit1)).
  unfold p in *. nia.
Qed.

Lemma to_fixed_mag_int n f : 0 <= f -> to_fixed_mag (n * unit1) f = Z.abs n * 10 ^ f.
Proof.
  intros Hf. unfold to_fixed_mag. pose proof unit1_pos.
  rewrite Z.abs_mul, (Z.abs_eq unit1) by lia.
  symmetry. apply (Z.div_unique_pos _ _ _ unit1); lia.
Qed.

Lemma to_fixed_num_int n f : 0 <= f -> safe n -> to_fixed_num (of_Z n) f = of_Z n.
Proof.
  intros Hf Hn. rewrite (of_Z_safe n) by done. simpl.
  destruct (10 ^ 21 * unit1 <=? Z.abs (n * unit1)) eqn:E; [done|].
  rewrite to_fixed_mag_int by done. pose proof unit1_pos.
  replace (Z.sgn (n * unit1) * (Z.abs n * 10 ^ f)) with (n * 10 ^ f).
  - rewrite of_frac_int, of_Z_safe; [done | done | | done].
    apply Z.pow_pos_nonneg; lia.
  - rewrite Z.sgn_mul, (Z.sgn_pos unit1) by lia.
    rewrite <- (Z.abs_sgn n) at 1. ring.
Qed.

(** The rounding of a quotient of integers stays in the unit interval of the
    exact quotient: it never reaches the next integer. *)
Lemma round_mag_quot_lower a b :
  0 <= a < 2 ^ 53 -> 0 < b -> a / b * unit1 <= round_mag (a * unit1) b.
Proof.
  intros Ha Hb. pose proof unit1_pos as U. pose proof (Z.div_pos a b).
  pose proof (Z.mul_div_le a b).
  assert (S : safe (a / b)) by (unfold safe; pose proof (Z.div_le_upper_bound a b a); nia).
  assert (E : round_mag (a / b * unit1 * 1) 1 = a / b * unit1).
  { apply round_mag_exact; [lia|]. pose proof (repr_int _ S) as R.
    by rewrite Z.abs_eq in R by lia. }
  rewrite <- E. apply round_mag_mono; nia.
Qed.

Lemma round_mag_quot_upper a b :
  0 <= a < 2 ^ 53 -> 0 < b <= 2 ^ 53 ->
  round_mag (a * unit1) b < (a / b + 1) * unit1.
Proof.
  intros Ha Hb. pose proof unit1_pos as U.
  destruct (Z.eq_dec a 0) as [->|].
  { assert (round_mag (0 * unit1) b = 0) as ->; [|rewrite Z.div_0_l by lia; lia].
    apply (round_mag_exact 0 b); [lia|]. exists 0, 0. lia. }
  assert (B : 2 ^ 53 * 2 ^ 52 <= unit1) by (vm_compute; discriminate).
  pose proof (round_mag_err (a * unit1) b ltac:(lia) ltac:(nia)) as R.
  set (r := round_mag (a * unit1) b) in *.
  pose proof (Z.mul_succ_div_gt a b ltac:(lia)).
  destruct (Z.lt_ge_cases r ((a / b + 1) * unit1)) as [|G]; [done|exfalso].
  assert ((a + 1) * unit1 <= r * b) by nia. nia.
Qed.

(** Truncating division of safe integers is exact. *)
Lemma floor_div_int a b :
  0 <= a < 2 ^ 53 -> 0 < b <= 2 ^ 53 -> floor (div (of_Z a) (of_Z b)) = of_Z (a / b).
Proof.
  intros Ha Hb. pose proof unit1_pos as U. pose proof pow53_units as M.
  pose proof (round_mag_quot_lower a b Ha ltac:(lia)) as L.
  pose proof (round_mag_quot_upper a b Ha Hb) as H.
  assert (Q : 0 <= a / b < 2 ^ 53)
    by (split; [apply Z.div_pos | apply Z.div_lt_upper_bound]; nia).
  rewrite !of_Z_safe by (unfold safe; lia). simpl.
  destruct (b * unit1 =? 0) eqn:E; bools; [nia|].
  rewrite Z.sgn_pos, Z.mul_1_l, (Z.abs_eq (b * unit1)) by nia.
  unfold fin_round. rewrite Z.abs_eq, round_mag_scale by nia.
  destruct (Z.leb_spec max_units (round_mag (a * unit1) b)); [nia|].
  simpl. do 2 f_equal.
  destruct (Z.eq_dec a 0) as [->|]; [by rewrite Z.div_0_l, Z.div_0_l by lia|].
  rewrite Z.sgn_pos, Z.mul_1_l by nia.
  symmetry. apply (Z.div_unique_pos _ _ _ (round_mag (a * unit1) b - a / b * unit1)); lia.
Qed.
