(* ===== verification/Js.v ===== *)
(** JavaScript values: the data that the slices, the stored state and the rpc
    payloads are made of, and the operations of the language on them.

    Strings are sequences of 8-bit code units ([String.string]).  Objects are
    lists of own enumerable properties in enumeration order: array-index keys
    first in numeric order, then the other keys in the order they were
    added. *)
From Stdlib Require Import ZArith Lia.
From stdpp Require Import base tactics strings list option.
From S2P Require Import Prelude JsNum.

Set Warnings "-register-all".

Inductive jval : Type :=
  | JUndef
  | JNull
  | JBool (b : bool)
  | JNum (n : num)
  | JStr (s : string)
  | JArr (l : list jval)
  | JObj (o : list (string * jval)).

Abbreviation obj := (list (string * jval)).

#[export] Instance jval_eq_dec : EqDecision jval.
Proof.
  refine (fix go (x y : jval) {struct x} : Decision (x = y) :=
    let _ : EqDecision jval := go in
    match x, y with
    | JUndef, JUndef | JNull, JNull => left eq_refl
    | JBool b, JBool b' => cast_if (decide (b = b'))
    | JNum n, JNum n' => cast_if (decide (n = n'))
    | JStr s, JStr s' => cast_if (decide (s = s'))
    | JArr l, JArr l' => cast_if (decide (l = l'))
    | JObj o, JObj o' => cast_if (decide (o = o'))
    | _, _ => right _
    end); clear r go; abstract congruence.
Defined.

(** ** Coercions of the language *)

Definition truthy (v : jval) : bool :=
  match v with
  | JUndef | JNull => false
  | JBool b => b
  | JNum n => num_truthy n
  | JStr s => negb (bool_decide (s = ""))
  | JArr _ | JObj _ => true
  end.

(** [a || b] and [a ?? b] *)
Definition jor (a b : jval) : jval := if truthy a then a else b.
Definition nullish (a b : jval) : jval :=
  match a with JUndef | JNull => b | _ => a end.

(** [ToNumber] of the values that reach an arithmetic operator or a relational
    comparison; the operands are numbers by the declared types. *)
Definition to_num (v : jval) : num :=
  match v with
  | JNum n => n
  | JNull => of_Z 0
  | JBool b => of_Z (if b then 1 else 0)
  | _ => NaN
  end.

(** [ToString] *)
Fixpoint to_str (v : jval) : string :=
  match v with
  | JUndef => "undefined"
  | JNull => "null"
  | JBool b => if b then "true" else "false"
  | JNum n => num_string n
  | JStr s => s
  | JArr l =>
      (fix join (l : list jval) : string :=
         let elem v := match v with JUndef | JNull => "" | _ => to_str v end in
         match l with
         | [] => ""
         | [v] => elem v
         | v :: l => elem v +:+ "," +:+ join l
         end) l
  | JObj _ => "[object Object]"
  end.

(** ** Own properties

    Of any kind of value, as decoders build objects of their own. *)

Definition digit (c : Ascii.ascii) : option N :=
  let n := Ascii.N_of_ascii c in
  if ((48 <=? n) && (n <=? 57))%N then Some (n - 48)%N else None.

Fixpoint digits (acc : N) (s : string) : option N :=
  match s with
  | EmptyString => Some acc
  | String c s => d ← digit c; digits (10 * acc + d)%N s
  end.

(** The canonical array indices: decimal numerals below 2^32 - 1 without a
    leading zero. *)
Definition array_index (k : string) : option N :=
  match k with
  | EmptyString => None
  | String c EmptyString => digit c
  | String c s =>
      d ← digit c;
      if (d =? 0)%N then None
      else n ← digits d s; if (n <? 4294967295)%N then Some n else None
  end.

Fixpoint lookup_prop {V} (k : string) (o : list (string * V)) : option V :=
  match o with
  | [] => None
  | (k', v) :: o => if decide (k = k') then Some v else lookup_prop k o
  end.

(** [o[k]] of an object *)
Definition get (k : string) (o : obj) : jval := default JUndef (lookup_prop k o).
(** [k in o] *)
Definition has (k : string) (o : obj) : bool := bool_decide (is_Some (lookup_prop k o)).

Fixpoint replace_prop {V} (k : string) (v : V) (o : list (string * V)) : list (string * V) :=
  match o with
  | [] => []
  | (k', v') :: o =>
      if decide (k = k') then (k', v) :: o else (k', v') :: replace_prop k v o
  end.

Fixpoint insert_index {V} (i : N) (k : string) (v : V) (o : list (string * V))
    : list (string * V) :=
  match o with
  | [] => [(k, v)]
  | (k', v') :: o' =>
      match array_index k' with
      | Some j => if (i <? j)%N then (k, v) :: o else (k', v') :: insert_index i k v o'
      | None => (k, v) :: o
      end
  end.

(** [o[k] = v] *)
Definition set_prop {V} (k : string) (v : V) (o : list (string * V)) : list (string * V) :=
  match lookup_prop k o with
  | Some _ => replace_prop k v o
  | None =>
      match array_index k with
      | Some i => insert_index i k v o
      | None => o ++ [(k, v)]
      end
  end.

(** [delete o[k]]; also [const { k, ...rest } = o] and lodash's [omit]. *)
Definition del_prop (k : string) (o : obj) : obj :=
  filter (fun kv => kv.1 <> k) o.
Definition del_props (ks : list string) (o : obj) : obj := foldr del_prop o ks.

(** [{ ...o, ...p }] *)
Definition spread (o p : obj) : obj :=
  foldl (fun acc kv => set_prop kv.1 kv.2 acc) o p.

Fixpoint str_chars (s : string) : list string :=
  match s with
  | EmptyString => []
  | String c s => String c EmptyString :: str_chars s
  end.

(** The own enumerable properties of a value, as spread sees them. *)
Definition own_props (v : jval) : obj :=
  match v with
  | JObj o => o
  | JArr l => imap (fun i x => (int_string (Z.of_nat i), x)) l
  | JStr s => imap (fun i x => (int_string (Z.of_nat i), JStr x)) (str_chars s)
  | _ => []
  end.

Definition type_error : string := "TypeError".

(** [Object.entries(v)] *)
Definition entries (v : jval) : result obj :=
  match v with
  | JUndef | JNull => Throw type_error
  | _ => Ok (own_props v)
  end.

(** [v.k], for a property name that arrays, strings and the other primitives
    do not have, and [v?.k]. *)
Definition prop (v : jval) (k : string) : result jval :=
  match v with
  | JUndef | JNull => Throw type_error
  | JObj o => Ok (get k o)
  | _ => Ok JUndef
  end.
Definition opt_prop (v : jval) (k : string) : jval :=
  match v with JObj o => get k o | _ => JUndef end.

(** The elements of a value on which an array method is called; the method is
    missing on every other value. *)
Definition as_array (v : jval) : result (list jval) :=
  match v with JArr l => Ok l | _ => Throw type_error end.

(** [JSON.parse(JSON.stringify(v))]: a property that is [undefined] is left out, an
    element that is becomes [null], and so does a number without a literal. *)
Fixpoint json_copy (v : jval) : option jval :=
  match v with
  | JUndef => None
  | JNum n => Some (if is_finite n then v else JNull)
  | JArr l => Some (JArr (List.map (fun v => default JNull (json_copy v)) l))
  | JObj o =>
      Some (JObj ((fix go (o : list (string * jval)) :=
        match o with
        | [] => []
        | (k, v) :: o => match json_copy v with Some v => (k, v) :: go o | None => go o end
        end) o))
  | _ => Some v
  end.

(** The same of an object. *)
Definition json_props (o : obj) : obj := omap (fun kv => pair kv.1 <$> json_copy kv.2) o.

Lemma json_copy_obj o : json_copy (JObj o) = Some (JObj (json_props o)).
Proof.
  cbn [json_copy]. do 2 f_equal. unfold json_props.
  induction o as [|[k v] o IH]; [done|]. csimpl. destruct (json_copy v); csimpl; by rewrite IH.
Qed.

(** ** Laws of own properties *)

Definition keys (o : obj) : list string := o.*1.
Definition wf_obj (o : obj) : Prop := NoDup (keys o).

Lemma lookup_replace_eq {V} k (v : V) o v0 :
  lookup_prop k o = Some v0 -> lookup_prop k (replace_prop k v o) = Some v.
Proof.
  induction o as [|[k' v'] o IH]; simpl; [done|].
  destruct (decide (k = k')); simpl; case_decide; naive_solver.
Qed.

Lemma lookup_replace_ne {V} k k' (v : V) o :
  k <> k' -> lookup_prop k (replace_prop k' v o) = lookup_prop k o.
Proof.
  intros N. induction o as [|[k2 v2] o IH]; simpl; [done|].
  destruct (decide (k' = k2)); simpl; repeat case_decide; naive_solver.
Qed.

Lemma lookup_insert_index_eq {V} i k (v : V) o :
  lookup_prop k o = None -> lookup_prop k (insert_index i k v o) = Some v.
Proof.
  induction o as [|[k' v'] o IH]; simpl; [by rewrite decide_True|].
  case_decide; [done|]. intros HN.
  destruct (array_index k'); [case_match|]; simpl; rewrite ?decide_True by done; [done | | done].
  rewrite decide_False by done. auto.
Qed.

Lemma lookup_insert_index_ne {V} i k k' (v : V) o :
  k <> k' -> lookup_prop k (insert_index i k' v o) = lookup_prop k o.
Proof.
  intros N. induction o as [|[k2 v2] o IH]; simpl; [by rewrite decide_False|].
  destruct (array_index k2); [case_match|]; simpl.
  all: repeat case_decide; naive_solver.
Qed.

Lemma lookup_app {V} k (o o' : list (string * V)) :
  lookup_prop k (o ++ o') =
    match lookup_prop k o with Some v => Some v | None => lookup_prop k o' end.
Proof. induction o as [|[k' v'] o IH]; simpl; [done|]. by case_decide. Qed.

Lemma lookup_set_eq {V} k (v : V) o : lookup_prop k (set_prop k v o) = Some v.
Proof.
  unfold set_prop. destruct (lookup_prop k o) eqn:E.
  - by eapply lookup_replace_eq.
  - destruct (array_index k); [by apply lookup_insert_index_eq|].
    rewrite lookup_app, E. simpl. by rewrite decide_True.
Qed.

Lemma lookup_set_ne {V} k k' (v : V) o :
  k <> k' -> lookup_prop k (set_prop k' v o) = lookup_prop k o.
Proof.
  intros N. unfold set_prop. destruct (lookup_prop k' o) eqn:E.
  - by apply lookup_replace_ne.
  - destruct (array_index k'); [by apply lookup_insert_index_ne|].
    rewrite lookup_app. simpl. rewrite decide_False by done. by destruct (lookup_prop k o).
Qed.

Lemma lookup_del_eq k (o : obj) : lookup_prop k (del_prop k o) = None.
Proof.
  unfold del_prop. induction o as [|[k' v'] o IH]; [done|].
  rewrite filter_cons. simpl. case_decide; simpl; [|done].
  by rewrite decide_False by done.
Qed.

Lemma lookup_del_ne k k' (o : obj) :
  k <> k' -> lookup_prop k (del_prop k' o) = lookup_prop k o.
Proof.
  intros N. unfold del_prop. induction o as [|[k2 v2] o IH]; [done|].
  rewrite filter_cons. simpl. case_decide; simpl; case_decide; naive_solver.
Qed.

(** The value a spread gives a key: the last occurrence in the overlay wins. *)
Fixpoint last_prop (k : string) (p : obj) : option jval :=
  match p with
  | [] => None
  | (k', v) :: p =>
      match last_prop k p with
      | Some v' => Some v'
      | None => if decide (k = k') then Some v else None
      end
  end.

Lemma lookup_spread k o p :
  lookup_prop k (spread o p) =
    match last_prop k p with Some v => Some v | None => lookup_prop k o end.
Proof.
  unfold spread. revert o. induction p as [|[k' v'] p IH]; intros o; simpl; [done|].
  rewrite IH. destruct (last_prop k p); [done|]. case_decide; subst.
  - by rewrite lookup_set_eq.
  - by rewrite lookup_set_ne.
Qed.

Lemma lookup_elem_keys k (o : obj) : is_Some (lookup_prop k o) <-> k ∈ keys o.
Proof.
  induction o as [|[k' v'] o IH]; unfold keys in *; csimpl; [by split; inversion 1|].
  rewrite elem_of_cons, <- IH. case_decide as Hk; subst; [by split; eauto|]. split; [intros ?; by right|intros [?|?]; [congruence|done]].
Qed.

Lemma last_lookup k p : wf_obj p -> last_prop k p = lookup_prop k p.
Proof.
  unfold wf_obj. induction p as [|[k' v'] p IH]; [done|].
  unfold keys. csimpl. intros [Hn Hd]%list.NoDup_cons. rewrite IH by done.
  destruct (lookup_prop k p) eqn:E; [|done].
  case_decide; [subst|done]. destruct Hn. apply lookup_elem_keys. eauto.
Qed.

(** For well-formed overlays, spread is the right-biased union. *)
Lemma lookup_spread_wf k o p :
  wf_obj p ->
  lookup_prop k (spread o p) =
    match lookup_prop k p with Some v => Some v | None => lookup_prop k o end.
Proof. intros H. by rewrite lookup_spread, last_lookup. Qed.

(** Writing a property keeps the keys, or adds the one that is new. *)
Lemma keys_replace {V} k (v : V) o : (replace_prop k v o).*1 = o.*1.
Proof.
  induction o as [|[k' v'] o IH]; [done|]. cbn. case_decide; csimpl; congruence.
Qed.

Lemma keys_insert_index {V} i k (v : V) o : (insert_index i k v o).*1 ≡ₚ k :: o.*1.
Proof.
  induction o as [|[k' v'] o IH]; [done|]. cbn [insert_index].
  destruct (array_index k'); [case_match|]; [done | | done].
  csimpl. rewrite IH. apply Permutation_swap.
Qed.

Lemma keys_set {V} k (v : V) o :
  (set_prop k v o).*1 ≡ₚ match lookup_prop k o with Some _ => o.*1 | None => k :: o.*1 end.
Proof.
  unfold set_prop. destruct (lookup_prop k o); [by rewrite keys_replace|].
  destruct (array_index k); [apply keys_insert_index|].
  rewrite fmap_app. csimpl. symmetry. apply Permutation_cons_append.
Qed.

Lemma lookup_prop_keys {V} k (o : list (string * V)) : is_Some (lookup_prop k o) <-> k ∈ o.*1.
Proof.
  induction o as [|[k' v'] o IH]; csimpl; [by split; inversion 1|].
  rewrite elem_of_cons, <- IH. case_decide as Hk; subst; [by split; eauto|].
  split; [intros ?; by right|intros [?|?]; [congruence|done]].
Qed.

Lemma NoDup_set {V} k (v : V) o : NoDup o.*1 -> NoDup (set_prop k v o).*1.
Proof.
  intros D. rewrite keys_set. destruct (lookup_prop k o) eqn:E; [done|].
  constructor; [|done]. rewrite <- lookup_prop_keys, E. by intros [? ?].
Qed.

Lemma elem_of_lookup_prop {V} k (v : V) o :
  NoDup o.*1 -> (k, v) ∈ o <-> lookup_prop k o = Some v.
Proof.
  induction o as [|[k' v'] o IH]; csimpl; [by split; [intros ?%elem_of_nil|]|].
  intros [N D]%list.NoDup_cons. rewrite elem_of_cons, (IH D). case_decide as K.
  - subst. split; [intros [[= ->]|H]; [done|] | intros [= ->]; by left].
    destruct N. apply lookup_prop_keys. eauto.
  - split; [intros [[= -> ->]|H]; done | by right].
Qed.

Create Rewrite HintDb js.
#[export] Hint Rewrite (@lookup_set_eq jval) lookup_del_eq : js.
#[export] Hint Rewrite (@lookup_set_ne jval) lookup_del_ne using discriminate : js.

Lemma get_set_eq k v o : get k (set_prop k v o) = v.
Proof. unfold get. by rewrite lookup_set_eq. Qed.
Lemma get_set_ne k k' v o : k <> k' -> get k (set_prop k' v o) = get k o.
Proof. intros. unfold get. by rewrite lookup_set_ne. Qed.
Lemma get_del_ne k k' o : k <> k' -> get k (del_prop k' o) = get k o.
Proof. intros. unfold get. by rewrite lookup_del_ne. Qed.

(** ** Equality up to enumeration order *)

Definition obj_equiv (o p : obj) : Prop := forall k, lookup_prop k o = lookup_prop k p.

#[export] Instance obj_equiv_equivalence : Equivalence obj_equiv.
Proof.
  split; [by intros o k | by intros o p H k | intros o p q H1 H2 k].
  by rewrite H1, H2.
Qed.

#[export] Instance get_proper k : Proper (obj_equiv ==> eq) (get k).
Proof. intros o p H. unfold get. by rewrite H. Qed.

#[export] Instance has_proper k : Proper (obj_equiv ==> eq) (has k).
Proof. intros o p H. unfold has. by rewrite H. Qed.

#[export] Instance set_prop_proper k v : Proper (obj_equiv ==> obj_equiv) (set_prop k v).
Proof.
  intros o p H k'. destruct (decide (k' = k)) as [->|].
  - by rewrite !lookup_set_eq.
  - by rewrite !lookup_set_ne, H.
Qed.

#[export] Instance del_prop_proper k : Proper (obj_equiv ==> obj_equiv) (del_prop k).
Proof.
  intros o p H k'. destruct (decide (k' = k)) as [->|].
  - by rewrite !lookup_del_eq.
  - by rewrite !lookup_del_ne, H.
Qed.

#[export] Instance spread_proper : Proper (obj_equiv ==> eq ==> obj_equiv) spread.
Proof. intros o p H q _ <- k. rewrite !lookup_spread. by rewrite H. Qed.
