(* ===== verification/JsStr.v ===== *)
(** JavaScript strings: the string methods the modelled code calls and the
    conversion of a string to a number.  Strings are 8-bit (Latin-1) code
    units. *)
From Stdlib Require Import ZArith Lia Ascii.
From stdpp Require Import base tactics strings list.
From S2P Require Import Prelude JsNum.
Local Open Scope Z_scope.

Definition code (c : Ascii.ascii) : Z := Z.of_N (Ascii.N_of_ascii c).

(** ** Case, prefixes and white space *)

(** [s.toLowerCase()] *)
Definition lower_char (c : Ascii.ascii) : Ascii.ascii :=
  let n := code c in
  if (65 <=? n) && (n <=? 90) || (192 <=? n) && (n <=? 222) && negb (n =? 215)
  then Ascii.ascii_of_N (Ascii.N_of_ascii c + 32) else c.

Fixpoint toLowerCase (s : string) : string :=
  match s with
  | EmptyString => EmptyString
  | String c s => String (lower_char c) (toLowerCase s)
  end.

(** [s.startsWith(p)] *)
Definition startsWith (s p : string) : bool := String.prefix p s.

Definition is_space (c : Ascii.ascii) : bool :=
  let n := code c in (9 <=? n) && (n <=? 13) || (n =? 32) || (n =? 160).

Fixpoint trim_start (l : list Ascii.ascii) : list Ascii.ascii :=
  match l with
  | c :: l' => if is_space c then trim_start l' else l
  | [] => []
  end.

Definition trim (l : list Ascii.ascii) : list Ascii.ascii :=
  rev (trim_start (rev (trim_start l))).

(** ** [Number(s)] *)

(** The value of a digit in a radix of at most 16. *)
Definition digit_value (radix : Z) (c : Ascii.ascii) : option Z :=
  let n := code c in
  let v := if (48 <=? n) && (n <=? 57) then n - 48
           else if (97 <=? n) && (n <=? 102) then n - 87
           else if (65 <=? n) && (n <=? 70) then n - 55 else radix in
  if v <? radix then Some v else None.

(** The longest run of digits: its value, its length and what follows. *)
Fixpoint take_digits (radix acc cnt : Z) (l : list Ascii.ascii) : Z * Z * list Ascii.ascii :=
  match l with
  | c :: l' =>
      match digit_value radix c with
      | Some d => take_digits radix (acc * radix + d) (cnt + 1) l'
      | None => (acc, cnt, l)
      end
  | [] => (acc, cnt, [])
  end.

Definition chars (s : string) : list Ascii.ascii := String.list_ascii_of_string s.

(** The exponent part, [Some 0] when there is none. *)
Definition exponent (l : list Ascii.ascii) : option Z :=
  match l with
  | [] => Some 0
  | c :: l =>
      if (code c =? 101) || (code c =? 69) then
        let '(sg, l) := match l with
          | s :: l' => if code s =? 43 then (1, l') else if code s =? 45 then (-1, l') else (1, l)
          | [] => (1, []) end in
        match take_digits 10 0 0 l with
        | (n, cnt, []) => if cnt =? 0 then None else Some (sg * n)
        | _ => None
        end
      else None
  end.

(** An unsigned decimal literal as mantissa and decimal exponent. *)
Definition decimal (l : list Ascii.ascii) : option (Z * Z) :=
  let '(ip, ci, l) := take_digits 10 0 0 l in
  let '(m, cf, l) := match l with
    | c :: l' => if code c =? 46 then take_digits 10 ip 0 l' else (ip, 0, l)
    | [] => (ip, 0, []) end in
  if ci + cf =? 0 then None
  else e ← exponent l; Some (m, e - cf).

Definition scale10 (m e : Z) : num :=
  if 0 <=? e then of_Z (m * 10 ^ e) else of_frac m (10 ^ (- e)).

Definition unsigned (l : list Ascii.ascii) : option num :=
  if decide (l = chars "Infinity") then Some (Inf false)
  else '(m, e) ← decimal l; Some (scale10 m e).

(** The digits of [0x], [0o] and [0b] literals. *)
Definition radix_literal (radix : Z) (l : list Ascii.ascii) : num :=
  match take_digits radix 0 0 l with
  | (n, cnt, []) => if cnt =? 0 then NaN else of_Z n
  | _ => NaN
  end.

Definition signed (l : list Ascii.ascii) : num :=
  match l with
  | c :: l' =>
      if code c =? 43 then default NaN (unsigned l')
      else if code c =? 45 then neg (default NaN (unsigned l'))
      else default NaN (unsigned l)
  | [] => of_Z 0
  end.

Definition to_number (s : string) : num :=
  let l := trim (chars s) in
  match l with
  | z :: x :: l' =>
      if code z =? 48 then
        if (code x =? 120) || (code x =? 88) then radix_literal 16 l'
        else if (code x =? 111) || (code x =? 79) then radix_literal 8 l'
        else if (code x =? 98) || (code x =? 66) then radix_literal 2 l'
        else signed l
      else signed l
  | _ => signed l
  end.

(** [parseInt(s, 10)] *)
Definition parse_int (s : string) : num :=
  let l := trim_start (chars s) in
  let '(sg, l) := match l with
    | c :: l' => if code c =? 43 then (1, l') else if code c =? 45 then (-1, l') else (1, l)
    | [] => (1, []) end in
  let '(n, cnt, _) := take_digits 10 0 0 l in
  if cnt =? 0 then NaN else of_Z (sg * n).

(** ** Concatenation *)

Lemma str_app_nil_r (s : string) : s +:+ "" = s.
Proof. induction s as [|c s IH]; [done|]. exact (f_equal (String c) IH). Qed.

Lemma str_app_assoc (s t u : string) : (s +:+ t) +:+ u = s +:+ (t +:+ u).
Proof. induction s as [|c s IH]; [done|]. exact (f_equal (String c) IH). Qed.
