(* ===== verification/Stream.v ===== *)
(** Replicated lists: [ui/common/utils/stream.ts].

    The bridge keeps a vector (a room list, a timeline) and streams the edits
    it makes to it; the client rebuilds the vector from the edits.  [vec_step]
    is the abstract vector, described position by position; the theorems show
    that folding [applyStreamUpdate] over the streamed edits rebuilds it, that
    the edits may be mapped before or after they are applied, and that
    [getNewStreamIds] misses no element that an edit brought in. *)
From Stdlib Require Import ZArith Lia.
From stdpp Require Import base tactics strings list option sets.
From S2P Require Import Prelude Js.

(** The generated union [VectorDiff<T>]; indices and lengths are [usize]. *)
Inductive VectorDiff (T : Type) : Type :=
  | Append (values : list T)
  | Clear
  | PushFront (value : T)
  | PushBack (value : T)
  | PopFront
  | PopBack
  | Insert (index : nat) (value : T)
  | VSet (index : nat) (value : T)
  | Remove (index : nat)
  | Truncate (length : nat)
  | Reset (values : list T).
Arguments Append {T}. Arguments Clear {T}. Arguments PushFront {T}.
Arguments PushBack {T}. Arguments PopFront {T}. Arguments PopBack {T}.
Arguments Insert {T}. Arguments VSet {T}. Arguments Remove {T}.
Arguments Truncate {T}. Arguments Reset {T}.

(** [Array.prototype.slice(start, end)]: a negative bound counts from the end. *)
Definition slice_bound (len k : Z) : nat :=
  Z.to_nat (if Z.ltb k 0 then Z.max 0 (len + k) else Z.min k len).

Definition slice {T} (l : list T) (s e : Z) : list T :=
  let len := Z.of_nat (length l) in
  let a := slice_bound len s in
  let b := slice_bound len e in
  take (b - a) (drop a l).

Definition slice_from {T} (l : list T) (s : Z) : list T :=
  slice l s (Z.of_nat (length l)).

Definition applyStreamUpdate {T} (prev : list T) (update : VectorDiff T) : list T :=
  match update with
  | Clear => []
  | PopFront => slice_from prev 1
  | PopBack => slice prev 0 (Z.of_nat (length prev) - 1)
  | Append values => prev ++ values
  | PushFront value => value :: prev
  | PushBack value => prev ++ [value]
  | Insert index value =>
      slice prev 0 (Z.of_nat index) ++ [value] ++ slice_from prev (Z.of_nat index)
  | VSet index value =>
      slice prev 0 (Z.of_nat index) ++ [value] ++ slice_from prev (Z.of_nat index + 1)
  | Remove index =>
      slice prev 0 (Z.of_nat index) ++ slice_from prev (Z.of_nat index + 1)
  | Truncate length => slice prev 0 (Z.of_nat length)
  | Reset values => values
  end.

Definition applyStreamUpdates {T} (original : list T) (updates : list (VectorDiff T))
    : list T :=
  foldl applyStreamUpdate original updates.

Definition mapStreamUpdate {T R} (map : T -> R) (update : VectorDiff T) : VectorDiff R :=
  match update with
  | Clear => Clear
  | PopFront => PopFront
  | PopBack => PopBack
  | Append values => Append (map <$> values)
  | PushFront value => PushFront (map value)
  | PushBack value => PushBack (map value)
  | Insert index value => Insert index (map value)
  | VSet index value => VSet index (map value)
  | Remove index => Remove index
  | Truncate length => Truncate length
  | Reset values => Reset (map <$> values)
  end.

Definition mapStreamUpdates {T R} (map : T -> R) (updates : list (VectorDiff T))
    : list (VectorDiff R) :=
  mapStreamUpdate map <$> updates.

(** A [Set] of strings keeps its members in insertion order. *)
Definition set_add (s : string) (ids : list string) : list string :=
  if decide (s ∈ ids) then ids else ids ++ [s].

(** [if (id) ids.add(id)] *)
Definition add_id (id : option string) (ids : list string) : list string :=
  match id with
  | Some s => if decide (s = "") then ids else set_add s ids
  | None => ids
  end.

Definition getNewStreamIds {T} (getId : T -> option string) (updates : list (VectorDiff T))
    : list string :=
  foldl (fun ids update =>
    match update with
    | Clear | PopFront | PopBack | Remove _ | Truncate _ => ids
    | Insert _ value | PushFront value | PushBack value | VSet _ value =>
        add_id (getId value) ids
    | Append values | Reset values =>
        foldl (fun ids value => add_id (getId value) ids) ids values
    end) [] updates.

(** ** The replicated vector *)

(** One edit of the bridge's vector, by positions.  The edits that take an
    index are only made in range. *)
Inductive vec_step {T} : list T -> VectorDiff T -> list T -> Prop :=
  | step_append l vs l' :
      length l' = length l + length vs ->
      (forall i, i < length l -> l' !! i = l !! i) ->
      (forall i, i < length vs -> l' !! (length l + i) = vs !! i) ->
      vec_step l (Append vs) l'
  | step_clear l : vec_step l Clear []
  | step_push_front l v l' :
      length l' = S (length l) -> l' !! 0 = Some v ->
      (forall i, i < length l -> l' !! S i = l !! i) ->
      vec_step l (PushFront v) l'
  | step_push_back l v l' :
      length l' = S (length l) -> l' !! length l = Some v ->
      (forall i, i < length l -> l' !! i = l !! i) ->
      vec_step l (PushBack v) l'
  | step_pop_front l l' :
      length l' = length l - 1 ->
      (forall i, i < length l' -> l' !! i = l !! S i) ->
      vec_step l PopFront l'
  | step_pop_back l l' :
      length l' = length l - 1 ->
      (forall i, i < length l' -> l' !! i = l !! i) ->
      vec_step l PopBack l'
  | step_insert l k v l' :
      k <= length l -> length l' = S (length l) -> l' !! k = Some v ->
      (forall i, i < k -> l' !! i = l !! i) ->
      (forall i, k <= i -> l' !! S i = l !! i) ->
      vec_step l (Insert k v) l'
  | step_set l k v l' :
      k < length l -> length l' = length l -> l' !! k = Some v ->
      (forall i, i <> k -> l' !! i = l !! i) ->
      vec_step l (VSet k v) l'
  | step_remove l k l' :
      k < length l -> length l' = length l - 1 ->
      (forall i, i < k -> l' !! i = l !! i) ->
      (forall i, k <= i -> l' !! i = l !! S i) ->
      vec_step l (Remove k) l'
  | step_truncate l n l' :
      length l' = Nat.min n (length l) ->
      (forall i, i < length l' -> l' !! i = l !! i) ->
      vec_step l (Truncate n) l'
  | step_reset l vs : vec_step l (Reset vs) vs.

(** A run of edits. *)
Inductive vec_steps {T} : list T -> list (VectorDiff T) -> list T -> Prop :=
  | steps_nil l : vec_steps l [] l
  | steps_cons l d l1 ds l2 :
      vec_step l d l1 -> vec_steps l1 ds l2 -> vec_steps l (d :: ds) l2.

(** ** Slices are takes and drops *)

Lemma slice_bound_nat (len n : nat) :
  slice_bound (Z.of_nat len) (Z.of_nat n) = Nat.min n len.
Proof. unfold slice_bound. destruct (Z.ltb_spec (Z.of_nat n) 0); lia. Qed.

Lemma slice_take {T} (l : list T) (n : nat) : slice l 0 (Z.of_nat n) = take n l.
Proof.
  unfold slice. change 0%Z with (Z.of_nat 0). rewrite !slice_bound_nat, Nat.min_0_l, Nat.sub_0_r.
  rewrite drop_0. destruct (Nat.le_ge_cases n (length l)).
  - by rewrite Nat.min_l.
  - rewrite Nat.min_r by lia. rewrite (take_ge l n), take_ge by lia. done.
Qed.

Lemma slice_drop {T} (l : list T) (n : nat) : slice_from l (Z.of_nat n) = drop n l.
Proof.
  unfold slice_from, slice. rewrite !slice_bound_nat, Nat.min_id.
  destruct (Nat.le_ge_cases n (length l)).
  - rewrite Nat.min_l by done. apply take_ge. rewrite length_drop. lia.
  - rewrite Nat.min_r, Nat.sub_diag by lia. rewrite !drop_ge by lia. done.
Qed.

Lemma slice_drop_S {T} (l : list T) (n : nat) : slice_from l (Z.of_nat n + 1) = drop (S n) l.
Proof. replace (Z.of_nat n + 1)%Z with (Z.of_nat (S n)) by lia. apply slice_drop. Qed.

Lemma slice_pop_front {T} (l : list T) : slice_from l 1 = drop 1 l.
Proof. apply (slice_drop l 1). Qed.

Lemma slice_pop_back {T} (l : list T) :
  slice l 0 (Z.of_nat (length l) - 1) = take (length l - 1) l.
Proof.
  destruct l as [|x l]; [done|].
  replace (Z.of_nat (length (x :: l)) - 1)%Z with (Z.of_nat (length (x :: l) - 1)) by (simpl; lia).
  apply slice_take.
Qed.

Create Rewrite HintDb stream.
#[export] Hint Rewrite @slice_take @slice_drop @slice_drop_S @slice_pop_front @slice_pop_back
  : stream.

(** Two lists of one length that agree at every position below it are equal. *)
Lemma list_eq_below {T} (l l' : list T) :
  length l = length l' -> (forall i, i < length l -> l !! i = l' !! i) -> l = l'.
Proof.
  intros Hl H. apply list_eq. intros i. destruct (decide (i < length l)); [auto|].
  by rewrite !lookup_ge_None_2 by lia.
Qed.

(** Splicing a value, or nothing, between a prefix and a suffix. *)
Lemma lookup_splice {T} (l mid : list T) (k k' i : nat) :
  k <= length l ->
  (take k l ++ mid ++ drop k' l) !! i =
    if decide (i < k) then l !! i
    else if decide (i < k + length mid) then mid !! (i - k)
    else l !! (k' + (i - k - length mid)).
Proof.
  intros Hk. assert (Hl : length (take k l) = k) by (rewrite length_take; lia).
  repeat case_decide.
  - rewrite lookup_app_l by lia. by apply lookup_take_lt.
  - rewrite lookup_app_r, Hl by lia. by rewrite lookup_app_l by lia.
  - rewrite lookup_app_r, Hl, lookup_app_r, lookup_drop by lia. done.
Qed.

Lemma length_splice {T} (l mid : list T) (k k' : nat) :
  k <= length l ->
  length (take k l ++ mid ++ drop k' l) = k + length mid + (length l - k').
Proof. intros. rewrite !length_app, length_take, length_drop. lia. Qed.

(** Every edit is applied exactly. *)
Lemma applyStreamUpdate_step {T} (l : list T) d l' :
  vec_step l d l' -> applyStreamUpdate l d = l'.
Proof.
  destruct 1 as [l vs l' Hl H1 H2| |l v l' Hl H0 H1|l v l' Hl H0 H1|l l' Hl H|l l' Hl H
    |l k v l' Hk Hl H0 H1 H2|l k v l' Hk Hl H0 H1|l k l' Hk Hl H1 H2|l n l' Hl H|];
    unfold applyStreamUpdate; autorewrite with stream; try done; apply list_eq_below.
  - rewrite length_app. lia.
  - intros i Hi. rewrite length_app in Hi. destruct (decide (i < length l)).
    + rewrite lookup_app_l, H1 by lia. done.
    + rewrite lookup_app_r, <- H2 by lia. f_equal. lia.
  - simpl. lia.
  - intros [|i] Hi; simpl in *; [done|]. rewrite H1 by lia. done.
  - rewrite length_app. simpl. lia.
  - intros i Hi. rewrite length_app in Hi. simpl in Hi. destruct (decide (i < length l)).
    + rewrite lookup_app_l, H1 by lia. done.
    + replace i with (length l) by lia. by rewrite list_lookup_middle by done.
  - rewrite length_drop. lia.
  - intros i Hi. rewrite length_drop in Hi. rewrite lookup_drop, H by lia. done.
  - rewrite length_take. lia.
  - intros i Hi. rewrite length_take in Hi. rewrite lookup_take_lt, H by lia. done.
  - rewrite length_splice by lia. simpl. lia.
  - intros i Hi. rewrite length_splice in Hi by lia. rewrite lookup_splice by lia. simpl in *.
    repeat case_decide.
    + by rewrite H1.
    + replace i with k by lia. by rewrite Nat.sub_diag.
    + rewrite <- H2 by lia. f_equal. lia.
  - rewrite length_splice by lia. simpl. lia.
  - intros i Hi. rewrite length_splice in Hi by lia. rewrite lookup_splice by lia. simpl in *.
    repeat case_decide.
    + by rewrite H1 by lia.
    + replace i with k by lia. by rewrite Nat.sub_diag.
    + rewrite H1 by lia. f_equal. lia.
  - change (take k l ++ drop (S k) l) with (take k l ++ [] ++ drop (S k) l).
    rewrite length_splice by lia. simpl. lia.
  - change (take k l ++ drop (S k) l) with (take k l ++ [] ++ drop (S k) l).
    intros i Hi. rewrite length_splice in Hi by lia. rewrite lookup_splice by lia. simpl in *.
    repeat case_decide; [by rewrite H1| lia |].
    rewrite H2 by lia. f_equal. lia.
  - rewrite length_take. lia.
  - intros i Hi. rewrite length_take in Hi. rewrite lookup_take_lt, H by lia. done.
Qed.

(** ** Membership *)

Lemma elem_of_set_add s ids x : x ∈ set_add s ids <-> x = s \/ x ∈ ids.
Proof. unfold set_add. case_decide; [naive_solver|]. rewrite elem_of_app, list_elem_of_singleton. tauto. Qed.

Lemma elem_of_add_id id ids x :
  x ∈ add_id id ids <-> (id = Some x /\ x <> "") \/ x ∈ ids.
Proof.
  unfold add_id. destruct id as [s|]; [|naive_solver].
  case_decide; [|rewrite elem_of_set_add]; naive_solver.
Qed.

Lemma elem_of_add_ids {T} (getId : T -> option string) vs ids x :
  x ∈ foldl (fun ids value => add_id (getId value) ids) ids vs <->
  (exists v, v ∈ vs /\ getId v = Some x /\ x <> "") \/ x ∈ ids.
Proof.
  revert ids. induction vs as [|v vs IH]; intros ids; simpl.
  - split; [by right|]. intros [(v & Hv & _)|]; [by apply elem_of_nil in Hv | done].
  - rewrite IH, elem_of_add_id. setoid_rewrite elem_of_cons. naive_solver.
Qed.

(** The elements an edit carries. *)
Definition carried {T} (d : VectorDiff T) : list T :=
  match d with
  | Append vs | Reset vs => vs
  | PushFront v | PushBack v | Insert _ v | VSet _ v => [v]
  | _ => []
  end.

Lemma elem_of_getNewStreamIds {T} (getId : T -> option string) ds x :
  x ∈ getNewStreamIds getId ds <->
  exists d v, d ∈ ds /\ v ∈ carried d /\ getId v = Some x /\ x <> "".
Proof.
  unfold getNewStreamIds.
  enough (G : forall ids, x ∈ foldl (fun ids (update : VectorDiff T) =>
      match update with
      | Clear | PopFront | PopBack | Remove _ | Truncate _ => ids
      | Insert _ value | PushFront value | PushBack value | VSet _ value =>
          add_id (getId value) ids
      | Append values | Reset values =>
          foldl (fun ids value => add_id (getId value) ids) ids values
      end) ids ds <->
      (exists d v, d ∈ ds /\ v ∈ carried d /\ getId v = Some x /\ x <> "") \/ x ∈ ids).
  { rewrite G. split; [|by left]. intros [|H]; [done | by apply elem_of_nil in H]. }
  induction ds as [|d ds IH]; intros ids; simpl.
  { split; [by right|]. intros [(d & v & Hd & _)|]; [by apply elem_of_nil in Hd | done]. }
  rewrite IH. clear IH.
  assert (E : (exists d0 v, d0 ∈ d :: ds /\ v ∈ carried d0 /\ getId v = Some x /\ x <> "") <->
    (exists v, v ∈ carried d /\ getId v = Some x /\ x <> "") \/
    (exists d0 v, d0 ∈ ds /\ v ∈ carried d0 /\ getId v = Some x /\ x <> "")).
  { setoid_rewrite elem_of_cons. naive_solver. }
  rewrite E. destruct d; simpl; rewrite ?elem_of_add_ids, ?elem_of_add_id.
  all: try setoid_rewrite list_elem_of_singleton; try setoid_rewrite elem_of_nil; naive_solver.
Qed.

Lemma elem_of_slice {T} (l : list T) s e x : x ∈ slice l s e -> x ∈ l.
Proof. unfold slice. intros H%subseteq_take. by eapply subseteq_drop. Qed.

Lemma elem_of_apply {T} (l : list T) d x :
  x ∈ applyStreamUpdate l d -> x ∈ l \/ x ∈ carried d.
Proof.
  destruct d; simpl; unfold slice_from; rewrite ?elem_of_app, ?elem_of_cons, ?elem_of_app.
  all: naive_solver eauto using elem_of_slice.
Qed.

Lemma elem_of_applies {T} (l : list T) ds x :
  x ∈ applyStreamUpdates l ds -> x ∈ l \/ exists d, d ∈ ds /\ x ∈ carried d.
Proof.
  unfold applyStreamUpdates. revert l. induction ds as [|d ds IH]; intros l H; simpl in H; [by left|].
  apply IH in H as [H%elem_of_apply|(d' & ? & ?)].
  - destruct H; [by left|]. right. exists d. split; [by left | done].
  - right. exists d'. split; [by right | done].
Qed.

(** ** Properties *)

(** C33: Replication is exact.  If the bridge's vector goes from [l] to [l'] by the edits [ds],
    each described by its effect on positions, then folding the streamed edits
    over the client's copy of [l] yields [l']: no element is lost, duplicated or
    displaced. *)
Theorem applyStreamUpdates_refines {T} (l : list T) ds l' :
  vec_steps l ds l' -> applyStreamUpdates l ds = l'.
Proof.
  unfold applyStreamUpdates.
  induction 1 as [|l d l1 ds l2 H _ IH]; simpl; [done|].
  by rewrite (applyStreamUpdate_step _ _ _ H).
Qed.

Lemma applyStreamUpdates_refines_witness :
  applyStreamUpdates [1; 2; 3] [Insert 1 9; Remove 0; PushBack 7] = [9; 2; 3; 7].
Proof.
  apply applyStreamUpdates_refines.
  apply (steps_cons _ _ [1; 9; 2; 3]).
  { apply step_insert; simpl; try lia; [done | |].
    - intros [|i]; simpl; [done | lia].
    - intros [|i]; simpl; [lia | done]. }
  apply (steps_cons _ _ [9; 2; 3]).
  { apply step_remove; simpl; [lia | done | lia | done]. }
  apply (steps_cons _ _ [9; 2; 3; 7]); [|constructor].
  apply step_push_back; simpl; [done | done |].
  intros [|[|[|i]]]; simpl; done || lia.
Defined.

Lemma slice_fmap {T R} (f : T -> R) (l : list T) s e :
  f <$> slice l s e = slice (f <$> l) s e.
Proof. unfold slice. by rewrite fmap_take, fmap_drop, length_fmap. Qed.

Lemma mapStreamUpdate_apply {T R} (f : T -> R) l d :
  applyStreamUpdate (f <$> l) (mapStreamUpdate f d) = f <$> applyStreamUpdate l d.
Proof.
  destruct d; simpl; unfold slice_from;
    rewrite ?fmap_app, ?slice_fmap, ?length_fmap; simpl; rewrite ?slice_fmap; done.
Qed.

(** Coercing the streamed edits and applying them is the same as applying them and
    coercing the elements, for every run of edits. *)
Theorem mapStreamUpdates_natural {T R} (f : T -> R) (l : list T) ds :
  applyStreamUpdates (f <$> l) (mapStreamUpdates f ds) = f <$> applyStreamUpdates l ds.
Proof.
  unfold applyStreamUpdates, mapStreamUpdates. revert l.
  induction ds as [|d ds IH]; intros l; simpl; [done|].
  by rewrite mapStreamUpdate_apply, IH.
Qed.

(** [getNewStreamIds] is complete: every element of the updated list that was not in the list
    before, and has a non-empty id, has its id among the new ids. *)
Theorem getNewStreamIds_complete {T} (getId : T -> option string) l ds x id :
  x ∈ applyStreamUpdates l ds -> x ∉ l -> getId x = Some id -> id <> "" ->
  id ∈ getNewStreamIds getId ds.
Proof.
  intros H Hx Hid Hne. apply elem_of_getNewStreamIds.
  apply elem_of_applies in H as [H|(d & Hd & Hc)]; [done|]. by exists d, x.
Qed.

Lemma getNewStreamIds_complete_witness :
  "b"%string ∈ getNewStreamIds Some [PushFront "a"%string; VSet 1 "b"%string].
Proof.
  apply (getNewStreamIds_complete Some ["c"%string; "d"%string] _ "b"%string);
    [| | done | done].
  - vm_compute. right. left.
  - intros H. apply elem_of_cons in H as [H|H]; [discriminate H|].
    apply list_elem_of_singleton in H. discriminate H.
Defined.
