(* ===== verification/Upsert.v ===== *)
(** Merging entities into lists and records: [ui/common/utils/redux.ts].

    Every slice stores its entities through these functions.  Their contract is
    that an entity keeps its position, fields that the new version does not
    mention survive, no second entity with its id appears, and that writing an
    entity that changes nothing returns the very reference that was passed in,
    so that no subscriber is notified. *)
From Stdlib Require Import ZArith Lia.
From stdpp Require Import base tactics strings list option.
From S2P Require Import Prelude JsNum Js.

Section Upsert.
(** lodash's [isEqual]. *)
Context (isEqual : jval -> jval -> bool).

Definition id_of (o : obj) : jval := get "id" o.

(** The value of a property that is spread: [{ ...o[k] }]. *)
Definition spread_of (k : string) (o : obj) : obj := own_props (get k o).

Definition merge_nested (oldItem item updated : obj) (field : string) : obj :=
  set_prop field (JObj (spread (spread_of field oldItem) (spread_of field item))) updated.

(** The entity stored for [item] over [oldItem]. *)
Definition merge_item (nestedFields : option (list string)) (oldItem item : obj) : obj :=
  let updatedEntity := spread oldItem item in
  match nestedFields with
  | Some fields => foldl (merge_nested oldItem item) updatedEntity fields
  | None => updatedEntity
  end.

(** The [map] callback, threading the two flags it assigns. *)
Definition upsert_step (nestedFields : option (list string)) (item : obj)
    (acc : list obj * bool * bool) (oldItem : obj) : list obj * bool * bool :=
  let '(newList, addToEnd, wasEqual) := acc in
  if decide (id_of oldItem = id_of item) then
    let updatedEntity := merge_item nestedFields oldItem item in
    (newList ++ [updatedEntity], false, isEqual (JObj oldItem) (JObj updatedEntity))
  else (newList ++ [oldItem], addToEnd, wasEqual).

(** The flag of the result tells whether the list that was passed in is
    returned by reference. *)
Definition upsertListItem (l : option (list obj)) (item : obj)
    (nestedFields : option (list string)) (sort : option (list obj -> list obj))
    : bool * list obj :=
  let l := default [] l in
  let '(newList, addToEnd, wasEqual) :=
    foldl (upsert_step nestedFields item) ([], true, false) l in
  if negb addToEnd && wasEqual then (true, l)
  else
    let newList := if addToEnd then newList ++ [item] else newList in
    (false, match sort with Some sort => sort newList | None => newList end).

(** [record[k] && isEqual(record[k], entity)] *)
Definition holds_equal (record : obj) (k : string) (entity : jval) : bool :=
  truthy (get k record) && isEqual (get k record) entity.

Definition upsertRecordEntityId (record : option obj) (entity : jval) (entityId : string)
    : bool * obj :=
  let record := default [] record in
  if holds_equal record entityId entity then (true, record)
  else (false, set_prop entityId
                 (JObj (spread (own_props (jor (get entityId record) (JObj [])))
                               (own_props entity))) record).

Definition upsertRecordEntity (record : option obj) (entity : obj) : bool * obj :=
  let record := default [] record in
  let k := to_str (id_of entity) in
  if holds_equal record k (JObj entity) then (true, record)
  else (false, set_prop k
                 (JObj (spread (own_props (jor (get k record) (JObj []))) entity)) record).

Definition upsertRecordList (record : option obj) (entity : list jval) (entityId : string)
    : bool * obj :=
  let record := default [] record in
  if holds_equal record entityId (JArr entity) then (true, record)
  else
    let old := match jor (get entityId record) (JArr []) with JArr l => l | _ => [] end in
    (false, set_prop entityId (JArr (old ++ entity)) record).

(** ** The list after the [map] *)

Definition upsert_item (nestedFields : option (list string)) (item oldItem : obj) : obj :=
  if decide (id_of oldItem = id_of item) then merge_item nestedFields oldItem item
  else oldItem.

Definition known (item : obj) (l : list obj) : bool :=
  bool_decide (id_of item ∈ (id_of <$> l)).

Lemma known_cons item o l :
  known item (o :: l) = bool_decide (id_of o = id_of item) || known item l.
Proof.
  unfold known. rewrite <- bool_decide_or. apply bool_decide_ext.
  csimpl. rewrite elem_of_cons. naive_solver.
Qed.

Lemma upsert_fold nf item l acc b e :
  exists e', foldl (upsert_step nf item) (acc, b, e) l =
    (acc ++ (upsert_item nf item <$> l), b && negb (known item l), e').
Proof.
  revert acc b e. induction l as [|o l IH]; intros acc b e.
  - exists e. unfold known. simpl. by rewrite app_nil_r, andb_true_r.
  - rewrite known_cons. csimpl. unfold upsert_item at 1. case_decide as Hid.
    + destruct (IH (acc ++ [merge_item nf o item]) false
                  (isEqual (JObj o) (JObj (merge_item nf o item)))) as [e' ->].
      exists e'. rewrite <- app_assoc, bool_decide_true by done. simpl.
      by rewrite andb_false_r.
    + destruct (IH (acc ++ [o]) b e) as [e' ->]. exists e'.
      rewrite <- app_assoc, bool_decide_false by done. done.
Qed.

Lemma spread_id_of o item :
  wf_obj item -> lookup_prop "id" item <> None -> id_of (spread o item) = id_of item.
Proof.
  intros W H. unfold id_of, get. rewrite lookup_spread_wf by done.
  by destruct (lookup_prop "id" item).
Qed.

Lemma merge_id_of nf o item :
  wf_obj item -> lookup_prop "id" item <> None -> "id" ∉ default [] nf ->
  id_of (merge_item nf o item) = id_of item.
Proof.
  intros W H N. unfold merge_item. destruct nf as [fs|]; [|by apply spread_id_of].
  simpl in N. rewrite <- (spread_id_of o item W H) at 1.
  generalize (spread o item). induction fs as [|f fs IH]; intros u; simpl; [done|].
  apply not_elem_of_cons in N as [N1 N2]. rewrite IH by done.
  unfold id_of, get, merge_nested. by rewrite lookup_set_ne.
Qed.

Lemma upsert_item_ids nf item (l : list obj) :
  wf_obj item -> lookup_prop "id" item <> None -> "id" ∉ default [] nf ->
  id_of <$> (upsert_item nf item <$> l) = id_of <$> l.
Proof.
  intros W H N. induction l as [|o l IH]; csimpl; [done|]. rewrite IH. f_equal.
  unfold upsert_item. case_decide as Hid; [|done]. by rewrite merge_id_of.
Qed.

(** ** Writing an entity twice *)

Lemma replace_same k v (o : obj) : lookup_prop k o = Some v -> replace_prop k v o = o.
Proof.
  induction o as [|[k' v'] o IH]; simpl; [done|].
  case_decide; [naive_solver|]. intros E. by rewrite IH.
Qed.

Lemma set_same k v (o : obj) : lookup_prop k o = Some v -> set_prop k v o = o.
Proof. intros H. unfold set_prop. rewrite H. by apply replace_same. Qed.

Lemma spread_same o p :
  (forall k v, (k, v) ∈ p -> lookup_prop k o = Some v) -> spread o p = o.
Proof.
  unfold spread. induction p as [|[k v] p IH]; intros H; simpl; [done|].
  rewrite set_same by (apply H; left). apply IH. intros k' v' ?. apply H. by right.
Qed.

Lemma elem_of_lookup k v (p : obj) : wf_obj p -> (k, v) ∈ p -> lookup_prop k p = Some v.
Proof.
  unfold wf_obj. induction p as [|[k' v'] p IH]; intros W H; [by apply elem_of_nil in H|].
  unfold keys in W. csimpl in W. apply list.NoDup_cons in W as [W1 W2]. simpl.
  apply elem_of_cons in H as [[= <- <-]|H]; [by rewrite decide_True|].
  rewrite decide_False; [by apply IH|]. intros ->. apply W1.
  apply list_elem_of_fmap. by exists (k', v).
Qed.

Lemma spread_twice o p : wf_obj p -> spread (spread o p) p = spread o p.
Proof.
  intros W. apply spread_same. intros k v H. rewrite lookup_spread_wf by done.
  by rewrite (elem_of_lookup k v p).
Qed.

Lemma upsertListItem_eq (l : list obj) item nf :
  exists e', upsertListItem (Some l) item nf None =
    if known item l && e' then (true, l)
    else (false, (upsert_item nf item <$> l) ++ if known item l then [] else [item]).
Proof.
  destruct (upsert_fold nf item l [] true false) as [e' E]. exists e'.
  unfold upsertListItem. simpl. rewrite E, app_nil_l, andb_true_l, negb_involutive.
  destruct (known item l), e'; simpl; by rewrite ?app_nil_r.
Qed.

(** The ids of the result: those of the list, and the id of a new item. *)
Lemma upsertListItem_ids (l : list obj) (item : obj) nf :
  wf_obj item -> lookup_prop "id" item <> None -> "id" ∉ default [] nf ->
  id_of <$> (upsertListItem (Some l) item nf None).2 =
    (id_of <$> l) ++ (if known item l then [] else [id_of item]).
Proof.
  intros W H N. destruct (upsertListItem_eq l item nf) as [e' ->].
  destruct (known item l), e'; simpl; rewrite ?fmap_app, ?upsert_item_ids, ?app_nil_r by done; done.
Qed.

Lemma upsertListItem_wf_ids (l : list obj) (item : obj) nf :
  wf_obj item -> lookup_prop "id" item <> None -> "id" ∉ default [] nf ->
  NoDup (id_of <$> l) -> NoDup (id_of <$> (upsertListItem (Some l) item nf None).2).
Proof.
  intros W H N D. rewrite upsertListItem_ids by done. unfold known.
  case_bool_decide as K; [by rewrite app_nil_r|].
  apply list.NoDup_app. split; [done|]. split; [|apply list.NoDup_singleton].
  intros x Hx ->%list_elem_of_singleton. done.
Qed.

(** ** Properties *)

(** Upserting keeps every entity in its position and keeps ids unique: when the
    list is not sorted, the ids of the result are those of the list, followed
    by the id of the item exactly when it was new; and the stored version of
    a known item is the old one overlaid with the new one. *)
Theorem upsertListItem_spec (l : list obj) (item : obj) nf :
  wf_obj item -> lookup_prop "id" item <> None -> "id" ∉ default [] nf ->
  let r := (upsertListItem (Some l) item nf None).2 in
  id_of <$> r = (id_of <$> l) ++ (if known item l then [] else [id_of item]) /\
  (forall i o, l !! i = Some o -> id_of o <> id_of item -> r !! i = Some o) /\
  ((upsertListItem (Some l) item nf None).1 = false ->
   forall i o, l !! i = Some o -> id_of o = id_of item ->
     r !! i = Some (merge_item nf o item)).
Proof.
  intros W H N. unfold upsertListItem. simpl.
  destruct (upsert_fold nf item l [] true false) as [e' ->]. rewrite app_nil_l.
  simpl. rewrite negb_involutive.
  assert (K : forall i o, l !! i = Some o -> (upsert_item nf item <$> l) !! i =
    Some (upsert_item nf item o)) by (intros i o E; by rewrite list_lookup_fmap, E).
  assert (A : forall i o, l !! i = Some o -> ((upsert_item nf item <$> l) ++ [item]) !! i =
    Some (upsert_item nf item o)).
  { intros i o E. rewrite lookup_app_l; [by apply K|].
    rewrite length_fmap. by eapply lookup_lt_Some. }
  destruct (known item l) eqn:E; simpl; [destruct e'; simpl|];
    rewrite ?fmap_app, ?upsert_item_ids, ?app_nil_r by done; split_and!; try done.
  all: try (intros _); intros i o Hi Hid.
  all: first [rewrite (A i o Hi) | rewrite (K i o Hi)]; unfold upsert_item; by case_decide.
Qed.

(** lodash compares by structure, so a value equals itself. *)
Context (isEqual_refl : forall v, isEqual v v = true).

Lemma merge_twice o item :
  wf_obj item -> merge_item None (merge_item None o item) item = merge_item None o item.
Proof. intros W. unfold merge_item. by apply spread_twice. Qed.

Lemma upsert_fold_flag item l acc b e :
  NoDup (id_of <$> l) -> known item l = true ->
  (forall o, o ∈ l -> id_of o = id_of item -> merge_item None o item = o) ->
  (foldl (upsert_step None item) (acc, b, e) l).2 = true.
Proof.
  revert acc b e. induction l as [|o l IH]; intros acc b e D K M; [done|].
  csimpl in D. apply list.NoDup_cons in D as [D1 D2]. rewrite known_cons in K. simpl.
  case_decide as Hid.
  - rewrite M by (done || left). rewrite isEqual_refl.
    assert (F : forall o', o' ∈ l -> id_of o' <> id_of item).
    { intros o' Ho' E. apply D1. rewrite Hid, <- E. by apply list_elem_of_fmap_2. }
    clear IH K M D1 D2. generalize (acc ++ [o]) false.
    induction l as [|o' l IH]; intros acc' b'; [done|]. simpl.
    rewrite decide_False by (apply F; left). apply IH. intros. apply F. by right.
  - rewrite bool_decide_false in K by done. apply IH; [done | done |].
    intros. apply M; [by right | done].
Qed.

Lemma merge_stored (l : list obj) item o :
  wf_obj item -> o ∈ (upsert_item None item <$> l) ++ [item] ->
  id_of o = id_of item -> merge_item None o item = o.
Proof.
  intros W Ho Hid. apply elem_of_app in Ho as [Ho|Ho%list_elem_of_singleton]; [|subst o].
  - apply list_elem_of_fmap in Ho as (o0 & -> & _). unfold upsert_item in *.
    case_decide; [by apply merge_twice | done].
  - apply spread_same. intros k v. by apply elem_of_lookup.
Qed.

(** Writing the same entity a second time returns the list by reference,
    whatever the first write did, as long as ids were unique. *)
Theorem upsertListItem_idempotent (l : list obj) (item : obj) :
  wf_obj item -> lookup_prop "id" item <> None -> NoDup (id_of <$> l) ->
  let r := (upsertListItem (Some l) item None None).2 in
  upsertListItem (Some r) item None None = (true, r).
Proof.
  intros W H D r.
  assert (N : "id" ∉ default [] (@None (list string))) by (intros X; by apply elem_of_nil in X).
  pose proof (upsertListItem_wf_ids l item None W H N D) as Dr. fold r in Dr.
  pose proof (upsertListItem_ids l item None W H N) as Eid. fold r in Eid.
  destruct (upsertListItem_eq l item None) as [e' E].
  destruct (known item l && e') eqn:F.
  { assert (r = l) as -> by (unfold r; by rewrite E). done. }
  assert (Er : r = (upsert_item None item <$> l) ++ if known item l then [] else [item])
    by (unfold r; by rewrite E).
  assert (Kr : known item r = true).
  { unfold known. apply bool_decide_true. rewrite Eid. destruct (known item l) eqn:K.
    - rewrite app_nil_r. by apply bool_decide_eq_true in K.
    - apply elem_of_app. right. left. }
  assert (M : forall o, o ∈ r -> id_of o = id_of item -> merge_item None o item = o).
  { intros o Ho. apply (merge_stored l); [done|]. rewrite Er in Ho.
    apply elem_of_app in Ho as [Ho|Ho]; apply elem_of_app; [by left|].
    destruct (known item l); [by apply elem_of_nil in Ho | by right]. }
  unfold upsertListItem. simpl.
  pose proof (upsert_fold_flag item r [] true false Dr Kr M) as Fl.
  destruct (upsert_fold None item r [] true false) as [e2 E2].
  rewrite E2 in Fl |- *. simpl in Fl. subst e2. by rewrite Kr.
Qed.
End Upsert.

Definition demo_list : list obj :=
  [ [("id", JStr "a"); ("name", JStr "x")]; [("id", JStr "b"); ("meta", JObj [("k", JNull)])] ].
Definition demo_item : obj := [("id", JStr "b"); ("name", JStr "y")].
Definition demo_equal (a b : jval) : bool := bool_decide (a = b).

Lemma upsertListItem_spec_witness :
  id_of <$> (upsertListItem demo_equal (Some demo_list) demo_item None None).2 =
    [JStr "a"; JStr "b"].
Proof.
  assert (W : wf_obj demo_item) by (apply (bool_decide_unpack _); vm_compute; exact I).
  assert (H : lookup_prop "id" demo_item <> None) by discriminate.
  assert (N : "id" ∉ default [] (@None (list string))) by (intros X; by apply elem_of_nil in X).
  exact (proj1 (upsertListItem_spec demo_equal demo_list demo_item None W H N)).
Defined.

Lemma upsertListItem_idempotent_witness :
  let r := (upsertListItem demo_equal (Some demo_list) demo_item None None).2 in
  upsertListItem demo_equal (Some r) demo_item None None = (true, r).
Proof.
  apply upsertListItem_idempotent.
  - intros v. apply bool_decide_true. reflexivity.
  - apply (bool_decide_unpack _). vm_compute. exact I.
  - discriminate.
  - apply (bool_decide_unpack _). vm_compute. exact I.
Defined.
