(* ===== verification/Chat.v ===== *)
(** Queries on legacy chat messages: [ui/common/utils/chat.ts].

    A message is an object with the optional fields [sentIn] (a group), [sentTo]
    and [sentBy] (a direct chat), [sentAt] and [payment].  The stored-state
    migrations use these queries to mark old chats as read. *)
From Stdlib Require Import ZArith Lia.
From stdpp Require Import base tactics strings list option.
From S2P Require Import Prelude JsNum Js.

Inductive ChatType := direct | group.

Definition getChatInfoFromMessage (message myId : jval) : result (jval * ChatType) :=
  sentTo ← prop message "sentTo";
  sentIn ← prop message "sentIn";
  sentBy ← prop message "sentBy";
  if truthy sentIn then Ok (sentIn, group)
  else if truthy sentTo && truthy sentBy then
    Ok (if decide (sentBy = myId) then sentTo else sentBy, direct)
  else Throw "Message has no sentIn, or sentTo & sentBy".

(** [messages.reduce(f, messages[0]) || null] *)
Definition reduce_first (f : jval -> jval -> result jval) (l : list jval) : result jval :=
  r ← foldM f (default JUndef (head l)) l;
  Ok (jor r JNull).

Definition num0 : jval := JNum (of_Z 0).

(** [(x || 0) > (y || 0)] *)
Definition gt_or0 (x y : jval) : bool := ltb (to_num (jor y num0)) (to_num (jor x num0)).

Definition getLatestMessage (messages : jval) : result jval :=
  l ← as_array messages;
  reduce_first (fun prev msg =>
    a ← prop prev "sentAt";
    b ← prop msg "sentAt";
    Ok (if gt_or0 a b then prev else msg)) l.

(** [messages.filter(m => m.payment)] *)
Fixpoint filterM (p : jval -> result jval) (l : list jval) : result (list jval) :=
  match l with
  | [] => Ok []
  | x :: l => b ← p x; l' ← filterM p l; Ok (if truthy b then x :: l' else l')
  end.

(** [m.payment?.updatedAt] *)
Definition updatedAt (m : jval) : result jval :=
  p ← prop m "payment"; Ok (opt_prop p "updatedAt").

Definition getLatestPaymentUpdate (messages : jval) : result jval :=
  l ← as_array messages;
  messagesWithPayments ← filterM (fun m => prop m "payment") l;
  reduce_first (fun prev msg =>
    a ← updatedAt prev;
    b ← updatedAt msg;
    Ok (if gt_or0 a b then prev else msg)) messagesWithPayments.

Section LatestIds.
(** lodash's [orderBy(list, [key], ['desc'])]. *)
Context (orderByDesc : (jval -> jval) -> list jval -> list jval).

Definition getLatestMessageIdsForChats (messages myId : jval) : result obj :=
  let sortedMessages :=
    orderByDesc (fun m => opt_prop m "sentAt")
      (match messages with JArr l => l | _ => [] end) in
  foldM (fun readMsgIds msg =>
    info ← getChatInfoFromMessage msg myId;
    let chatId := to_str info.1 in
    if truthy (get chatId readMsgIds) then Ok readMsgIds
    else id ← prop msg "id"; Ok (set_prop chatId id readMsgIds)) [] sortedMessages.

Definition getLatestPaymentUpdateIdsForChats (messages myId : jval) : result obj :=
  l ← as_array messages;
  messagesWithPayments ← filterM (fun m => prop m "payment") l;
  let sortedMessages :=
    orderByDesc (fun m => opt_prop (opt_prop m "payment") "updatedAt")
      messagesWithPayments in
  foldM (fun readMsgIds msg =>
    info ← getChatInfoFromMessage msg myId;
    let chatId := to_str info.1 in
    if truthy (get chatId readMsgIds) then Ok readMsgIds
    else
      id ← prop msg "id";
      u ← updatedAt msg;
      Ok (set_prop chatId (JStr (to_str id +:+ "_" +:+ to_str (jor u num0))) readMsgIds))
    [] sortedMessages.

(** The documented contract: a reordering of the list. *)
Context (orderByDesc_perm : forall key l, orderByDesc key l ≡ₚ l).

(** A message that names its chat. *)
Definition addressed (m : jval) : bool :=
  match m with
  | JObj o => truthy (get "sentIn" o) || (truthy (get "sentTo" o) && truthy (get "sentBy" o))
  | _ => false
  end.

Lemma addressed_obj m : addressed m = true -> exists o, m = JObj o.
Proof. destruct m; try discriminate. eauto. Qed.

Lemma chat_info_ok m me :
  addressed m = true -> exists i, getChatInfoFromMessage m me = Ok i.
Proof.
  intros A. destruct (addressed_obj m A) as [o ->]. unfold getChatInfoFromMessage.
  simpl in *. destruct (truthy (get "sentIn" o)); simpl in *; [eauto|].
  rewrite A. eauto.
Qed.

Definition all_addressed (l : list jval) : Prop := Forall (fun m => addressed m = true) l.

Lemma addressed_elem m l : all_addressed l -> m ∈ l -> addressed m = true.
Proof. unfold all_addressed. rewrite list.Forall_forall. auto. Qed.

Lemma latest_ids_ok l me :
  all_addressed l -> exists ids, getLatestMessageIdsForChats (JArr l) me = Ok ids.
Proof.
  intros A. unfold getLatestMessageIdsForChats.
  destruct (foldM_ind (fun _ : obj => True) (fun readMsgIds msg =>
    info ← getChatInfoFromMessage msg me;
    let chatId := to_str info.1 in
    if truthy (get chatId readMsgIds) then Ok readMsgIds
    else id ← prop msg "id"; Ok (set_prop chatId id readMsgIds))
    (orderByDesc (fun m => opt_prop m "sentAt") l) []) as (b & E & _); [done | | eauto].
  intros b m Hm _. rewrite orderByDesc_perm in Hm.
  assert (Am : addressed m = true) by (by eapply addressed_elem).
  destruct (chat_info_ok m me Am) as [i ->]. destruct (addressed_obj m Am) as [o ->].
  simpl. case_match; eauto.
Qed.

Lemma filter_payment_ok l :
  all_addressed l -> exists l', filterM (fun m => prop m "payment") l = Ok l' /\ all_addressed l'.
Proof.
  induction 1 as [|m l A _ (l' & E & A')]; simpl; [exists []; split; [done | constructor]|].
  destruct (addressed_obj m A) as [o ->]. simpl. rewrite E. simpl.
  eexists; split; [done|]. case_match; [by constructor | done].
Qed.

Lemma latest_payment_ids_ok l me :
  all_addressed l -> exists ids, getLatestPaymentUpdateIdsForChats (JArr l) me = Ok ids.
Proof.
  intros A. unfold getLatestPaymentUpdateIdsForChats. simpl.
  destruct (filter_payment_ok l A) as (l' & -> & A'). simpl.
  match goal with |- exists ids, foldM ?f ?acc ?l = _ =>
    destruct (foldM_ind (fun _ : obj => True) f l acc) as (b & E & _); [done | | eauto] end.
  intros b m Hm _. rewrite orderByDesc_perm in Hm.
  assert (Am : addressed m = true) by (by eapply addressed_elem).
  destruct (chat_info_ok m me Am) as [i ->]. destruct (addressed_obj m Am) as [o ->].
  simpl. case_match; eauto.
Qed.
End LatestIds.

(** The [reduce] of the two [getLatest] queries never throws on objects, and
    yields [null] or one of them. *)
Lemma reduce_first_ok f l :
  Forall (fun m => exists o, m = JObj o) l ->
  (forall o o', exists m, f (JObj o) (JObj o') = Ok m /\ (m = JObj o \/ m = JObj o')) ->
  exists r, reduce_first f l = Ok r /\ (r = JNull \/ exists o, r = JObj o /\ JObj o ∈ l).
Proof.
  intros F Hf. unfold reduce_first. destruct F as [|m l [o ->] F].
  { simpl. eauto. }
  destruct (foldM_ind (fun m => exists o', m = JObj o' /\ JObj o' ∈ JObj o :: l) f
              (JObj o :: l) (JObj o)) as (b & E & o' & -> & Ho').
  - exists o. split; [done | left].
  - intros b a Ha (o1 & -> & Ho1).
    assert (exists o2, a = JObj o2) as [o2 ->].
    { apply elem_of_cons in Ha as [->|Ha]; [eauto|]. rewrite list.Forall_forall in F. auto. }
    destruct (Hf o1 o2) as (m & -> & [-> | ->]); eauto.
  - change (default JUndef (head (JObj o :: l))) with (JObj o). rewrite E. simpl.
    exists (JObj o'). eauto.
Qed.

Lemma all_addressed_obj l : all_addressed l -> Forall (fun m => exists o, m = JObj o) l.
Proof. intros A. eapply list.Forall_impl; [exact A|]. apply addressed_obj. Qed.

Lemma getLatestMessage_ok l :
  all_addressed l ->
  exists r, getLatestMessage (JArr l) = Ok r /\ (r = JNull \/ exists o, r = JObj o /\ JObj o ∈ l).
Proof.
  intros A. unfold getLatestMessage. simpl. apply reduce_first_ok; [by apply all_addressed_obj|].
  intros o o'. simpl. eexists. split; [done|]. case_match; auto.
Qed.

Lemma getLatestPaymentUpdate_ok l :
  all_addressed l ->
  exists r, getLatestPaymentUpdate (JArr l) = Ok r /\ (r = JNull \/ exists o, r = JObj o).
Proof.
  intros A. unfold getLatestPaymentUpdate. simpl.
  destruct (filter_payment_ok l A) as (l' & -> & A'). simpl.
  match goal with |- exists r, reduce_first ?f _ = _ /\ _ =>
    destruct (reduce_first_ok f l') as (r & E & Hr) end.
  - by apply all_addressed_obj.
  - intros o o'. simpl. eexists. split; [done|]. case_match; auto.
  - exists r. split; [done|]. destruct Hr as [->|(o & -> & _)]; eauto.
Qed.
