(* ===== verification/Storage.v ===== *)
(** The persisted state: [ui/common/utils/storage.ts].

    [transformStateToStorage] projects the Redux state to the stored document,
    [hasStorageStateChanged] decides when it must be saved again, and
    [migrateStoredState] brings a document of any past version to the current
    one by running the blocks [0 -> 1], ..., [48 -> 49] in order, each guarded
    by the version the previous ones left. *)
From Stdlib Require Import ZArith Lia.
From stdpp Require Import base tactics strings list option.
From S2P Require Import Prelude JsNum Js Chat.

(** The root state: slice name, then field name.  [combineReducers] makes every
    slice present. *)
Definition CommonState := string -> obj.

Definition field (s : CommonState) (slice k : string) : jval := get k (s slice).

Definition version_of (st : obj) : jval := get "version" st.
Definition vnum (n : Z) : jval := JNum (of_Z n).

(** [{ ...st, k1: v1, ..., kn: vn }] *)
Definition assign (st : obj) (kvs : obj) : obj := spread st kvs.

Definition transformStateToStorage (state : CommonState) : obj :=
  let env := field state "environment" in
  let cur := field state "currency" in
  let fed := field state "federation" in
  let matrix := field state "matrix" in
  let mod_ := field state "mod" in
  assign [] [
    ("version", vnum 49);
    ("onchainDepositsEnabled", env "onchainDepositsEnabled");
    ("developerMode", env "developerMode");
    ("stableBalanceEnabled", env "stableBalanceEnabled");
    ("language", env "language");
    ("amountInputType", env "amountInputType");
    ("transactionDisplayType", env "transactionDisplayType");
    ("deviceId", env "deviceId");
    ("currency", cur "overrideCurrency");
    ("btcUsdRate", cur "btcUsdRate");
    ("fiatUsdRates", cur "fiatUsdRates");
    ("customFederationCurrencies", cur "customFederationCurrencies");
    ("authenticatedGuardian", fed "authenticatedGuardian");
    ("customFediMods", fed "customFediMods");
    ("nuxSteps", field state "nux" "steps");
    ("personalBackupReminder", JObj [
      ("countdownStartedAt", field state "personalBackupReminder" "countdownStartedAt");
      ("hasReachedThresholds", field state "personalBackupReminder" "hasReachedThresholds")]);
    ("matrixAuth", matrix "auth");
    ("protectedFeatures", field state "security" "protectedFeatures");
    ("customGlobalMods", mod_ "customGlobalMods");
    ("miniAppPermissions", mod_ "miniAppPermissions");
    ("miniAppOrder", mod_ "miniAppOrder");
    ("modVisibility", mod_ "modVisibility");
    ("newMods", mod_ "newMods");
    ("chatDrafts", matrix "drafts");
    ("support", JObj [
      ("supportPermissionGranted", field state "support" "supportPermissionGranted");
      ("zendeskPushNotificationToken", field state "support" "zendeskPushNotificationToken")]);
    ("seenFederationRatings", fed "seenFederationRatings");
    ("lastShownSurveyTimestamp", field state "survey" "lastShownSurveyTimestamp");
    ("surveyCompletions", field state "survey" "surveyCompletions");
    ("lastSelectedCommunityId", fed "lastSelectedCommunityId");
    ("recentlyUsedFederationIds", fed "recentlyUsedFederationIds");
    ("previouslyAutojoinedCommunities", fed "previouslyAutojoinedCommunities");
    ("autojoinNoticesToDisplay", fed "autojoinNoticesToDisplay");
    ("analyticsId", field state "analytics" "analyticsId");
    ("hasConsentedToAnalytics", field state "analytics" "hasConsentedToAnalytics");
    ("sessionCount", env "sessionCount");
    ("hasSeenAnalyticsConsentModal", field state "analytics" "hasSeenAnalyticsConsentModal");
    ("balanceDisplay", cur "balanceDisplay");
    ("lastUsedTab", env "lastUsedTab");
    ("rejectedRoomInvites", matrix "rejectedRoomInvites");
    ("seenRoomInvites", matrix "seenRoomInvites");
    ("seenKnockRequests", matrix "seenKnockRequests");
    ("paymentType", env "paymentType");
    ("selectedFederationId", fed "selectedFederationId");
    ("latestAwareReleaseTag", env "latestAwareReleaseTag")
  ]%string.

Definition keysetsToCheck : list (string * string) := [
  ("environment", "language");
  ("environment", "amountInputType");
  ("environment", "onchainDepositsEnabled");
  ("environment", "developerMode");
  ("environment", "stableBalanceEnabled");
  ("environment", "transactionDisplayType");
  ("environment", "deviceId");
  ("environment", "sessionCount");
  ("environment", "lastUsedTab");
  ("environment", "paymentType");
  ("environment", "latestAwareReleaseTag");
  ("currency", "overrideCurrency");
  ("currency", "customFederationCurrencies");
  ("currency", "prices");
  ("currency", "balanceDisplay");
  ("federation", "recentlyUsedFederationIds");
  ("federation", "lastSelectedCommunityId");
  ("federation", "authenticatedGuardian");
  ("federation", "seenFederationRatings");
  ("federation", "previouslyAutojoinedCommunities");
  ("federation", "autojoinNoticesToDisplay");
  ("federation", "selectedFederationId");
  ("matrix", "drafts");
  ("matrix", "rejectedRoomInvites");
  ("matrix", "seenRoomInvites");
  ("matrix", "seenKnockRequests");
  ("federation", "customFediMods");
  ("matrix", "auth");
  ("nux", "steps");
  ("personalBackupReminder", "countdownStartedAt");
  ("personalBackupReminder", "hasReachedThresholds");
  ("security", "protectedFeatures");
  ("mod", "customGlobalMods");
  ("mod", "miniAppOrder");
  ("mod", "modVisibility");
  ("mod", "newMods");
  ("mod", "miniAppPermissions");
  ("support", "supportPermissionGranted");
  ("support", "zendeskPushNotificationToken");
  ("survey", "lastShownSurveyTimestamp");
  ("survey", "surveyCompletions");
  ("analytics", "analyticsId");
  ("analytics", "hasConsentedToAnalytics");
  ("analytics", "hasSeenAnalyticsConsentModal")
]%string.

Section Changed.
(** [===] on two values of the state: identity of references for objects. *)
Context (ref_eq : jval -> jval -> bool).

Definition hasStorageStateChanged (oldState newState : CommonState) : bool :=
  existsb (fun '(slice, k) => negb (ref_eq (field oldState slice k) (field newState slice k)))
    keysetsToCheck.
End Changed.

(** [a === b] on strings, numbers, [null] and [undefined]; two objects taken
    from different places are never identical. *)
Definition strict_eq (a b : jval) : bool :=
  match a, b with
  | JNum x, JNum y => eqb x y
  | JArr _, _ | JObj _, _ => false
  | _, _ => bool_decide (a = b)
  end.

(** [l.find(m => m.id === id)] *)
Fixpoint find_id (id : jval) (l : list jval) : result jval :=
  match l with
  | [] => Ok JUndef
  | m :: l => i ← prop m "id"; if strict_eq i id then Ok m else find_id id l
  end.

(** A callback of [Object.entries(o).reduce((acc, [k, v]) => ..., init)]. *)
Definition reduce_entries (f : obj -> string -> jval -> result obj) (init : obj) (v : jval)
    : result obj :=
  es ← entries v; foldM (fun acc kv => f acc kv.1 kv.2) init es.

(** [v[0]] *)
Definition prop_index0 (v : jval) : result jval :=
  match v with
  | JUndef | JNull => Throw type_error
  | _ => Ok (get "0" (own_props v))
  end.

(** [HomeNavigationTab.Home] *)
Definition HomeTab : jval := JStr "home".

Section Migrations.
(** [storage.getItem], [Date.now()] and lodash's [orderBy] and [omit]. *)
Context (getItem : string -> option string) (now : num).
Context (orderByDesc : (jval -> jval) -> list jval -> list jval).
Context (omit : obj -> list string -> obj).

Definition migrate_0 (st : obj) : result obj :=
  Ok (assign st [("version", vnum 1); ("language", JNull); ("currency", JNull);
    ("activeFederationId", JNull); ("authenticatedGuardian", JNull);
    ("chatIdentities", JObj [])]%string).

Definition migrate_1 (st : obj) : result obj :=
  let chatIdentities := get "chatIdentities" st in
  let rest := del_prop "chatIdentities" st in
  chat ← reduce_entries (fun chat federationId authenticatedMember =>
    Ok (if truthy authenticatedMember then
          set_prop federationId (JObj [("authenticatedMember", authenticatedMember);
            ("messages", JArr []); ("groups", JArr []); ("members", JArr []);
            ("lastFetchedMessageId", JNull)]%string) chat
        else chat)) [] chatIdentities;
  Ok (assign rest [("version", vnum 2); ("chat", JObj chat)]%string).

(** [chatState.authenticatedMember?.id] *)
Definition my_id (chatState : jval) : result jval :=
  a ← prop chatState "authenticatedMember"; Ok (opt_prop a "id").

Definition chat_2 (prevChat : obj) (federationId : string) (chatState : jval) : result obj :=
  if negb (truthy chatState) then Ok prevChat else
  myId ← my_id chatState;
  if negb (truthy myId) then Ok prevChat else
  messages ← prop chatState "messages";
  lastReadMessageIds ← getLatestMessageIdsForChats orderByDesc messages myId;
  latest ← getLatestMessage messages;
  let lastSeenMessageId := jor (opt_prop latest "id") JNull in
  Ok (set_prop federationId (JObj (assign (own_props chatState)
        [("lastReadMessageIds", JObj lastReadMessageIds);
         ("lastSeenMessageId", lastSeenMessageId)]%string)) prevChat).

Definition migrate_2 (st : obj) : result obj :=
  newChat ← reduce_entries chat_2 [] (get "chat" st);
  Ok (assign st [("version", vnum 3); ("chat", JObj newChat)]%string).

Definition role_3 (prevGroup : obj) (groupId : string) (role : jval) : result obj :=
  if negb (truthy role) then Ok prevGroup
  else Ok [(groupId, JStr (if decide (role = JStr "moderator") then "owner" else "none"))].

Definition chat_3 (prevChat : obj) (federationId : string) (chatState : jval) : result obj :=
  if negb (truthy chatState) then Ok prevChat else
  groupRoles ← prop chatState "groupRoles";
  if negb (truthy groupRoles) then Ok prevChat else
  groupAffiliations ← reduce_entries role_3 [] groupRoles;
  Ok (set_prop federationId (JObj (assign (own_props chatState)
        [("groupAffiliations", JObj groupAffiliations)]%string)) prevChat).

Definition migrate_3 (st : obj) : result obj :=
  newChat ← reduce_entries chat_3 [] (get "chat" st);
  Ok (assign st [("version", vnum 4); ("chat", JObj newChat)]%string).

Definition migrate_4 (st : obj) : result obj :=
  Ok (assign st [("version", vnum 5); ("externalMeta", JObj [])]%string).

Definition migrate_5 (st : obj) : result obj :=
  Ok (assign st [("version", vnum 6); ("btcExchangeRates", JObj [])]%string).

Definition migrate_6 (st : obj) : result obj :=
  Ok (assign st [("version", vnum 7); ("onchainDepositsEnabled", JBool false);
    ("developerMode", JBool false)]%string).

Definition migrate_7 (st : obj) : result obj :=
  let btcExchangeRates := get "btcExchangeRates" st in
  let rest := del_prop "btcExchangeRates" st in
  usd ← prop btcExchangeRates "USD";
  let btcUsdRate := jor usd num0 in
  Ok (assign rest [("version", vnum 8); ("btcUsdRate", btcUsdRate);
    ("fiatUsdRates", JObj [])]%string).

Definition migrate_8 (st : obj) : result obj :=
  Ok (assign st [("version", vnum 9); ("stableBalanceEnabled", JBool false)]%string).

Definition chat_9 (prevChat : obj) (federationId : string) (chatState : jval) : result obj :=
  if negb (truthy chatState) then Ok prevChat else
  myId ← my_id chatState;
  if negb (truthy myId) then Ok prevChat else
  messages ← prop chatState "messages";
  lastReadPaymentUpdateIds ← getLatestPaymentUpdateIdsForChats orderByDesc messages myId;
  lastSeenPaymentUpdate ← getLatestPaymentUpdate messages;
  let id := opt_prop lastSeenPaymentUpdate "id" in
  let updated := opt_prop (opt_prop lastSeenPaymentUpdate "payment") "updatedAt" in
  let lastSeenPaymentUpdateId :=
    if truthy id then JStr (to_str id +:+ "_" +:+ to_str (jor updated num0)) else JNull in
  Ok (set_prop federationId (JObj (assign (own_props chatState)
        [("lastReadPaymentUpdateIds", JObj lastReadPaymentUpdateIds);
         ("lastSeenPaymentUpdateId", lastSeenPaymentUpdateId)]%string)) prevChat).

Definition migrate_9 (st : obj) : result obj :=
  newChat ← reduce_entries chat_9 [] (get "chat" st);
  Ok (assign st [("version", vnum 10); ("chat", JObj newChat)]%string).

Definition migrate_10 (st : obj) : result obj :=
  Ok (assign st [("version", vnum 11); ("nuxSteps", JObj [])]%string).

Definition chat_11 (prevChat : obj) (federationId : string) (chatState : jval) : result obj :=
  if negb (truthy chatState) then Ok prevChat else
  groups ← prop chatState "groups";
  gs ← as_array groups;
  groups' ← mapM_res (fun g =>
    ms ← prop chatState "messages";
    messages ← as_array ms;
    joinedAt ← foldM (fun joinedAt msg =>
      sentIn ← prop msg "sentIn";
      gid ← prop g "id";
      if negb (strict_eq sentIn gid) then Ok joinedAt
      else sentAt ← prop msg "sentAt"; Ok (min2 joinedAt (to_num sentAt))) now messages;
    Ok (JObj (assign (own_props g) [("joinedAt", JNum joinedAt)]%string))) gs;
  Ok (set_prop federationId (JObj (assign (own_props chatState)
        [("groups", JArr groups')]%string)) prevChat).

Definition migrate_11 (st : obj) : result obj :=
  let oldChat := get "chat" st in
  newChat ← reduce_entries chat_11 (own_props oldChat) oldChat;
  Ok (assign st [("version", vnum 12); ("chat", JObj newChat)]%string).

Definition migrate_12 (st : obj) : result obj :=
  Ok (assign st [("version", vnum 13); ("showFiatTxnAmounts", JBool true)]%string).

(** [u && u.payment?.updatedAt && u.payment?.updatedAt > m.sentAt] decides
    between the two timestamps. *)
Definition later_timestamp (update : jval) (sentAt : jval) : jval :=
  let u := opt_prop (opt_prop update "payment") "updatedAt" in
  if truthy update && truthy u && ltb (to_num sentAt) (to_num u) then u else sentAt.

Definition read_timestamp_13 (messages : list jval) (lastReadMessageIds : obj)
    (lastReadPaymentUpdateIds : jval) (res : obj) (chatId : string) : result obj :=
  let msgId := get chatId lastReadMessageIds in
  paymentUpdateId ← prop lastReadPaymentUpdateIds chatId;
  lastReadMessage ← find_id msgId messages;
  lastReadPaymentUpdate ← find_id paymentUpdateId messages;
  if truthy lastReadMessage then
    sentAt ← prop lastReadMessage "sentAt";
    Ok (set_prop chatId (later_timestamp lastReadPaymentUpdate sentAt) res)
  else Ok res.

Definition chat_13 (prevChat : obj) (federationId : string) (chatState : jval) : result obj :=
  if negb (truthy chatState) then Ok prevChat else
  myId ← my_id chatState;
  if negb (truthy myId) then Ok prevChat else
  lastReadMessageIds ← prop chatState "lastReadMessageIds";
  lastReadPaymentUpdateIds ← prop chatState "lastReadPaymentUpdateIds";
  lastSeenMessageId ← prop chatState "lastSeenMessageId";
  lastSeenPaymentUpdateId ← prop chatState "lastSeenPaymentUpdateId";
  ids ← entries lastReadMessageIds;
  ms ← prop chatState "messages";
  lastReadMessageTimestamps ← foldM (fun res kv =>
    messages ← as_array ms;
    read_timestamp_13 messages ids lastReadPaymentUpdateIds res kv.1) [] ids;
  messages ← as_array ms;
  lastSeenMessage ← find_id lastSeenMessageId messages;
  lastSeenPaymentUpdate ← find_id lastSeenPaymentUpdateId messages;
  lastSeenMessageTimestamp ←
    (if truthy lastSeenMessage then
       sentAt ← prop lastSeenMessage "sentAt";
       Ok (later_timestamp lastSeenPaymentUpdate sentAt)
     else Ok JNull);
  let migratedChatState := omit (own_props chatState)
    ["lastReadMessageIds"; "lastReadPaymentUpdateIds"; "lastSeenMessageId";
     "lastSeenPaymentUpdateId"]%string in
  Ok (set_prop federationId (JObj (assign migratedChatState
        [("lastReadMessageTimestamps", JObj lastReadMessageTimestamps);
         ("lastSeenMessageTimestamp", lastSeenMessageTimestamp)]%string)) prevChat).

Definition migrate_13 (st : obj) : result obj :=
  newChat ← reduce_entries chat_13 [] (get "chat" st);
  Ok (assign st [("version", vnum 14); ("chat", JObj newChat)]%string).

Definition migrate_14 (st : obj) : result obj :=
  Ok (assign st [("version", vnum 15); ("matrixAuth", JNull)]%string).

(** [legacyDeviceId || undefined] *)
Definition migrate_15 (st : obj) : result obj :=
  let legacyDeviceId := match getItem "deviceId" with Some s => JStr s | None => JNull end in
  Ok (assign st [("version", vnum 16); ("deviceId", jor legacyDeviceId JUndef)]%string).

Definition migrate_16 (st : obj) : result obj :=
  Ok (assign st [("version", vnum 17);
    ("protectedFeatures", JObj [("app", JBool true); ("changePin", JBool true)])]%string).

Definition migrate_17 (st : obj) : result obj :=
  Ok (assign st [("version", vnum 18); ("customGlobalMods", JObj []);
    ("customGlobalModVisibility", JObj []); ("suggestedGlobalModVisibility", JObj [])]%string).

Definition migrate_18 (st : obj) : result obj :=
  let customGlobalModVisibility := get "customGlobalModVisibility" st in
  let suggestedGlobalModVisibility := get "suggestedGlobalModVisibility" st in
  let rest := del_props ["customGlobalModVisibility"; "suggestedGlobalModVisibility"]%string st in
  suggested ← reduce_entries (fun acc modId visibility =>
    Ok (set_prop modId (JObj (assign (own_props visibility)
          [("isGlobal", JBool true)]%string)) acc))
    [] (nullish suggestedGlobalModVisibility (JObj []));
  mods ← reduce_entries (fun acc modId m =>
    Ok (if negb (truthy m) then acc
        else set_prop modId
               (JObj [("isHidden", JBool false); ("isCustom", JBool true)]%string) acc))
    [] (nullish (get "customGlobalMods" st) (JObj []));
  custom ← reduce_entries (fun acc modId visibility =>
    Ok (if negb (truthy visibility) then acc
        else set_prop modId (JObj (assign (own_props visibility)
               [("isCustom", JBool true)]%string)) acc))
    [] (nullish customGlobalModVisibility (JObj []));
  Ok (assign rest [("version", vnum 19);
    ("modVisibility", JObj (spread (spread (spread [] suggested) mods) custom))]%string).

Definition migrate_19 (st : obj) : result obj :=
  Ok (assign st [("version", vnum 20);
    ("protectedFeatures", JObj (assign (own_props (get "protectedFeatures" st))
       [("nostrSettings", JBool true)]))]%string).

Definition migrate_20 (st : obj) : result obj :=
  Ok (assign (del_prop "chat" st) [("version", vnum 21)]%string).

Definition migrate_21 (st : obj) : result obj :=
  Ok (assign st [("version", vnum 22);
    ("support", JObj [("supportPermissionGranted", JBool false);
                      ("zendeskPushNotificationToken", JNull)])]%string).

Definition migrate_22 (st : obj) : result obj :=
  Ok (assign st [("version", vnum 23); ("customFederationCurrencies", JObj [])]%string).

Definition migrate_23 (st : obj) : result obj :=
  Ok (assign st [("version", vnum 24);
    ("nuxSteps", JObj (assign (own_props (get "nuxSteps" st))
       [("displayNameModal", JBool true); ("communityModal", JBool true);
        ("chatModal", JBool true); ("modsModal", JBool true)]))]%string).

Definition migrate_24 (st : obj) : result obj :=
  Ok (assign st [("version", vnum 25); ("chatDrafts", JObj [])]%string).

Definition migrate_25 (st : obj) : result obj :=
  Ok (assign st [("version", vnum 26); ("seenFederationRatings", JArr [])]%string).

Definition migrate_26 (st : obj) : result obj :=
  Ok (assign st [("version", vnum 27); ("lastShownSurveyTimestamp", vnum (-1))]%string).

Definition migrate_27 (st : obj) : result obj :=
  Ok (assign (del_prop "activeFederationId" st) [("version", vnum 28);
    ("lastUsedFederationId", JNull); ("lastSelectedCommunityId", JNull)]%string).

Definition migrate_28 (st : obj) : result obj :=
  Ok (assign (del_props ["externalMeta"; "version"]%string st) [("version", vnum 29)]%string).

Definition migrate_29 (st : obj) : result obj :=
  Ok (assign st [("version", vnum 30); ("previouslyAutojoinedCommunities", JObj [])]%string).

Definition migrate_30 (st : obj) : result obj :=
  Ok (assign st [("version", vnum 31); ("autojoinNoticesToDisplay", JArr [])]%string).

Definition migrate_31 (st : obj) : result obj :=
  let last := get "lastUsedFederationId" st in
  Ok (assign st [("version", vnum 32);
    ("recentlyUsedFederationIds", if truthy last then JArr [last] else JArr [])]%string).

Definition migrate_32 (st : obj) : result obj :=
  Ok (assign st [("version", vnum 33); ("analyticsId", JNull);
    ("hasConsentedToAnalytics", JNull); ("sessionCount", vnum 0)]%string).

Definition migrate_33 (st : obj) : result obj :=
  Ok (assign st [("version", vnum 34); ("hasSeenAnalyticsConsentModal", JBool false)]%string).

Definition migrate_34 (st : obj) : result obj :=
  Ok (assign st [("version", vnum 35); ("showFiatTotalBalance", JBool false)]%string).

Definition migrate_35 (st : obj) : result obj :=
  Ok (assign st [("version", vnum 36); ("surveyCompletions", JObj []);
    ("lastShownSurveyTimestamp", vnum (-1))]%string).

Definition migrate_36 (st : obj) : result obj :=
  Ok (assign st [("version", vnum 37);
    ("transactionDisplayType",
     JStr (if decide (get "showFiatTxnAmounts" st = JBool false) then "sats" else "fiat"))]%string).

Definition migrate_37 (st : obj) : result obj :=
  Ok (assign st [("version", vnum 38); ("newMods", JArr [])]%string).

Definition migrate_38 (st : obj) : result obj :=
  Ok (assign st [("version", vnum 39); ("miniAppPermissions", JObj [])]%string).

Definition migrate_39 (st : obj) : result obj :=
  Ok (assign st [("version", vnum 40); ("miniAppOrder", JArr [])]%string).

Definition migrate_40 (st : obj) : result obj :=
  Ok (assign (del_prop "showFiatTotalBalance" st) [("version", vnum 41);
    ("balanceDisplay", JStr "sats")]%string).

Definition migrate_41 (st : obj) : result obj :=
  Ok (assign st [("version", vnum 42); ("lastUsedTab", HomeTab)]%string).

Definition migrate_42 (st : obj) : result obj :=
  Ok (assign st [("version", vnum 43); ("rejectedRoomInvites", JArr [])]%string).

Definition migrate_43 (st : obj) : result obj :=
  selected ← prop_index0 (get "recentlyUsedFederationIds" st);
  Ok (assign st [("version", vnum 44); ("paymentType", JStr "bitcoin");
    ("selectedFederationId", nullish selected JNull)]%string).

Definition migrate_44 (st : obj) : result obj :=
  Ok (assign st [("version", vnum 45); ("seenRoomInvites", JArr [])]%string).

Definition migrate_45 (st : obj) : result obj :=
  Ok (assign st [("version", vnum 46); ("latestAwareReleaseTag", JNull)]%string).

Definition migrate_46 (st : obj) : result obj :=
  Ok (assign st [("version", vnum 47); ("seenKnockRequests", JObj [])]%string).

Definition migrate_47 (st : obj) : result obj :=
  Ok (assign st [("version", vnum 48);
    ("protectedFeatures", JObj (assign (own_props (get "protectedFeatures" st))
       [("personalBackup", JBool true)]))]%string).

Definition migrate_48 (st : obj) : result obj :=
  Ok (assign st [("version", vnum 49);
    ("personalBackupReminder", JObj [("countdownStartedAt", JNull);
                                     ("hasReachedThresholds", JBool false)])]%string).

Definition migrations : list (obj -> result obj) := [
  migrate_0; migrate_1; migrate_2; migrate_3; migrate_4; migrate_5; migrate_6; migrate_7;
  migrate_8; migrate_9; migrate_10; migrate_11; migrate_12; migrate_13; migrate_14;
  migrate_15; migrate_16; migrate_17; migrate_18; migrate_19; migrate_20; migrate_21;
  migrate_22; migrate_23; migrate_24; migrate_25; migrate_26; migrate_27; migrate_28;
  migrate_29; migrate_30; migrate_31; migrate_32; migrate_33; migrate_34; migrate_35;
  migrate_36; migrate_37; migrate_38; migrate_39; migrate_40; migrate_41; migrate_42;
  migrate_43; migrate_44; migrate_45; migrate_46; migrate_47; migrate_48 ].

(** [if (migrationState.version === n) { migrationState = ... }] *)
Definition has_version (n : Z) (st : obj) : bool := bool_decide (version_of st = vnum n).

Definition run_block (n : nat) (f : obj -> result obj) (st : obj) : result obj :=
  if has_version (Z.of_nat n) st then f st else Ok st.

(** The blocks from the [n]-th on. *)
Fixpoint run_blocks (n : nat) (fs : list (obj -> result obj)) (st : obj) : result obj :=
  match fs with
  | [] => Ok st
  | f :: fs => st' ← run_block n f st; run_blocks (S n) fs st'
  end.

Definition migrateStoredState (state : obj) : result obj :=
  run_blocks 0 migrations (spread [] state).
End Migrations.

(** ** What each block deletes and assigns *)

Definition forms : list (list string * list string) := [
  ([], ["version"; "language"; "currency"; "activeFederationId"; "authenticatedGuardian";
        "chatIdentities"]);
  (["chatIdentities"], ["version"; "chat"]);
  ([], ["version"; "chat"]);
  ([], ["version"; "chat"]);
  ([], ["version"; "externalMeta"]);
  ([], ["version"; "btcExchangeRates"]);
  ([], ["version"; "onchainDepositsEnabled"; "developerMode"]);
  (["btcExchangeRates"], ["version"; "btcUsdRate"; "fiatUsdRates"]);
  ([], ["version"; "stableBalanceEnabled"]);
  ([], ["version"; "chat"]);
  ([], ["version"; "nuxSteps"]);
  ([], ["version"; "chat"]);
  ([], ["version"; "showFiatTxnAmounts"]);
  ([], ["version"; "chat"]);
  ([], ["version"; "matrixAuth"]);
  ([], ["version"; "deviceId"]);
  ([], ["version"; "protectedFeatures"]);
  ([], ["version"; "customGlobalMods"; "customGlobalModVisibility";
        "suggestedGlobalModVisibility"]);
  (["customGlobalModVisibility"; "suggestedGlobalModVisibility"], ["version"; "modVisibility"]);
  ([], ["version"; "protectedFeatures"]);
  (["chat"], ["version"]);
  ([], ["version"; "support"]);
  ([], ["version"; "customFederationCurrencies"]);
  ([], ["version"; "nuxSteps"]);
  ([], ["version"; "chatDrafts"]);
  ([], ["version"; "seenFederationRatings"]);
  ([], ["version"; "lastShownSurveyTimestamp"]);
  (["activeFederationId"], ["version"; "lastUsedFederationId"; "lastSelectedCommunityId"]);
  (["externalMeta"; "version"], ["version"]);
  ([], ["version"; "previouslyAutojoinedCommunities"]);
  ([], ["version"; "autojoinNoticesToDisplay"]);
  ([], ["version"; "recentlyUsedFederationIds"]);
  ([], ["version"; "analyticsId"; "hasConsentedToAnalytics"; "sessionCount"]);
  ([], ["version"; "hasSeenAnalyticsConsentModal"]);
  ([], ["version"; "showFiatTotalBalance"]);
  ([], ["version"; "surveyCompletions"; "lastShownSurveyTimestamp"]);
  ([], ["version"; "transactionDisplayType"]);
  ([], ["version"; "newMods"]);
  ([], ["version"; "miniAppPermissions"]);
  ([], ["version"; "miniAppOrder"]);
  (["showFiatTotalBalance"], ["version"; "balanceDisplay"]);
  ([], ["version"; "lastUsedTab"]);
  ([], ["version"; "rejectedRoomInvites"]);
  ([], ["version"; "paymentType"; "selectedFederationId"]);
  ([], ["version"; "seenRoomInvites"]);
  ([], ["version"; "latestAwareReleaseTag"]);
  ([], ["version"; "seenKnockRequests"]);
  ([], ["version"; "protectedFeatures"]);
  ([], ["version"; "personalBackupReminder"]) ]%string.

(** The keys that the blocks from version [n] on write or delete. *)
Definition touched (n : nat) : list string :=
  mjoin ((fun f => f.1 ++ f.2) <$> drop n forms).

Definition has_form (n : nat) (f : obj -> result obj) (form : list string * list string) : Prop :=
  forall st st', f st = Ok st' -> exists kvs,
    st' = assign (del_props form.1 st) (("version"%string, vnum (Z.of_nat n + 1)) :: kvs) /\
    keys (("version"%string, vnum (Z.of_nat n + 1)) :: kvs) = form.2.

Lemma lookup_dels ks k st :
  k ∉ ks -> lookup_prop k (del_props ks st) = lookup_prop k st.
Proof.
  induction ks as [|k' ks IH]; intros H; simpl; [done|].
  apply not_elem_of_cons in H as [H1 H2]. rewrite lookup_del_ne by done. auto.
Qed.

Lemma last_prop_None k p : k ∉ keys p -> last_prop k p = None.
Proof.
  unfold keys. induction p as [|[k' v] p IH]; csimpl; [done|].
  intros [N1 N2]%not_elem_of_cons. rewrite IH by done. by rewrite decide_False.
Qed.

Section MigrationFacts.
Context (getItem : string -> option string) (now : num).
Context (orderByDesc : (jval -> jval) -> list jval -> list jval).
Context (omit : obj -> list string -> obj).

Abbreviation blocks := (migrations getItem now orderByDesc omit).

Lemma blocks_forms n f form :
  blocks !! n = Some f -> forms !! n = Some form -> has_form n f form.
Proof.
  intros Hf Hform st st' H.
  do 49 (destruct n as [|n];
    [ injection Hf as <-; injection Hform as <-; cbv beta in H;
      unfold migrate_0, migrate_1, migrate_2, migrate_3, migrate_4, migrate_5, migrate_6,
        migrate_7, migrate_8, migrate_9, migrate_10, migrate_11, migrate_12, migrate_13,
        migrate_14, migrate_15, migrate_16, migrate_17, migrate_18, migrate_19, migrate_20,
        migrate_21, migrate_22, migrate_23, migrate_24, migrate_25, migrate_26, migrate_27,
        migrate_28, migrate_29, migrate_30, migrate_31, migrate_32, migrate_33, migrate_34,
        migrate_35, migrate_36, migrate_37, migrate_38, migrate_39, migrate_40, migrate_41,
        migrate_42, migrate_43, migrate_44, migrate_45, migrate_46, migrate_47, migrate_48 in H;
      inv_ok;
      match goal with |- exists kvs, assign _ (_ :: ?l) = _ /\ _ =>
        exists l; split; [apply f_equal2; reflexivity | reflexivity] end
    | ]).
  discriminate Hf.
Qed.
Lemma get_assign_version n kvs st :
  keys (("version"%string, vnum n) :: kvs) !! 0 = Some "version"%string ->
  "version"%string ∉ keys kvs ->
  version_of (assign st (("version"%string, vnum n) :: kvs)) = vnum n.
Proof.
  intros _ H. unfold version_of, get, assign. rewrite lookup_spread.
  cbn [last_prop]. rewrite last_prop_None by done. by rewrite decide_True.
Qed.

Lemma forms_version n form : forms !! n = Some form ->
  exists ks, form.2 = "version"%string :: ks /\ "version"%string ∉ ks.
Proof.
  intros H. do 49 (destruct n as [|n];
    [injection H as <-; eexists; split; [reflexivity|];
     apply (bool_decide_unpack _); vm_compute; exact I|]).
  discriminate H.
Qed.

Lemma length_forms : length forms = 49.
Proof. reflexivity. Qed.
Lemma length_blocks : length blocks = 49.
Proof. reflexivity. Qed.

Lemma block_form n f : blocks !! n = Some f -> exists form, forms !! n = Some form.
Proof.
  intros H%lookup_lt_Some. rewrite length_blocks in H.
  apply lookup_lt_is_Some. by rewrite length_forms.
Qed.

Lemma block_version n f st st' :
  blocks !! n = Some f -> f st = Ok st' -> version_of st' = vnum (Z.of_nat n + 1).
Proof.
  intros Hf H. destruct (block_form n f Hf) as [form Hform].
  destruct (blocks_forms n f form Hf Hform st st' H) as (kvs & -> & Hk).
  destruct (forms_version n form Hform) as (ks & E & N). rewrite E in Hk.
  apply get_assign_version; [done|]. unfold keys in *. csimpl in Hk. congruence.
Qed.

Lemma block_frame n f form st st' k :
  blocks !! n = Some f -> forms !! n = Some form -> f st = Ok st' ->
  k ∉ form.1 ++ form.2 -> lookup_prop k st' = lookup_prop k st.
Proof.
  intros Hf Hform H [N1 N2]%not_elem_of_app.
  destruct (blocks_forms n f form Hf Hform st st' H) as (kvs & -> & Hk).
  unfold assign. rewrite lookup_spread, last_prop_None by (by rewrite Hk).
  by apply lookup_dels.
Qed.

(** ** Versions drive the chain *)

Definition ver (n : nat) (st : obj) : Prop := version_of st = vnum (Z.of_nat n).

Lemma has_version_ver n m st :
  m <= 49 -> n <= 49 -> ver m st -> has_version (Z.of_nat n) st = bool_decide (n = m).
Proof.
  intros Hm Hn H. unfold has_version, ver, vnum in *. rewrite H. apply bool_decide_ext.
  split; [|by intros ->]. intros [= E]. apply of_Z_inj in E; unfold safe; lia.
Qed.

(** The blocks of later versions wait until their version is reached. *)
Lemma run_skip n m st :
  ver m st -> m <= 49 -> n <= m ->
  run_blocks n (drop n blocks) st = run_blocks m (drop m blocks) st.
Proof.
  intros Hv Hm Hn. remember (m - n) as d eqn:Ed. revert n Hn Ed.
  induction d as [|d IH]; intros n Hn Ed; [by replace n with m by lia|].
  assert (Hl : n < length blocks) by (rewrite length_blocks; lia).
  apply lookup_lt_is_Some in Hl as [f Hf]. rewrite (drop_S _ f) by done.
  cbn [run_blocks]. unfold run_block. rewrite (has_version_ver n m) by (lia || done).
  rewrite bool_decide_false by lia. rewrite bind_ok. apply IH; lia.
Qed.

Lemma run_at n f st :
  ver n st -> blocks !! n = Some f ->
  run_blocks n (drop n blocks) st = (st' ← f st; run_blocks (S n) (drop (S n) blocks) st').
Proof.
  intros Hv Hf. rewrite (drop_S _ f) by done. cbn [run_blocks]. unfold run_block.
  pose proof (lookup_lt_Some _ _ _ Hf) as L. rewrite length_blocks in L.
  rewrite (has_version_ver n n) by (lia || done). by rewrite bool_decide_true.
Qed.

Lemma ver_next n f st st' : blocks !! n = Some f -> f st = Ok st' -> ver (S n) st'.
Proof.
  intros Hf H. unfold ver. rewrite (block_version n f st st') by done. f_equal. f_equal. lia.
Qed.

(** Induction over the remaining versions: what every block establishes from
    one version to the next holds of the final document. *)
Lemma run_ind (P : nat -> obj -> Prop) n st st' :
  (forall m f s s', n <= m -> blocks !! m = Some f -> ver m s -> f s = Ok s' -> P m s -> P (S m) s') ->
  n <= 49 -> ver n st -> P n st ->
  run_blocks n (drop n blocks) st = Ok st' -> ver 49 st' /\ P 49 st'.
Proof.
  intros HP Hn Hv H0 H. remember (49 - n) as d eqn:Ed. revert n st HP Hn Hv H0 H Ed.
  induction d as [|d IH]; intros n st HP Hn Hv H0 H Ed.
  - replace n with 49 in * by lia. injection H as <-. done.
  - assert (Hl : n < length blocks) by (rewrite length_blocks; lia).
    apply lookup_lt_is_Some in Hl as [f Hf].
    rewrite (run_at n f) in H by done. apply bind_Ok_inv in H as (s1 & H1 & H2).
    apply (IH (S n) s1); [| lia | by eapply ver_next | by eapply HP | done | lia].
    intros m g s s' Hm. apply HP. lia.
Qed.
End MigrationFacts.

(** ** Shapes of old documents

    What the typed interfaces [StoredStateV0] ... [StoredStateV49] promise of the
    fields the blocks read. *)
Record chat_ok (n : nat) (c : obj) : Prop := {
  ok_messages : exists l, get "messages" c = JArr l /\ all_addressed l;
  ok_groups : n <= 11 -> exists l, get "groups" c = JArr l /\ Forall (fun g => exists o, g = JObj o) l;
  ok_read : 3 <= n -> exists o, get "lastReadMessageIds" c = JObj o;
  ok_pay : 10 <= n -> exists o, get "lastReadPaymentUpdateIds" c = JObj o }.

Definition entry_ok (n : nat) (v : jval) : Prop :=
  truthy v = true -> exists c, v = JObj c /\ chat_ok n c.

Definition vals_ok (n : nat) (o : obj) : Prop := Forall (fun kv => entry_ok n kv.2) o.

Record shape (n : nat) (st : obj) : Prop := {
  shape_version : ver n st;
  shape_identities : n = 1 -> exists o, get "chatIdentities" st = JObj o;
  shape_chat : 2 <= n <= 13 -> exists o, get "chat" st = JObj o /\ vals_ok n o;
  shape_rates : 6 <= n <= 7 -> exists o, get "btcExchangeRates" st = JObj o;
  shape_recent : 32 <= n <= 43 -> exists l, get "recentlyUsedFederationIds" st = JArr l }.

Lemma vals_ok_set n k v o : vals_ok n o -> entry_ok n v -> vals_ok n (set_prop k v o).
Proof.
  unfold vals_ok. intros H Hv.
  assert (R : Forall (fun kv => entry_ok n kv.2) (replace_prop k v o)).
  { induction H as [|[k' v'] o Hx H IH]; simpl; [constructor|]. by case_decide; constructor. }
  assert (I : forall i, Forall (fun kv => entry_ok n kv.2) (insert_index i k v o)).
  { intros i. clear R. induction H as [|[k' v'] o Hx H IH]; simpl; [by repeat constructor|].
    repeat case_match; repeat constructor; done. }
  unfold set_prop. repeat case_match; [done | done |].
  apply list.Forall_app. split; [done|]. by repeat constructor.
Qed.

Lemma reduce_entries_ok n m f init o :
  vals_ok n o -> vals_ok m init ->
  (forall acc k v, vals_ok m acc -> entry_ok n v -> exists acc', f acc k v = Ok acc' /\ vals_ok m acc') ->
  exists o', reduce_entries f init (JObj o) = Ok o' /\ vals_ok m o'.
Proof.
  intros Ho Hi Hf. unfold reduce_entries. cbn [entries own_props]. rewrite bind_ok.
  apply foldM_ind; [done|]. intros acc kv Hkv Hacc. apply Hf; [done|].
  unfold vals_ok in Ho. rewrite list.Forall_forall in Ho. by apply Ho.
Qed.

(** Reading a key of an object literal spread over another object. *)
Ltac get_simpl :=
  unfold assign, spread; cbn [foldl fst snd];
  repeat first [rewrite get_set_eq | rewrite get_set_ne by discriminate
               | rewrite get_del_ne by discriminate].

Lemma entries_truthy v : truthy v = true -> entries v = Ok (own_props v).
Proof. by destruct v. Qed.

Lemma find_id_ok id l :
  all_addressed l -> exists r, find_id id l = Ok r /\ (r = JUndef \/ exists o, r = JObj o).
Proof.
  induction 1 as [|m l A _ IH]; simpl; [eauto|].
  destruct (addressed_obj m A) as [o ->]. simpl. case_match; eauto.
Qed.

Section ChatBlocks.
Context (getItem : string -> option string) (now : num).
Context (orderByDesc : (jval -> jval) -> list jval -> list jval).
Context (orderByDesc_perm : forall key l, orderByDesc key l ≡ₚ l).
Context (omit : obj -> list string -> obj).
Context (omit_get : forall o ks k, k ∉ ks -> get k (omit o ks) = get k o).

Lemma chat_2_ok acc k v :
  vals_ok 3 acc -> entry_ok 2 v -> exists acc', chat_2 orderByDesc acc k v = Ok acc' /\ vals_ok 3 acc'.
Proof.
  intros Ha Hv. unfold chat_2. destruct (truthy v) eqn:T; simpl; [|eauto].
  destruct (Hv T) as (c & -> & [(l & Em & Al) Hg Hr Hp]). unfold my_id. simpl.
  destruct (truthy (opt_prop _ _)); simpl; [|eauto]. rewrite Em.
  destruct (latest_ids_ok orderByDesc orderByDesc_perm l
    (opt_prop (get "authenticatedMember" c) "id") Al) as [ids ->]. simpl.
  destruct (getLatestMessage_ok l Al) as (r & -> & _). simpl.
  eexists. split; [done|]. apply vals_ok_set; [done|].
  intros _. eexists. split; [done|]. split; intros; get_simpl.
  - eauto.
  - apply Hg. lia.
  - eauto.
  - lia.
Qed.

Lemma chat_3_ok acc k v :
  vals_ok 4 acc -> entry_ok 3 v -> exists acc', chat_3 acc k v = Ok acc' /\ vals_ok 4 acc'.
Proof.
  intros Ha Hv. unfold chat_3. destruct (truthy v) eqn:T; simpl; [|eauto].
  destruct (Hv T) as (c & -> & [Hm Hg Hr Hp]). simpl.
  destruct (truthy (get "groupRoles" c)) eqn:G; simpl; [|eauto].
  unfold reduce_entries. rewrite (entries_truthy _ G), bind_ok.
  match goal with |- context [foldM ?f ?i ?l] =>
    destruct (foldM_ind (fun _ : obj => True) f l i) as (gs & -> & _); [done | |] end.
  { intros b a _ _. unfold role_3. case_match; eauto. }
  simpl. eexists. split; [done|]. apply vals_ok_set; [done|].
  intros _. eexists. split; [done|]. split; intros; get_simpl.
  - done.
  - apply Hg. lia.
  - apply Hr. lia.
  - lia.
Qed.

Lemma chat_9_ok acc k v :
  vals_ok 10 acc -> entry_ok 9 v -> exists acc', chat_9 orderByDesc acc k v = Ok acc' /\ vals_ok 10 acc'.
Proof.
  intros Ha Hv. unfold chat_9. destruct (truthy v) eqn:T; simpl; [|eauto].
  destruct (Hv T) as (c & -> & [(l & Em & Al) Hg Hr Hp]). unfold my_id. simpl.
  destruct (truthy (opt_prop _ _)); simpl; [|eauto]. rewrite Em.
  destruct (latest_payment_ids_ok orderByDesc orderByDesc_perm l
    (opt_prop (get "authenticatedMember" c) "id") Al) as [ids ->]. simpl.
  destruct (getLatestPaymentUpdate_ok l Al) as (r & -> & _). simpl.
  eexists. split; [done|]. apply vals_ok_set; [done|].
  intros _. eexists. split; [done|]. split; intros; get_simpl.
  - eauto.
  - apply Hg. lia.
  - apply Hr. lia.
  - eauto.
Qed.

Lemma joined_loop_ok l g n :
  all_addressed l -> exists n', foldM (fun joinedAt msg =>
      sentIn ← prop msg "sentIn";
      gid ← prop (JObj g) "id";
      if negb (strict_eq sentIn gid) then Ok joinedAt
      else sentAt ← prop msg "sentAt"; Ok (min2 joinedAt (to_num sentAt))) n l = Ok n'.
Proof.
  intros A. revert n. induction A as [|m l A _ IH]; intros n; simpl; [eauto|].
  destruct (addressed_obj m A) as [o ->]. simpl. case_match; simpl; apply IH.
Qed.

Lemma chat_11_ok acc k v :
  vals_ok 12 acc -> entry_ok 11 v -> exists acc', chat_11 now acc k v = Ok acc' /\ vals_ok 12 acc'.
Proof.
  intros Ha Hv. unfold chat_11. destruct (truthy v) eqn:T; simpl; [|eauto].
  destruct (Hv T) as (c & -> & [(l & Em & Al) Hg Hr Hp]). simpl.
  destruct Hg as (gs & -> & Gs); [lia|]. simpl. rewrite Em.
  match goal with |- context [mapM_res ?f gs] =>
    destruct (mapM_res_all_ok f gs) as [gs' ->] end.
  { intros g Hin. rewrite list.Forall_forall in Gs. destruct (Gs g Hin) as [o ->].
    simpl. destruct (joined_loop_ok l o now Al) as [n' E]. simpl in E. rewrite E. simpl. eauto. }
  simpl. eexists. split; [done|]. apply vals_ok_set; [done|].
  intros _. eexists. split; [done|]. split; intros; get_simpl.
  - eauto.
  - lia.
  - apply Hr. lia.
  - apply Hp. lia.
Qed.

Lemma chat_13_ok acc k v :
  entry_ok 13 v -> exists acc', chat_13 omit acc k v = Ok acc'.
Proof.
  intros Hv. unfold chat_13. destruct (truthy v) eqn:T; simpl; [|eauto].
  destruct (Hv T) as (c & -> & [(l & Em & Al) Hg Hr Hp]). unfold my_id. simpl.
  destruct (truthy (opt_prop _ _)); simpl; [|eauto].
  destruct Hr as [ids Er]; [lia|]. destruct Hp as [pays Ep]; [lia|].
  rewrite Em, Er, Ep. simpl.
  match goal with |- context [foldM ?f ?i ids] =>
    destruct (foldM_ind (fun _ : obj => True) f ids i) as (ts & -> & _); [done | |] end.
  { intros b kv _ _. unfold read_timestamp_13. simpl.
    destruct (find_id_ok (get kv.1 ids) l Al) as (r1 & -> & H1).
    destruct (find_id_ok (get kv.1 pays) l Al) as (r2 & E2 & _). simpl. rewrite E2. simpl.
    destruct H1 as [->|[o ->]]; simpl; eauto. }
  simpl.
  destruct (find_id_ok (get "lastSeenMessageId" c) l Al) as (r1 & -> & H1). simpl.
  destruct (find_id_ok (get "lastSeenPaymentUpdateId" c) l Al) as (r2 & -> & _). simpl.
  destruct H1 as [->|[o ->]]; simpl; eauto.
Qed.
End ChatBlocks.

Lemma vals_ok_next n o : n <> 2 -> n <> 9 -> vals_ok n o -> vals_ok (S n) o.
Proof.
  intros N1 N2 V. eapply list.Forall_impl; [exact V|]. intros kv H T.
  destruct (H T) as (c & E & [Hm Hg Hr Hp]). exists c. split; [done|].
  split; [done | intros; apply Hg | intros; apply Hr | intros; apply Hp]; lia.
Qed.

Lemma entries_total v : v <> JUndef -> v <> JNull -> entries v = Ok (own_props v).
Proof. by destruct v. Qed.

Lemma reduce_entries_pure (f : obj -> string -> jval -> obj) init v :
  v <> JUndef -> v <> JNull -> exists o, reduce_entries (fun a k x => Ok (f a k x)) init v = Ok o.
Proof.
  intros. unfold reduce_entries. rewrite entries_total by done. rewrite bind_ok.
  exists (foldl (fun a kv => f a kv.1 kv.2) init (own_props v)). apply foldM_ok.
Qed.

Lemma nullish_obj v : nullish v (JObj []) <> JUndef /\ nullish v (JObj []) <> JNull.
Proof. by destruct v. Qed.

Section Totality.
Context (getItem : string -> option string) (now : num).
Context (orderByDesc : (jval -> jval) -> list jval -> list jval).
Context (orderByDesc_perm : forall key l, orderByDesc key l ≡ₚ l).
Context (omit : obj -> list string -> obj).
Abbreviation blocks := (migrations getItem now orderByDesc omit).

(** What a block establishes beyond the version. *)
Record established (n : nat) (st' : obj) : Prop := {
  est_identities : n = 0 -> exists o, get "chatIdentities" st' = JObj o;
  est_chat : 1 <= n <= 12 -> exists o, get "chat" st' = JObj o /\ vals_ok (S n) o;
  est_rates : 5 <= n <= 6 -> exists o, get "btcExchangeRates" st' = JObj o;
  est_recent : 31 <= n <= 42 -> exists l, get "recentlyUsedFederationIds" st' = JArr l }.

(** The special blocks. *)
Lemma migrate_1_total st : shape 1 st -> exists st', migrate_1 st = Ok st' /\ established 1 st'.
Proof.
  intros [_ Hi _ _ _]. destruct (Hi eq_refl) as [ids E]. unfold migrate_1. rewrite E.
  assert (V : vals_ok 2 ids -> True) by done.
  match goal with |- context [reduce_entries ?f ?i _] =>
    assert (exists o, reduce_entries f i (JObj ids) = Ok o /\ vals_ok 2 o) as (o & -> & Ho) end.
  { unfold reduce_entries. cbn [entries own_props]. rewrite bind_ok.
    apply foldM_ind; [constructor|]. intros acc kv _ Ha. eexists. split; [done|].
    case_match; [|done]. apply vals_ok_set; [done|]. intros _. eexists. split; [done|].
    split; intros; [exists [] | exists [] | lia | lia]; (split; [done | constructor]). }
  simpl. eexists. split; [done|]. split; intros; try lia. get_simpl. eauto.
Qed.

Lemma chat_block_total n m (g : obj -> string -> jval -> result obj) init st :
  shape n st -> 2 <= n <= 13 -> vals_ok m init ->
  (forall acc k v, vals_ok m acc -> entry_ok n v -> exists acc', g acc k v = Ok acc' /\ vals_ok m acc') ->
  exists newChat, reduce_entries g init (get "chat" st) = Ok newChat /\ vals_ok m newChat.
Proof.
  intros H Hn Hi Hg. destruct (shape_chat n st H Hn) as (o & -> & Ho).
  by apply (reduce_entries_ok n).
Qed.

Lemma chat_carry n st :
  shape n st -> 2 <= n <= 12 -> n <> 2 -> n <> 9 ->
  exists o, get "chat" st = JObj o /\ vals_ok (S n) o.
Proof.
  intros H Hn N1 N2. destruct (shape_chat n st H) as (o & Eo & Vo); [lia|].
  exists o. split; [done|]. by apply vals_ok_next.
Qed.

(** The new document of a chat block. *)
Ltac chat_document :=
  simpl; eexists; split; [reflexivity|]; split; intros; try lia; get_simpl; eauto.

Lemma migrate_2_total st :
  shape 2 st -> exists st', migrate_2 orderByDesc st = Ok st' /\ established 2 st'.
Proof.
  intros H. unfold migrate_2.
  destruct (chat_block_total 2 3 (chat_2 orderByDesc) [] st H) as (nc & -> & Vn);
    [lia | constructor | | chat_document].
  intros. by apply (chat_2_ok orderByDesc orderByDesc_perm).
Qed.

Lemma migrate_3_total st : shape 3 st -> exists st', migrate_3 st = Ok st' /\ established 3 st'.
Proof.
  intros H. unfold migrate_3.
  destruct (chat_block_total 3 4 chat_3 [] st H) as (nc & -> & Vn);
    [lia | constructor | | chat_document].
  intros. by apply chat_3_ok.
Qed.

Lemma migrate_9_total st :
  shape 9 st -> exists st', migrate_9 orderByDesc st = Ok st' /\ established 9 st'.
Proof.
  intros H. unfold migrate_9.
  destruct (chat_block_total 9 10 (chat_9 orderByDesc) [] st H) as (nc & -> & Vn);
    [lia | constructor | | chat_document].
  intros. by apply (chat_9_ok orderByDesc orderByDesc_perm).
Qed.

Lemma migrate_11_total st :
  shape 11 st -> exists st', migrate_11 now st = Ok st' /\ established 11 st'.
Proof.
  intros H. unfold migrate_11.
  destruct (chat_block_total 11 12 (chat_11 now) (own_props (get "chat" st)) st H)
    as (nc & -> & Vn); [lia | | | chat_document].
  - destruct (chat_carry 11 st H) as (o & -> & Vo); [lia | lia | lia | done].
  - intros. by apply (chat_11_ok now).
Qed.

Lemma migrate_13_total st : shape 13 st -> exists st', migrate_13 omit st = Ok st' /\ established 13 st'.
Proof.
  intros [_ _ Hc _ _]. destruct Hc as (o & Eo & Vo); [lia|]. unfold migrate_13. rewrite Eo.
  unfold reduce_entries. cbn [entries own_props]. rewrite bind_ok.
  match goal with |- context [foldM ?f ?i o] =>
    destruct (foldM_ind (fun _ : obj => True) f o i) as (nc & -> & _); [done | |] end.
  { intros acc kv Hkv _. unfold vals_ok in Vo. rewrite list.Forall_forall in Vo.
    destruct (chat_13_ok omit acc kv.1 kv.2 (Vo kv Hkv)) as [acc' ->]. eauto. }
  simpl. eexists. split; [done|]. split; intros; lia.
Qed.

Lemma migrate_7_total st : shape 7 st -> exists st', migrate_7 st = Ok st' /\ established 7 st'.
Proof.
  intros [_ _ Hc Hr _]. destruct Hr as [r E]; [lia|]. destruct Hc as (o & Eo & Vo); [lia|].
  unfold migrate_7. rewrite E. simpl. eexists. split; [done|].
  split; intros; try lia. get_simpl. exists o. split; [done|]. by apply vals_ok_next.
Qed.

Lemma migrate_18_total st : exists st', migrate_18 st = Ok st' /\ established 18 st'.
Proof.
  unfold migrate_18.
  repeat match goal with |- context [reduce_entries (fun a k x => Ok (@?f a k x)) ?i ?v] =>
    destruct (reduce_entries_pure f i v (proj1 (nullish_obj _)) (proj2 (nullish_obj _))) as [? E];
    cbv beta in E; rewrite E; clear E; rewrite bind_ok end.
  eexists. split; [done|]. split; intros; lia.
Qed.

Lemma migrate_43_total st : shape 43 st -> exists st', migrate_43 st = Ok st' /\ established 43 st'.
Proof.
  intros [_ _ _ _ Hr]. destruct Hr as [l E]; [lia|]. unfold migrate_43. rewrite E.
  simpl. eexists. split; [done|]. split; intros; lia.
Qed.

(** The blocks that only assign. *)
Ltac plain_block :=
  match goal with H : shape ?n ?st |- _ =>
    eexists; split; [reflexivity|]; split; intros; try lia; get_simpl;
    first [ by apply (chat_carry n st H); lia | by apply (shape_rates n st H); lia
          | by apply (shape_recent n st H); lia | by eauto | case_match; eauto ]
  end.

Lemma block_total n f st :
  blocks !! n = Some f -> shape n st -> exists st', f st = Ok st' /\ established n st'.
Proof.
  intros Hf H.
  do 49 (destruct n as [|n];
    [ injection Hf as <-;
      lazymatch goal with
      | |- context [migrate_1] => by apply migrate_1_total
      | |- context [migrate_2] => by apply migrate_2_total
      | |- context [migrate_3] => by apply migrate_3_total
      | |- context [migrate_7] => by apply migrate_7_total
      | |- context [migrate_9] => by apply migrate_9_total
      | |- context [migrate_11] => by apply migrate_11_total
      | |- context [migrate_13] => by apply migrate_13_total
      | |- context [migrate_18] => by apply migrate_18_total
      | |- context [migrate_43] => by apply migrate_43_total
      | |- _ => plain_block
      end | ]).
  discriminate Hf.
Qed.
Lemma block_shape n f st :
  blocks !! n = Some f -> shape n st -> exists st', f st = Ok st' /\ shape (S n) st'.
Proof.
  intros Hf H. destruct (block_total n f st Hf H) as (st' & E & [Ei Ec Er Eu]).
  exists st'. split; [done|]. split.
  - by eapply ver_next.
  - intros. apply Ei. lia.
  - intros. apply Ec. lia.
  - intros. apply Er. lia.
  - intros. apply Eu. lia.
Qed.

Lemma run_total n st :
  shape n st -> n <= 49 -> exists st', run_blocks n (drop n blocks) st = Ok st' /\ shape 49 st'.
Proof.
  intros H Hn. remember (49 - n) as d eqn:Ed. revert n st H Hn Ed.
  induction d as [|d IH]; intros n st H Hn Ed.
  - replace n with 49 in * by lia. exists st. done.
  - assert (Hl : n < length blocks) by (rewrite length_blocks; lia).
    apply lookup_lt_is_Some in Hl as [f Hf].
    destruct (block_shape n f st Hf H) as (s1 & E & H1).
    rewrite (run_at _ _ _ _ n f) by (done || by apply shape_version).
    rewrite E, bind_ok. apply IH; [done | lia | lia].
Qed.

Lemma wf_copy st : wf_obj st -> obj_equiv (spread [] st) st.
Proof. intros W k. rewrite lookup_spread_wf by done. by destruct (lookup_prop k st). Qed.

Lemma shape_equiv n s s' : obj_equiv s s' -> shape n s -> shape n s'.
Proof.
  intros E [Hv Hi Hc Hr Hu]. unfold ver, version_of in *.
  assert (G : forall k, get k s' = get k s) by (intros k; unfold get; by rewrite E).
  split; unfold ver, version_of; rewrite ?G; done.
Qed.

Lemma migrate_run n st :
  wf_obj st -> ver n st -> n <= 49 ->
  migrateStoredState getItem now orderByDesc omit st = run_blocks n (drop n blocks) (spread [] st).
Proof.
  intros W Hv Hn. unfold migrateStoredState.
  change blocks with (drop 0 blocks) at 1. apply run_skip; [|done | lia].
  unfold ver, version_of, get in *. by rewrite (wf_copy st W).
Qed.
End Totality.

(** ** Properties *)

(** Properties in enumeration order, as in every object: copying it keeps them. *)
Definition canonical (o : obj) : Prop := spread [] o = o.

Section Properties.
Context (getItem : string -> option string) (now : num).
Context (orderByDesc : (jval -> jval) -> list jval -> list jval).
Context (omit : obj -> list string -> obj).

(** C3: Every stored document of a past version migrates: if it has the shape its
    version's interface promises, no block throws and the result is a document of
    version 49.  lodash's [orderBy] may reorder the messages in any way. *)
Theorem migrateStoredState_total n st :
  (forall key l, orderByDesc key l ≡ₚ l) ->
  n <= 49 -> wf_obj st -> shape n st ->
  exists st', migrateStoredState getItem now orderByDesc omit st = Ok st' /\
              version_of st' = vnum 49.
Proof.
  intros P Hn W H.
  assert (Hc : shape n (spread [] st)) by (eapply shape_equiv; [symmetry; by apply wf_copy | done]).
  rewrite (migrate_run _ _ _ _ n) by (done || by apply shape_version).
  destruct (run_total getItem now orderByDesc P omit n _ Hc Hn) as (st' & -> & S).
  exists st'. split; [done|]. apply (shape_version 49 st' S).
Qed.

(** C32: A migration only writes what the remaining blocks write: every other field of
    the document has the same value, or is absent, before and after. *)
Theorem migrateStoredState_frame n st st' k :
  n <= 49 -> wf_obj st -> ver n st ->
  migrateStoredState getItem now orderByDesc omit st = Ok st' ->
  k ∉ touched n -> lookup_prop k st' = lookup_prop k st.
Proof.
  intros Hn W Hv H Hk. rewrite (migrate_run _ _ _ _ n) in H by done.
  rewrite <- (wf_copy st W k).
  apply (run_ind getItem now orderByDesc omit
    (fun m s => lookup_prop k s = lookup_prop k (spread [] st)) n (spread [] st)); try done.
  - intros m f s s' Hm Hf _ E <-.
    destruct (block_form _ _ _ _ m f Hf) as [form Hform].
    apply (block_frame getItem now orderByDesc omit m f form); [done.. |].
    intros X. apply Hk. unfold touched. apply list_elem_of_join.
    exists (form.1 ++ form.2). split; [done|].
    apply (list_elem_of_fmap_2 (fun f => f.1 ++ f.2)).
    apply (list_elem_of_lookup_2 _ (m - n)). rewrite lookup_drop.
    by replace (n + (m - n)) with m by lia.
  - unfold ver, version_of, get in *. by rewrite (wf_copy st W).
Qed.

(** Migrations may be interrupted: persisting the document after any block and
    migrating it again later gives the document that migrating at once gives. *)
Theorem migrateStoredState_resume n f st st1 :
  migrations getItem now orderByDesc omit !! n = Some f ->
  canonical st -> canonical st1 -> ver n st -> f st = Ok st1 ->
  migrateStoredState getItem now orderByDesc omit st =
  migrateStoredState getItem now orderByDesc omit st1.
Proof.
  intros Hf C C1 Hv E. pose proof (lookup_lt_Some _ _ _ Hf) as L. rewrite length_blocks in L.
  assert (Hv1 : ver (S n) st1) by (by eapply ver_next).
  unfold migrateStoredState. rewrite C, C1.
  change (migrations getItem now orderByDesc omit)
    with (drop 0 (migrations getItem now orderByDesc omit)).
  rewrite (run_skip _ _ _ _ 0 n st), (run_skip _ _ _ _ 0 (S n) st1) by (done || lia).
  rewrite (run_at _ _ _ _ n f) by done. by rewrite E, bind_ok.
Qed.

(** What the app saves it loads unchanged: the document built from any state is
    already of the current version and no block touches it. *)
Theorem saved_state_is_current (s : CommonState) :
  migrateStoredState getItem now orderByDesc omit (transformStateToStorage s) =
  Ok (transformStateToStorage s).
Proof.
  unfold migrateStoredState.
  change (migrations getItem now orderByDesc omit)
    with (drop 0 (migrations getItem now orderByDesc omit)).
  rewrite (run_skip _ _ _ _ 0 49) by (done || lia). reflexivity.
Qed.

(** The migration to version 4 keeps the affiliation of one group of a federation
    at most: whatever the number of stored group roles, all but the last are lost. *)
Theorem role_migration_keeps_last (roles : obj) :
  reduce_entries role_3 [] (JObj roles) =
  Ok (match list.last (filter (fun kv => truthy kv.2 = true) roles) with
      | Some (g, r) => [(g, JStr (if decide (r = JStr "moderator") then "owner" else "none"))]
      | None => []
      end).
Proof.
  unfold reduce_entries. cbn [entries own_props]. rewrite bind_ok.
  induction roles as [|[g r] roles IH] using rev_ind; [done|].
  rewrite foldM_app, IH, list.filter_app, bind_ok. cbn [foldM]. unfold role_3.
  cbn [fst snd]. rewrite filter_cons, filter_nil. cbn [snd].
  destruct (truthy r); cbn [negb].
  - destruct (decide (true = true)); [|done]. by rewrite list.last_snoc.
  - destruct (decide (false = true)); [done|]. by rewrite app_nil_r.
Qed.
End Properties.

Section ChangeDetection.
Context (ref_eq : jval -> jval -> bool).
(** Redux states are immutable, so identical references have equal contents;
    and a value is identical to itself. *)
Context (ref_eq_sound : forall a b, ref_eq a b = true -> a = b).
Context (ref_eq_refl : forall a, ref_eq a a = true).

Lemma unchanged_field old new slice k :
  hasStorageStateChanged ref_eq old new = false -> (slice, k) ∈ keysetsToCheck ->
  field old slice k = field new slice k.
Proof using ref_eq_sound.
  intros H Hk. unfold hasStorageStateChanged in H.
  apply ref_eq_sound. destruct (ref_eq _ _) eqn:E; [done|].
  rewrite (proj2 (existsb_exists _ _)) in H; [done|].
  exists (slice, k). split; [by apply list_elem_of_In|]. by rewrite E.
Qed.

(** When the change detector reports nothing to save, the stored document has not
    changed in any field but the two exchange rates. *)
Theorem hasStorageStateChanged_complete old new k :
  hasStorageStateChanged ref_eq old new = false ->
  k <> "btcUsdRate"%string -> k <> "fiatUsdRates"%string ->
  lookup_prop k (transformStateToStorage old) = lookup_prop k (transformStateToStorage new).
Proof using ref_eq_sound.
  intros H N1 N2. unfold transformStateToStorage, assign. rewrite !lookup_spread.
  assert (U : forall slice k, bool_decide ((slice, k) ∈ keysetsToCheck) = true ->
    field old slice k = field new slice k).
  { intros slice k' B%bool_decide_eq_true. by apply unchanged_field. }
  cbn [last_prop].
  repeat match goal with |- context [field old ?a ?b] =>
    first [ rewrite (U a b) by (vm_compute; reflexivity)
          | progress (generalize (field old a b); intros ?) ] end.
  repeat (case_decide; [done|]); done.
Qed.

Definition set_field (s : CommonState) (slice k : string) (v : jval) : CommonState :=
  fun sl => if decide (sl = slice) then set_prop k v (s sl) else s sl.

(** A new exchange rate alone is never noticed, although it is part of the stored
    document: the detector looks at [currency.prices], a field no state has. *)
Theorem rate_change_not_detected (s : CommonState) (rate : jval) :
  rate <> field s "currency" "btcUsdRate" ->
  let s' := set_field s "currency" "btcUsdRate" rate in
  hasStorageStateChanged ref_eq s s' = false /\
  lookup_prop "btcUsdRate" (transformStateToStorage s) <>
  lookup_prop "btcUsdRate" (transformStateToStorage s').
Proof using ref_eq_refl.
  intros N s'. split.
  - unfold hasStorageStateChanged. apply not_true_iff_false. rewrite existsb_exists.
    intros ([slice k] & Hin & Hne). apply negb_true_iff in Hne.
    assert (E : field s slice k = field s' slice k); [|by rewrite E, ref_eq_refl in Hne].
    unfold field, s', set_field. case_decide; [|done]. subst slice.
    rewrite get_set_ne; [done|]. intros ->.
    apply list_elem_of_In in Hin. revert Hin. apply (bool_decide_unpack _). by vm_compute.
  - unfold transformStateToStorage, assign. rewrite !lookup_spread. cbn [last_prop].
    repeat (rewrite decide_False by discriminate). rewrite !decide_True by done.
    intros [= E]. apply N. unfold field at 2 in E. unfold s', set_field in E.
    rewrite decide_True, get_set_eq in E by done. done.
Qed.
End ChangeDetection.

(** ** Witnesses *)

Definition no_item (k : string) : option string := None.
Definition keep_order (key : jval -> jval) (l : list jval) : list jval := l.
Definition drop_keys (o : obj) (ks : list string) : obj := del_props ks o.

Definition demo_message : jval :=
  JObj [("id", JStr "m1"); ("sentIn", JStr "g1"); ("sentBy", JStr "bob");
        ("sentAt", vnum 17)]%string.
Definition demo_chat : obj :=
  [("authenticatedMember", JObj [("id", JStr "alice")]); ("messages", JArr [demo_message]);
   ("groups", JArr [JObj [("id", JStr "g1")]]);
   ("groupRoles", JObj [("g1", JStr "moderator"); ("g2", JStr "visitor")]);
   ("members", JArr []); ("lastFetchedMessageId", JNull)]%string.
Definition demo_v2 : obj :=
  [("version", vnum 2); ("language", JStr "en"); ("currency", JNull);
   ("chat", JObj [("fed", JObj demo_chat)])]%string.

Lemma wf_by_compute o : bool_decide (NoDup (keys o)) = true -> wf_obj o.
Proof. apply bool_decide_eq_true. Qed.

Lemma demo_v2_shape : shape 2 demo_v2.
Proof.
  split; [reflexivity | lia | | lia | lia].
  intros _. eexists. split; [reflexivity|].
  apply list.Forall_cons. split; [|constructor]. intros _. eexists. split; [reflexivity|].
  split; intros; try lia.
  - exists [demo_message]. split; [reflexivity|]. by repeat constructor.
  - eexists. split; [reflexivity|]. repeat constructor. eauto.
Qed.

Lemma migrateStoredState_total_witness :
  exists st', migrateStoredState no_item (of_Z 99) keep_order drop_keys demo_v2 = Ok st' /\
              version_of st' = vnum 49.
Proof.
  apply (migrateStoredState_total _ _ _ _ 2).
  - reflexivity.
  - lia.
  - apply wf_by_compute. reflexivity.
  - exact demo_v2_shape.
Defined.

Definition demo_v48 : obj :=
  [("version", vnum 48); ("language", JStr "en"); ("protectedFeatures", JObj [])]%string.
Definition demo_v49 : obj :=
  [("version", vnum 49); ("language", JStr "en"); ("protectedFeatures", JObj []);
   ("personalBackupReminder", JObj [("countdownStartedAt", JNull);
                                    ("hasReachedThresholds", JBool false)])]%string.

Lemma migrateStoredState_frame_witness :
  lookup_prop "language" demo_v49 = lookup_prop "language" demo_v48.
Proof.
  apply (migrateStoredState_frame no_item (of_Z 0) keep_order drop_keys 48 demo_v48 demo_v49).
  - lia.
  - apply wf_by_compute. reflexivity.
  - reflexivity.
  - vm_compute. reflexivity.
  - apply (bool_decide_unpack _). vm_compute. exact I.
Defined.

Lemma migrateStoredState_resume_witness :
  migrateStoredState no_item (of_Z 0) keep_order drop_keys demo_v48 =
  migrateStoredState no_item (of_Z 0) keep_order drop_keys demo_v49.
Proof.
  apply (migrateStoredState_resume no_item (of_Z 0) keep_order drop_keys 48 migrate_48);
    reflexivity.
Defined.

Definition same_value (a b : jval) : bool := bool_decide (a = b).
Definition demo_state : CommonState := fun slice =>
  if decide (slice = "currency"%string) then [("btcUsdRate", vnum 60000)]%string else [].

Lemma hasStorageStateChanged_complete_witness :
  lookup_prop "language" (transformStateToStorage demo_state) =
  lookup_prop "language" (transformStateToStorage
    (set_field demo_state "currency" "btcUsdRate" (vnum 61000))).
Proof.
  apply (hasStorageStateChanged_complete same_value).
  - intros a b. apply bool_decide_eq_true.
  - vm_compute. reflexivity.
  - discriminate.
  - discriminate.
Defined.

Lemma rate_change_not_detected_witness :
  hasStorageStateChanged same_value demo_state
    (set_field demo_state "currency" "btcUsdRate" (vnum 61000)) = false.
Proof.
  apply (rate_change_not_detected same_value).
  - intros a. apply bool_decide_eq_true. reflexivity.
  - vm_compute. discriminate.
Defined.
