(* ===== verification/Amount.v ===== *)
(** Amounts (src/ui/common/utils/AmountUtils.ts): conversions between msats,
    sats, btc and fiat on JavaScript doubles, the clamping of user input and
    the cleaning of formatted amounts.  The formatting routines built on the
    host's [Intl] tables are not modelled. *)
From Stdlib Require Import ZArith Lia Ascii.
From stdpp Require Import base tactics strings list.
From S2P Require Import Prelude JsNum.
Local Open Scope Z_scope.
Local Open Scope string_scope.
Local Open Scope Z_scope.

Definition BTC_MAX_DECIMAL_PLACES : Z := 8.
Definition MIN_BTC_VALUE : num := of_frac 1 100000000.
Definition SATS_PER_BTC : num := of_Z 100000000.
Definition MSATS_PER_SAT : num := of_Z 1000.
Definition FIAT_MAX_DECIMAL_PLACES : Z := 2.

(** ** Conversions *)

Definition btcToFiat (btc rate : num) : num :=
  to_fixed_num (mul btc rate) FIAT_MAX_DECIMAL_PLACES.

Definition msatToSat (msats : num) : num := floor (div msats MSATS_PER_SAT).

Definition satToMsat (sats : num) : num := mul sats MSATS_PER_SAT.

Definition satToBtc (sats : num) : num :=
  to_fixed_num (div sats SATS_PER_BTC) BTC_MAX_DECIMAL_PLACES.

Definition btcToSat (btc : num) : num :=
  to_fixed_num (mul btc SATS_PER_BTC) BTC_MAX_DECIMAL_PLACES.

Definition btcToMsat (btc : num) : num := satToMsat (btcToSat btc).

Definition msatToBtc (msats : num) : num := satToBtc (msatToSat msats).

Definition msatToFiat (msats rate : num) : num := btcToFiat (msatToBtc msats) rate.

Definition satToFiat (sats rate : num) : num := btcToFiat (satToBtc sats) rate.

Definition btcToFiatString (btc rate : num) : string :=
  to_fixed (btcToFiat btc rate) FIAT_MAX_DECIMAL_PLACES.

Definition msatToFiatString (msats rate : num) : string :=
  btcToFiatString (msatToBtc msats) rate.

Definition satToFiatString (sats rate : num) : string :=
  btcToFiatString (satToBtc sats) rate.

Definition fiatToBtc (fiat rate : num) : num :=
  if eqb rate (of_Z 0) then of_Z 0
  else to_fixed_num (div fiat rate) BTC_MAX_DECIMAL_PLACES.

Definition fiatToSat (fiat rate : num) : num := btcToSat (fiatToBtc fiat rate).

Definition fiatToMsat (fiat rate : num) : num := btcToMsat (fiatToBtc fiat rate).

Definition msatToSatString (msats : num) : string := to_fixed (msatToSat msats) 0.

Definition satToMsatString (sats : num) : string := to_fixed (satToMsat sats) 0.

Definition satToBtcString (sats : num) : string :=
  to_fixed (satToBtc sats) BTC_MAX_DECIMAL_PLACES.

Definition btcToSatString (btc : num) : string := to_fixed (btcToSat btc) 0.

Definition btcToMsatString (btc : num) : string := to_fixed (btcToMsat btc) 0.

Definition msatToBtcString (msats : num) : string :=
  let btc := msatToBtc msats in
  if ltb btc MIN_BTC_VALUE then "0" else to_fixed btc BTC_MAX_DECIMAL_PLACES.

Definition convertCentsToOtherFiat (cents btcUsdRate btcFiatRate : num) : num :=
  let usd := to_fixed_num (div cents (of_Z 100)) FIAT_MAX_DECIMAL_PLACES in
  let btc := to_fixed_num (div usd btcUsdRate) BTC_MAX_DECIMAL_PLACES in
  let fiat := to_fixed_num (mul btc btcFiatRate) FIAT_MAX_DECIMAL_PLACES in
  if is_nan fiat then of_Z 0 else fiat.

Definition getRateFromFiatFxInfo (btcToFiatHundredths : num) : num :=
  div btcToFiatHundredths (of_Z 100).

(** ** User input *)

(** [Math.max(0, value)] of a finite value. *)
Definition clampSats (value : num) : num :=
  if negb (is_finite value) then of_Z 0
  else round (max2 (of_Z 0) value).

(** ** Trailing zeros

    [num.replace(/(\.\d*?[1-9])0+$|\.0+$/, '$1')], on the characters of the
    word before the first space.  A match starts at a dot whose following
    characters, up to the end of the word, are digits; the first alternative
    needs a non-zero digit followed by zeros only, the second zeros only. *)
Definition is_digit (c : Ascii.ascii) : bool :=
  let n := Ascii.nat_of_ascii c in ((48 <=? n) && (n <=? 57))%nat.

Definition is_zero (c : Ascii.ascii) : bool := bool_decide (c = "0"%char).

(** The digits up to the last non-zero one. *)
Fixpoint strip_zeros (l : list Ascii.ascii) : list Ascii.ascii :=
  match l with
  | [] => []
  | c :: l =>
      match strip_zeros l with
      | [] => if is_zero c then [] else [c]
      | l' => c :: l'
      end
  end.

(** The replacement of a match of the expression at a dot followed by [l], if
    there is one. *)
Definition match_fraction (l : list Ascii.ascii) : option (list Ascii.ascii) :=
  if forallb is_digit l && bool_decide (l <> strip_zeros l) then
    match strip_zeros l with
    | [] => Some []
    | l' => Some ("."%char :: l')
    end
  else None.

Fixpoint clean_number (l : list Ascii.ascii) : list Ascii.ascii :=
  match l with
  | [] => []
  | c :: l' =>
      if decide (c = "."%char) then
        match match_fraction l' with
        | Some r => r
        | None => c :: clean_number l'
        end
      else c :: clean_number l'
  end.

(** [amount.split(' ')], the head apart from the rest. *)
Fixpoint split_spaces (l : list Ascii.ascii) : list Ascii.ascii * list (list Ascii.ascii) :=
  match l with
  | [] => ([], [])
  | c :: l' =>
      let '(w, ws) := split_spaces l' in
      if decide (c = " "%char) then ([], w :: ws) else (c :: w, ws)
  end.

(** [suffixParts.join(' ')] *)
Fixpoint join_spaces (ws : list (list Ascii.ascii)) : list Ascii.ascii :=
  match ws with
  | [] => []
  | [w] => w
  | w :: ws => (w ++ " "%char :: join_spaces ws)%list
  end.

Definition stripTrailingZerosWithSuffix (amount : string) : string :=
  let '(n, suffixParts) := split_spaces (String.list_ascii_of_string amount) in
  String.string_of_list_ascii
    (clean_number n ++
     (if decide (suffixParts = []) then [] else " "%char :: join_spaces suffixParts))%list.

(** ** Properties of the conversions *)

Definition max_supply : Z := 2100000000000000.

Lemma supply_safe s : 0 <= s <= max_supply -> safe s.
Proof. unfold safe, max_supply. lia. Qed.

Lemma unit1_large : 2 ^ 200 <= unit1.
Proof. vm_compute. discriminate. Qed.

Lemma supply_units : 2 ^ 53 * unit1 < 10 ^ 21 * unit1 /\ 2 ^ 54 * unit1 < max_units.
Proof. split; vm_compute; reflexivity. Qed.

(** [toFixed] recovers an integer number of [10^-f] from anything closer than
    half of one. *)
Lemma to_fixed_mag_near m f n :
  0 <= m -> 0 <= f -> 2 * Z.abs (m * 10 ^ f - n * unit1) < unit1 -> to_fixed_mag m f = n.
Proof.
  intros Hm Hf H. pose proof (to_fixed_mag_err m f Hf) as E.
  rewrite (Z.abs_eq m) in E by done. pose proof unit1_pos. nia.
Qed.

(** The double nearest to [s] sats in btc. *)
Definition btc_units (s : Z) : Z := round_mag (s * unit1) 100000000.

Lemma btc_units_err s : 0 <= s -> 2 ^ 53 * Z.abs (btc_units s * 100000000 - s * unit1) <= s * unit1.
Proof.
  intros Hs. destruct (Z.eq_dec s 0) as [->|].
  - by vm_compute.
  - pose proof unit1_large. apply (round_mag_err (s * unit1) 100000000); [lia | nia].
Qed.

Lemma btc_units_bound s : 0 <= s <= max_supply -> 0 <= btc_units s <= 22000000 * unit1.
Proof.
  intros Hs. pose proof (btc_units_err s ltac:(lia)). pose proof unit1_pos.
  unfold max_supply in Hs.
  split; [apply round_mag_nonneg; nia | nia].
Qed.

Lemma btc_units_digits s : 0 <= s <= max_supply -> to_fixed_mag (btc_units s) 8 = s.
Proof.
  intros Hs. pose proof (btc_units_bound s Hs) as B. pose proof (btc_units_err s ltac:(lia)) as E.
  pose proof unit1_pos. unfold max_supply in Hs.
  apply to_fixed_mag_near; [lia | lia |]. change (10 ^ 8) with 100000000. nia.
Qed.

Lemma fin_round_pos p q : 0 <= p -> 0 < q ->
  round_mag p q < max_units -> fin_round p q = Fin (round_mag p q).
Proof.
  intros Hp Hq H. unfold fin_round. rewrite Z.abs_eq by done.
  destruct (Z.leb_spec max_units (round_mag p q)); [lia|].
  destruct (Z.eq_dec p 0) as [->|].
  - f_equal. symmetry. apply (round_mag_exact 0 q); [done|]. exists 0, 0. lia.
  - by rewrite Z.sgn_pos, Z.mul_1_l by lia.
Qed.

Lemma to_fixed_num_pos m f : 0 <= m < 10 ^ 21 * unit1 -> 0 <= f ->
  to_fixed_num (Fin m) f = of_frac (to_fixed_mag m f) (10 ^ f).
Proof.
  intros Hm Hf. simpl. rewrite Z.abs_eq by lia.
  destruct (Z.leb_spec (10 ^ 21 * unit1) m); [lia|].
  destruct (Z.eq_dec m 0) as [->|]; [|by rewrite Z.sgn_pos, Z.mul_1_l by lia].
  rewrite (to_fixed_mag_near 0 f 0) by (pose proof unit1_pos; lia). done.
Qed.

Lemma satToBtc_units s : 0 <= s <= max_supply -> satToBtc (of_Z s) = Fin (btc_units s).
Proof.
  intros Hs. pose proof (btc_units_bound s Hs) as B. pose proof supply_units as [U1 U2].
  pose proof unit1_pos as U. unfold satToBtc, SATS_PER_BTC.
  rewrite (of_Z_safe s (supply_safe s Hs)).
  rewrite (of_Z_safe 100000000) by (unfold safe; lia). cbn [div].
  destruct (Z.eqb_spec (100000000 * unit1) 0); [lia|].
  rewrite Z.sgn_pos, Z.mul_1_l, (Z.abs_eq (100000000 * unit1)) by lia.
  assert (E : round_mag (s * unit1 * unit1) (100000000 * unit1) = btc_units s)
    by (apply round_mag_scale; lia).
  rewrite fin_round_pos, E by (rewrite ?E; nia).
  rewrite to_fixed_num_pos by (unfold BTC_MAX_DECIMAL_PLACES; lia).
  unfold BTC_MAX_DECIMAL_PLACES. rewrite btc_units_digits by done.
  unfold of_frac. change (10 ^ 8) with 100000000.
  rewrite fin_round_pos; [done | nia | lia | fold (btc_units s); nia].
Qed.

(** The decimal string of an amount in btc is exact: for every amount up
    to the supply of 21 million btc, [satToBtcString] prints the number of
    whole btc and the eight digits of the remaining sats, without any rounding
    error from the double arithmetic in between. *)
Theorem satToBtcString_exact s :
  0 <= s <= max_supply ->
  satToBtcString (of_Z s) =
    int_string (s / 100000000) +:+ "." +:+ pad_left 8 (int_string (s mod 100000000)).
Proof.
  intros Hs. pose proof (btc_units_bound s Hs) as B. pose proof supply_units as [U1 U2].
  unfold satToBtcString. rewrite satToBtc_units by done. unfold to_fixed.
  rewrite Z.abs_eq by lia. destruct (Z.leb_spec (10 ^ 21 * unit1) (btc_units s)); [lia|].
  destruct (Z.ltb_spec (btc_units s) 0); [lia|].
  unfold BTC_MAX_DECIMAL_PLACES. by rewrite btc_units_digits.
Qed.

Lemma satToBtcString_exact_witness :
  satToBtcString (of_Z 123456789) = "1.23456789".
Proof. rewrite (satToBtcString_exact 123456789) by (unfold max_supply; lia). reflexivity. Defined.

(** [btcToSat] after [satToBtc] is within half a sat, and prints as the
    original amount. *)
Lemma btcToSat_near s : 0 <= s <= max_supply ->
  exists m, btcToSat (Fin (btc_units s)) = Fin m /\ 0 <= m <= 2 ^ 53 * unit1 /\
            2 * Z.abs (m - s * unit1) < unit1.
Proof.
  intros Hs. pose proof (btc_units_bound s Hs) as B. pose proof supply_units as [U1 U2].
  pose proof (btc_units_err s ltac:(lia)) as E. pose proof unit1_pos as U.
  pose proof Hs as Hs'. unfold max_supply in Hs'.
  assert (R : repr (s * unit1)).
  { pose proof (repr_int s (supply_safe s Hs)) as R. by rewrite Z.abs_eq in R by lia. }
  set (A := btc_units s * 100000000) in *.
  assert (HA : 0 <= A) by (unfold A; lia).
  pose proof (round_mag_nonneg A 1 HA ltac:(lia)) as P1.
  pose proof (round_mag_nearest A 1 _ HA ltac:(lia) R) as N1.
  rewrite !Z.mul_1_r in N1. set (m1 := round_mag A 1) in *.
  unfold btcToSat, SATS_PER_BTC. rewrite (of_Z_safe 100000000) by (unfold safe; lia).
  cbn [mul]. rewrite Z.mul_assoc. fold A.
  assert (E1 : round_mag (A * unit1) unit1 = m1).
  { rewrite <- (Z.mul_1_l unit1) at 2. by apply round_mag_scale. }
  rewrite fin_round_pos, E1 by (rewrite ?E1; nia).
  rewrite to_fixed_num_pos by (unfold BTC_MAX_DECIMAL_PLACES; nia).
  change BTC_MAX_DECIMAL_PLACES with 8. pose proof (to_fixed_mag_err m1 8 ltac:(lia)) as E8.
  rewrite (Z.abs_eq m1) in E8 by done. set (n8 := to_fixed_mag m1 8) in *.
  change (10 ^ 8) with 100000000 in *.
  assert (Hn : 0 <= n8) by nia.
  pose proof (round_mag_nearest (n8 * unit1) 100000000 m1 ltac:(nia) ltac:(lia)
    (round_mag_repr A 1 HA ltac:(lia))) as N2.
  pose proof (round_mag_nonneg (n8 * unit1) 100000000 ltac:(nia) ltac:(lia)) as P2.
  set (m2 := round_mag (n8 * unit1) 100000000) in *.
  exists m2. unfold of_frac. split; [|nia].
  apply fin_round_pos; [nia | lia | fold m2; nia].
Qed.

Lemma max2_zero m : 0 <= m -> max2 (of_Z 0) (Fin m) = Fin m.
Proof.
  intros Hm. rewrite (of_Z_safe 0) by (unfold safe; lia). rewrite Z.mul_0_l.
  unfold max2, ltb. destruct (Z.ltb_spec 0 m) as [_|H]; [done|].
  f_equal. lia.
Qed.

Lemma max2_negative m : m < 0 -> max2 (of_Z 0) (Fin m) = of_Z 0.
Proof.
  intros Hm. rewrite (of_Z_safe 0) by (unfold safe; lia). rewrite Z.mul_0_l.
  unfold max2, ltb. destruct (Z.ltb_spec 0 m); [lia | done].
Qed.

(** C40: Converting sats to btc and back is the identity for every amount up to
    the supply: [btcToSat (satToBtc s)] clamps, and prints, as the [s] sats it
    started from, although every step of the conversion rounds. *)
Theorem sats_btc_roundtrip s :
  0 <= s <= max_supply ->
  clampSats (btcToSat (satToBtc (of_Z s))) = of_Z s /\
  btcToSatString (satToBtc (of_Z s)) = int_string s.
Proof.
  intros Hs. rewrite satToBtc_units by done. pose proof unit1_pos as U.
  destruct (btcToSat_near s Hs) as (m & E & Hm & Hn). pose proof supply_units as [U1 U2].
  split.
  - rewrite E. unfold clampSats. cbn [is_finite negb].
    rewrite max2_zero by lia. unfold round. rewrite (of_Z_safe s (supply_safe s Hs)).
    do 2 f_equal. symmetry.
    apply (Z.div_unique_pos _ _ _ (2 * m + unit1 - 2 * unit1 * s)); lia.
  - unfold btcToSatString. rewrite E. unfold to_fixed.
    rewrite Z.abs_eq by lia. destruct (Z.leb_spec (10 ^ 21 * unit1) m); [lia|].
    destruct (Z.ltb_spec m 0); [lia|].
    rewrite (to_fixed_mag_near m 0 s) by lia. done.
Qed.

Lemma sats_btc_roundtrip_witness :
  clampSats (btcToSat (satToBtc (of_Z 1999999999999999))) = of_Z 1999999999999999.
Proof. apply (sats_btc_roundtrip 1999999999999999). unfold max_supply. lia. Defined.

(** [msatToSat] rounds down, exactly: a balance of [n] msats shows as
    [n / 1000] sats, and the msats it is converted back to never exceed the
    balance, so that the amount a user can sweep is never more than there is. *)
Theorem msatToSat_rounds_down n :
  0 <= n < 2 ^ 53 ->
  msatToSat (of_Z n) = of_Z (n / 1000) /\
  satToMsat (msatToSat (of_Z n)) = of_Z (n - n mod 1000) /\
  leb (satToMsat (msatToSat (of_Z n))) (of_Z n) = true.
Proof.
  intros Hn. unfold msatToSat, satToMsat, MSATS_PER_SAT.
  pose proof (Z.div_mod n 1000 ltac:(lia)). pose proof (Z.mod_pos_bound n 1000 ltac:(lia)).
  rewrite floor_div_int by lia.
  rewrite mul_int by (unfold safe; lia).
  replace (n / 1000 * 1000) with (n - n mod 1000) by lia.
  rewrite leb_int by (unfold safe; lia). repeat split. apply Z.leb_le. lia.
Qed.

Lemma msatToSat_rounds_down_witness :
  msatToSat (of_Z 123999) = of_Z 123 /\ satToMsat (msatToSat (of_Z 123999)) = of_Z 123000.
Proof.
  destruct (msatToSat_rounds_down 123999) as (A & B & _); [lia|]. split; [exact A | exact B].
Defined.

(** Whatever the input, NaN and the infinities included, [clampSats]
    returns a non-negative integer; on an integer it is the larger of it and
    zero. *)
Lemma clampSats_valid v :
  (exists n, 0 <= n /\ clampSats v = Fin (n * unit1)) /\
  (forall n, safe n -> v = of_Z n -> clampSats v = of_Z (Z.max 0 n)).
Proof.
  pose proof unit1_pos as U. split.
  - assert (Z0 : exists n, 0 <= n /\ of_Z 0 = Fin (n * unit1))
      by (exists 0; split; [done | apply of_Z_safe; unfold safe; lia]).
    unfold clampSats. destruct v as [|s|m]; [exact Z0 | exact Z0 |]. cbn [is_finite negb].
    destruct (Z.le_gt_cases 0 m).
    + rewrite max2_zero by done. exists ((2 * m + unit1) / (2 * unit1)).
      split; [apply Z.div_pos; lia | reflexivity].
    + rewrite max2_negative, round_int by (done || (unfold safe; lia)). exact Z0.
  - intros n Hn ->. unfold clampSats. rewrite (of_Z_safe n) at 1 by done. cbn [is_finite negb].
    assert (safe 0) by (unfold safe; lia).
    rewrite max2_int, round_int by (done || unfold safe in *; lia). done.
Qed.

(** ** Trailing zeros *)

Definition no_dot (l : list Ascii.ascii) : Prop := Forall (fun c => c <> "."%char) l.
Definition no_space (l : list Ascii.ascii) : Prop := Forall (fun c => c <> " "%char) l.

Lemma strip_zeros_spec l :
  exists k, l = (strip_zeros l ++ replicate k "0"%char)%list /\
            list.last (strip_zeros l) <> Some "0"%char.
Proof.
  induction l as [|c l (k & E & L)]; [by exists 0%nat|]. cbn [strip_zeros].
  destruct (strip_zeros l) as [|d r].
  - unfold is_zero. case_bool_decide as H.
    + subst c. exists (S k). simpl in *. by rewrite E at 1.
    + exists k. simpl in *. split; [by rewrite E at 1 | congruence].
  - exists k. split; [simpl in *; by rewrite E at 1 | done].
Qed.

Lemma digit_no_dot l : forallb is_digit l = true -> no_dot l /\ no_space l.
Proof.
  intros H. rewrite forallb_forall in H.
  split; apply list.Forall_forall; intros c Hc ->; apply list_elem_of_In in Hc;
    specialize (H _ Hc); discriminate.
Qed.

Lemma clean_number_no_dot l : no_dot l -> clean_number l = l.
Proof.
  induction 1 as [|c l Hc _ IH]; [done|]. simpl. rewrite decide_False by done. by f_equal.
Qed.

Lemma clean_number_app i l : no_dot i -> clean_number (i ++ l) = (i ++ clean_number l)%list.
Proof.
  induction 1 as [|c i Hc _ IH]; [done|]. simpl. rewrite decide_False by done. by f_equal.
Qed.

Lemma split_spaces_app w l : no_space w ->
  split_spaces (w ++ " "%char :: l) = (w, (fun p => p.1 :: p.2) (split_spaces l)).
Proof.
  induction 1 as [|c w Hc _ IH]; simpl.
  - by destruct (split_spaces l).
  - rewrite IH. by rewrite decide_False.
Qed.

Lemma split_spaces_word w : no_space w -> split_spaces w = (w, []).
Proof.
  induction 1 as [|c w Hc _ IH]; simpl; [done|]. rewrite IH. by rewrite decide_False.
Qed.

Lemma join_split l : join_spaces ((fun p => p.1 :: p.2) (split_spaces l)) = l.
Proof.
  induction l as [|c l IH]; simpl; [done|].
  destruct (split_spaces l) as [w ws]. simpl in *.
  case_decide as H; [subst c; simpl; by f_equal |].
  destruct ws; simpl in *; by f_equal.
Qed.

(** [stripTrailingZerosWithSuffix] on a formatted amount, an integer part
    and a non-empty fraction of digits, possibly followed by a space and a
    unit: the result is the same amount without the zeros at the end of the
    fraction, without the dot when nothing is left of the fraction, and with
    the rest of the text untouched. *)
Theorem strip_trailing_zeros i f suffix :
  no_dot i -> no_space i -> f <> [] -> forallb is_digit f = true ->
  exists f' k, f = (f' ++ replicate k "0"%char)%list /\ list.last f' <> Some "0"%char /\
    let cleaned := (i ++ match f' with [] => [] | _ => "."%char :: f' end)%list in
    stripTrailingZerosWithSuffix (String.string_of_list_ascii (i ++ "."%char :: f)%list) =
      String.string_of_list_ascii cleaned /\
    stripTrailingZerosWithSuffix
      (String.string_of_list_ascii (i ++ "."%char :: f ++ " "%char :: suffix)%list) =
      String.string_of_list_ascii (cleaned ++ " "%char :: suffix)%list.
Proof.
  intros Hi Hs Hf Hd. destruct (strip_zeros_spec f) as (k & E & L).
  exists (strip_zeros f), k. split; [done|]. split; [done|]. cbv zeta.
  destruct (digit_no_dot _ Hd) as [Df Sf].
  assert (C : clean_number (i ++ "."%char :: f)%list =
    (i ++ match strip_zeros f with [] => [] | _ => "."%char :: strip_zeros f end)%list).
  { rewrite clean_number_app by done. f_equal. cbn [clean_number].
    rewrite decide_True by done. unfold match_fraction. rewrite Hd. cbn [andb].
    case_bool_decide as B.
    - by destruct (strip_zeros f).
    - rewrite clean_number_no_dot by done.
      destruct (strip_zeros f); [congruence | by rewrite B]. }
  assert (N : no_space (i ++ "."%char :: f)%list).
  { apply list.Forall_app. split; [done|]. apply list.Forall_cons. split; [discriminate | done]. }
  unfold stripTrailingZerosWithSuffix. rewrite !String.list_ascii_of_string_of_list_ascii. split.
  - rewrite split_spaces_word by done. rewrite C. rewrite decide_True, app_nil_r by done. done.
  - change (i ++ "."%char :: f ++ " "%char :: suffix)%list
      with (i ++ ("."%char :: f) ++ " "%char :: suffix)%list.
    rewrite (assoc_L (++)), split_spaces_app by done. rewrite C.
    rewrite decide_False by done. by rewrite join_split.
Qed.

Lemma strip_trailing_zeros_witness :
  exists f' k, String.list_ascii_of_string "500" = (f' ++ replicate k "0"%char)%list /\
    stripTrailingZerosWithSuffix "1,000.500 SATS" = "1,000.5 SATS".
Proof.
  destruct (strip_trailing_zeros (String.list_ascii_of_string "1,000")
    (String.list_ascii_of_string "500") (String.list_ascii_of_string "SATS"))
    as (f' & k & E & _).
  1, 2: repeat constructor; discriminate.
  1: discriminate.
  1: reflexivity.
  exists f', k. split; [exact E | reflexivity].
Defined.
