(* ===== verification/Meta.v ===== *)
(** Federation and community metadata: [ui/common/utils/FederationUtils.ts].

    Metadata are records of strings set by the guardians of a federation; the
    functions read them under their several historical names and give every
    missing field its default.  Federations, communities and previews are the
    objects the bridge sends.  The network fetches, the zod validation of mini
    apps and the url comparison of recovery are not modelled. *)
From Stdlib Require Import ZArith Lia.
From stdpp Require Import base tactics strings list option.
From S2P Require Import Prelude JsNum Js JsStr.
Local Open Scope string_scope.

(** ** Fields *)

Definition SupportedMetaFields : list string :=
  ["default_currency"; "fixed_exchange_rate"; "chat_server_domain"; "invite_codes_disabled";
   "new_members_disabled"; "social_recovery_disabled"; "offline_wallet_disabled";
   "onchain_deposits_disabled"; "fedi_internal_injection_disabled"; "stability_pool_disabled";
   "multispend_disabled"; "max_stable_balance_msats"; "max_balance_msats"; "max_invoice_msats";
   "nostr_enabled"; "popup_end_timestamp"; "federation_expiry_timestamp";
   "popup_countdown_message"; "popup_ended_message"; "tos_url"; "welcome_message";
   "pinned_message"; "federation_icon_url"; "federation_name"; "default_matrix_rooms";
   "default_group_chats"; "autojoin_communities"].

Definition is_str (v : jval) (s : string) : bool := bool_decide (v = JStr s).

Definition getMetaField (field : string) (metadata : obj) : jval :=
  if decide (field = "sites" \/ field = "fedimods") then
    nullish (nullish (nullish (nullish (get "fedi:fedimods" metadata)
      (get "fedi:sites" metadata)) (get "fedimods" metadata)) (get "sites" metadata)) JNull
  else if decide (field = "default_matrix_rooms") then
    nullish (nullish (get "fedi:default_matrix_rooms" metadata) (get field metadata)) JNull
  else if decide (field = "autojoin_communities") then
    nullish (nullish (nullish (get "fedi:autojoin_communities" metadata)
      (get "fedi:autojoin_communities:" metadata)) (get field metadata)) JNull
  else if decide (field = "popup_end_timestamp") then
    nullish (nullish (nullish (get ("fedi:" +:+ field) metadata) (get field metadata))
      (get "federation_expiry_timestamp" metadata)) JNull
  else if decide (field ∈ SupportedMetaFields) then
    nullish (nullish (get ("fedi:" +:+ field) metadata) (get field metadata)) JNull
  else JNull.

Definition getFederationDefaultCurrency (metadata : obj) : jval :=
  getMetaField "default_currency" metadata.

(** [typeof v !== 'string' ? d : Number(v)] *)
Definition numeric_field (d v : jval) : jval :=
  match v with JStr s => JNum (to_number s) | _ => d end.

Definition getFederationFixedExchangeRate (metadata : obj) : jval :=
  numeric_field JNull (getMetaField "fixed_exchange_rate" metadata).
Definition getFederationMaxBalanceMsats (metadata : obj) : jval :=
  numeric_field JUndef (getMetaField "max_balance_msats" metadata).
Definition getFederationMaxInvoiceMsats (metadata : obj) : jval :=
  numeric_field JUndef (getMetaField "max_invoice_msats" metadata).
Definition getFederationMaxStableBalanceMsats (metadata : obj) : jval :=
  numeric_field JUndef (getMetaField "max_stable_balance_msats" metadata).

(** ** Feature switches *)

Definition shouldShowInviteCode (metadata : obj) : bool :=
  negb (is_str (getMetaField "invite_codes_disabled" metadata) "true").

Definition shouldShowJoinFederation (metadata : obj) : bool :=
  negb (is_str (getMetaField "new_members_disabled" metadata) "true").

Definition shouldShowOfflineWallet (metadata : obj) : bool :=
  negb (is_str (getMetaField "offline_wallet_disabled" metadata) "true").

Definition shouldEnableOnchainDeposits (metadata : obj) : bool :=
  let onchainDepositsDisabled := getMetaField "onchain_deposits_disabled" metadata in
  if decide (onchainDepositsDisabled = JNull) then true
  else negb (is_str onchainDepositsDisabled "true").

Definition shouldEnableStabilityPool (metadata : obj) : bool :=
  let stabilityPoolDisabled := getMetaField "stability_pool_disabled" metadata in
  if decide (stabilityPoolDisabled = JNull) then false
  else negb (is_str stabilityPoolDisabled "true").

Definition hasMultispendEnabled (metadata : obj) : bool :=
  let multispendDisabledMeta := getMetaField "multispend_disabled" metadata in
  if is_str multispendDisabledMeta "false" then true
  else if is_str multispendDisabledMeta "true" then false
  else false.

(** The [for ... in] loop over the modules of a client config: it falls off the
    end, returning [undefined], when no module has the kind. *)
Fixpoint find_kind (kind : string) (modules : obj) : result jval :=
  match modules with
  | [] => Ok JUndef
  | (_, fmModule) :: modules =>
      k ← prop fmModule "kind";
      if is_str k kind then Ok (JBool true) else find_kind kind modules
  end.

Definition has_module (kind : string) (federation : obj) : result jval :=
  let clientConfig := get "clientConfig" federation in
  if negb (truthy clientConfig) then Ok (JBool false)
  else find_kind kind (own_props (opt_prop clientConfig "modules")).

Definition hasMultispendModule : obj -> result jval := has_module "multi_sig_stability_pool".
Definition hasSocialModule : obj -> result jval := has_module "fedi-social".

(** The metadata of a loaded federation, an object by its type. *)
Definition meta_of (federation : obj) : obj := own_props (get "meta" federation).

Definition shouldShowSocialRecovery (federation : obj) : result bool :=
  moduleEnabled ← hasSocialModule federation;
  let isNotDisabledInMeta :=
    negb (is_str (getMetaField "social_recovery_disabled" (meta_of federation)) "true") in
  Ok (truthy moduleEnabled && isNotDisabledInMeta).

(** ** Lists in metadata *)

Section Parsed.
(** The host's [JSON.parse]. *)
Context (parse : string -> result jval).

(** [try { return JSON.parse(v) } catch { }] falling through to [[]]. *)
Definition parsed_list (v : jval) : jval :=
  if truthy v then match parse (to_str v) with Ok r => r | Throw _ => JArr [] end
  else JArr [].

Definition getDefaultGroupChats (metadata : obj) : jval :=
  parsed_list (nullish (getMetaField "default_matrix_rooms" metadata)
                       (getMetaField "default_group_chats" metadata)).

Definition getAutojoinCommunities (metadata : obj) : jval :=
  parsed_list (getMetaField "autojoin_communities" metadata).

End Parsed.

(** ** Names and previews

    [{ ...o }] is a copy of [o], so [{ ...o, k: v }] is [set_prop k v o]. *)

(** [{ endTimestamp, countdownMessage, endedMessage }] *)
Definition getFederationPopupInfo (metadata : obj) : option (jval * jval * jval) :=
  let endTimestamp := getMetaField "popup_end_timestamp" metadata in
  if negb (truthy endTimestamp) then None
  else Some (endTimestamp, getMetaField "popup_countdown_message" metadata,
             getMetaField "popup_ended_message" metadata).

Definition getFederationTosUrl (metadata : obj) : jval := getMetaField "tos_url" metadata.
Definition getFederationWelcomeMessage (metadata : obj) : jval :=
  getMetaField "welcome_message" metadata.
Definition getFederationPinnedMessage (metadata : obj) : jval :=
  getMetaField "pinned_message" metadata.
Definition getFederationIconUrl (metadata : obj) : jval :=
  getMetaField "federation_icon_url" metadata.

Definition is_string (v : jval) : bool := match v with JStr _ => true | _ => false end.

Definition getFederationName (federation : obj) : jval :=
  let name :=
    if has "meta" federation && truthy (get "meta" federation)
    then jor (getMetaField "federation_name" (meta_of federation)) (JStr "")
    else JStr "" in
  if negb (truthy name) && has "name" federation && truthy (get "name" federation) &&
     is_string (get "name" federation)
  then jor (get "name" federation) (JStr "") else name.

(** The preview the bridge returned for an invite code, renamed. *)
Definition getFederationPreview (preview : obj) : result obj :=
  n ← prop (get "meta" preview) "federation_name";
  Ok (set_prop "name" (jor n (get "name" preview)) preview).

Definition coerceLoadedFederation (federation : obj) : obj :=
  set_prop "status" (JStr "online") federation.

Definition coerceCommunity (community : obj) : result obj :=
  id ← prop (get "communityInvite" community) "invite_code_str";
  Ok (spread [("id", id)] community).

Definition coerceCommunityPreview (community : obj) : result obj :=
  c ← coerceCommunity community;
  Ok (spread [("returningMemberStatus", JObj [("type", JStr "unknown")]);
              ("version", JNum (of_Z 0))] c).

Definition getPreviewFromLoadedFederation (federation : obj) : obj :=
  set_prop "returningMemberStatus" (JObj [("type", JStr "returningMember")])
    (set_prop "name" (get "name" federation) federation).

Inductive InviteCodeType := InviteFederation | InviteCommunity.

Definition detectInviteCodeType (code : string) : option InviteCodeType :=
  if startsWith (toLowerCase code) "fed1" then Some InviteFederation
  else if startsWith (toLowerCase code) "fedi:community" then Some InviteCommunity
  else None.

(** ** Public directories *)

(** [Object.entries(json).forEach] with the accumulator it pushes to. *)
Definition fetchPublicCommunities (externalMetaJson : obj) : list obj :=
  omap (fun kv =>
    let value := kv.2 in
    if negb (truthy value) then None
    else if truthy (opt_prop value "public") && is_str (opt_prop value "public") "true" &&
            truthy (opt_prop value "invite_code") && truthy (opt_prop value "preview_message")
    then Some [("id", JStr kv.1); ("name", jor (opt_prop value "name") (JStr ""));
               ("meta", value)]
    else None) externalMetaJson.

(** The entry has expired, or expires before [minExpiryTimestamp]. *)
Definition expires_early (minExpiryTimestamp : num) (value : obj) : bool :=
  let expiryStr := getMetaField "popup_end_timestamp" value in
  if truthy expiryStr then
    let expiry := parse_int (to_str expiryStr) in
    negb (is_nan expiry) && ltb expiry minExpiryTimestamp
  else false.

Definition parseFederationsFromMeta (now : num) (externalMetaJson : obj)
    (minExpirySeconds : num) : list obj :=
  let nowSeconds := floor (div now (of_Z 1000)) in
  let minExpiryTimestamp := add nowSeconds minExpirySeconds in
  omap (fun kv =>
    let value := kv.2 in
    if negb (truthy value) then None
    else if expires_early minExpiryTimestamp (own_props value) then None
    else if is_str (opt_prop value "public") "true" && truthy (opt_prop value "invite_code")
    then Some [("id", JStr kv.1);
               ("name", jor (getMetaField "federation_name" (own_props value)) (JStr ""));
               ("meta", value)]
    else None) externalMetaJson.

Definition AUTOSELECT_MIN_EXPIRY_SECONDS : num := of_Z (30 * 24 * 60 * 60).

Definition fetchPublicFederations (now : num) (metaJson : obj) : list obj :=
  parseFederationsFromMeta now metaJson (of_Z 0).
Definition fetchAutoSelectFederations (now : num) (metaJson : obj) : list obj :=
  parseFederationsFromMeta now metaJson AUTOSELECT_MIN_EXPIRY_SECONDS.

(** ** Connection status *)

Definition is_offline (status : obj) : bool := negb (has "online" status).

Definition getFederationStatus (guardianStatuses : list obj) : string :=
  let offlineGuardians := filter (fun s => is_offline s) guardianStatuses in
  if decide (length offlineGuardians = 0%nat) then "online"
  else if decide (3 * Z.of_nat (length offlineGuardians) + 1 <= Z.of_nat (length guardianStatuses))%Z
  then "unstable" else "offline".

(** ** Properties *)

(** The keys a field is read from, in order of precedence. *)
Definition alias_keys (field : string) : list string :=
  if decide (field = "sites" \/ field = "fedimods") then
    ["fedi:fedimods"; "fedi:sites"; "fedimods"; "sites"]
  else if decide (field = "autojoin_communities") then
    ["fedi:autojoin_communities"; "fedi:autojoin_communities:"; field]
  else if decide (field = "popup_end_timestamp") then
    ["fedi:popup_end_timestamp"; field; "federation_expiry_timestamp"]
  else if decide (field ∈ SupportedMetaFields) then ["fedi:" +:+ field; field]
  else [].

Definition is_nullish (v : jval) : bool := match v with JUndef | JNull => true | _ => false end.

Fixpoint first_defined (ks : list string) (m : obj) : jval :=
  match ks with
  | [] => JNull
  | k :: ks => if is_nullish (get k m) then first_defined ks m else get k m
  end.

Lemma nullish_split a b : nullish a b = if is_nullish a then b else a.
Proof. by destruct a. Qed.

Lemma getMetaField_first field m : getMetaField field m = first_defined (alias_keys field) m.
Proof.
  unfold getMetaField, alias_keys. case_decide.
  { simpl. rewrite !nullish_split.
    destruct (get "fedi:fedimods" m), (get "fedi:sites" m), (get "fedimods" m), (get "sites" m);
      reflexivity. }
  repeat (case_decide; [subst field; simpl; rewrite ?nullish_split |]).
  1: change ("fedi:" +:+ "default_matrix_rooms") with "fedi:default_matrix_rooms".
  3: change ("fedi:" +:+ "popup_end_timestamp") with "fedi:popup_end_timestamp".
  4: case_decide; [|reflexivity].
  all: simpl; rewrite ?nullish_split;
    repeat match goal with
    | |- context [is_nullish (get ?k ?m')] => destruct (get k m'); simpl
    end; reflexivity.
Qed.

Lemma first_defined_spec ks m v :
  first_defined ks m = v -> v <> JNull ->
  exists l1 k l2, ks = (l1 ++ k :: l2)%list /\ get k m = v /\
    Forall (fun k' => is_nullish (get k' m) = true) l1.
Proof.
  intros <-. induction ks as [|k ks IH]; simpl; [done|].
  destruct (is_nullish (get k m)) eqn:E; intros Hv.
  - destruct (IH Hv) as (l1 & k' & l2 & -> & G & F).
    exists (k :: l1), k', l2. split; [done|]. split; [done|]. by constructor.
  - exists [], k, ks. split; [done|]. split; [done|]. constructor.
Qed.

Lemma first_defined_none ks m :
  Forall (fun k => is_nullish (get k m) = true) ks -> first_defined ks m = JNull.
Proof. induction 1 as [|k ks Hk _ IH]; simpl; [done|]. by rewrite Hk. Qed.

(** Reading a metadata field: a value is only ever taken from a key that
    names the field, the keys are tried in a fixed order in which the
    namespaced key [fedi:<field>] comes first for every supported field, and
    the result is [null] exactly when none of them carries a value. *)
Theorem getMetaField_precedence field m :
  (field ∈ SupportedMetaFields -> head (alias_keys field) = Some ("fedi:" +:+ field)) /\
  (getMetaField field m = JNull <->
     Forall (fun k => is_nullish (get k m) = true) (alias_keys field)) /\
  (forall v, getMetaField field m = v -> v <> JNull ->
     exists l1 k l2, alias_keys field = (l1 ++ k :: l2)%list /\ get k m = v /\
       Forall (fun k' => is_nullish (get k' m) = true) l1).
Proof.
  rewrite getMetaField_first. repeat split.
  - intros H. unfold alias_keys. case_decide as H1.
    { exfalso. revert H. destruct H1; subst field; by refine (bool_decide_eq_false_1 _ _). }
    case_decide; [by subst|]. case_decide; [by subst|]. by rewrite decide_True.
  - intros H. induction (alias_keys field) as [|k ks IH]; constructor; simpl in H.
    + destruct (get k m); done.
    + apply IH. destruct (is_nullish (get k m)) eqn:E; [done|]. by rewrite H in E.
  - apply first_defined_none.
  - intros v. apply first_defined_spec.
Qed.

Lemma length_filter_split {A} (p : A -> bool) (l : list A) :
  length l = (length (filter (fun x => p x) l) + length (filter (fun x => negb (p x)) l))%nat.
Proof.
  induction l as [|x l IH]; [done|].
  rewrite !filter_cons. destruct (p x); simpl; lia.
Qed.

(** [getFederationStatus] reports [offline] exactly when too few guardians
    are reachable for the federation to reach consensus: with [n = 3f + 1] or
    more guardians, of which [f = (n - 1) / 3] may be faulty, it takes [n - f]
    of them; it reports [online] exactly when all of them are reachable. *)
Theorem getFederationStatus_threshold guardians :
  let n := Z.of_nat (length guardians) in
  let reachable := Z.of_nat (length (filter (fun s => negb (is_offline s)) guardians)) in
  (getFederationStatus guardians = "online" <-> reachable = n) /\
  (0 < n -> getFederationStatus guardians = "offline" <-> reachable < n - (n - 1) / 3)%Z.
Proof.
  intros n reachable.
  assert (E : (n = reachable + Z.of_nat (length (filter (fun s => is_offline s) guardians)))%Z).
  { unfold n, reachable. pose proof (length_filter_split is_offline guardians). lia. }
  unfold getFederationStatus. fold n.
  set (o := length (filter (fun s => is_offline s) guardians)) in *.
  split; [|intros Hn; pose proof (Z.div_mod (n - 1) 3); pose proof (Z.mod_pos_bound (n - 1) 3)];
    repeat case_decide; split; intros; try discriminate; try reflexivity; lia.
Qed.

Lemma getFederationStatus_threshold_witness :
  getFederationStatus [[("online", JNull)]; [("online", JNull)]; [("error", JNull)]; [("timeout", JNull)]]
    = "offline".
Proof.
  apply (getFederationStatus_threshold
    [[("online", JNull)]; [("online", JNull)]; [("error", JNull)]; [("timeout", JNull)]]);
    reflexivity.
Defined.

Lemma getMetaField_precedence_witness :
  getMetaField "popup_end_timestamp" [("federation_expiry_timestamp", JStr "9")] = JStr "9" /\
  exists l1 k l2, alias_keys "popup_end_timestamp" = (l1 ++ k :: l2)%list /\
    get k [("federation_expiry_timestamp", JStr "9")] = JStr "9" /\
    Forall (fun k' => is_nullish (get k' [("federation_expiry_timestamp", JStr "9")]) = true) l1.
Proof.
  split; [reflexivity|].
  apply (getMetaField_precedence "popup_end_timestamp" [("federation_expiry_timestamp", JStr "9")]);
    [reflexivity | discriminate].
Defined.

(** A later expiry bound only rejects more. *)
Lemma expires_early_mono t t' v :
  (forall x, ltb x t = true -> ltb x t' = true) ->
  expires_early t v = true -> expires_early t' v = true.
Proof.
  unfold expires_early. intros H. case_if; [|done].
  intros [Hn Hl]%andb_true_iff. by rewrite Hn, H.
Qed.

Lemma omap_sublist {A B} (f g : A -> option B) l :
  (forall x y, f x = Some y -> g x = Some y) -> sublist (omap f l) (omap g l).
Proof.
  intros H. induction l as [|x l IH]; [constructor|]. simpl.
  destruct (f x) eqn:E; [by rewrite (H _ _ E); constructor|].
  destruct (g x); [by constructor | done].
Qed.

(** The federations suggested automatically are among the public ones, in
    the same order, whenever both lists come from the same directory at the
    same time: demanding thirty more days before expiry only removes entries. *)
Theorem autoSelect_sublist_public now json :
  (0 <= now < 2 ^ 53)%Z ->
  sublist (fetchAutoSelectFederations (of_Z now) json) (fetchPublicFederations (of_Z now) json).
Proof.
  intros Hn. apply omap_sublist. intros [k v] y. simpl.
  assert (M : forall x,
    ltb x (add (floor (div (of_Z now) (of_Z 1000))) (of_Z 0)) = true ->
    ltb x (add (floor (div (of_Z now) (of_Z 1000))) AUTOSELECT_MIN_EXPIRY_SECONDS) = true).
  { assert (0 <= now / 1000 < 2 ^ 44)%Z
      by (split; [apply Z.div_pos | apply Z.div_lt_upper_bound]; lia).
    rewrite floor_div_int by lia. unfold AUTOSELECT_MIN_EXPIRY_SECONDS.
    rewrite !add_int by (unfold safe; lia).
    rewrite !of_Z_safe by (unfold safe; lia). pose proof unit1_pos.
    intros [|[]|m]; simpl; [done | done | done |]. rewrite !Z.ltb_lt. nia. }
  destruct (negb (truthy v)); [done|].
  destruct (expires_early (add _ AUTOSELECT_MIN_EXPIRY_SECONDS) _) eqn:E1; [done|].
  destruct (expires_early (add _ (of_Z 0)) _) eqn:E2; [|done].
  by rewrite (expires_early_mono _ _ _ M E2) in E1.
Qed.

Lemma autoSelect_sublist_public_witness :
  sublist (fetchAutoSelectFederations (of_Z 1700000000000)
             [("a", JObj [("public", JStr "true"); ("invite_code", JStr "fed11")])])
          (fetchPublicFederations (of_Z 1700000000000)
             [("a", JObj [("public", JStr "true"); ("invite_code", JStr "fed11")])]).
Proof. apply autoSelect_sublist_public. lia. Defined.
