(* ===== verification/Federation.v ===== *)
(** The federation slice: [ui/common/redux/federation.ts].

    Joined federations and communities, which of them payments and screens
    refer to, and what is known about them.  Entities are the objects the
    bridge sends; an id that is absent is [None], whether the code has [null]
    or [undefined] there.  lodash's [isEqual] is a parameter.  Thunks are the
    transition they perform on the slice, with the answers of the bridge as
    arguments. *)
From Stdlib Require Import ZArith Lia Sorted.
From stdpp Require Import base tactics strings list option relations sorting.
From S2P Require Import Prelude JsNum Js JsStr Upsert Amount Meta.
Local Open Scope string_scope.

Record FederationState := mkFederationState {
  communities : list obj;
  federations : list obj;
  publicCommunities : list obj;
  publicFederations : list obj;
  autoSelectFederations : list obj;
  payFromFederationId : option string;
  recentlyUsedFederationIds : list string;
  lastSelectedCommunityId : option string;
  authenticatedGuardian : jval;
  customFediMods : obj;
  defaultCommunityChats : obj;
  gatewaysByFederation : obj;
  seenFederationRatings : list string;
  previouslyAutojoinedCommunities : obj;
  autojoinNoticesToDisplay : list string;
  guardianitoBot : jval;
  selectedFederationId : option string;
  simulateRecoveryByFederation : obj
}.

#[export] Instance FederationState_eta : Eta FederationState := fun s =>
  mkFederationState (communities s) (federations s) (publicCommunities s)
    (publicFederations s) (autoSelectFederations s) (payFromFederationId s)
    (recentlyUsedFederationIds s) (lastSelectedCommunityId s) (authenticatedGuardian s)
    (customFediMods s) (defaultCommunityChats s) (gatewaysByFederation s)
    (seenFederationRatings s) (previouslyAutojoinedCommunities s)
    (autojoinNoticesToDisplay s) (guardianitoBot s) (selectedFederationId s)
    (simulateRecoveryByFederation s).

Module Federation.

Definition initialState : FederationState :=
  mkFederationState [] [] [] [] [] None [] None JNull [] [] [] [] [] [] JNull None [].

(** [x.id === id] *)
Definition has_id (id : string) (o : obj) : bool := bool_decide (id_of o = JStr id).
Definition same_id (o p : obj) : bool := bool_decide (id_of o = id_of p).

(** [l.find(p)] *)
Definition find_first (p : obj -> bool) (l : list obj) : option obj :=
  head (filter (fun o => p o) l).

(** [Array.from(new Set(l))] *)
Fixpoint dedup (l : list string) : list string :=
  match l with
  | [] => []
  | x :: l => x :: filter (fun y => y <> x) (dedup l)
  end.

Section Slice.
(** lodash's [isEqual]. *)
Context (isEqual : jval -> jval -> bool).

(** ** Refreshing the lists *)

(** [{ ...('meta' in old ? old.meta : {}), ...new.meta }] *)
Definition mergedMeta (old new : obj) : obj :=
  spread (if has "meta" old then own_props (get "meta" old) else []) (own_props (get "meta" new)).

(** [{ ...old, ...new }] with the metadata merged. *)
Definition overlay (old new : obj) : obj :=
  let updated := spread old new in
  if has "meta" new then set_prop "meta" (JObj (mergedMeta old new)) updated else updated.

Definition community_step (payload : list obj) (acc : list obj * bool) (existing : obj)
    : list obj * bool :=
  let '(acc, hasAnyUpdates) := acc in
  match find_first (fun f => same_id f existing) payload with
  | None => (acc, true)
  | Some toUpsert =>
      let updated := overlay existing toUpsert in
      if negb (isEqual (JObj existing) (JObj updated)) then ((acc ++ [updated])%list, true)
      else ((acc ++ [existing])%list, hasAnyUpdates)
  end.

Definition unknown_to (l : list obj) (new : obj) : bool :=
  negb (existsb (fun existing => same_id existing new) l).

Definition setCommunities (payload : list obj) (s : FederationState) : FederationState :=
  let '(updated, hasAnyUpdates) := foldl (community_step payload) ([], false) (communities s) in
  let new := filter (fun c => unknown_to (communities s) c) payload in
  if hasAnyUpdates || bool_decide (new <> [])
  then s <| communities := (updated ++ new)%list |> else s.

Definition updated_federation (existing toUpsert : obj) : obj :=
  if is_str (get "init_state" toUpsert) "loading" || is_str (get "init_state" toUpsert) "failed"
  then toUpsert else overlay existing toUpsert.

Definition federation_step (payload : list obj) (acc : list obj * bool) (existing : obj)
    : list obj * bool :=
  let '(acc, hasAnyUpdates) := acc in
  match find_first (fun f => same_id f existing) payload with
  | None => ((acc ++ [existing])%list, hasAnyUpdates)
  | Some toUpsert =>
      let updated := updated_federation existing toUpsert in
      if negb (isEqual (JObj existing) (JObj updated)) then ((acc ++ [updated])%list, true)
      else ((acc ++ [existing])%list, hasAnyUpdates)
  end.

Definition setFederations (payload : list obj) (s : FederationState) : FederationState :=
  let '(updated, hasAnyUpdates) := foldl (federation_step payload) ([], false) (federations s) in
  let new := filter (fun c => unknown_to (federations s) c) payload in
  if hasAnyUpdates || bool_decide (new <> [])
  then s <| federations := (updated ++ new)%list |> else s.

(** ** Reducers *)

Definition setPublicCommunities (l : list obj) (s : FederationState) := s <| publicCommunities := l |>.
Definition setPublicFederations (l : list obj) (s : FederationState) := s <| publicFederations := l |>.
Definition setAutoSelectFederations (l : list obj) (s : FederationState) :=
  s <| autoSelectFederations := l |>.

Definition upsertCommunity (payload : obj) (s : FederationState) : FederationState :=
  if negb (truthy (id_of payload)) then s
  else s <| communities :=
    (upsertListItem isEqual (Some (communities s)) payload (Some ["meta"]) None).2 |>.

Definition upsertFederation (payload : obj) (s : FederationState) : FederationState :=
  if negb (truthy (id_of payload)) then s
  else s <| federations :=
    (upsertListItem isEqual (Some (federations s)) payload (Some ["meta"]) None).2 |>.

Definition updateFederationBalance (federationId : string) (balance : num) (s : FederationState)
    : FederationState :=
  match find_first (has_id federationId) (federations s) with
  | None => s
  | Some federation =>
      if negb (is_str (get "init_state" federation) "ready") ||
         bool_decide (get "balance" federation = JNum balance) then s
      else s <| federations := (fun f =>
        if negb (has_id federationId f) then f
        else set_prop "balance" (JNum balance) f) <$> federations s |>
  end.

Definition setPayFromFederationId (id : option string) (s : FederationState) :=
  s <| payFromFederationId := id |>.

Definition setLastUsedFederationId (id : string) (s : FederationState) : FederationState :=
  s <| recentlyUsedFederationIds := dedup (id :: recentlyUsedFederationIds s) |>
    <| selectedFederationId := Some id |>.

Definition setLastSelectedCommunityId (id : option string) (s : FederationState) :=
  s <| lastSelectedCommunityId := id |>.

Definition setCommunityCustomFediMods (federationId : string) (mods : jval) (s : FederationState)
    : FederationState :=
  if isEqual mods (jor (get federationId (customFediMods s)) (JArr [])) then s
  else s <| customFediMods := set_prop federationId mods (customFediMods s) |>.

Definition changeAuthenticatedGuardian (g : jval) (s : FederationState) :=
  s <| authenticatedGuardian := g |>.

Definition removeCustomFediMod (federationId fediModId : string) (s : FederationState)
    : FederationState :=
  let fediMods := match jor (get federationId (customFediMods s)) (JArr []) with
                  | JArr l => l | _ => [] end in
  s <| customFediMods :=
    set_prop federationId
      (JArr (filter (fun f => negb (is_str (opt_prop f "id") fediModId)) fediMods))
      (customFediMods s) |>.

Definition addFederationGateways (federationId : string) (gateways : list jval)
    (s : FederationState) :=
  s <| gatewaysByFederation := set_prop federationId (JArr gateways) (gatewaysByFederation s) |>.

Definition setSeenFederationRating (federationId : string) (s : FederationState) :=
  if decide (federationId ∈ seenFederationRatings s) then s
  else s <| seenFederationRatings := (seenFederationRatings s ++ [federationId])%list |>.

Definition setPreviouslyAutojoinedCommunity (communityId : string) (now : num)
    (s : FederationState) :=
  s <| previouslyAutojoinedCommunities :=
    set_prop communityId (JNum now) (previouslyAutojoinedCommunities s) |>.

Definition clearAutojoinedCommunitiesAndNotices (s : FederationState) :=
  s <| previouslyAutojoinedCommunities := [] |> <| autojoinNoticesToDisplay := [] |>.

Definition addAutojoinNoticeToDisplay (communityId : string) (s : FederationState) :=
  if decide (communityId ∈ autojoinNoticesToDisplay s) then s
  else s <| autojoinNoticesToDisplay := (autojoinNoticesToDisplay s ++ [communityId])%list |>.

Definition removeAutojoinNoticeToDisplay (communityId : string) (s : FederationState) :=
  s <| autojoinNoticesToDisplay :=
    filter (fun id => id <> communityId) (autojoinNoticesToDisplay s) |>.

Definition setGuardianitoBot (bot : jval) (s : FederationState) := s <| guardianitoBot := bot |>.

(** [v2Community.id] is a string by its type. *)
Definition migrateCommunityV1ToV2 (v1InviteCode : string) (v2Community : obj)
    (s : FederationState) : FederationState :=
  let filteredCommunities := filter (fun c => negb (has_id v1InviteCode c)) (communities s) in
  let s := s <| communities :=
    (upsertListItem isEqual (Some filteredCommunities) v2Community (Some ["meta"]) None).2 |> in
  if decide (lastSelectedCommunityId s = Some v1InviteCode)
  then s <| lastSelectedCommunityId := Some (to_str (id_of v2Community)) |> else s.

Definition setSelectedFederationId (id : string) (s : FederationState) :=
  s <| selectedFederationId := Some id |>.

Definition setSimulateRecovery (federationId : string) (enabled : bool) (s : FederationState) :=
  s <| simulateRecoveryByFederation :=
    set_prop federationId (JBool enabled) (simulateRecoveryByFederation s) |>.

(** ** Extra reducers *)

Definition preloadFederationLists_fulfilled (publicF autoF : list obj) (s : FederationState) :=
  s <| publicFederations := publicF |> <| autoSelectFederations := autoF |>.

(** The id of an entity in the list, a string by its type. *)
Definition id_str (o : obj) : string := to_str (id_of o).

(** [omit(record, id)] when the entry is there. *)
Definition drop_mods (id : string) (mods : obj) : obj :=
  if truthy (get id mods) then del_prop id mods else mods.

(** The recently used ids without the one that left, or the first federation
    that remains. *)
Definition recent_after (federationId : string) (first : obj) (recent : list string)
    : list string :=
  match filter (fun id => id <> federationId) recent with
  | [] => dedup [id_str first]
  | l => l
  end.

Definition leaveFederation_fulfilled (federationId : string) (s : FederationState)
    : FederationState :=
  let federations' := filter (fun fed => negb (has_id federationId fed)) (federations s) in
  let s1 := s <| federations := federations' |> in
  let s2 :=
    match federations' with
    | [] => s1 <| payFromFederationId := None |>
    | first :: _ =>
        let recent := recent_after federationId first (recentlyUsedFederationIds s) in
        let s1 := s1 <| recentlyUsedFederationIds := recent |> in
        if decide (payFromFederationId s = Some federationId)
        then s1 <| payFromFederationId := head recent |> else s1
    end in
  s2 <| customFediMods := drop_mods federationId (customFediMods s2) |>.

Definition leaveCommunity_fulfilled (communityId : string) (s : FederationState)
    : FederationState :=
  let communities' := filter (fun c => negb (has_id communityId c)) (communities s) in
  let s1 := s <| communities := communities' |> in
  let first := id_str <$> head communities' in
  let s2 :=
    if decide (length communities' = 1%nat) then s1 <| lastSelectedCommunityId := first |>
    else if decide (lastSelectedCommunityId s = Some communityId)
    then s1 <| lastSelectedCommunityId := first |> else s1 in
  s2 <| customFediMods := drop_mods communityId (customFediMods s2) |>.

Definition createGuardianitoBot_fulfilled := setGuardianitoBot.

(** The fields of the stored document the slice restores. *)
Record Restored := mkRestored {
  r_recentlyUsed : list string; r_lastSelected : option string; r_guardian : jval;
  r_fediMods : option obj; r_seenRatings : list string; r_autojoined : option obj;
  r_notices : option (list string); r_selected : option string
}.

Definition loadFromStorage_fulfilled (payload : option Restored) (s : FederationState)
    : FederationState :=
  match payload with
  | None => s
  | Some p =>
      s <| recentlyUsedFederationIds := r_recentlyUsed p |>
        <| lastSelectedCommunityId := r_lastSelected p |>
        <| authenticatedGuardian := r_guardian p |>
        <| customFediMods := default [] (r_fediMods p) |>
        <| seenFederationRatings := r_seenRatings p |>
        <| previouslyAutojoinedCommunities := default [] (r_autojoined p) |>
        <| autojoinNoticesToDisplay := default [] (r_notices p) |>
        <| selectedFederationId := match r_selected p with Some "" => None | id => id end |>
  end.

(** [chatPreviews] are the mapped previews of the action. *)
Definition previewCommunityDefaultChats_fulfilled (communityId : string) (chatPreviews : list jval)
    (s : FederationState) : FederationState :=
  if isEqual (JArr chatPreviews) (get communityId (defaultCommunityChats s)) then s
  else s <| defaultCommunityChats :=
    set_prop communityId (JArr chatPreviews) (defaultCommunityChats s) |>.

End Slice.
(** ** Selectors *)

(** [{ ...f, init_state: 'ready', name, recovering }] *)
Definition loaded (simulateRecovery : obj) (f : obj) : obj :=
  set_prop "recovering"
    (jor (get "recovering" f)
         (JBool (bool_decide (get (id_str f) simulateRecovery = JBool true))))
    (set_prop "name" (getFederationName f)
      (set_prop "init_state" (JStr "ready") f)).

Definition selectLoadedFederations (s : FederationState) : list obj :=
  loaded (simulateRecoveryByFederation s) <$>
    filter (fun f => is_str (get "init_state" f) "ready") (federations s).

Definition selectLoadedFederationIds (s : FederationState) : list jval :=
  id_of <$> selectLoadedFederations s.

Definition selectLastUsedFederationId (s : FederationState) : option string :=
  head (recentlyUsedFederationIds s).

(** The rank of a federation: its position among the recently used ones, or
    past the end. *)
Definition recency_rank (recent : list string) (past_end : nat) (f : obj) : nat :=
  match list_find (fun id => JStr id = id_of f) recent with
  | Some (i, _) => i
  | None => past_end
  end.

Definition by_recency (recent : list string) (past_end : nat) (a b : obj) : bool :=
  (recency_rank recent past_end a <=? recency_rank recent past_end b)%nat.

Definition selectLoadedFederationsByRecency (s : FederationState) : list obj :=
  let federations := selectLoadedFederations s in
  sort_stable (by_recency (recentlyUsedFederationIds s) (length federations)) federations.

(** [id] as a condition: the empty string is falsy. *)
Definition truthy_id (id : option string) : option string :=
  match id with Some "" => None | _ => id end.

Definition selectNonFeaturedFederations (s : FederationState) : list obj :=
  let federations := selectLoadedFederations s in
  let federationList :=
    match truthy_id (selectLastUsedFederationId s) with
    | Some id => filter (fun f => negb (has_id id f)) federations
    | None => federations
    end in
  sort_stable (by_recency (recentlyUsedFederationIds s) (length federationList)) federationList.

Definition selectFederations (s : FederationState) : list obj :=
  filter (fun f => negb (is_str (get "init_state" f) "failed"))
    ((fun f => set_prop "name" (getFederationName f) f) <$> federations s).

Definition selectCommunity (s : FederationState) (id : string) : option obj :=
  find_first (has_id id) (communities s).

Definition selectLastSelectedCommunity (s : FederationState) : option obj :=
  match truthy_id (lastSelectedCommunityId s) with
  | Some id => find_first (has_id id) (communities s)
  | None => head (communities s)
  end.

Definition selectCanLeaveCommunity (globalCommunityInvite : jval) (s : FederationState)
    (communityId : string) : bool :=
  negb (bool_decide
    (match selectCommunity s communityId with Some c => id_of c | None => JUndef end
       = globalCommunityInvite)).

Definition selectShouldShowDegradedStatus (isInternetUnreachable : bool)
    (federation : option obj) : bool :=
  if isInternetUnreachable then false
  else match federation with
  | None => false
  | Some f =>
      let federationStatus := get "status" f in
      if negb (truthy federationStatus) then false
      else if is_str federationStatus "online" then false else true
  end.

Definition selectFederation (s : FederationState) (id : string) : option obj :=
  find_first (has_id id) (selectFederations s).

Definition selectLoadedFederation (s : FederationState) (id : string) : option obj :=
  find_first (has_id id) (selectLoadedFederations s).

Definition selectLastUsedFederation (s : FederationState) : option obj :=
  let federations := selectLoadedFederations s in
  match truthy_id (selectLastUsedFederationId s) with
  | Some id =>
      match find_first (has_id id) federations with
      | Some f => Some f
      | None => head federations
      end
  | None => head federations
  end.

Definition selectReusedEcashFederations (s : FederationState) : list obj :=
  filter (fun f => truthy (get "hadReusedEcash" f)) (selectLoadedFederations s).

Definition selectPaymentFederation (s : FederationState) : option obj :=
  match truthy_id (payFromFederationId s) with
  | None =>
      match selectLastUsedFederation s with
      | Some f => Some f
      | None => head (selectLoadedFederations s)
      end
  | Some id => find_first (has_id id) (selectLoadedFederations s)
  end.

Definition selectFederationClientConfig (s : FederationState) (id : string) : jval :=
  match selectLoadedFederation s id with
  | Some f => if has "clientConfig" f then get "clientConfig" f else JNull
  | None => JNull
  end.

(** The first stability pool among the modules, each of which is an object,
    with its version. *)
Definition pool_config (fmModule : jval) : option obj :=
  let with_version v := set_prop "version" (JNum (of_Z v)) (own_props fmModule) in
  if is_str (opt_prop fmModule "kind") "multi_sig_stability_pool" then Some (with_version 2%Z)
  else if is_str (opt_prop fmModule "kind") "stability_pool" then Some (with_version 1%Z)
  else None.

Definition selectFederationStabilityPoolConfig (s : FederationState) (id : string) : option obj :=
  let config := selectFederationClientConfig s id in
  if negb (truthy config) || negb (has "modules" (own_props config)) then None
  else head (omap (fun kv => pool_config kv.2) (own_props (opt_prop config "modules"))).

Definition selectFederationFeeSchedule (s : FederationState) (id : string) : jval :=
  match selectLoadedFederation s id with
  | Some f => get "fediFeeSchedule" f
  | None => JNull
  end.

Definition selectEcashFeeSchedule (s : FederationState) (id : string) : jval :=
  let feeSchedule := selectFederationFeeSchedule s id in
  if negb (truthy feeSchedule) then JNull
  else get "mint" (own_props (opt_prop feeSchedule "modules")).

Definition selectStabilityPoolFeeSchedule (s : FederationState) (id : string) : jval :=
  let feeSchedule := selectFederationFeeSchedule s id in
  if negb (truthy feeSchedule) then JNull
  else
    let modules := own_props (opt_prop feeSchedule "modules") in
    if has "stability_pool" modules then get "stability_pool" modules
    else if has "multi_sig_stability_pool" modules then get "multi_sig_stability_pool" modules
    else JUndef.

Definition selectCommunityMetadata (s : FederationState) (id : string) : obj :=
  match selectCommunity s id with Some c => meta_of c | None => [] end.

Definition selectFederationMetadata (s : FederationState) (id : string) : obj :=
  match selectLoadedFederation s id with Some f => meta_of f | None => [] end.

Definition selectShouldShowInviteCode (s : FederationState) (id : string) : bool :=
  shouldShowInviteCode (selectFederationMetadata s id).

Definition balance_of (f : obj) : num := to_num (get "balance" f).

Definition selectFederationBalance (s : FederationState) (id : string) : num :=
  match selectLoadedFederation s id with Some f => balance_of f | None => of_Z 0 end.

Definition selectPaymentFederationBalance (s : FederationState) : num :=
  match selectPaymentFederation s with Some f => balance_of f | None => of_Z 0 end.

Definition selectIsFederationRecovering (s : FederationState) (id : string) : bool :=
  match selectLoadedFederation s id with Some f => truthy (get "recovering" f) | None => false end.

Definition selectIsAnyFederationRecovering (s : FederationState) : bool :=
  existsb (fun f => truthy (get "recovering" f)) (selectLoadedFederations s).

Definition selectAreAllFederationsRecovering (s : FederationState) : bool :=
  bool_decide (selectLoadedFederations s <> []) &&
  bool_decide (find_first (fun f => negb (truthy (get "recovering" f)))
                 (selectLoadedFederations s) = None).

(** The three limits read from the metadata: zero is a limit, any other value
    that is missing or not a number is not. *)
Definition limit_sats (none : jval) (msats : jval) : jval :=
  if decide (msats = JNum (of_Z 0)) then JNum (of_Z 0)
  else if truthy msats then JNum (msatToSat (to_num msats)) else none.

Definition MAX_INVOICE_AMOUNT_SATS : num := of_Z 1000000000.
Definition MAX_BALANCE_AMOUNT_SATS : num := of_Z 1000000000.

Definition selectMaxStableBalanceSats (s : FederationState) (id : string) : jval :=
  limit_sats JUndef (getFederationMaxStableBalanceMsats (selectFederationMetadata s id)).

Definition selectMaxInvoiceAmount (s : FederationState) (id : string) : num :=
  to_num (limit_sats (JNum MAX_INVOICE_AMOUNT_SATS)
            (getFederationMaxInvoiceMsats (selectFederationMetadata s id))).

Definition selectMaxBalanceAmount (s : FederationState) (id : string) : num :=
  to_num (limit_sats (JNum MAX_BALANCE_AMOUNT_SATS)
            (getFederationMaxBalanceMsats (selectFederationMetadata s id))).

Definition selectReceivesDisabled (s : FederationState) (id : string) : bool :=
  eqb (selectMaxInvoiceAmount s id) (of_Z 0) ||
  leb (selectMaxBalanceAmount s id) (msatToSat (selectFederationBalance s id)).

Definition selectCommunityStack (s : FederationState) : list obj :=
  match selectLastSelectedCommunity s with
  | None => []
  | Some c => c :: take 2 (filter (fun d => negb (same_id d c)) (communities s))
  end.

Definition selectTotalBalanceMsats (s : FederationState) : num :=
  foldl (fun acc f => add acc (balance_of f)) (of_Z 0) (selectLoadedFederations s).

Definition selectShouldRateFederation (isNostrClientEnabled : bool) (s : FederationState) : bool :=
  match selectLastUsedFederation s with
  | None => false
  | Some f =>
      if decide (id_str f ∈ seenFederationRatings s) then false
      else if negb isNostrClientEnabled then false else true
  end.

Definition selectSelectedFederation (s : FederationState) : option obj :=
  match selectedFederationId s with
  | Some id => find_first (has_id id) (selectLoadedFederations s)
  | None => None
  end.

(** ** Thunks

    A thunk is one transition per stretch between two [await]s: reading the
    state, then the slice it leaves.  An answer of the bridge is a [result]. *)
Section Thunks.
Context (isEqual : jval -> jval -> bool).

(** [refreshGuardianStatuses]: the answer is written over the [federation] the
    thunk was started with; [None] is a failed request. *)
Definition refreshGuardianStatuses_done (federation : obj) (guardians : option (list obj))
    (s : FederationState) : FederationState :=
  match guardians with
  | None => s
  | Some l =>
      upsertFederation isEqual
        (set_prop "status" (JStr (getFederationStatus l)) federation) s
  end.

Definition coerced (f : obj) : obj :=
  if is_str (get "init_state" f) "ready" then coerceLoadedFederation f else f.

Definition refreshFederations (federationsList : list obj) (s : FederationState)
    : FederationState :=
  let fs := coerced <$> federationsList in
  let s := setFederations isEqual fs s in
  match truthy_id (selectLastUsedFederationId s) with
  | Some _ => s
  | None =>
      match head fs with
      | Some f => if truthy (id_of f) then setLastUsedFederationId (id_str f) s else s
      | None => s
      end
  end.

(** The synchronous part of [refreshCommunities]: the list, then a selection
    when there is none. *)
Definition refreshCommunities (list : list obj) (s : FederationState)
    : result FederationState :=
  items ← mapM_res coerceCommunity list;
  let s := setCommunities isEqual items s in
  Ok (match communities s, truthy_id (lastSelectedCommunityId s) with
      | c :: _, None => setLastSelectedCommunityId (Some (id_str c)) s
      | _, _ => s
      end).

(** [ensureDefaultCommunityIsJoined]: the check, and what is dispatched when
    the bridge has joined.  [joinedCommunities] is read with the check. *)
Definition ensureDefault_needed (defaultInviteCode : string) (s : FederationState) : bool :=
  negb (bool_decide (defaultInviteCode = "")) &&
  bool_decide (find_first (has_id defaultInviteCode) (communities s) = None).

Definition ensureDefault_joined (defaultInviteCode : string) (joinedCommunities : list obj)
    (joined : obj) (s : FederationState) : FederationState :=
  setLastSelectedCommunityId (Some defaultInviteCode)
    (setCommunities isEqual (joined :: joinedCommunities) s).

(** [autojoinCommunity]: the check, and what is dispatched once [joinCommunity]
    has answered. *)
Definition autojoin_needed (code : string) (s : FederationState) : bool :=
  negb (truthy (get code (previouslyAutojoinedCommunities s))).

Definition autojoin_joined (code : string) (setAsSelected : bool) (now : num)
    (joined : result obj) (s : FederationState) : FederationState :=
  match joined with
  | Throw _ => s
  | Ok c =>
      let s := if setAsSelected then setLastSelectedCommunityId (Some (id_str c)) s else s in
      let s := setPreviouslyAutojoinedCommunity code now s in
      if setAsSelected then s else addAutojoinNoticeToDisplay (id_str c) s
  end.

(** [joinFederation], once the bridge has joined the federation [id]. *)
Definition joinFederation_joined (id : string) (s : FederationState)
    : result (obj * FederationState) :=
  match selectFederation s id with
  | None => Throw "errors.unknown-error"
  | Some f => Ok (f, setLastUsedFederationId (id_str f) s)
  end.

Definition leaveFederation_check (federationId : string) (s : FederationState) : result unit :=
  match selectFederation s federationId with
  | None => Throw "failed-to-leave-federation"
  | Some _ =>
      if selectIsAnyFederationRecovering s then Throw "failed-to-leave-federation" else Ok tt
  end.

Definition leaveCommunity_check (communityId : string) (s : FederationState) : result unit :=
  match selectCommunity s communityId with
  | None => Throw "failed-to-leave-community"
  | Some _ => Ok tt
  end.

Definition seen_after_rating (federationId : string) (answer : result unit) (s : FederationState)
    : FederationState :=
  if decide (federationId = "") then s
  else match answer with
  | Ok _ => setSeenFederationRating federationId s
  | Throw _ => s
  end.

(** The gateways, and the slice; the bridge is asked only on a miss. *)
Definition listGateways (federationId : string) (answer : result (list jval))
    (s : FederationState) : result (list jval * FederationState) :=
  match get federationId (gatewaysByFederation s) with
  | JArr (g :: gs) => Ok (g :: gs, s)
  | _ => gateways ← answer; Ok (gateways, addFederationGateways federationId gateways s)
  end.

(** *** The suggested payment federation

    The thunk sorts the array it gets from [selectLoadedFederations] in place.
    The selector memoizes that array, so the state of the thunk has the memo
    beside the slice: the inputs the array was computed from, and the array. *)
Definition Memo : Type := option ((list obj * obj) * list obj).

Definition memo_selectLoadedFederations (memo : Memo) (s : FederationState) : list obj :=
  match memo with
  | Some (key, value) =>
      if decide (key = (federations s, simulateRecoveryByFederation s)) then value
      else selectLoadedFederations s
  | None => selectLoadedFederations s
  end.

Definition higher_balance (a b : obj) : bool :=
  negb (ltb (of_Z 0) (sub (balance_of b) (balance_of a))).

Definition on_mainnet (f : obj) : Z := if is_str (get "network" f) "bitcoin" then 1 else 0.
Definition mainnet_first (a b : obj) : bool := (on_mainnet b - on_mainnet a <=? 0)%Z.

Definition by_preference (l : list obj) : list obj :=
  sort_stable mainnet_first (sort_stable higher_balance l).

Definition memo_selectPaymentFederation (memo : Memo) (s : FederationState) : option obj :=
  let feds := memo_selectLoadedFederations memo s in
  match truthy_id (payFromFederationId s) with
  | None =>
      match truthy_id (selectLastUsedFederationId s) with
      | Some id =>
          match find_first (has_id id) feds with Some f => Some f | None => head feds end
      | None => head feds
      end
  | Some id => find_first (has_id id) feds
  end.

Definition setSuggestedPaymentFederation (memo : Memo) (s : FederationState)
    : Memo * FederationState :=
  let walletFederations := memo_selectLoadedFederations memo s in
  let key := (federations s, simulateRecoveryByFederation s) in
  match memo_selectPaymentFederation memo s with
  | Some _ => (Some (key, walletFederations), s)
  | None =>
      let sorted := by_preference walletFederations in
      (Some (key, sorted), setPayFromFederationId (id_str <$> head sorted) s)
  end.

End Thunks.

(** ** Ids *)

Definition ids (l : list obj) : list jval := id_of <$> l.

(** An object as the bridge sends it: no key twice, and a string id. *)
Definition entity (o : obj) : Prop :=
  wf_obj o /\ exists i, lookup_prop "id" o = Some (JStr i).

Lemma entity_has_id o : entity o -> lookup_prop "id" o <> None.
Proof. by intros [_ [i ->]]. Qed.

Lemma elem_of_ids x l : x ∈ ids l <-> exists o, o ∈ l /\ id_of o = x.
Proof. unfold ids. rewrite list_elem_of_fmap. naive_solver. Qed.

Lemma find_first_Some p l o : find_first p l = Some o -> o ∈ l /\ p o = true.
Proof.
  unfold find_first. intros H. apply list.head_Some_elem_of in H.
  apply list_elem_of_filter in H as [H1 H2]. split; [done|]. by apply Is_true_true_1.
Qed.

Lemma find_first_None p l : find_first p l = None <-> forall o, o ∈ l -> p o = false.
Proof.
  unfold find_first. rewrite list.head_None. split.
  - intros H o Ho. destruct (p o) eqn:E; [|done].
    assert (In : o ∈ filter (fun o => p o) l) by (apply list_elem_of_filter; rewrite E; done).
    rewrite H in In. by apply elem_of_nil in In.
  - intros H. destruct (filter (fun o => p o) l) as [|o l'] eqn:E; [done|].
    assert (In : o ∈ filter (fun o => p o) l) by (rewrite E; left).
    apply list_elem_of_filter in In as [Po Ho]. by rewrite (H o Ho) in Po.
Qed.

Lemma find_same_None payload e :
  find_first (fun f => same_id f e) payload = None <-> id_of e ∉ ids payload.
Proof.
  rewrite find_first_None, elem_of_ids. unfold same_id. split.
  - intros H (o & Ho & E). specialize (H o Ho). by apply bool_decide_eq_false in H.
  - intros H o Ho. apply bool_decide_eq_false. intros E. eauto.
Qed.

Lemma unknown_to_spec l o : unknown_to l o = true <-> id_of o ∉ ids l.
Proof.
  unfold unknown_to. rewrite negb_true_iff, <- not_true_iff_false, existsb_exists, elem_of_ids.
  unfold same_id. split; intros H (x & Hx & E); apply H; exists x; (split; [by apply list_elem_of_In|]).
  - by apply bool_decide_eq_true.
  - by apply bool_decide_eq_true in E.
Qed.

Lemma overlay_id old new : entity new -> id_of (overlay old new) = id_of new.
Proof.
  intros [W [i E]]. unfold overlay. destruct (has "meta" new).
  - unfold id_of. rewrite get_set_ne by done. apply spread_id_of; [done | by rewrite E].
  - apply spread_id_of; [done | by rewrite E].
Qed.

Lemma updated_federation_id old new : entity new -> id_of (updated_federation old new) = id_of new.
Proof. intros H. unfold updated_federation. case_if; [done | by apply overlay_id]. Qed.

Section Ids.
Context (isEqual : jval -> jval -> bool).

(** What a refresh leaves of an entity, and whether it counts as an update. *)
Definition refreshed (merge : obj -> obj -> obj) (gone : obj -> list obj) (payload : list obj)
    (e : obj) : list obj :=
  match find_first (fun f => same_id f e) payload with
  | None => gone e
  | Some t => [if negb (isEqual (JObj e) (JObj (merge e t))) then merge e t else e]
  end.

Definition changed (merge : obj -> obj -> obj) (gone : bool) (payload : list obj) (e : obj)
    : bool :=
  match find_first (fun f => same_id f e) payload with
  | None => gone
  | Some t => negb (isEqual (JObj e) (JObj (merge e t)))
  end.

Lemma community_fold payload l acc b :
  foldl (community_step isEqual payload) (acc, b) l =
    ((acc ++ (l ≫= refreshed overlay (fun _ => []) payload))%list,
     b || existsb (changed overlay true payload) l).
Proof.
  revert acc b. induction l as [|e l IH]; intros acc b; simpl.
  { by rewrite app_nil_r, orb_false_r. }
  unfold refreshed at 1, changed at 1.
  destruct (find_first (fun f => same_id f e) payload) as [t|].
  - destruct (isEqual (JObj e) (JObj (overlay e t))); simpl; rewrite IH, <- app_assoc; simpl;
      [done | by rewrite orb_true_r].
  - rewrite IH. simpl. by rewrite orb_true_r.
Qed.

Lemma federation_fold payload l acc b :
  foldl (federation_step isEqual payload) (acc, b) l =
    ((acc ++ (l ≫= refreshed updated_federation (fun e => [e]) payload))%list,
     b || existsb (changed updated_federation false payload) l).
Proof.
  revert acc b. induction l as [|e l IH]; intros acc b; simpl.
  { by rewrite app_nil_r, orb_false_r. }
  unfold refreshed at 1, changed at 1.
  destruct (find_first (fun f => same_id f e) payload) as [t|].
  - destruct (isEqual (JObj e) (JObj (updated_federation e t))); simpl;
      rewrite IH, <- app_assoc; simpl; [done | by rewrite orb_true_r].
  - rewrite IH, <- app_assoc. done.
Qed.

(** A known entity keeps its id. *)
Lemma refreshed_known merge gone payload e :
  (forall t, entity t -> id_of (merge e t) = id_of t) -> Forall entity payload ->
  id_of e ∈ ids payload -> ids (refreshed merge gone payload e) = [id_of e].
Proof.
  intros M P H. unfold refreshed.
  destruct (find_first (fun f => same_id f e) payload) as [t|] eqn:F.
  - apply find_first_Some in F as [Ht S]. unfold same_id in S. apply bool_decide_eq_true in S.
    rewrite list.Forall_forall in P. unfold ids. csimpl. f_equal.
    case_if; [|done]. by rewrite M by auto.
  - by apply find_same_None in F.
Qed.

Lemma ids_app l l' : ids (l ++ l')%list = (ids l ++ ids l')%list.
Proof. apply fmap_app. Qed.

Lemma ids_filter_unknown l payload :
  ids (filter (fun c => unknown_to l c) payload) = filter (fun i => i ∉ ids l) (ids payload).
Proof.
  induction payload as [|c p IH]; [done|]. rewrite filter_cons. unfold ids in *. csimpl.
  rewrite filter_cons. destruct (unknown_to l c) eqn:E.
  - rewrite decide_True by done. apply unknown_to_spec in E.
    rewrite decide_True by done. csimpl. by rewrite IH.
  - rewrite decide_False by (by intros []).
    rewrite decide_False; [done|]. intros H. apply unknown_to_spec in H. by rewrite H in E.
Qed.

Lemma ids_community_fold payload l :
  Forall entity payload ->
  ids (l ≫= refreshed overlay (fun _ => []) payload) = filter (fun i => i ∈ ids payload) (ids l).
Proof.
  intros P. induction l as [|e l IH]; [done|].
  rewrite bind_cons, ids_app, IH. unfold ids at 3. csimpl. rewrite filter_cons.
  case_decide as H.
  - rewrite refreshed_known; [done | intros; by apply overlay_id | done | done].
  - unfold refreshed. by rewrite (proj2 (find_same_None payload e) H).
Qed.

Lemma ids_federation_fold payload l :
  Forall entity payload ->
  ids (l ≫= refreshed updated_federation (fun e => [e]) payload) = ids l.
Proof.
  intros P. induction l as [|e l IH]; [done|]. rewrite bind_cons, ids_app, IH.
  unfold ids at 3. csimpl. destruct (decide (id_of e ∈ ids payload)) as [H|H].
  - rewrite refreshed_known; [done | intros; by apply updated_federation_id | done | done].
  - unfold refreshed. by rewrite (proj2 (find_same_None payload e) H).
Qed.

Lemma setFederations_ids payload s :
  Forall entity payload ->
  ids (federations (setFederations isEqual payload s)) =
    (ids (federations s) ++ filter (fun i => i ∉ ids (federations s)) (ids payload))%list.
Proof.
  intros P. unfold setFederations. rewrite federation_fold. simpl app.
  rewrite <- ids_filter_unknown.
  match goal with |- context [if ?b then _ else _] => destruct b eqn:E end; simpl.
  - by rewrite ids_app, ids_federation_fold.
  - apply orb_false_iff in E as [_ E]. apply bool_decide_eq_false in E.
    apply dec_stable in E. rewrite E. by rewrite app_nil_r.
Qed.

Lemma setCommunities_known payload s :
  Forall entity payload ->
  ids (communities (setCommunities isEqual payload s)) =
    (filter (fun i => i ∈ ids payload) (ids (communities s)) ++
     filter (fun i => i ∉ ids (communities s)) (ids payload))%list.
Proof.
  intros P. unfold setCommunities. rewrite community_fold. simpl app.
  rewrite <- ids_filter_unknown, <- (ids_community_fold payload (communities s)) by done.
  match goal with |- context [if ?b then _ else _] => destruct b eqn:E end; simpl;
    [by rewrite ids_app|].
  apply orb_false_iff in E as [E0 E]. apply bool_decide_eq_false in E.
  apply dec_stable in E. rewrite E, app_nil_r. rewrite ids_community_fold by done.
  clear E. induction (communities s) as [|e l IH]; [done|].
  simpl in E0. apply orb_false_iff in E0 as [C E0]. unfold ids. csimpl. rewrite filter_cons.
  unfold changed in C. destruct (find_first (fun f => same_id f e) payload) eqn:F; [|done].
  rewrite decide_True; [f_equal; by apply IH|].
  destruct (decide (id_of e ∈ ids payload)) as [|N]; [done|].
  apply find_same_None in N. by rewrite N in F.
Qed.

End Ids.

(** ** Well-formed slices *)

Definition is_jstr (v : jval) : Prop := exists i, v = JStr i.

(** Lists of entities with string ids, each once; lists of ids without
    repetition. *)
Definition wf_list (l : list obj) : Prop := NoDup (ids l) /\ Forall is_jstr (ids l).

Record wf_state (s : FederationState) : Prop := mk_wf_state {
  wf_federations : wf_list (federations s);
  wf_communities : wf_list (communities s);
  wf_recent : NoDup (recentlyUsedFederationIds s);
  wf_seen : NoDup (seenFederationRatings s);
  wf_notices : NoDup (autojoinNoticesToDisplay s)
}.

Lemma elem_of_dedup x l : x ∈ dedup l <-> x ∈ l.
Proof.
  induction l as [|y l IH]; simpl; [done|].
  rewrite !elem_of_cons, list_elem_of_filter, IH. destruct (decide (x = y)); naive_solver.
Qed.

Lemma NoDup_dedup l : NoDup (dedup l).
Proof.
  induction l as [|y l IH]; simpl; [constructor|]. constructor.
  - rewrite list_elem_of_filter. naive_solver.
  - by apply list.NoDup_filter.
Qed.

Lemma entities_jstr l : Forall entity l -> Forall is_jstr (ids l).
Proof.
  intros H. unfold ids. apply list.Forall_fmap. eapply list.Forall_impl; [exact H|].
  intros o [_ [i E]]. exists i. unfold compose, id_of, get. by rewrite E.
Qed.

Lemma wf_list_filter (p : obj -> bool) l : wf_list l -> wf_list (filter (fun o => p o) l).
Proof.
  intros [D S]. unfold wf_list, ids in *. induction l as [|o l IH]; [done|].
  csimpl in *. apply list.NoDup_cons in D as [D1 D2]. apply list.Forall_cons in S as [S1 S2].
  rewrite filter_cons. case_decide; [|by apply IH]. csimpl.
  destruct (IH D2 S2). split; [constructor | by constructor]; [|done].
  rewrite !list_elem_of_fmap in *. intros (x & E & Hx). apply D1.
  apply list_elem_of_filter in Hx as [_ Hx]. exists x. done.
Qed.

Lemma wf_list_ids l l' : ids l = ids l' -> wf_list l -> wf_list l'.
Proof. unfold wf_list. by intros ->. Qed.

Lemma wf_list_app ks (l : list obj) payload :
  wf_list l -> NoDup (ids payload) -> Forall is_jstr (ids payload) ->
  NoDup ks -> Forall (fun k => k ∈ ids l) ks ->
  NoDup (ks ++ filter (fun i => i ∉ ids l) (ids payload)) /\
  Forall is_jstr (ks ++ filter (fun i => i ∉ ids l) (ids payload)).
Proof.
  intros [D S] D' S' Dk Fk. rewrite list.Forall_forall in Fk. split.
  - apply list.NoDup_app. split; [done|]. split; [|by apply list.NoDup_filter].
    intros x Hx [H _]%list_elem_of_filter. auto.
  - rewrite list.Forall_forall in *. intros x [Hx|[_ Hx]%list_elem_of_filter]%elem_of_app; auto.
Qed.

Lemma NoDup_snoc (x : string) l : x ∉ l -> NoDup l -> NoDup (l ++ [x])%list.
Proof.
  intros N D. apply list.NoDup_app. split; [done|]. split; [|apply list.NoDup_singleton].
  by intros y Hy ->%list_elem_of_singleton.
Qed.

Lemma meta_not_id : "id" ∉ default [] (Some ["meta"]).
Proof. by intros H%list_elem_of_singleton. Qed.

Lemma fmap_balance_ids id b l :
  ids ((fun f => if negb (has_id id f) then f else set_prop "balance" (JNum b) f) <$> l) = ids l.
Proof.
  unfold ids. induction l as [|f l IH]; csimpl; [done|]. rewrite IH. f_equal.
  case_if; [done|]. unfold id_of. by rewrite get_set_ne.
Qed.

Lemma not_in_left id l : JStr id ∉ ids (filter (fun fed => negb (has_id id fed)) l).
Proof.
  rewrite elem_of_ids. intros (o & [H _]%list_elem_of_filter & E).
  unfold has_id in H. rewrite bool_decide_true in H by done. destruct H.
Qed.

Lemma recent_after_spec id first recent :
  id_str first <> id ->
  id ∉ recent_after id first recent /\ recent_after id first recent <> [] /\
  head (recent_after id first recent) <> Some id.
Proof.
  intros H. assert (N : id ∉ recent_after id first recent).
  { unfold recent_after. destruct (filter _ recent) as [|x l] eqn:E.
    - rewrite elem_of_dedup. by intros ->%list_elem_of_singleton.
    - rewrite <- E. by intros [X _]%list_elem_of_filter. }
  split; [done|]. unfold recent_after in *. destruct (filter _ recent); simpl in *.
  - split; [done|]. intros [= X]. done.
  - split; [done|]. intros [= ->]. apply N. left.
Qed.

(** ** The slice as a transition system *)

Section Steps.
Context (isEqual : jval -> jval -> bool).

(** Every transition of the slice.  A payload that is a list of entities has
    each id once, as the bridge lists each federation and community once; the
    stored lists of ids are those of an earlier state. *)
Inductive fed_step (s : FederationState) : FederationState -> Prop :=
  | step_setCommunities l : Forall entity l -> NoDup (ids l) ->
      fed_step s (setCommunities isEqual l s)
  | step_setFederations l : Forall entity l -> NoDup (ids l) ->
      fed_step s (setFederations isEqual l s)
  | step_setPublicCommunities l : fed_step s (setPublicCommunities l s)
  | step_setPublicFederations l : fed_step s (setPublicFederations l s)
  | step_setAutoSelectFederations l : fed_step s (setAutoSelectFederations l s)
  | step_upsertCommunity o : entity o -> fed_step s (upsertCommunity isEqual o s)
  | step_upsertFederation o : entity o -> fed_step s (upsertFederation isEqual o s)
  | step_updateFederationBalance id b : fed_step s (updateFederationBalance id b s)
  | step_setPayFromFederationId id : fed_step s (setPayFromFederationId id s)
  | step_setLastUsedFederationId id : fed_step s (setLastUsedFederationId id s)
  | step_setLastSelectedCommunityId id : fed_step s (setLastSelectedCommunityId id s)
  | step_setCommunityCustomFediMods id v : fed_step s (setCommunityCustomFediMods isEqual id v s)
  | step_changeAuthenticatedGuardian g : fed_step s (changeAuthenticatedGuardian g s)
  | step_removeCustomFediMod id m : fed_step s (removeCustomFediMod id m s)
  | step_addFederationGateways id l : fed_step s (addFederationGateways id l s)
  | step_setSeenFederationRating id : fed_step s (setSeenFederationRating id s)
  | step_setPreviouslyAutojoinedCommunity id t : fed_step s (setPreviouslyAutojoinedCommunity id t s)
  | step_clearAutojoined : fed_step s (clearAutojoinedCommunitiesAndNotices s)
  | step_addAutojoinNotice id : fed_step s (addAutojoinNoticeToDisplay id s)
  | step_removeAutojoinNotice id : fed_step s (removeAutojoinNoticeToDisplay id s)
  | step_setGuardianitoBot b : fed_step s (setGuardianitoBot b s)
  | step_migrateCommunityV1ToV2 v1 o : entity o -> fed_step s (migrateCommunityV1ToV2 isEqual v1 o s)
  | step_setSelectedFederationId id : fed_step s (setSelectedFederationId id s)
  | step_setSimulateRecovery id b : fed_step s (setSimulateRecovery id b s)
  | step_preloadFederationLists p a : fed_step s (preloadFederationLists_fulfilled p a s)
  | step_leaveFederation id : fed_step s (leaveFederation_fulfilled id s)
  | step_leaveCommunity id : fed_step s (leaveCommunity_fulfilled id s)
  | step_loadFromStorage p :
      (forall r, p = Some r -> NoDup (r_recentlyUsed r) /\ NoDup (r_seenRatings r) /\
                             NoDup (default [] (r_notices r))) ->
      fed_step s (loadFromStorage_fulfilled p s)
  | step_previewCommunityDefaultChats id l :
      fed_step s (previewCommunityDefaultChats_fulfilled isEqual id l s).

Lemma wf_upsert l o nf : wf_list l -> entity o -> "id" ∉ default [] nf ->
  wf_list (upsertListItem isEqual (Some l) o nf None).2.
Proof.
  intros [D S] E N. pose proof (entities_jstr [o] ltac:(by constructor)) as So.
  destruct E as [W [i Hi]]. assert (H : lookup_prop "id" o <> None) by (by rewrite Hi).
  split; [by apply upsertListItem_wf_ids|].
  unfold ids. rewrite upsertListItem_ids by done.
  apply list.Forall_app. split; [done|]. destruct (known o l); [constructor | done].
Qed.

Lemma step_wf s s' : fed_step s s' -> wf_state s -> wf_state s'.
Proof.
  intros H [F C R N A]. destruct H as [l E D|l E D| | | |o E|o E|id b| |id| |id v| | | |id| | |id|id
    | |v1 o E| | | |id|id|p Hp|id l]; try (constructor; done).
  - assert (W : wf_list (communities (setCommunities isEqual l s))).
    { unfold wf_list. rewrite setCommunities_known by done.
      apply wf_list_app; [done | done | by apply entities_jstr | |].
      - apply list.NoDup_filter, C.
      - apply list.Forall_forall. by intros x [_ Hx]%list_elem_of_filter. }
    revert W. unfold setCommunities. destruct (foldl _ _ _) as [u h].
    case_if; intros W; by constructor.
  - assert (W : wf_list (federations (setFederations isEqual l s))).
    { unfold wf_list. rewrite setFederations_ids by done.
      apply wf_list_app; [done | done | by apply entities_jstr | apply F |].
      by apply list.Forall_forall. }
    revert W. unfold setFederations. destruct (foldl _ _ _) as [u h].
    case_if; intros W; by constructor.
  - unfold upsertCommunity. case_if; constructor; try done. by apply wf_upsert, meta_not_id.
  - unfold upsertFederation. case_if; constructor; try done. by apply wf_upsert, meta_not_id.
  - unfold updateFederationBalance. destruct (find_first _ _); [|by constructor].
    case_if; constructor; try done. eapply wf_list_ids; [|exact F].
    symmetry. apply fmap_balance_ids.
  - constructor; try done. apply NoDup_dedup.
  - unfold setCommunityCustomFediMods. case_if; by constructor.
  - unfold setSeenFederationRating. case_decide; constructor; try done.
    by apply NoDup_snoc.
  - constructor; try done. constructor.
  - unfold addAutojoinNoticeToDisplay. case_decide; constructor; try done. by apply NoDup_snoc.
  - constructor; try done. by apply list.NoDup_filter.
  - unfold migrateCommunityV1ToV2. case_decide; constructor; try done;
      (apply wf_upsert; [by apply wf_list_filter | done | apply meta_not_id]).
  - unfold leaveFederation_fulfilled.
    pose proof (wf_list_filter (fun fed => negb (has_id id fed)) _ F) as F'.
    destruct (filter _ (federations s)) as [|f l] eqn:E; [by constructor|].
    assert (R' : NoDup (recent_after id f (recentlyUsedFederationIds s))).
    { unfold recent_after. pose proof (list.NoDup_filter (fun i => i <> id) _ R).
      destruct (filter _ (recentlyUsedFederationIds s)); [apply NoDup_dedup | done]. }
    case_decide; by constructor.
  - unfold leaveCommunity_fulfilled.
    pose proof (wf_list_filter (fun c => negb (has_id id c)) _ C) as C'.
    repeat case_decide; constructor; first [exact C' | done].
  - destruct p as [r|]; [|by constructor]. destruct (Hp r eq_refl) as (H1 & H2 & H3).
    by constructor.
  - unfold previewCommunityDefaultChats_fulfilled. case_if; by constructor.
Qed.
(** C11: In every state the slice can reach from its initial state, through any
    sequence of its actions, no federation and no community is listed twice,
    every id is a string, and none of the lists of ids (recently used, rated,
    autojoin notices) repeats an id. *)
Theorem federation_reachable_wf s : rtc fed_step initialState s -> wf_state s.
Proof.
  assert (I : wf_state initialState).
  { constructor; simpl; repeat split; constructor. }
  intros H. revert I. induction H as [|s1 s2 s3 S _ IH]; [done|].
  intros I. apply IH. by eapply step_wf.
Qed.

(** Refreshing the communities makes the list agree with the bridge: the
    ids are exactly those of the payload, the communities already known first
    and in the order they had, then the new ones in the order of the payload;
    nothing else of the slice changes. *)
Theorem setCommunities_agrees payload s :
  Forall entity payload ->
  let s' := setCommunities isEqual payload s in
  ids (communities s') =
    (filter (fun i => i ∈ ids payload) (ids (communities s)) ++
     filter (fun i => i ∉ ids (communities s)) (ids payload))%list /\
  (forall i, i ∈ ids (communities s') <-> i ∈ ids payload) /\
  s' = s <| communities := communities s' |>.
Proof.
  intros P s'. assert (E := setCommunities_known isEqual payload s P). fold s' in E.
  split; [done|]. split.
  - intros i. rewrite E, elem_of_app, !list_elem_of_filter.
    destruct (decide (i ∈ ids (communities s))); naive_solver.
  - unfold s', setCommunities. destruct (foldl _ _ _) as [u h]. case_if; by destruct s.
Qed.

(** Joining the default community rewrites the list from the communities
    that were joined when the thunk read the state, before it asked the bridge:
    a community that was joined in between is dropped from the list. *)
Theorem ensureDefault_drops_concurrent_join invite captured joined s i :
  Forall entity (joined :: captured) -> i ∈ ids (communities s) ->
  i ∉ ids captured -> i <> id_of joined ->
  i ∉ ids (communities (ensureDefault_joined isEqual invite captured joined s)).
Proof.
  intros P Hi Hc Hj. unfold ensureDefault_joined, setLastSelectedCommunityId.
  change (communities (?x <| lastSelectedCommunityId := ?v |>)) with (communities x).
  rewrite setCommunities_known by done. unfold ids at 2. csimpl.
  rewrite elem_of_app, !list_elem_of_filter, elem_of_cons. naive_solver.
Qed.

(** ** Leaving a federation *)

(** Leaving a federation removes it from the list, and as long as another
    federation remains no reference to it is kept: it is not among the recently
    used ones, of which there is at least one, and payments do not use it.  When
    it was the last one, payments use none, but it stays among the recently used
    ones; and the selected federation is never updated. *)
Theorem leaveFederation_references id s :
  wf_state s ->
  let s' := leaveFederation_fulfilled id s in
  JStr id ∉ ids (federations s') /\
  truthy (get id (customFediMods s')) = false /\
  selectedFederationId s' = selectedFederationId s /\
  (federations s' <> [] ->
     id ∉ recentlyUsedFederationIds s' /\ recentlyUsedFederationIds s' <> [] /\
     payFromFederationId s' <> Some id) /\
  (federations s' = [] ->
     payFromFederationId s' = None /\
     recentlyUsedFederationIds s' = recentlyUsedFederationIds s).
Proof.
  intros [[_ F] _ _ _ _]. unfold leaveFederation_fulfilled.
  assert (M : truthy (get id (drop_mods id (customFediMods s))) = false).
  { unfold drop_mods. destruct (truthy (get id (customFediMods s))) eqn:E; [|done].
    unfold get. by rewrite lookup_del_eq. }
  pose proof (not_in_left id (federations s)) as N.
  assert (J : forall o, o ∈ filter (fun fed => negb (has_id id fed)) (federations s) ->
                   id_str o <> id).
  { intros o [H Ho]%list_elem_of_filter. rewrite list.Forall_forall in F.
    destruct (F (id_of o)) as [i E]; [by apply list_elem_of_fmap_2|].
    unfold id_str, has_id in *. rewrite E in *. simpl. intros ->.
    rewrite bool_decide_true in H by done. destruct H. }
  destruct (filter _ (federations s)) as [|f l] eqn:E; simpl.
  - split_and!; done.
  - destruct (recent_after_spec id f (recentlyUsedFederationIds s)) as (R1 & R2 & R3);
      [apply J; left|].
    case_decide; split_and!; try done; intros _; split_and!; done.
Qed.

(** The answer to a guardian status request rewrites the federation the
    request was made for, whatever happened since: a federation that was left
    while the request was pending is listed again. *)
Theorem refreshGuardianStatuses_revives id federation guardians s :
  entity federation -> id_of federation = JStr id -> id <> "" ->
  JStr id ∉ ids (federations (leaveFederation_fulfilled id s)) /\
  JStr id ∈ ids (federations (refreshGuardianStatuses_done isEqual federation (Some guardians)
                               (leaveFederation_fulfilled id s))).
Proof.
  intros [W [i Hi]] Hid Hne.
  set (s1 := leaveFederation_fulfilled id s).
  assert (N : JStr id ∉ ids (federations s1)).
  { pose proof (not_in_left id (federations s)) as N. unfold s1, leaveFederation_fulfilled.
    destruct (filter _ (federations s)); [done|]. by case_decide. }
  split; [done|]. unfold refreshGuardianStatuses_done, upsertFederation.
  set (o := set_prop "status" _ federation).
  assert (Ho : id_of o = JStr id) by (unfold o, id_of in *; by rewrite get_set_ne).
  rewrite Ho. cbn [truthy]. rewrite bool_decide_false by done. cbn [negb].
  destruct (upsertListItem_eq isEqual (federations s1) o (Some ["meta"])) as [e' ->].
  assert (K : known o (federations s1) = false).
  { unfold known. apply bool_decide_false. by rewrite Ho. }
  rewrite K. simpl. rewrite ids_app, elem_of_app. right. apply elem_of_ids.
  exists o. split; [left | done].
Qed.

End Steps.

(** ** The suggested federation *)

Definition int_balance (f : obj) : Prop := exists n, (0 <= n <= 2 ^ 52)%Z /\ balance_of f = of_Z n.

Lemma higher_balance_spec a b n m :
  (0 <= n <= 2 ^ 52)%Z -> (0 <= m <= 2 ^ 52)%Z -> balance_of a = of_Z n -> balance_of b = of_Z m ->
  higher_balance a b = (m <=? n)%Z.
Proof.
  intros Hn Hm Ea Eb. unfold higher_balance. rewrite Ea, Eb.
  rewrite sub_int, ltb_int by (unfold safe; lia).
  destruct (Z.ltb_spec 0 (m - n)), (Z.leb_spec m n); simpl; lia.
Qed.

Lemma higher_balance_leb f g :
  int_balance f -> int_balance g -> higher_balance f g = true ->
  leb (balance_of g) (balance_of f) = true.
Proof.
  intros (n & Hn & En) (m & Hm & Em). rewrite (higher_balance_spec f g n m) by done.
  rewrite En, Em, leb_int by (unfold safe; lia). done.
Qed.

Lemma sorted_by_balance l :
  Forall int_balance l ->
  StronglySorted (fun a b => higher_balance a b = true) (sort_stable higher_balance l).
Proof.
  apply sort_stable_sorted.
  - intros x y (n & Hn & En) (m & Hm & Em).
    rewrite (higher_balance_spec x y n m), (higher_balance_spec y x m n), !Z.leb_le by done. lia.
  - intros x y z (n & Hn & En) (m & Hm & Em) (k & Hk & Ek).
    rewrite (higher_balance_spec x y n m), (higher_balance_spec y z m k),
      (higher_balance_spec x z n k), !Z.leb_le by done. lia.
Qed.

(** When there is no federation to pay from, the suggested one is the best
    of the loaded federations: on mainnet if any of them is, and with the highest
    balance among those on the same kind of network.  The array it is picked
    from is the one [selectLoadedFederations] memoizes, and it is left sorted:
    until a federation changes, the selector lists the federations in order of
    preference instead of the order of the slice. *)
Theorem setSuggestedPaymentFederation_best memo s :
  Forall int_balance (memo_selectLoadedFederations memo s) ->
  memo_selectPaymentFederation memo s = None ->
  let l := memo_selectLoadedFederations memo s in
  let '(memo', s') := setSuggestedPaymentFederation memo s in
  memo_selectLoadedFederations memo' s' = by_preference l /\
  payFromFederationId s' = id_str <$> head (by_preference l) /\
  forall f, head (by_preference l) = Some f ->
    f ∈ l /\ forall g, g ∈ l ->
      (on_mainnet g <= on_mainnet f)%Z /\
      (on_mainnet g = on_mainnet f -> leb (balance_of g) (balance_of f) = true).
Proof.
  intros B N. cbv zeta. unfold setSuggestedPaymentFederation. rewrite N. cbv zeta.
  set (l := memo_selectLoadedFederations memo s) in *.
  split; [unfold memo_selectLoadedFederations; simpl; by rewrite decide_True |].
  split; [done|]. intros f Hf. unfold by_preference in Hf.
  set (sorted := sort_stable higher_balance l) in *.
  assert (P : Permutation sorted l) by apply sort_stable_perm.
  rewrite list.Forall_forall in B.
  destruct (sort_stable_head mainnet_first (fun _ => True)) with (l := sorted) (x := f)
    as (M & l1 & l2 & E & F); [| |by apply list.Forall_forall | done |].
  1, 2: intros; unfold mainnet_first in *; rewrite ?Z.leb_le in *; lia.
  assert (Fl : f ∈ l) by (rewrite <- P, E; apply elem_of_app; right; left).
  split; [done|]. intros g Hg.
  assert (Gs : g ∈ sorted) by (by rewrite P).
  pose proof (M g Gs) as Mg. unfold mainnet_first in Mg. apply Z.leb_le in Mg.
  split; [lia|]. intros Eq.
  apply higher_balance_leb; [by apply B | by apply B |].
  pose proof (sorted_by_balance l ltac:(by apply list.Forall_forall)) as S. fold sorted in S.
  rewrite E in S, Gs. apply elem_of_app in Gs as [Gs|[->|Gs]%elem_of_cons].
  - specialize (F g Gs). unfold mainnet_first in F. apply Z.leb_gt in F. lia.
  - destruct (B f Fl) as (n & Hn & En). by rewrite (higher_balance_spec f f n n), Z.leb_refl.
  - apply StronglySorted_app in S as (_ & _ & S). apply StronglySorted_inv in S as [_ S].
    rewrite list.Forall_forall in S. by apply S.
Qed.

(** ** Concrete slices *)

Definition fed (id network : string) (balance : Z) : obj :=
  [("id", JStr id); ("init_state", JStr "ready"); ("network", JStr network);
   ("balance", JNum (of_Z balance)); ("meta", JObj [])].

Definition com (id : string) : obj := [("id", JStr id); ("meta", JObj [])].

Definition demo_state : FederationState :=
  initialState <| federations := [fed "a" "signet" 5000; fed "b" "bitcoin" 10; fed "c" "bitcoin" 70] |>
    <| communities := [com "x"; com "y"] |> <| recentlyUsedFederationIds := ["a"] |>
    <| payFromFederationId := Some "gone" |>.

Lemma entity_intro o i : bool_decide (wf_obj o) = true -> lookup_prop "id" o = Some (JStr i) -> entity o.
Proof. intros W E. split; [by apply bool_decide_eq_true in W | eauto]. Qed.

Ltac entities :=
  repeat first [apply list.Forall_nil; exact I | apply list.Forall_cons; split];
  eapply entity_intro; reflexivity.

Lemma demo_wf : wf_state demo_state.
Proof.
  constructor; [split | split | | |]; try (apply (bool_decide_eq_true_1 _); reflexivity).
  all: repeat (apply list.Forall_cons; split; [by eexists|]); by apply list.Forall_nil.
Qed.

Lemma federation_reachable_wf_witness :
  wf_state (leaveFederation_fulfilled "a"
    (setLastUsedFederationId "a" (upsertFederation demo_equal (fed "a" "bitcoin" 1) initialState))).
Proof.
  apply (federation_reachable_wf demo_equal).
  eapply rtc_l; [apply (step_upsertFederation _ _ (fed "a" "bitcoin" 1)); eapply entity_intro; reflexivity|].
  eapply rtc_l; [apply step_setLastUsedFederationId|].
  apply rtc_once, step_leaveFederation.
Defined.

Lemma setCommunities_agrees_witness :
  ids (communities (setCommunities demo_equal [com "z"; com "y"] demo_state)) = [JStr "y"; JStr "z"].
Proof.
  apply (setCommunities_agrees demo_equal [com "z"; com "y"] demo_state).
  entities.
Defined.

Lemma ensureDefault_drops_concurrent_join_witness :
  JStr "y" ∉ ids (communities (ensureDefault_joined demo_equal "g" [com "x"] (com "g") demo_state)).
Proof.
  apply (ensureDefault_drops_concurrent_join demo_equal "g" [com "x"] (com "g") demo_state).
  - entities.
  - refine (bool_decide_eq_true_1 _ _). reflexivity.
  - refine (bool_decide_eq_false_1 _ _). reflexivity.
  - discriminate.
Defined.

Lemma leaveFederation_references_witness :
  payFromFederationId (leaveFederation_fulfilled "a" demo_state) <> Some "a" /\
  "a" ∉ recentlyUsedFederationIds (leaveFederation_fulfilled "a" demo_state).
Proof.
  destruct (leaveFederation_references "a" demo_state demo_wf) as (_ & _ & _ & H & _).
  destruct H as (H1 & _ & H2); [discriminate|]. split; [exact H2 | exact H1].
Defined.

Lemma refreshGuardianStatuses_revives_witness :
  JStr "a" ∈ ids (federations (refreshGuardianStatuses_done demo_equal (fed "a" "signet" 5000)
    (Some []) (leaveFederation_fulfilled "a" demo_state))).
Proof.
  apply (refreshGuardianStatuses_revives demo_equal "a" (fed "a" "signet" 5000) [] demo_state).
  - eapply entity_intro; reflexivity.
  - reflexivity.
  - discriminate.
Defined.

Lemma setSuggestedPaymentFederation_best_witness :
  payFromFederationId (setSuggestedPaymentFederation None demo_state).2 = Some "c" /\
  ids (memo_selectLoadedFederations (setSuggestedPaymentFederation None demo_state).1
        (setSuggestedPaymentFederation None demo_state).2) = [JStr "c"; JStr "b"; JStr "a"].
Proof.
  assert (B : Forall int_balance (memo_selectLoadedFederations None demo_state)).
  { repeat constructor; [exists 5000%Z | exists 10%Z | exists 70%Z]; (split; [lia | reflexivity]). }
  pose proof (setSuggestedPaymentFederation_best None demo_state B eq_refl) as H.
  cbv zeta in H. destruct (setSuggestedPaymentFederation None demo_state) as [memo' s'].
  destruct H as (H1 & H2 & _). cbn [fst snd]. rewrite H1, H2.
  split.
  - vm_compute.
    reflexivity.
  - vm_compute. reflexivity.
Defined.

End Federation.
