(* ===== verification/StabilityPool.v ===== *)
(** The stability pool: [ui/common/utils/stabilitypool.ts].

    How much of a stable balance a deposit or a withdrawal moves, computed on
    doubles; the promises that wait for the bridge to report the end of an
    operation, as state machines over the answer of the rpc and the events; and
    the legacy account in the shape of the current one.  Logging and
    translations are not modelled. *)
From Stdlib Require Import ZArith Lia.
From stdpp Require Import base tactics strings list option.
From S2P Require Import Prelude JsNum Amount.
Local Open Scope Z_scope.

(** ** Amounts *)

(** [{ lockedBps, unlockedAmount }] *)
Definition calculateStabilityPoolWithdrawal (amount btcUsdExchangeRate totalLockedCents
    totalStagedMsats : num) : num * num :=
  if leb amount totalStagedMsats then
    let unlockedAmount :=
      if ltb (sub totalStagedMsats amount) (of_Z 1000) then totalStagedMsats else amount in
    (of_Z 0, unlockedAmount)
  else
    let unlockedAmount := totalStagedMsats in
    let remainingWithdrawal := to_fixed_num (sub amount unlockedAmount) 2 in
    let remainingWithdrawalUsd := msatToFiat remainingWithdrawal btcUsdExchangeRate in
    let remainingWithdrawalCents := mul remainingWithdrawalUsd (of_Z 100) in
    let lockedBps :=
      min2 (to_fixed_num (div (mul remainingWithdrawalCents (of_Z 10000)) totalLockedCents) 0)
           (of_Z 10000) in
    (lockedBps, unlockedAmount).

(** [{ withdrawAll, amountCents }] *)
Definition calculateStabilityPoolWithdrawalV2 (amountCents totalBalanceCents : num) : bool * num :=
  let centsAfterWithdrawal := sub totalBalanceCents amountCents in
  if leb centsAfterWithdrawal (of_Z 3) then (true, of_Z 0) else (false, amountCents).

Definition calculateStabilityPoolDeposit (amount ecashBalance maxAllowedFeeRate : num) : num :=
  let maxFeeRateFraction := to_fixed_num (div maxAllowedFeeRate (of_Z 1000000000)) 9 in
  let maxFirstCycleFee := to_fixed_num (mul amount maxFeeRateFraction) 0 in
  let leakagePadding := max2 (of_Z 1000) (to_fixed_num (mul (of_Z 10) maxFirstCycleFee) 0) in
  let amountPlusPadding := to_fixed_num (add amount leakagePadding) 0 in
  min2 ecashBalance amountPlusPadding.

(** ** The legacy account *)

(** An amount in both units, and the state the slice stores. *)
Record Balance := mkBalance { fiat : num; btc : num }.
Record StabilityPoolState := mkPool {
  currCycleStartPrice : num;
  staged : Balance;
  locked : Balance;
  idleBalance : num;
  pendingUnlock : option Balance
}.

(** The fields of [RpcStabilityPoolAccountInfo] that are read; of a locked seek
    only its [currCycleBeginningLockedAmount]. *)
Record RpcStabilityPoolAccountInfo := mkAccountInfo {
  info_idleBalance : num;
  stagedSeeks : list num;
  stagedCancellation : option num;
  lockedSeeks : list num
}.

Definition coerceLegacyAccountInfo (accountInfo : RpcStabilityPoolAccountInfo) (price : num)
    : StabilityPoolState :=
  let stagedBalanceMsats :=
    foldl (fun result ss => to_fixed_num (add result ss) 0) (of_Z 0) (stagedSeeks accountInfo) in
  let lockedBalanceMsats := foldl (fun result ls => add result ls) (of_Z 0) (lockedSeeks accountInfo) in
  let stagedBalanceCents := div (mul stagedBalanceMsats price) (of_Z 100000000000) in
  let lockedBalanceCents := div (mul lockedBalanceMsats price) (of_Z 100000000000) in
  let cancellation := default (of_Z 0) (stagedCancellation accountInfo) in
  let pendingUnlockCents := floor (div (mul lockedBalanceCents cancellation) (of_Z 10000)) in
  let pendingUnlockMsats := floor (div (mul lockedBalanceMsats cancellation) (of_Z 10000)) in
  mkPool price (mkBalance stagedBalanceCents stagedBalanceMsats)
    (mkBalance lockedBalanceCents lockedBalanceMsats) (info_idleBalance accountInfo)
    (if ltb (of_Z 0) cancellation then Some (mkBalance pendingUnlockCents pendingUnlockMsats)
     else None).

(** ** Waiting for the bridge

    A handler sends its request, and when the bridge has answered with the id of
    the operation registers a listener, which settles the promise and
    unregisters itself at the first event it recognizes as the end of that
    operation.  Until the answer no listener exists, and an event passes
    unnoticed. *)
Inductive outcome (E : Type) : Type :=
  | Resolved (ev : E)
  | Rejected (reason : string).
Arguments Resolved {E} _.
Arguments Rejected {E} _.

Inductive phase (E : Type) : Type :=
  | Requested
  | Listening (operationId : string)
  | Settled (o : outcome E).
Arguments Requested {E}.
Arguments Listening {E} _.
Arguments Settled {E} _.

Inductive input (E : Type) : Type :=
  | RpcAnswer (r : result string)
  | Emitted (ev : E).
Arguments RpcAnswer {E} _.
Arguments Emitted {E} _.

Section Handler.
Context {E : Type}.
(** What the listener of an operation does with an event. *)
Context (classify : string -> E -> option (outcome E)).

Definition handler_step (p : phase E) (i : input E) : phase E :=
  match p, i with
  | Requested, RpcAnswer (Ok operationId) => Listening operationId
  | Requested, RpcAnswer (Throw e) => Settled (Rejected e)
  | Listening operationId, Emitted ev =>
      match classify operationId ev with
      | Some o => Settled o
      | None => p
      end
  | _, _ => p
  end.

Definition handler_run (p : phase E) (l : list (input E)) : phase E := foldl handler_step p l.

(** The outcome of the first of the events that ends the operation. *)
Fixpoint first_outcome (operationId : string) (l : list (input E)) : option (outcome E) :=
  match l with
  | [] => None
  | Emitted ev :: l =>
      match classify operationId ev with
      | Some o => Some o
      | None => first_outcome operationId l
      end
  | RpcAnswer _ :: l => first_outcome operationId l
  end.

Definition is_event (i : input E) : Prop := match i with Emitted _ => True | _ => False end.

Lemma handler_run_app p l l' : handler_run p (l ++ l') = handler_run (handler_run p l) l'.
Proof. apply foldl_app. Qed.

Lemma run_settled o l : handler_run (Settled o) l = Settled o.
Proof. induction l as [|[r|ev] l IH]; simpl; auto. Qed.

Lemma run_listening id l :
  handler_run (Listening id) l =
    match first_outcome id l with Some o => Settled o | None => Listening id end.
Proof.
  induction l as [|[r|ev] l IH]; simpl; [done | done |].
  destruct (classify id ev) as [o|]; [apply run_settled | apply IH].
Qed.

Lemma run_requested l : Forall is_event l -> handler_run Requested l = Requested.
Proof. induction 1 as [|[r|ev] l H _ IH]; simpl; [done | done | apply IH]. Qed.

Lemma run_answered pre id post :
  Forall is_event pre ->
  handler_run Requested (pre ++ RpcAnswer (Ok id) :: post) =
    match first_outcome id post with Some o => Settled o | None => Listening id end.
Proof.
  intros H. rewrite handler_run_app, run_requested by done. simpl. apply run_listening.
Qed.

End Handler.

(** ** The events *)

(** An event of an operation of a federation. *)
Record op_event (S : Type) := mkEvent {
  federationId : string;
  operationId : string;
  state : S
}.
Arguments mkEvent {S} _ _ _.
Arguments federationId {S} _.
Arguments operationId {S} _.
Arguments state {S} _.

Inductive StabilityPoolWithdrawalState : Type :=
  | invalidOperationType | withdrawUnlockedInitiated | w_txRejected (e : string)
  | withdrawUnlockedAccepted | w_primaryOutputError (e : string) | w_success
  | cancellationSubmissionFailure (e : string) | cancellationInitiated | cancellationAccepted
  | awaitCycleTurnoverError (e : string) | withdrawIdleSubmissionFailure (e : string)
  | withdrawIdleInitiated | withdrawIdleAccepted.

Inductive SPv2WithdrawalState : Type :=
  | v2_initiated | unlockTxAccepted | unlockTxRejected (e : string)
  | unlockProcessingError (e : string) | withdrawalInitiated (a : num)
  | withdrawalTxAccepted (a : num) | withdrawalTxRejected (e : string)
  | v2_primaryOutputError (e : string) | v2_success (a : num).

(** [StabilityPoolDepositState] and [SPv2DepositState] *)
Inductive DepositState : Type :=
  | d_initiated | txAccepted | txRejected (e : string) | d_primaryOutputError (e : string)
  | d_success.

(** The event belongs to the operation the handler waits for. *)
Definition concerns {S} (fed op : string) (ev : op_event S) : bool :=
  bool_decide (federationId ev = fed) && bool_decide (operationId ev = op).

Definition withdrawal_outcome (fed op : string) (ev : op_event StabilityPoolWithdrawalState)
    : option (outcome (op_event StabilityPoolWithdrawalState)) :=
  if negb (concerns fed op ev) then None
  else match state ev with
  | w_success | cancellationAccepted => Some (Resolved ev)
  | w_txRejected _ | cancellationSubmissionFailure _ => Some (Rejected "Transaction rejected")
  | _ => None
  end.

Definition spv2_withdrawal_outcome (fed op : string) (ev : op_event SPv2WithdrawalState)
    : option (outcome (op_event SPv2WithdrawalState)) :=
  if negb (concerns fed op ev) then None
  else match state ev with
  | unlockTxAccepted => Some (Resolved ev)
  | unlockTxRejected _ | unlockProcessingError _ | withdrawalTxRejected _ =>
      Some (Rejected "Transaction rejected")
  | _ => None
  end.

Definition deposit_outcome (fed op : string) (ev : op_event DepositState)
    : option (outcome (op_event DepositState)) :=
  if concerns fed op ev then
    match state ev with
    | txAccepted => Some (Resolved ev)
    | txRejected _ => Some (Rejected "Transaction rejected")
    | _ => None
    end
  else None.

(** The requests the handlers send. *)
Inductive pool_request : Type :=
  | stabilityPoolWithdraw (lockedBps unlockedAmount : num) (fed : string)
  | spv2Withdraw (fed : string) (amount : num)
  | spv2WithdrawAll (fed : string)
  | stabilityPoolDepositToSeek (amount : num) (fed : string)
  | spv2DepositToSeek (amount : num) (fed : string).

(** A handler is its request and the machine that waits for its end. *)
Definition handleStabilityPoolWithdrawal (lockedBps unlockedAmount : num) (fed : string)
    : pool_request * (list (input (op_event StabilityPoolWithdrawalState)) ->
                      phase (op_event StabilityPoolWithdrawalState)) :=
  (stabilityPoolWithdraw lockedBps unlockedAmount fed,
   handler_run (withdrawal_outcome fed) Requested).

Definition handleSpv2Withdrawal (amount : num) (fed : string) (withdrawAll : bool)
    : pool_request * (list (input (op_event SPv2WithdrawalState)) ->
                      phase (op_event SPv2WithdrawalState)) :=
  (if withdrawAll then spv2WithdrawAll fed else spv2Withdraw fed amount,
   handler_run (spv2_withdrawal_outcome fed) Requested).

Definition handleStabilityPoolDeposit (amount : num) (fed : string)
    : pool_request * (list (input (op_event DepositState)) -> phase (op_event DepositState)) :=
  (stabilityPoolDepositToSeek amount fed, handler_run (deposit_outcome fed) Requested).

Definition handleSpv2Deposit (amount : num) (fed : string)
    : pool_request * (list (input (op_event DepositState)) -> phase (op_event DepositState)) :=
  (spv2DepositToSeek amount fed, handler_run (deposit_outcome fed) Requested).

(** ** Properties of the handlers *)

Lemma first_outcome_None {E} (classify : string -> E -> option (outcome E)) id l :
  first_outcome classify id l = None <-> forall ev, Emitted ev ∈ l -> classify id ev = None.
Proof.
  induction l as [|[r|ev] l IH]; simpl.
  - split; [intros _ ev H; by apply elem_of_nil in H | done].
  - rewrite IH. split; intros H ev; [intros [?|?]%elem_of_cons; [done | auto]|].
    intros ?. apply H. by right.
  - destruct (classify id ev) as [o|] eqn:C.
    + split; [done|]. intros H. rewrite (H ev) in C; [done | left].
    + rewrite IH. split; intros H ev'.
      * intros [[= ->]|?]%elem_of_cons; auto.
      * intros ?. apply H. by right.
Qed.

Lemma first_outcome_Some {E} (classify : string -> E -> option (outcome E)) id l o :
  first_outcome classify id l = Some o ->
  exists l1 ev l2, l = l1 ++ Emitted ev :: l2 /\ classify id ev = Some o /\
    forall ev', Emitted ev' ∈ l1 -> classify id ev' = None.
Proof.
  induction l as [|[r|ev] l IH]; simpl; [done | |].
  - intros (l1 & ev & l2 & -> & C & F)%IH. exists (RpcAnswer r :: l1), ev, l2.
    split; [done|]. split; [done|]. intros ev' [?|?]%elem_of_cons; [done | auto].
  - destruct (classify id ev) as [o'|] eqn:C.
    + intros [= ->]. exists [], ev, l. split; [done|]. split; [done|].
      intros ev' H. by apply elem_of_nil in H.
    + intros (l1 & ev0 & l2 & -> & C0 & F)%IH. exists (Emitted ev :: l1), ev0, l2.
      split; [done|]. split; [done|]. intros ev' [[= ->]|?]%elem_of_cons; auto.
Qed.

(** What an event of state [st] means for an operation: the states that fulfil
    it are [good], those that reject it [bad], and it has to belong to the
    operation [id] of the federation [fed]. *)
Definition ends {S} (good bad : S -> Prop) (fed id : string) (ev : op_event S)
    (o : outcome (op_event S)) : Prop :=
  federationId ev = fed /\ operationId ev = id /\
  (good (state ev) /\ o = Resolved ev \/
   bad (state ev) /\ o = Rejected "Transaction rejected").

(** The promise of a handler whose operation is [id], for every sequence of
    events before and after the answer of the bridge. *)
Definition settles_like {S} (good bad : S -> Prop) (fed : string)
    (h : list (input (op_event S)) -> phase (op_event S)) : Prop :=
  forall id pre post, Forall is_event pre ->
    let p := h (pre ++ RpcAnswer (Ok id) :: post) in
    (p = Listening id <->
       forall ev, Emitted ev ∈ post -> forall o, ~ ends good bad fed id ev o) /\
    (forall o, p = Settled o ->
       (exists l1 ev l2, post = l1 ++ Emitted ev :: l2 /\ ends good bad fed id ev o /\
          forall ev', Emitted ev' ∈ l1 -> forall o', ~ ends good bad fed id ev' o') /\
       forall more, h (pre ++ RpcAnswer (Ok id) :: post ++ more) = Settled o) /\
    (p = Listening id \/ exists o, p = Settled o).

Lemma handler_settles {S} good bad fed
    (classify : string -> op_event S -> option (outcome (op_event S))) :
  (forall id ev o, classify id ev = Some o <-> ends good bad fed id ev o) ->
  settles_like good bad fed (handler_run classify Requested).
Proof.
  intros C id pre post H.
  assert (N : forall ev, classify id ev = None <-> forall o, ~ ends good bad fed id ev o).
  { intros ev. split.
    - intros E o Eo. apply C in Eo. congruence.
    - intros E. destruct (classify id ev) as [o|] eqn:Eo; [|done]. by apply C, E in Eo. }
  cbv zeta. rewrite run_answered by done. split_and!.
  - setoid_rewrite <- N. rewrite <- first_outcome_None.
    by destruct (first_outcome classify id post).
  - destruct (first_outcome classify id post) as [o'|] eqn:F; [|done]. intros o [= ->].
    split.
    + apply first_outcome_Some in F as (l1 & ev & l2 & -> & Ev & L1).
      exists l1, ev, l2. split; [done|]. split; [by apply C|].
      intros ev' Hev'. by apply N, L1.
    + intros more.
      change (RpcAnswer (Ok id) :: post ++ more) with ((RpcAnswer (Ok id) :: post) ++ more).
      rewrite app_assoc, handler_run_app, run_answered, F by done. apply run_settled.
  - destruct (first_outcome classify id post); eauto.
Qed.

Lemma concerns_spec {S} fed op (ev : op_event S) :
  concerns fed op ev = true <-> federationId ev = fed /\ operationId ev = op.
Proof. unfold concerns. by rewrite andb_true_iff, !bool_decide_eq_true. Qed.

(** The states that end an operation. *)
Definition withdrawal_good (st : StabilityPoolWithdrawalState) : Prop :=
  st = w_success \/ st = cancellationAccepted.
Definition withdrawal_bad (st : StabilityPoolWithdrawalState) : Prop :=
  exists e, st = w_txRejected e \/ st = cancellationSubmissionFailure e.
Definition spv2_withdrawal_bad (st : SPv2WithdrawalState) : Prop :=
  exists e, st = unlockTxRejected e \/ st = unlockProcessingError e \/ st = withdrawalTxRejected e.
Definition deposit_bad (st : DepositState) : Prop := exists e, st = txRejected e.

#[local] Ltac classifies :=
  intros op ev o; unfold ends;
  destruct (concerns _ op ev) eqn:C;
    [apply concerns_spec in C as [-> ->]; cbn [negb]
    |split; [done|]; intros (F & O & _); pose proof (conj F O) as F';
     apply concerns_spec in F'; congruence];
  destruct (state ev); split; naive_solver.

Lemma withdrawal_classifies fed id ev o :
  withdrawal_outcome fed id ev = Some o <-> ends withdrawal_good withdrawal_bad fed id ev o.
Proof.
  revert id ev o. unfold withdrawal_outcome, withdrawal_good, withdrawal_bad. classifies.
Qed.

Lemma spv2_withdrawal_classifies fed id ev o :
  spv2_withdrawal_outcome fed id ev = Some o <->
  ends (eq unlockTxAccepted) spv2_withdrawal_bad fed id ev o.
Proof.
  revert id ev o. unfold spv2_withdrawal_outcome, spv2_withdrawal_bad. classifies.
Qed.

Lemma deposit_classifies fed id ev o :
  deposit_outcome fed id ev = Some o <-> ends (eq txAccepted) deposit_bad fed id ev o.
Proof. revert id ev o. unfold deposit_outcome, deposit_bad. classifies. Qed.

(** C10: Each of the four stability pool promises settles exactly once: with the
    first event after the bridge's answer that is of its federation and
    operation and in an accepting state (it resolves) or in a rejecting one,
    and no later event changes the outcome.  It stays pending exactly when no
    such event follows the answer; in particular an end that the bridge emits
    before it has answered is lost, and the promise never settles. *)
Theorem pool_promises_settle fed bps unlocked amount all :
  settles_like withdrawal_good withdrawal_bad fed
    (handleStabilityPoolWithdrawal bps unlocked fed).2 /\
  settles_like (eq unlockTxAccepted) spv2_withdrawal_bad fed
    (handleSpv2Withdrawal amount fed all).2 /\
  settles_like (eq txAccepted) deposit_bad fed (handleStabilityPoolDeposit amount fed).2 /\
  settles_like (eq txAccepted) deposit_bad fed (handleSpv2Deposit amount fed).2.
Proof.
  split_and!; apply handler_settles; intros.
  - apply withdrawal_classifies.
  - apply spv2_withdrawal_classifies.
  - apply deposit_classifies.
  - apply deposit_classifies.
Qed.

(** ** Properties of the amounts *)

(** A withdrawal that the staged balance covers unlocks nothing and takes
    at least the requested amount from it, less than a sat more, in such a way
    that what remains staged is nothing or at least a sat; a larger withdrawal
    takes the whole staged balance. *)
Theorem withdrawal_from_staged amount total rate lockedCents :
  0 <= amount <= 2 ^ 53 -> 0 <= total <= 2 ^ 53 ->
  let '(lockedBps, unlocked) :=
    calculateStabilityPoolWithdrawal (of_Z amount) rate lockedCents (of_Z total) in
  (amount <= total ->
     lockedBps = of_Z 0 /\
     exists u, unlocked = of_Z u /\ amount <= u <= total /\ u < amount + 1000 /\
       (u = total \/ 1000 <= total - u)) /\
  (total < amount -> unlocked = of_Z total).
Proof.
  intros Ha Ht. unfold calculateStabilityPoolWithdrawal.
  rewrite leb_int by (unfold safe; lia).
  destruct (Z.leb_spec amount total); [|split; [lia | done]].
  rewrite sub_int, ltb_int by (unfold safe; lia). split; [|lia]. intros _.
  split; [done|]. destruct (Z.ltb_spec (total - amount) 1000).
  - exists total. split; [done|]. lia.
  - exists amount. split; [done|]. lia.
Qed.

Lemma withdrawal_from_staged_witness :
  (calculateStabilityPoolWithdrawal (of_Z 5000) (of_Z 60000) (of_Z 100) (of_Z 5900)).2 = of_Z 5900.
Proof.
  pose proof (withdrawal_from_staged 5000 5900 (of_Z 60000) (of_Z 100) ltac:(lia) ltac:(lia)) as H.
  destruct (calculateStabilityPoolWithdrawal _ _ _ _) as [bps u]. cbn [snd].
  destruct H as [H _]. destruct (H ltac:(lia)) as (_ & v & -> & Hv & Hs & [-> | Hd]);
    [reflexivity | lia].
Defined.

(** A number that is not NaN and not negative. *)
Definition nonneg (x : num) : Prop := x = Inf false \/ exists m, 0 <= m /\ x = Fin m.

Lemma nonneg_fin_round p q : 0 <= p -> 0 < q -> nonneg (fin_round p q).
Proof.
  intros Hp Hq. unfold fin_round. pose proof (round_mag_nonneg (Z.abs p) q ltac:(lia) Hq).
  case_if; [left | right].
  - f_equal. apply Z.ltb_ge. lia.
  - exists (Z.sgn p * round_mag (Z.abs p) q). split; [|done].
    destruct (Z.sgn_spec p) as [[_ ->]|[[_ ->]|[? _]]]; lia.
Qed.

Lemma nonneg_of_Z n : 0 <= n -> nonneg (of_Z n).
Proof. intros H. apply nonneg_fin_round; pose proof unit1_pos; nia. Qed.

Lemma nonneg_to_fixed x f : nonneg x -> 0 <= f -> nonneg (to_fixed_num x f).
Proof.
  intros [->|(m & Hm & ->)] Hf; [by left|]. unfold to_fixed_num.
  case_if; [right; eauto|]. pose proof unit1_pos.
  assert (0 < 10 ^ f) by (apply Z.pow_pos_nonneg; lia).
  assert (0 <= to_fixed_mag m f) by (unfold to_fixed_mag; apply Z.div_pos; nia).
  apply nonneg_fin_round; [|done].
  destruct (Z.sgn_spec m) as [[_ ->]|[[_ ->]|[? _]]]; nia.
Qed.

(** Multiplying and dividing by a positive finite number. *)
Lemma nonneg_mul x c : nonneg x -> 0 < c -> nonneg (mul x (Fin c)).
Proof.
  intros [->|(m & Hm & ->)] Hc; cbn [mul].
  - left. rewrite (proj2 (Z.eqb_neq c 0)), (proj2 (Z.ltb_ge c 0)) by lia. done.
  - apply nonneg_fin_round; [nia | apply unit1_pos].
Qed.

Lemma nonneg_mul_fin m x : 0 <= m -> nonneg x -> x <> Inf false -> nonneg (mul (Fin m) x).
Proof.
  intros Hm [->|(n & Hn & ->)] Hx; [done|]. apply nonneg_fin_round; [nia | apply unit1_pos].
Qed.

Lemma nonneg_div x c : nonneg x -> 0 < c -> nonneg (div x (Fin c)).
Proof.
  intros [->|(m & Hm & ->)] Hc; cbn [div].
  - left. rewrite (proj2 (Z.ltb_ge c 0)) by lia. done.
  - rewrite (proj2 (Z.eqb_neq c 0)), Z.sgn_pos by lia. pose proof unit1_pos.
    apply nonneg_fin_round; [nia | lia].
Qed.

Lemma nonneg_min2_bound x n : nonneg x -> 0 <= n -> safe n ->
  leb (of_Z 0) (min2 x (of_Z n)) = true /\ leb (min2 x (of_Z n)) (of_Z n) = true.
Proof.
  intros Hx Hn Hs. rewrite !of_Z_safe by (unfold safe in *; lia). pose proof unit1_pos.
  unfold min2, leb. destruct Hx as [->|(m & Hm & ->)]; cbn [ltb negb eqb].
  - destruct (Z.ltb_spec (0 * unit1) (n * unit1)), (Z.eqb_spec (0 * unit1) (n * unit1)); simpl;
      rewrite ?Z.eqb_refl, ?orb_true_r; split; try done; nia.
  - destruct (Z.ltb_spec (n * unit1) m); cbn [ltb eqb];
      rewrite ?orb_true_iff, ?Z.ltb_lt, ?Z.eqb_eq; nia.
Qed.

(** The share of the locked balance that a withdrawal cancels is between 0
    and 10000 basis points, whatever rounding the conversions from msats to
    basis points go through, for every finite rate and positive locked
    balance. *)
Theorem lockedBps_bounded amount total rate cents :
  0 <= amount <= 2 ^ 50 -> 0 <= total <= 2 ^ 50 -> 0 <= rate -> 0 < cents ->
  let bps := (calculateStabilityPoolWithdrawal (of_Z amount) (Fin rate) (Fin cents) (of_Z total)).1 in
  leb (of_Z 0) bps = true /\ leb bps (of_Z 10000) = true.
Proof.
  intros Ha Ht Hr Hc. unfold calculateStabilityPoolWithdrawal.
  rewrite leb_int by (unfold safe; lia).
  destruct (Z.leb_spec amount total).
  { cbn [fst]. rewrite !leb_int by (unfold safe; lia). done. }
  cbn [fst]. apply nonneg_min2_bound; [|lia | unfold safe; lia].
  apply nonneg_to_fixed; [|lia]. apply nonneg_div; [|done].
  pose proof unit1_pos as U.
  rewrite (of_Z_safe 10000), (of_Z_safe 100) by (unfold safe; lia).
  apply nonneg_mul; [|lia]. apply nonneg_mul; [|lia].
  rewrite sub_int, to_fixed_num_int by (unfold safe; lia).
  unfold msatToFiat, msatToBtc, msatToSat, MSATS_PER_SAT.
  rewrite floor_div_int by lia.
  rewrite satToBtc_units.
  2: { split; [apply Z.div_pos; lia|]. unfold max_supply. apply Z.div_le_upper_bound; lia. }
  unfold btcToFiat, FIAT_MAX_DECIMAL_PLACES. apply nonneg_to_fixed; [|lia].
  apply nonneg_mul_fin; [|right; eauto | done].
  apply btc_units_bound. split; [apply Z.div_pos; lia|].
  unfold max_supply. apply Z.div_le_upper_bound; lia.
Qed.

Lemma lockedBps_bounded_witness :
  leb (calculateStabilityPoolWithdrawal (of_Z 9000000) (of_Z 60000) (of_Z 300) (of_Z 5)).1
      (of_Z 10000) = true.
Proof.
  rewrite (of_Z_safe 60000), (of_Z_safe 300) by (unfold safe; lia). pose proof unit1_pos.
  apply (lockedBps_bounded 9000000 5 (60000 * unit1) (300 * unit1)); lia.
Defined.

(** *** Deposits *)

(** The double nearest to [r] parts per billion. *)
Definition ppb_units (r : Z) : Z := round_mag (r * unit1) 1000000000.

Lemma ppb_units_err r : 0 <= r ->
  2 ^ 53 * Z.abs (ppb_units r * 1000000000 - r * unit1) <= r * unit1.
Proof.
  intros Hr. destruct (Z.eq_dec r 0) as [->|]; [by vm_compute|].
  pose proof unit1_large. apply (round_mag_err (r * unit1) 1000000000); [lia | nia].
Qed.

Lemma ppb_units_bound r : 0 <= r <= 1000000000 -> 0 <= ppb_units r <= unit1.
Proof.
  intros Hr. pose proof unit1_pos. split; [apply round_mag_nonneg; nia|].
  assert (E : round_mag (unit1 * 1000000000) 1000000000 = unit1).
  { apply round_mag_exact; [lia|]. pose proof (repr_int 1 ltac:(unfold safe; lia)) as R.
    by rewrite Z.abs_eq, Z.mul_1_l in R by lia. }
  rewrite <- E. apply round_mag_mono; nia.
Qed.

Lemma fee_fraction r : 0 <= r <= 1000000000 ->
  to_fixed_num (div (of_Z r) (of_Z 1000000000)) 9 = Fin (ppb_units r).
Proof.
  intros Hr. pose proof unit1_pos as U. pose proof (ppb_units_bound r Hr) as B.
  pose proof (ppb_units_err r ltac:(lia)) as E. pose proof supply_units as [U1 U2].
  rewrite (of_Z_safe r), (of_Z_safe 1000000000) by (unfold safe; lia). cbn [div].
  rewrite (proj2 (Z.eqb_neq (1000000000 * unit1) 0)), Z.sgn_pos, Z.mul_1_l,
    (Z.abs_eq (1000000000 * unit1)) by lia.
  assert (Q : round_mag (r * unit1 * unit1) (1000000000 * unit1) = ppb_units r)
    by (apply round_mag_scale; lia).
  rewrite fin_round_pos, Q by (rewrite ?Q; nia).
  rewrite to_fixed_num_pos by nia.
  rewrite (to_fixed_mag_near (ppb_units r) 9 r) by (change (10 ^ 9) with 1000000000; nia).
  unfold of_frac. change (10 ^ 9) with 1000000000.
  rewrite fin_round_pos; [done | nia | lia | fold (ppb_units r); nia].
Qed.

(** The fee of one cycle: an integer within an msat of the exact one. *)
Lemma cycle_fee a r : 0 <= a <= 2 ^ 48 -> 0 <= r <= 1000000000 ->
  exists k, to_fixed_num (mul (of_Z a) (Fin (ppb_units r))) 0 = of_Z k /\ 0 <= k <= a /\
    Z.abs (k * 1000000000 - a * r) < 1000000000.
Proof.
  intros Ha Hr. pose proof unit1_pos as U. pose proof (ppb_units_bound r Hr) as B.
  pose proof (ppb_units_err r ltac:(lia)) as E. pose proof supply_units as [U1 U2].
  set (f := ppb_units r) in *. set (p := a * f).
  assert (Hp : 0 <= p <= a * unit1) by (unfold p; nia).
  assert (R : repr (a * unit1)).
  { pose proof (repr_int a ltac:(unfold safe; lia)) as R. by rewrite Z.abs_eq in R by lia. }
  pose proof (round_mag_nonneg p 1 ltac:(lia) ltac:(lia)) as P.
  assert (M : round_mag p 1 <= a * unit1).
  { rewrite <- (round_mag_exact (a * unit1) 1) by (done || lia).
    apply round_mag_mono; lia. }
  assert (E2 : 2 ^ 53 * Z.abs (round_mag p 1 - p) <= p \/ p < 2 ^ 52).
  { destruct (Z.le_gt_cases (2 ^ 52) p); [left | by right].
    pose proof (round_mag_err p 1 ltac:(lia) ltac:(lia)). lia. }
  assert (E3 : 2 ^ 53 * Z.abs (round_mag p 1 - p) <= a * unit1 + 2 ^ 105).
  { destruct E2; [lia|].
    pose proof (round_mag_nearest p 1 p ltac:(lia) ltac:(lia)) as N.
    assert (repr p) by (exists p, 0; lia). specialize (N H0). lia. }
  rewrite of_Z_safe by (unfold safe; lia). cbn [mul].
  replace (a * unit1 * f) with (p * unit1) by (unfold p; ring).
  assert (Q : round_mag (p * unit1) unit1 = round_mag p 1).
  { rewrite <- (Z.mul_1_l unit1) at 2. by apply round_mag_scale. }
  rewrite fin_round_pos, Q by (rewrite ?Q; nia). set (m := round_mag p 1) in *.
  rewrite to_fixed_num_pos by nia.
  pose proof (to_fixed_mag_err m 0 ltac:(lia)) as E0. rewrite (Z.abs_eq m) in E0 by done.
  set (k := to_fixed_mag m 0) in *. change (10 ^ 0) with 1 in *.
  assert (K : 0 <= k <= a) by nia.
  exists k. split; [|split; [done|]].
  - replace k with (k * 1) at 1 by ring. apply of_frac_int; [lia | unfold safe; lia].
  - pose proof unit1_large. unfold p in *. nia.
Qed.

(** The amount of a deposit. *)
Lemma deposit_units amount ecash rate :
  0 <= amount <= 2 ^ 48 -> 0 <= ecash <= 2 ^ 53 -> 0 <= rate <= 1000000000 ->
  exists fee, Z.abs (fee * 1000000000 - amount * rate) < 1000000000 /\ 0 <= fee /\
    calculateStabilityPoolDeposit (of_Z amount) (of_Z ecash) (of_Z rate) =
      of_Z (Z.min ecash (amount + Z.max 1000 (10 * fee))).
Proof.
  intros Ha He Hr. destruct (cycle_fee amount rate Ha Hr) as (k & E & Hk & B).
  exists k. split; [done|]. split; [lia|]. unfold calculateStabilityPoolDeposit.
  rewrite fee_fraction, E by done.
  rewrite mul_int, (to_fixed_num_int (10 * k)), max2_int, add_int, to_fixed_num_int, min2_int
    by (unfold safe; lia). done.
Qed.

Lemma deposit_amount amount ecash rate :
  0 <= amount <= 2 ^ 48 -> 0 <= ecash <= 2 ^ 53 -> 0 <= rate <= 1000000000 ->
  exists d, calculateStabilityPoolDeposit (of_Z amount) (of_Z ecash) (of_Z rate) = of_Z d /\
    0 <= d <= ecash /\ (d = ecash \/ amount + 1000 <= d).
Proof.
  intros Ha He Hr. destruct (deposit_units amount ecash rate Ha He Hr) as (k & _ & Hk & ->).
  exists (Z.min ecash (amount + Z.max 1000 (10 * k))). split; [done|]. lia.
Qed.

(** A deposit never exceeds the ecash balance; below that limit it is the
    requested amount plus a padding of ten cycle fees, and at least a sat, where
    the fee is the exact one, [amount * rate / 10^9], to within one msat,
    although rate, fee and sum go through three decimal roundings. *)
Theorem deposit_padding amount ecash rate :
  0 <= amount <= 2 ^ 48 -> 0 <= ecash <= 2 ^ 53 -> 0 <= rate <= 1000000000 ->
  exists fee, Z.abs (fee * 1000000000 - amount * rate) < 1000000000 /\ 0 <= fee /\
    calculateStabilityPoolDeposit (of_Z amount) (of_Z ecash) (of_Z rate) =
      of_Z (Z.min ecash (amount + Z.max 1000 (10 * fee))).
Proof. apply deposit_units. Qed.

Lemma deposit_padding_witness :
  exists fee, Z.abs (fee * 1000000000 - 5000000 * 1000000) < 1000000000 /\ 0 <= fee /\
    calculateStabilityPoolDeposit (of_Z 5000000) (of_Z 9000000) (of_Z 1000000) =
      of_Z (Z.min 9000000 (5000000 + Z.max 1000 (10 * fee))).
Proof. apply deposit_padding; lia. Defined.

(** *** The legacy account *)

Definition sum (l : list Z) : Z := foldr Z.add 0 l.

Lemma sum_nonneg l : Forall (fun n => 0 <= n) l -> 0 <= sum l.
Proof. induction 1; simpl; lia. Qed.

Lemma staged_sum l acc : Forall (fun n => 0 <= n) l -> 0 <= acc -> acc + sum l <= 2 ^ 53 ->
  foldl (fun result ss => to_fixed_num (add result ss) 0) (of_Z acc) (of_Z <$> l) = of_Z (acc + sum l).
Proof.
  intros H. revert acc. induction H as [|n l Hn Hl IH]; intros acc Ha Hs; csimpl.
  - by rewrite Z.add_0_r.
  - pose proof (sum_nonneg l Hl). simpl in Hs.
    rewrite add_int, to_fixed_num_int, IH by (unfold safe; lia). f_equal. lia.
Qed.

Lemma locked_sum l acc : Forall (fun n => 0 <= n) l -> 0 <= acc -> acc + sum l <= 2 ^ 53 ->
  foldl (fun result ls => add result ls) (of_Z acc) (of_Z <$> l) = of_Z (acc + sum l).
Proof.
  intros H. revert acc. induction H as [|n l Hn Hl IH]; intros acc Ha Hs; csimpl.
  - by rewrite Z.add_0_r.
  - pose proof (sum_nonneg l Hl). simpl in Hs.
    rewrite add_int, IH by (unfold safe; lia). f_equal. lia.
Qed.

(** The state built from a legacy account has the exact totals of its seeks
    in msats, and the pending unlock, present exactly when a cancellation is
    staged, is the staged fraction of the locked msats rounded down: never more
    than is locked. *)
Theorem coerceLegacyAccountInfo_totals idle stg lck cancellation price :
  Forall (fun n => 0 <= n) stg -> Forall (fun n => 0 <= n) lck ->
  sum stg <= 2 ^ 53 -> sum lck <= 2 ^ 39 -> 0 <= cancellation <= 10000 ->
  let pool := coerceLegacyAccountInfo
    (mkAccountInfo idle (of_Z <$> stg) (Some (of_Z cancellation)) (of_Z <$> lck)) price in
  btc (staged pool) = of_Z (sum stg) /\ btc (locked pool) = of_Z (sum lck) /\
  match pendingUnlock pool with
  | None => cancellation = 0
  | Some b => 0 < cancellation /\ btc b = of_Z (sum lck * cancellation / 10000) /\
              sum lck * cancellation / 10000 <= sum lck
  end.
Proof.
  intros Hs Hl Bs Bl Hc. unfold coerceLegacyAccountInfo.
  cbn [stagedSeeks lockedSeeks stagedCancellation info_idleBalance].
  unfold default, from_option, id.
  pose proof (sum_nonneg stg Hs). pose proof (sum_nonneg lck Hl).
  rewrite staged_sum, locked_sum by (done || lia). rewrite !Z.add_0_l.
  cbn [staged locked btc pendingUnlock]. split; [done|]. split; [done|].
  rewrite ltb_int by (unfold safe; lia). destruct (Z.ltb_spec 0 cancellation); [|lia].
  cbn [btc]. split; [done|]. split.
  - rewrite mul_int, floor_div_int by (unfold safe; nia). done.
  - apply Z.div_le_upper_bound; nia.
Qed.

Lemma coerceLegacyAccountInfo_totals_witness :
  btc (staged (coerceLegacyAccountInfo
    (mkAccountInfo (of_Z 0) (of_Z <$> [5; 7]) (Some (of_Z 2500)) (of_Z <$> [100; 3])) (of_Z 1)))
    = of_Z 12.
Proof.
  destruct (coerceLegacyAccountInfo_totals (of_Z 0) [5; 7] [100; 3] 2500 (of_Z 1)) as [H _].
  1, 2: repeat (apply list.Forall_cons; split; [lia|]); by apply list.Forall_nil.
  1, 2, 3: cbn [sum foldr]; lia.
  exact H.
Defined.
