(* ===== verification/Currency.v ===== *)
(** The wallet and currency slices as far as they read each other:
    [ui/common/redux/currency.ts], [ui/common/utils/currency.ts] and the state
    of [ui/common/redux/wallet.ts].

    The display currency is chosen from a global override, per-federation
    choices and federation metadata; exchange rates come from the price feed, a
    stability pool, or a fixed rate in the metadata.  The wallet slice is here
    because its pool price is one of the sources of a rate. *)
From Stdlib Require Import ZArith Lia Ascii.
From stdpp Require Import base tactics strings list option gmap.
From S2P Require Import Prelude JsNum Js JsStr Upsert Amount Meta StabilityPool Federation.
Import Federation.
Local Open Scope string_scope.

(** ** The wallet slice *)

Record FederationWalletState := mkWallet {
  stabilityPoolState : option StabilityPoolState;
  stabilityPoolAvailableLiquidity : option num;
  averageFeeRate : option num;
  supportsRecurringdLnurl : option bool;
  lnurlReceiveCode : option string
}.

#[export] Instance FederationWalletState_eta : Eta FederationWalletState := fun s =>
  mkWallet (stabilityPoolState s) (stabilityPoolAvailableLiquidity s) (averageFeeRate s)
    (supportsRecurringdLnurl s) (lnurlReceiveCode s).

Definition initialFederationWalletState : FederationWalletState :=
  mkWallet None None None None None.

Abbreviation WalletState := (gmap string FederationWalletState).

Definition getFederationWalletState (state : WalletState) (federationId : string)
    : FederationWalletState :=
  default initialFederationWalletState (state !! federationId).

(** [state[federationId] = { ...getFederationWalletState(state, federationId), field }] *)
Definition update_wallet (federationId : string)
    (f : FederationWalletState -> FederationWalletState) (state : WalletState) : WalletState :=
  <[federationId := f (getFederationWalletState state federationId)]> state.

Definition setStabilityPoolState (federationId : string) (p : StabilityPoolState) :=
  update_wallet federationId (fun w => w <| stabilityPoolState := Some p |>).

Definition setStabilityPoolAvailableLiquidity (federationId : string) (l : num) :=
  update_wallet federationId (fun w => w <| stabilityPoolAvailableLiquidity := Some l |>).

Definition resetFederationWalletState (federationId : string) (state : WalletState) : WalletState :=
  <[federationId := initialFederationWalletState]> state.

Definition resetWalletState (state : WalletState) : WalletState := ∅.

Definition setLnurlReceiveCode (federationId code : string) :=
  update_wallet federationId (fun w => w <| lnurlReceiveCode := Some code |>).

Definition setSupportsRecurringdLnurl (federationId : string) (b : bool) :=
  update_wallet federationId (fun w => w <| supportsRecurringdLnurl := Some b |>).

Definition fetchStabilityPoolAvailableLiquidity_fulfilled (federationId : string) (l : num) :=
  update_wallet federationId (fun w => w <| stabilityPoolAvailableLiquidity := Some l |>).

Definition fetchStabilityPoolAverageFeeRate_fulfilled (federationId : string) (r : num) :=
  update_wallet federationId (fun w => w <| averageFeeRate := Some r |>).

(** ** The currency slice *)

Record CurrencyState := mkCurrency {
  btcUsdRate : num;
  fiatUsdRates : obj;
  overrideCurrency : option string;
  balanceDisplay : string;
  currencyLocale : option string;
  customFederationCurrencies : obj
}.

#[export] Instance CurrencyState_eta : Eta CurrencyState := fun s =>
  mkCurrency (btcUsdRate s) (fiatUsdRates s) (overrideCurrency s) (balanceDisplay s)
    (currencyLocale s) (customFederationCurrencies s).

Definition currency_initialState : CurrencyState :=
  mkCurrency (of_Z 0) [] None "sats" None [].

Definition changeOverrideCurrency (c : option string) (s : CurrencyState) :=
  s <| overrideCurrency := c |>.
Definition setBalanceDisplay (d : string) (s : CurrencyState) := s <| balanceDisplay := d |>.
Definition setCurrencyLocale (l : string) (s : CurrencyState) := s <| currencyLocale := Some l |>.
Definition resetCurrencyState (s : CurrencyState) : CurrencyState := currency_initialState.
Definition setFederationCurrency (federationId currency : string) (s : CurrencyState) :=
  s <| customFederationCurrencies :=
    set_prop federationId (JStr currency) (customFederationCurrencies s) |>.

Definition fetchCurrencyPrices_fulfilled (payload : num * obj) (s : CurrencyState) :=
  s <| btcUsdRate := payload.1 |> <| fiatUsdRates := spread (fiatUsdRates s) payload.2 |>.

(** The fields of the stored document the slice restores. *)
Record RestoredCurrency := mkRestoredCurrency {
  rc_currency : option string; rc_btcUsdRate : num; rc_fiatUsdRates : obj;
  rc_custom : obj; rc_display : string
}.

Definition currency_loadFromStorage (payload : option RestoredCurrency) (s : CurrencyState)
    : CurrencyState :=
  match payload with
  | None => s
  | Some p =>
      s <| overrideCurrency := rc_currency p |> <| btcUsdRate := rc_btcUsdRate p |>
        <| fiatUsdRates := rc_fiatUsdRates p |>
        <| customFederationCurrencies := rc_custom p |>
        <| balanceDisplay := rc_display p |>
  end.

(** The slices that the selectors below read. *)
Record CommonState := mkCommon {
  federation : FederationState;
  wallet : WalletState;
  currency : CurrencyState
}.

(** ** Reading the wallet slice *)

(** [if (!federationId) federationId = selectLastUsedFederationId(s)] *)
Definition selectFederationWalletState (s : CommonState) (federationId : string)
    : FederationWalletState :=
  let federationId :=
    if decide (federationId = "") then default "" (selectLastUsedFederationId (federation s))
    else federationId in
  getFederationWalletState (wallet s) federationId.

Definition selectStabilityPoolState (s : CommonState) (federationId : string)
    : option StabilityPoolState :=
  stabilityPoolState (selectFederationWalletState s federationId).

Definition selectStabilityPoolCycleStartPrice (s : CommonState) (federationId : string)
    : option num :=
  currCycleStartPrice <$> selectStabilityPoolState s federationId.

(** ** Currencies *)

Definition CurrencyAliases : list (string * string) :=
  [("cameroon", "XAF"); ("central_african_republic", "XAF"); ("chad", "XAF");
   ("equatorial_guinea", "XAF"); ("gabon", "XAF"); ("republic_of_the_congo", "XAF");
   ("benin", "XOF"); ("burkina_faso", "XOF"); ("cote_d_ivoire", "XOF");
   ("guinea_bissau", "XOF"); ("mali", "XOF"); ("niger", "XOF"); ("senegal", "XOF");
   ("togo", "XOF")].

Definition alias_code (currency : string) : option string :=
  snd <$> head (filter (fun kv => kv.1 = currency) CurrencyAliases).

Definition getCurrencyCode (currency : string) : string :=
  match alias_code currency with Some code => code | None => currency end.

Definition SupportedCurrency : list string :=
  ["USD"; "ARS"; "AUD"; "BDT"; "BIF"; "BOB"; "BRL"; "BTN"; "BWP"; "CAD"; "CDF"; "CHF"; "CLP";
   "CNY"; "COP"; "CRC"; "CUP"; "CZK"; "DJF"; "DOP"; "ERN"; "ETB"; "EUR"; "GBP"; "GHS"; "GTQ";
   "HKD"; "HNL"; "IDR"; "INR"; "JPY"; "KES"; "KHR"; "KRW"; "LBP"; "LKR"; "PAB"; "MMK"; "MWK";
   "MXN"; "MYR"; "MZN"; "NAD"; "NGN"; "NIO"; "NZD"; "PEN"; "PHP"; "PKR"; "PLN"; "PYG"; "RWF";
   "SDG"; "SOS"; "SRD"; "SSP"; "THB"; "TZS"; "UAH"; "UGX"; "UYU"; "VES"; "VND"; "ZAR"; "ZMW";
   "ZWL"; "XAF"; "XOF"].

(** The record [getSelectableCurrencies] returns, as its entries in order. *)
Definition getSelectableCurrencies : obj :=
  foldl (fun acc kv => set_prop kv.1 (JStr kv.2) acc) []
    (((fun c => (c, c)) <$> filter (fun c => c <> "XAF" /\ c <> "XOF") SupportedCurrency) ++
     ((fun kv => (kv.1, kv.1)) <$> CurrencyAliases))%list.

(** ** Selectors *)

Definition selectOverrideCurrency (s : CommonState) : option string :=
  truthy_id (overrideCurrency (currency s)).

Definition selectFederationDefaultCurrency (s : CommonState) (federationId : string) : string :=
  match find_first (has_id federationId) (selectLoadedFederations (federation s)) with
  | Some f => to_str (nullish (getFederationDefaultCurrency (meta_of f)) (JStr "USD"))
  | None => "USD"
  end.

Definition selectFederationCurrency (s : CommonState) (federationId : string) : string :=
  let customCurrency := get federationId (customFederationCurrencies (currency s)) in
  if truthy customCurrency then to_str customCurrency
  else match selectOverrideCurrency s with
  | Some c => c
  | None => selectFederationDefaultCurrency s federationId
  end.

Definition selectCurrency (s : CommonState) (federationId : string) : string :=
  match selectOverrideCurrency s with
  | Some c => c
  | None =>
      if decide (federationId = "") then "USD"
      else
        let federationCurrency := selectFederationCurrency s federationId in
        if decide (federationCurrency = "") then "USD" else federationCurrency
  end.

Definition selectFederationCurrencies (s : CommonState) (federationId : string) : obj :=
  let defaultCurrency := selectFederationDefaultCurrency s federationId in
  filter (fun kv => kv.1 <> defaultCurrency) getSelectableCurrencies.

(** A rate as a condition: zero, NaN and null are falsy. *)
Definition truthy_rate (r : option num) : option num :=
  match r with Some x => if num_truthy x then Some x else None | None => None end.

Definition selectBtcUsdExchangeRate (s : CommonState) (federationId : string) : num :=
  let stabilityPoolPriceCents := selectStabilityPoolCycleStartPrice s federationId in
  match truthy_rate stabilityPoolPriceCents with
  | Some price =>
      if decide (federationId = "") then
        (if num_truthy (btcUsdRate (currency s)) then btcUsdRate (currency s) else of_Z 0)
      else div price (of_Z 100)
  | None => if num_truthy (btcUsdRate (currency s)) then btcUsdRate (currency s) else of_Z 0
  end.

(** The rate that guardians fixed, when the currency is the federation's. *)
Definition fixed_rate (metadata : obj) (currency : string) : option num :=
  let defaultCurrency := getFederationDefaultCurrency metadata in
  if truthy defaultCurrency && is_str defaultCurrency currency then
    match getFederationFixedExchangeRate metadata with
    | JNum r => truthy_rate (Some r)
    | _ => None
    end
  else None.

Definition cfa_rate : num := of_frac 16 10000.

Definition selectBtcExchangeRate (s : CommonState) (customCurrency : option string)
    (federationId : string) : num :=
  let c := match customCurrency with Some c => c | None => selectCurrency s federationId end in
  let metadata := selectFederationMetadata (federation s) federationId in
  let btcUsd := selectBtcUsdExchangeRate s federationId in
  let fiatUsdRate := to_num (jor (get c (fiatUsdRates (currency s))) (JNum (of_Z 0))) in
  match fixed_rate metadata c with
  | Some r => r
  | None =>
      let currencyCode := getCurrencyCode c in
      let fiatUsdRate :=
        if (bool_decide (currencyCode = "XAF") || bool_decide (currencyCode = "XOF")) &&
           negb (num_truthy fiatUsdRate)
        then cfa_rate else fiatUsdRate in
      if decide (c = "USD") then btcUsd
      else if negb (eqb fiatUsdRate (of_Z 0)) then div btcUsd fiatUsdRate
      else of_Z 0
  end.

(** ** The price feed *)

(** [s.split('/')], its first two elements. *)
Fixpoint split_slash (s : string) : string * option string :=
  match s with
  | EmptyString => ("", None)
  | String c s' =>
      if decide (c = "/"%char) then ("", Some (split_slash s').1)
      else let '(h, t) := split_slash s' in (String c h, t)
  end.

(** One entry of the feed. *)
Definition add_rate (acc : obj) (kv : string * jval) : result obj :=
  rate ← prop kv.2 "rate";
  let '(fiat, usd) := split_slash kv.1 in
  Ok (if negb (bool_decide (usd = Some "USD")) || bool_decide (fiat = "BTC") then acc
      else set_prop fiat rate acc).

(** [fetchCurrencyPrices], from the parsed response. *)
Definition fetchCurrencyPrices (json : jval) : result (num * obj) :=
  btcUsdRate ←
    match json with
    | JUndef | JNull => Ok JUndef
    | _ => v ← prop (opt_prop json "prices") "BTC/USD"; Ok (opt_prop v "rate")
    end;
  match btcUsdRate with
  | JNum r =>
      rates ← foldM add_rate [] (own_props (opt_prop json "prices"));
      Ok (r, rates)
  | _ => Throw "Missing required BTC/USD rate from price feed"
  end.

(** What [updateHistoricalCurrencyRates] sends the bridge: the currency and the
    hundredths of it one btc is worth. *)
Definition updateHistoricalCurrencyRates (s : CommonState) (btcUsdRate : num) (fiatUsdRates : obj)
    (federationId : string) : result (string * num) :=
  let selectedCurrency := selectCurrency s federationId in
  if decide (selectedCurrency = "") then Throw "Missing required currency data"
  else if decide (selectedCurrency = "USD") then
    Ok (selectedCurrency, round (mul btcUsdRate (of_Z 100)))
  else
    let selectedExchangeRate := get selectedCurrency fiatUsdRates in
    if negb (truthy selectedExchangeRate) || leb (to_num selectedExchangeRate) (of_Z 0) then
      Throw ("Invalid exchange rate for " +:+ selectedCurrency)
    else
      Ok (selectedCurrency,
          round (div (mul btcUsdRate (of_Z 100)) (to_num selectedExchangeRate))).

(** [refreshHistoricalCurrencyRates]: the slices after the prices have been
    stored, and the request it ends with, if any. *)
Definition refreshHistoricalCurrencyRates (onboardingCompleted : bool) (s : CommonState)
    (feed : result jval) (federationId : string)
    : CommonState * result (option (string * num)) :=
  if negb onboardingCompleted then (s, Ok None)
  else
    match feed ≫= fetchCurrencyPrices with
    | Throw e => (s, Throw e)
    | Ok prices =>
        let s' := mkCommon (federation s) (wallet s)
                    (fetchCurrencyPrices_fulfilled prices (currency s)) in
        (s', Some <$> updateHistoricalCurrencyRates s' prices.1 prices.2 federationId)
    end.

(** ** Properties *)

(** An action on the wallet of one federation leaves the wallets of all
    other federations untouched, and changes only its own field of the wallet it
    is about, which starts out empty. *)
Lemma wallet_actions_are_local id id' p l code b r (s : WalletState) :
  id <> id' ->
  (let others s' := s' !! id' = s !! id' in
   others (setStabilityPoolState id p s) /\ others (setStabilityPoolAvailableLiquidity id l s) /\
   others (resetFederationWalletState id s) /\ others (setLnurlReceiveCode id code s) /\
   others (setSupportsRecurringdLnurl id b s) /\
   others (fetchStabilityPoolAvailableLiquidity_fulfilled id l s) /\
   others (fetchStabilityPoolAverageFeeRate_fulfilled id r s)) /\
  (let w := getFederationWalletState s id in
   let w' s' := getFederationWalletState s' id in
   w' (setStabilityPoolState id p s) = w <| stabilityPoolState := Some p |> /\
   w' (setStabilityPoolAvailableLiquidity id l s) = w <| stabilityPoolAvailableLiquidity := Some l |> /\
   w' (resetFederationWalletState id s) = initialFederationWalletState /\
   w' (setLnurlReceiveCode id code s) = w <| lnurlReceiveCode := Some code |> /\
   w' (setSupportsRecurringdLnurl id b s) = w <| supportsRecurringdLnurl := Some b |> /\
   w' (fetchStabilityPoolAverageFeeRate_fulfilled id r s) = w <| averageFeeRate := Some r |>).
Proof.
  intros N. cbv zeta. unfold setStabilityPoolState, setStabilityPoolAvailableLiquidity,
    resetFederationWalletState, setLnurlReceiveCode, setSupportsRecurringdLnurl,
    fetchStabilityPoolAvailableLiquidity_fulfilled, fetchStabilityPoolAverageFeeRate_fulfilled,
    update_wallet.
  split; [split_and!; by rewrite lookup_insert_ne|].
  unfold getFederationWalletState. split_and!; by rewrite lookup_insert_eq.
Qed.

(** *** Exchange rates *)

Lemma alias_codes c code : alias_code c = Some code -> code = "XAF" \/ code = "XOF".
Proof.
  unfold alias_code. intros H. apply fmap_Some in H as ([k v] & H & ->).
  apply list.head_Some_elem_of, list_elem_of_filter in H as [_ H].
  assert (F : Forall (fun kv => kv.2 = "XAF" \/ kv.2 = "XOF") CurrencyAliases)
    by (repeat (apply list.Forall_cons; split; [by auto|]); by apply list.Forall_nil).
  rewrite list.Forall_forall in F. by apply (F _ H).
Qed.

Lemma alias_not_usd c code : alias_code c = Some code -> c <> "USD".
Proof. by intros H ->. Qed.

Lemma cfa_rate_fin : exists m, cfa_rate = Fin m /\ m <> 0%Z.
Proof.
  destruct cfa_rate as [|b|m] eqn:E; [by vm_compute in E | by vm_compute in E |].
  exists m. split; [done|]. intros ->.
  assert (X : num_truthy cfa_rate = true) by (vm_compute; reflexivity). by rewrite E in X.
Qed.

(** The state with another display currency chosen. *)
Definition with_override (c : string) (s : CommonState) : CommonState :=
  mkCommon (federation s) (wallet s) (changeOverrideCurrency (Some c) (currency s)).

(** For the currencies that are aliases of a CFA franc the price feed is
    never used: as the feed quotes currencies under their codes, not under the
    names of the aliases, the rate is the federation's fixed one or the
    hard-coded 0.0016 usd, even when the feed quotes XAF or XOF, and
    [updateHistoricalCurrencyRates] always fails for them. *)
Theorem alias_rate_ignores_feed s c code federationId :
  alias_code c = Some code -> lookup_prop c (fiatUsdRates (currency s)) = None ->
  selectBtcExchangeRate s (Some c) federationId =
    match fixed_rate (selectFederationMetadata (federation s) federationId) c with
    | Some r => r
    | None => div (selectBtcUsdExchangeRate s federationId) cfa_rate
    end /\
  forall usd, updateHistoricalCurrencyRates (with_override c s) usd (fiatUsdRates (currency s))
    federationId = Throw ("Invalid exchange rate for " +:+ c).
Proof.
  intros A N. pose proof (alias_not_usd _ _ A) as U.
  assert (E : c <> "") by (by intros ->). destruct cfa_rate_fin as (m & M & M0). split.
  - unfold selectBtcExchangeRate, get. rewrite N. destruct (fixed_rate _ c); [done|].
    unfold getCurrencyCode. rewrite A.
    assert (C : bool_decide (code = "XAF") || bool_decide (code = "XOF") = true).
    { destruct (alias_codes _ _ A) as [-> | ->]; done. }
    rewrite C, decide_False by done. cbn [default from_option id jor truthy to_num].
    assert (Z : num_truthy (of_Z 0) = false) by (vm_compute; reflexivity).
    rewrite Z. cbn [negb andb]. rewrite M.
    assert (Q : eqb (Fin m) (of_Z 0) = false).
    { rewrite of_Z_safe by (unfold safe; lia). simpl. apply Z.eqb_neq. lia. }
    rewrite Q. reflexivity.
  - intros usd. unfold updateHistoricalCurrencyRates.
    assert (S : selectCurrency (with_override c s) federationId = c).
    { unfold selectCurrency, selectOverrideCurrency, with_override.
      cbn [currency overrideCurrency changeOverrideCurrency setter CurrencyState_eta].
      destruct c; [exfalso; by apply E | reflexivity]. }
    rewrite S, !decide_False by done. unfold get. by rewrite N.
Qed.

(** A rate that is a number, zero included. *)
Definition finite_rate (x : num) : Prop := exists m, x = Fin m.

Lemma fin_round_not_nan p q : fin_round p q <> NaN.
Proof. unfold fin_round. by case_if. Qed.

Lemma div_fin_not_nan a b : b <> 0%Z -> div (Fin a) (Fin b) <> NaN.
Proof.
  intros H. cbn [div]. rewrite (proj2 (Z.eqb_neq b 0)) by done. apply fin_round_not_nan.
Qed.

(** As long as the btc/usd rate and the rates of the feed are finite, the
    rate of any currency is a number: missing rates and rates of zero never turn
    into a division by zero or a NaN, and neither does a fixed rate that does not
    parse as a number. *)
Theorem selectBtcExchangeRate_not_nan s customCurrency federationId :
  finite_rate (selectBtcUsdExchangeRate s federationId) ->
  (forall c v, lookup_prop c (fiatUsdRates (currency s)) = Some v ->
     v = JUndef \/ exists m, v = JNum (Fin m)) ->
  selectBtcExchangeRate s customCurrency federationId <> NaN.
Proof.
  intros [u U] F. unfold selectBtcExchangeRate.
  set (c := match customCurrency with Some c => c | None => selectCurrency s federationId end).
  destruct (fixed_rate _ c) as [r|] eqn:X.
  { unfold fixed_rate in X. case_if; [|done].
    destruct (getFederationFixedExchangeRate _); try done. simpl in X.
    destruct (num_truthy n) eqn:T; [|done]. injection X as <-. by intros ->. }
  set (r := to_num (jor (get c (fiatUsdRates (currency s))) (JNum (of_Z 0)))).
  assert (R : finite_rate r).
  { assert (Z0 : finite_rate (of_Z 0)) by (eexists; apply of_Z_safe; unfold safe; lia).
    unfold r, get. destruct (lookup_prop c _) as [v|] eqn:L; [|exact Z0].
    destruct (F c v L) as [-> | [m ->]]; [exact Z0|]. unfold jor. simpl.
    destruct (negb (m =? 0)%Z); [by exists m | exact Z0]. }
  set (b := (bool_decide (getCurrencyCode c = "XAF") || _) && _).
  assert (R' : finite_rate (if b then cfa_rate else r)).
  { destruct b; [|done]. destruct cfa_rate_fin as (m & -> & _). by exists m. }
  clearbody r b. case_decide; [by rewrite U|].
  destruct R' as [m ->]. destruct (eqb (Fin m) (of_Z 0)) eqn:Q; cbn [negb].
  - apply fin_round_not_nan.
  - rewrite U. apply div_fin_not_nan. intros ->.
    rewrite of_Z_safe in Q by (unfold safe; lia). discriminate Q.
Qed.

(** ** Concrete states *)

Definition demo_common : CommonState :=
  mkCommon demo_state ∅
    (currency_initialState <| btcUsdRate := of_Z 60000 |>
       <| fiatUsdRates := [("EUR", JNum (Fin (2 * unit1))); ("XOF", JNum (Fin (unit1 / 512)))] |>).

Lemma alias_rate_ignores_feed_witness :
  selectBtcExchangeRate demo_common (Some "togo") "b" =
    div (selectBtcUsdExchangeRate demo_common "b") cfa_rate /\
  updateHistoricalCurrencyRates (with_override "togo" demo_common) (of_Z 60000)
    (fiatUsdRates (currency demo_common)) "b" = Throw "Invalid exchange rate for togo".
Proof.
  destruct (alias_rate_ignores_feed demo_common "togo" "XOF" "b") as [H1 H2];
    [reflexivity | reflexivity |].
  split; [exact H1 | exact (H2 (of_Z 60000))].
Defined.

Lemma demo_feed_finite c v :
  lookup_prop c (fiatUsdRates (currency demo_common)) = Some v ->
  v = JUndef \/ exists m, v = JNum (Fin m).
Proof.
  cbn [lookup_prop demo_common currency fiatUsdRates setter CurrencyState_eta].
  repeat case_decide; intros H'; try discriminate H'.
  all: right; eexists; symmetry; by apply (inj Some) in H'.
Qed.

Lemma selectBtcExchangeRate_not_nan_witness :
  selectBtcExchangeRate demo_common (Some "EUR") "b" <> NaN.
Proof.
  apply selectBtcExchangeRate_not_nan; [|exact demo_feed_finite].
  exists (60000 * unit1)%Z. vm_compute. reflexivity.
Defined.
