(* ===== verification/Wallet.v ===== *)
(** The wallet: thunks and selectors of [ui/common/redux/wallet.ts].

    The stable balance of a federation in all its units, the deposits and
    withdrawals computed from it, and the redemption of ecash.  The slice itself
    is in Currency.v.  A thunk that only forwards to the bridge is the request
    it sends; translations are keys with their argument. *)
From Stdlib Require Import ZArith Lia.
From stdpp Require Import base tactics strings list option gmap.
From S2P Require Import Prelude JsNum Js JsStr Upsert Amount Meta StabilityPool Federation Currency.
Import Federation.
Local Open Scope string_scope.
Local Open Scope Z_scope.

(** ** Balances of a pool *)

Definition zero : num := of_Z 0.
(** [x || 0] *)
Definition or_zero (x : num) : num := if num_truthy x then x else zero.

Definition selectTotalLockedMsats (s : CommonState) (id : string) : num :=
  match selectStabilityPoolState s id with Some p => btc (locked p) | None => zero end.

Definition selectTotalLockedCents (s : CommonState) (id : string) : num :=
  match selectStabilityPoolState s id with Some p => fiat (locked p) | None => zero end.

Definition selectTotalLockedFiat (s : CommonState) (id : string) : num :=
  convertCentsToOtherFiat (selectTotalLockedCents s id) (selectBtcUsdExchangeRate s "")
    (selectBtcExchangeRate s None "").

Definition selectTotalStagedMsats (s : CommonState) (id : string) : num :=
  match selectStabilityPoolState s id with Some p => or_zero (btc (staged p)) | None => zero end.

Definition selectTotalStagedCents (s : CommonState) (id : string) : num :=
  match selectStabilityPoolState s id with Some p => fiat (staged p) | None => zero end.

Definition selectTotalStagedFiat (s : CommonState) (id : string) : num :=
  convertCentsToOtherFiat (selectTotalStagedCents s id) (selectBtcUsdExchangeRate s "")
    (selectBtcExchangeRate s None "").

Definition selectStableBalanceCents (s : CommonState) (id : string) : num :=
  match selectStabilityPoolState s id with Some p => fiat (locked p) | None => zero end.

Definition selectStableBalance (s : CommonState) (id : string) : num :=
  convertCentsToOtherFiat (selectStableBalanceCents s id) (selectBtcUsdExchangeRate s id)
    (selectBtcExchangeRate s None "").

Definition selectStableBalanceSats (s : CommonState) (id : string) : num :=
  let stableBalanceDollars := div (selectStableBalanceCents s id) (of_Z 100) in
  fiatToSat stableBalanceDollars (selectBtcUsdExchangeRate s "").

Definition selectStableBalancePendingCents (s : CommonState) (id : string) : num :=
  match selectStabilityPoolState s id with
  | None => zero
  | Some p =>
      let pendingDepositAmount := fiat (staged p) in
      let pendingWithdrawAmount :=
        match pendingUnlock p with Some b => fiat b | None => zero end in
      if ltb zero pendingWithdrawAmount then neg pendingWithdrawAmount
      else if ltb zero pendingDepositAmount then pendingDepositAmount
      else zero
  end.

Definition selectStableBalancePending (s : CommonState) (id : string) : num :=
  convertCentsToOtherFiat (selectStableBalancePendingCents s id) (selectBtcUsdExchangeRate s id)
    (selectBtcExchangeRate s None "").

Definition selectStableBalancePendingSats (s : CommonState) (id : string) : num :=
  let stableBalanceDollars := div (selectStableBalancePendingCents s id) (of_Z 100) in
  fiatToSat stableBalanceDollars (selectBtcUsdExchangeRate s "").

Definition selectWithdrawableStableBalanceCents (s : CommonState) (id : string) : num :=
  add (selectStableBalanceCents s id) (selectTotalStagedCents s id).

Definition pool_config_of (s : CommonState) (id : string) : option obj :=
  selectFederationStabilityPoolConfig (federation s) id.

Definition selectStabilityPoolVersion (s : CommonState) (id : string) : jval :=
  match pool_config_of s id with Some c => get "version" c | None => JUndef end.

Definition is_version (v : jval) (n : Z) : bool := bool_decide (v = JNum (of_Z n)).

(** [config?.k || 0] *)
Definition config_number (k : string) (config : option obj) : num :=
  match config with
  | Some c => to_num (jor (get k c) (JNum zero))
  | None => zero
  end.

Definition selectMinimumWithdrawAmountCents (s : CommonState) (id : string) : num :=
  if is_version (selectStabilityPoolVersion s id) 2 then of_Z 1
  else
    let minimumBasisPoints := config_number "min_allowed_cancellation_bps" (pool_config_of s id) in
    if ltb zero (selectStableBalancePendingCents s id) then zero
    else
      let minimumFraction := to_fixed_num (div minimumBasisPoints (of_Z 10000)) 4 in
      to_fixed_num (mul (selectStableBalanceCents s id) minimumFraction) 2.

Definition selectWithdrawableStableBalanceMsats (s : CommonState) (id : string) : num :=
  fiatToMsat (div (selectWithdrawableStableBalanceCents s id) (of_Z 100))
    (selectBtcUsdExchangeRate s id).

Definition selectMinimumWithdrawAmountMsats (s : CommonState) (id : string) : num :=
  fiatToMsat (div (selectMinimumWithdrawAmountCents s id) (of_Z 100))
    (selectBtcUsdExchangeRate s id).

Definition selectMinimumDepositAmount (s : CommonState) (id : string) : num :=
  msatToSat (config_number "min_allowed_seek" (pool_config_of s id)).

(** A translation: its key, and the number it shows. *)
Definition Translation : Type := string * option num.

(** [None] is the [0] returned without a pool; the tilde of an approximate time
    is part of the result. *)
Definition selectFormattedDepositTime (s : CommonState) (id : string)
    : option (bool * Translation) :=
  match pool_config_of s id with
  | None => None
  | Some config =>
      let seconds := to_num (opt_prop (get "cycle_duration" config) "secs") in
      if leb (of_Z 3600) seconds then
        Some (false, ("feature.stabilitypool.more-than-an-hour", None))
      else if ltb seconds (of_Z 60) then
        Some (true, if ltb (of_Z 1) seconds then ("feature.stabilitypool.seconds", Some seconds)
                    else ("feature.stabilitypool.one-second", None))
      else
        let minutes := div (round (mul (div seconds (of_Z 60)) (of_Z 2))) (of_Z 2) in
        Some (true, if ltb (of_Z 1) minutes then ("feature.stabilitypool.minutes", Some minutes)
                    else ("feature.stabilitypool.one-minute", None))
  end.

Definition selectStabilityPoolAverageFeeRate (s : CommonState) (id : string) : option num :=
  averageFeeRate (selectFederationWalletState s id).
Definition selectStabilityPoolAvailableLiquidity (s : CommonState) (id : string) : option num :=
  stabilityPoolAvailableLiquidity (selectFederationWalletState s id).
Definition selectSupportsRecurringdLnurl (s : CommonState) (id : string) : option bool :=
  supportsRecurringdLnurl (selectFederationWalletState s id).
Definition selectLnurlReceiveCode (s : CommonState) (id : string) : option string :=
  lnurlReceiveCode (selectFederationWalletState s id).

(** [featureFlags] is an object or absent. *)
Definition selectShouldShowStablePaymentAddress (featureFlags : option obj) (s : CommonState)
    (id : string) : bool :=
  match featureFlags with
  | None => false
  | Some flags =>
      if decide (id = "") then false
      else negb (bool_decide (get "sp_transfer_ui" flags = JNull)) &&
           is_version (selectStabilityPoolVersion s id) 2
  end.

Definition selectTotalStableBalanceSats (s : CommonState) : num :=
  let total := foldl (fun acc f =>
    add (add acc (selectStableBalanceSats s (id_str f)))
        (selectStableBalancePendingSats s (id_str f)))
    zero (selectLoadedFederations (federation s)) in
  if is_nan total then zero else total.

(** ** Deposits, withdrawals and transfers *)

Definition increaseStableBalance (s : CommonState) (amount : num) (id : string)
    : result pool_request :=
  let ecashBalance := selectFederationBalance (federation s) id in
  let feeRate :=
    to_num (nullish (opt_prop (selectStabilityPoolFeeSchedule (federation s) id) "sendPpm")
                    (JNum zero)) in
  let maxDepositAmount :=
    floor (div (mul (of_Z 1000000) ecashBalance) (add (of_Z 1000000) feeRate)) in
  match pool_config_of s id with
  | None => Throw "No stabilitypool in this federation"
  | Some stabilityConfig =>
      let maxAllowedFeeRate :=
        config_number "max_allowed_provide_fee_rate_ppb" (Some stabilityConfig) in
      let amountToDeposit :=
        calculateStabilityPoolDeposit amount maxDepositAmount maxAllowedFeeRate in
      Ok (if is_version (get "version" stabilityConfig) 2
          then (handleSpv2Deposit amountToDeposit id).1
          else (handleStabilityPoolDeposit amountToDeposit id).1)
  end.

Definition decreaseStableBalanceV1 (s : CommonState) (amount : num) (id : string) : pool_request :=
  let '(lockedBps, unlockedAmount) :=
    calculateStabilityPoolWithdrawal amount (selectBtcUsdExchangeRate s id)
      (selectTotalLockedCents s id) (selectTotalStagedMsats s id) in
  (handleStabilityPoolWithdrawal lockedBps unlockedAmount id).1.

Definition decreaseStableBalanceV2 (s : CommonState) (amount : num) (id : string) : pool_request :=
  let totalBalanceCents := add (selectTotalLockedCents s id) (selectTotalStagedCents s id) in
  let '(withdrawAll, amountCents) := calculateStabilityPoolWithdrawalV2 amount totalBalanceCents in
  (handleSpv2Withdrawal amountCents id withdrawAll).1.

(** The arguments of [matrixSpTransferSend]; [roomId] is the direct room with
    the recipient, if there is one. *)
Definition transferStableBalanceMatrix (s : CommonState) (amount : num) (roomId : option string)
    (id : string) : result (num * string * string * jval) :=
  if negb (is_version (selectStabilityPoolVersion s id) 2) then Throw "Federation is not SPV2"
  else match truthy_id roomId with
  | None => Throw "Recipient room not found"
  | Some room =>
      match selectLoadedFederation (federation s) id with
      | None => Throw "Federation not found"
      | Some f =>
          Ok (amount, room, id,
              if shouldShowInviteCode (meta_of f) then get "inviteCode" f else JUndef)
      end
  end.

(** What a refresh of the pool dispatches, in order. *)
Inductive pool_refresh : Type :=
  | RefreshRates
  | FetchAverageFeeRate (v2 : bool) (numCycles : Z)
  | FetchAvailableLiquidity (v2 : bool)
  | FetchSpv1Account.

Definition refreshStabilityPool (s : CommonState) (id : string) : result (list pool_refresh) :=
  if decide (id = "") then Throw "errors.unknown-error"
  else
    let version := selectStabilityPoolVersion s id in
    Ok (RefreshRates :: FetchAverageFeeRate (is_version version 2) 10 ::
        FetchAvailableLiquidity (is_version version 2) ::
        (if is_version version 1 then [FetchSpv1Account] else [])).

(** [fetchSpv1Account], from the two answers of the bridge. *)
Definition fetchSpv1Account (info : RpcStabilityPoolAccountInfo) (priceCents : num) (id : string)
    (w : WalletState) : WalletState :=
  setStabilityPoolState id (coerceLegacyAccountInfo info priceCents) w.

(** [refreshLnurlReceive]: the second answer is asked for only when the first
    says it is supported. *)
Definition refreshLnurlReceive (supports : result bool) (lnurl : result string) (id : string)
    (w : WalletState) : WalletState :=
  match supports with
  | Throw _ => w
  | Ok b =>
      let w := setSupportsRecurringdLnurl id b w in
      if negb b then w
      else match lnurl with
      | Ok code => setLnurlReceiveCode id code w
      | Throw _ => w
      end
  end.

(** [cancelEcash]: the federation whose ecash is cancelled, from the parsed
    ecash. *)
Definition cancelEcash (decoded : obj) : result jval :=
  if negb (is_str (get "federation_type" decoded) "joined")
  then Throw "errors.unknown-ecash-issuer"
  else Ok (get "federation_id" decoded).

(** [generateReusedEcashProofs]: the proofs of the requests that succeeded. *)
Definition generateReusedEcashProofs (settled : list (result jval)) : list jval :=
  omap (fun r => match r with Ok v => Some v | Throw _ => None end) settled.

(** ** Redeeming ecash *)

Inductive receive_result : Type :=
  | Received (amount : num)
  | Failed (amount : num) (error : jval)
  | Pending (amount : num).

(** The state of an out-of-band receive transaction that an event reports. *)
Inductive oob_state : Type := OobDone | OobFailed (error : jval) | OobOther.

Inductive ecash_input : Type :=
  | EcashAnswer (amount : num) (operationId : string)
  | EcashError (alreadySpent : bool) (error : string)
  | Transaction (id : string) (oobReceive : bool) (st : oob_state)
  | TimedOut.

(** The timer runs, and the listener is registered, from the answer on. *)
Inductive ecash_phase : Type :=
  | EcashRequested
  | EcashWaiting (amount : num) (operationId : string)
  | EcashSettled (r : result receive_result).

Definition receiveEcash_step (p : ecash_phase) (i : ecash_input) : ecash_phase :=
  match p, i with
  | EcashRequested, EcashAnswer amount op => EcashWaiting amount op
  | EcashRequested, EcashError true e => EcashSettled (Ok (Failed zero (JStr e)))
  | EcashRequested, EcashError false e => EcashSettled (Throw e)
  | EcashWaiting amount op, TimedOut => EcashSettled (Ok (Pending amount))
  | EcashWaiting amount op, Transaction id oob st =>
      if negb (bool_decide (id = op)) then p
      else if oob then
        match st with
        | OobDone => EcashSettled (Ok (Received amount))
        | OobFailed e => EcashSettled (Ok (Failed amount e))
        | OobOther => p
        end
      else p
  | _, _ => p
  end.

Definition receiveEcash (l : list ecash_input) : ecash_phase :=
  foldl receiveEcash_step EcashRequested l.

(** ** Properties *)

(** A decisive input of a waiting redemption. *)
Definition decides (amount : num) (op : string) (i : ecash_input) : option receive_result :=
  match i with
  | TimedOut => Some (Pending amount)
  | Transaction id true OobDone => if decide (id = op) then Some (Received amount) else None
  | Transaction id true (OobFailed e) => if decide (id = op) then Some (Failed amount e) else None
  | _ => None
  end.

Definition first_decision (amount : num) (op : string) (l : list ecash_input)
    : option receive_result := head (omap (decides amount op) l).

Lemma ecash_settled r l : foldl receiveEcash_step (EcashSettled r) l = EcashSettled r.
Proof. induction l as [|i l IH]; simpl; [done|]. by destruct i. Qed.

Lemma ecash_waiting amount op l :
  foldl receiveEcash_step (EcashWaiting amount op) l =
    match first_decision amount op l with
    | Some r => EcashSettled (Ok r)
    | None => EcashWaiting amount op
    end.
Proof.
  unfold first_decision. induction l as [|i l IH]; [done|]. cbn [foldl].
  destruct i as [a o|b e|id [] st|]; cbn [receiveEcash_step omap list_omap decides].
  all: try exact IH.
  - destruct (decide (id = op)) as [->|N]; [|rewrite bool_decide_false by done; destruct st; exact IH].
    rewrite bool_decide_true by done. cbn [negb].
    destruct st; cbn; [apply ecash_settled | apply ecash_settled | exact IH].
  - destruct (negb _); exact IH.
  - apply ecash_settled.
Qed.

(** Inputs that can precede the answer of the bridge: events. *)
Definition is_transaction (i : ecash_input) : Prop :=
  match i with Transaction _ _ _ => True | _ => False end.

(** Redeeming ecash always settles, exactly once: after the bridge has
    accepted the ecash the result is decided by the first of the timer and the
    events that end the transaction, and by the timer at the latest; whatever
    comes later changes nothing.  Events before the answer are ignored, and a
    claim of spent notes is the failed result instead of an error. *)
Theorem receiveEcash_settles_once pre amount op post more :
  Forall is_transaction pre -> TimedOut ∈ post ->
  exists r, first_decision amount op post = Some r /\
    receiveEcash (pre ++ EcashAnswer amount op :: post) = EcashSettled (Ok r) /\
    receiveEcash (pre ++ EcashAnswer amount op :: post ++ more) = EcashSettled (Ok r) /\
    forall e, receiveEcash (pre ++ EcashError true e :: more) =
                EcashSettled (Ok (Failed zero (JStr e))).
Proof.
  intros Hp Ht.
  assert (P : foldl receiveEcash_step EcashRequested pre = EcashRequested).
  { induction Hp as [|i l Hi _ IH]; [done|]. by destruct i. }
  assert (D : is_Some (first_decision amount op post)).
  { unfold first_decision. destruct (omap (decides amount op) post) as [|r l] eqn:E; [|by eexists].
    assert (X : Pending amount ∈ omap (decides amount op) post)
      by (apply list_elem_of_omap; by exists TimedOut).
    rewrite E in X. by apply elem_of_nil in X. }
  destruct D as [r D]. exists r. unfold receiveEcash.
  split_and!; [done | | |intros e];
    rewrite foldl_app, P; cbn [foldl receiveEcash_step]; rewrite ?foldl_app, ?ecash_waiting, ?D;
    cbv beta iota; first [reflexivity | apply ecash_settled].
Qed.

Lemma receiveEcash_settles_once_witness :
  receiveEcash [Transaction "op" true OobDone; EcashAnswer (of_Z 5) "op"; TimedOut;
                Transaction "op" true OobDone] = EcashSettled (Ok (Pending (of_Z 5))).
Proof.
  destruct (receiveEcash_settles_once [Transaction "op" true OobDone] (of_Z 5) "op" [TimedOut]
    [Transaction "op" true OobDone]) as (r & D & _ & H & _).
  - apply list.Forall_cons. split; [exact I | by apply list.Forall_nil].
  - left.
  - unfold first_decision in D. cbn in D. injection D as <-. exact H.
Defined.

(** *** Deposits fit the balance *)

(** A deposit never asks for more than the balance can pay together with the
    fedi fee: when the fee is [ppm] millionths of the deposit, the amount [d]
    sent to the bridge satisfies [d + d * ppm / 10^6 <= balance], whatever
    amount the user asked for; and it goes to the pool of the configured
    version. *)
Theorem increaseStableBalance_affordable s id config amount balance ppm rate :
  pool_config_of s id = Some config ->
  selectFederationBalance (federation s) id = of_Z balance ->
  opt_prop (selectStabilityPoolFeeSchedule (federation s) id) "sendPpm" = JNum (of_Z ppm) ->
  config_number "max_allowed_provide_fee_rate_ppb" (Some config) = of_Z rate ->
  0 <= amount <= 2 ^ 48 -> 0 <= balance <= 2 ^ 33 -> 0 <= ppm <= 1000000 -> 0 <= rate <= 1000000000 ->
  exists d, 0 <= d /\ d * (1000000 + ppm) <= balance * 1000000 /\
    increaseStableBalance s (of_Z amount) id =
      Ok (if is_version (get "version" config) 2 then spv2DepositToSeek (of_Z d) id
          else stabilityPoolDepositToSeek (of_Z d) id).
Proof.
  intros C B F R Ha Hb Hp Hr. unfold increaseStableBalance. rewrite C, B, F, R.
  cbn [nullish to_num].
  rewrite mul_int, add_int, floor_div_int by (unfold safe; lia).
  set (m := 1000000 * balance / (1000000 + ppm)).
  pose proof (Z.mul_div_le (1000000 * balance) (1000000 + ppm) ltac:(lia)) as M. fold m in M.
  assert (M0 : 0 <= m) by (apply Z.div_pos; lia).
  destruct (deposit_amount amount m rate Ha ltac:(nia) Hr) as (d & E & D0 & D1).
  exists d. rewrite E. split; [lia|]. split; [nia|]. reflexivity.
Qed.

(** Withdrawing from a pool of the current version asks for everything when
    at most three cents would be left, and otherwise for exactly the requested
    cents, so that what is left is more than three cents. *)
Theorem decreaseStableBalanceV2_all_or_exact s id amount lockedCents stagedCents :
  selectTotalLockedCents s id = of_Z lockedCents -> selectTotalStagedCents s id = of_Z stagedCents ->
  0 <= amount <= 2 ^ 50 -> 0 <= lockedCents <= 2 ^ 50 -> 0 <= stagedCents <= 2 ^ 50 ->
  (lockedCents + stagedCents - amount <= 3 ->
     decreaseStableBalanceV2 s (of_Z amount) id = spv2WithdrawAll id) /\
  (3 < lockedCents + stagedCents - amount ->
     decreaseStableBalanceV2 s (of_Z amount) id = spv2Withdraw id (of_Z amount)).
Proof.
  intros L S Ha Hl Hs. unfold decreaseStableBalanceV2, calculateStabilityPoolWithdrawalV2.
  rewrite L, S, add_int, sub_int, leb_int by (unfold safe; lia).
  destruct (Z.leb_spec (lockedCents + stagedCents - amount) 3); split; intros; (reflexivity || lia).
Qed.

(** ** Concrete states *)

Definition pool_fed : obj :=
  [("id", JStr "p"); ("init_state", JStr "ready"); ("balance", JNum (of_Z 1000000));
   ("meta", JObj []);
   ("clientConfig", JObj [("modules", JObj [("0", JObj [("kind", JStr "multi_sig_stability_pool");
      ("max_allowed_provide_fee_rate_ppb", JNum (of_Z 1000000))])])]);
   ("fediFeeSchedule", JObj [("modules", JObj [("multi_sig_stability_pool",
      JObj [("sendPpm", JNum (of_Z 2100))])])])].

Definition pool_state : CommonState :=
  mkCommon (initialState <| federations := [pool_fed] |>)
    {["p" := initialFederationWalletState <| stabilityPoolState :=
        Some (mkPool NaN (mkBalance (of_Z 50) (of_Z 70)) (mkBalance (of_Z 950) (of_Z 9))
                zero None) |>]}
    currency_initialState.

Definition pool_config_demo : obj :=
  set_prop "version" (JNum (of_Z 2))
    [("kind", JStr "multi_sig_stability_pool");
     ("max_allowed_provide_fee_rate_ppb", JNum (of_Z 1000000))].

Lemma increaseStableBalance_affordable_witness :
  exists d, 0 <= d /\ d * 1002100 <= 1000000 * 1000000 /\
    increaseStableBalance pool_state (of_Z 5000000) "p" = Ok (spv2DepositToSeek (of_Z d) "p").
Proof.
  destruct (increaseStableBalance_affordable pool_state "p"
    pool_config_demo 5000000 1000000 2100 1000000)
    as (d & D0 & D1 & E); try lia.
  1, 2, 3, 4: vm_compute; reflexivity.
  exists d. split; [exact D0|]. split; [exact D1|].
  assert (V : is_version (get "version" pool_config_demo) 2 = true) by (vm_compute; reflexivity).
  rewrite V in E. exact E.
Defined.

Lemma decreaseStableBalanceV2_all_or_exact_witness :
  decreaseStableBalanceV2 pool_state (of_Z 998) "p" = spv2WithdrawAll "p".
Proof.
  apply (decreaseStableBalanceV2_all_or_exact pool_state "p" 998 950 50); try lia.
  1, 2: vm_compute; reflexivity.
Defined.
