(* ===== verification/Cbor.v ===== *)
(** The CBOR decoder: [ui/common/utils/cbor.ts].

    The decoder reads ecash tokens that come from outside the app.  A view is
    its list of bytes; a read past its end is a RangeError.  The recursion of
    nested items runs on fuel, and [decodeCBOR] supplies enough of it for every
    input.  The host's [TextDecoder] is a parameter.  A map is built by
    assignment, so the key [__proto__] adds no own property. *)
From Stdlib Require Import ZArith Lia.
From stdpp Require Import base tactics strings list option.
From S2P Require Import Prelude JsNum Js.
Local Open Scope Z_scope.

(** [ResultValue] *)
Inductive cval : Type :=
  | VUndef
  | VNull
  | VBool (b : bool)
  | VNum (n : num)
  | VStr (s : string)
  | VBytes (l : list Z)
  | VArr (l : list cval)
  | VObj (o : list (string * cval)).

Abbreviation view := (list Z).

Definition byteLength (v : view) : Z := Z.of_nat (length v).

Definition range_error : string := "RangeError".

(** ** Reading a view *)

Definition getUint8 (v : view) (offset : Z) : result Z :=
  match v !! Z.to_nat offset with
  | Some b => Ok b
  | None => Throw range_error
  end.

(** [n] bytes, the most significant first. *)
Fixpoint getUint (n : nat) (v : view) (offset acc : Z) : result Z :=
  match n with
  | O => Ok acc
  | S n => b ← getUint8 v offset; getUint n v (offset + 1) (256 * acc + b)
  end.

Definition getUint16 (v : view) (offset : Z) : result Z := getUint 2 v offset 0.
Definition getUint32 (v : view) (offset : Z) : result Z := getUint 4 v offset 0.

(** The number with a given binary32 or binary64 representation, in the units
    of [num]. *)
Definition float_bits (ebits mbits bias : Z) (bits : Z) : num :=
  let s := Z.testbit bits (ebits + mbits) in
  let e := Z.land (Z.shiftr bits mbits) (2 ^ ebits - 1) in
  let f := Z.land bits (2 ^ mbits - 1) in
  if e =? 2 ^ ebits - 1 then (if f =? 0 then Inf s else NaN)
  else
    let m := if e =? 0 then f * 2 ^ (1075 - bias - mbits)
             else (2 ^ mbits + f) * 2 ^ (1074 + e - bias - mbits) in
    Fin (if s then - m else m).

Definition getFloat32 (v : view) (offset : Z) : result num :=
  bits ← getUint32 v offset; Ok (float_bits 8 23 127 bits).

Definition getFloat64 (v : view) (offset : Z) : result num :=
  bits ← getUint 8 v offset 0; Ok (float_bits 11 52 1023 bits).

(** ** The decoder *)

Definition decodeLength (v : view) (offset additionalInfo : Z) : result (num * Z) :=
  if additionalInfo <? 24 then Ok (of_Z additionalInfo, offset)
  else if additionalInfo =? 24 then
    value ← getUint8 v offset; Ok (of_Z value, offset + 1)
  else if additionalInfo =? 25 then
    value ← getUint16 v offset; Ok (of_Z value, offset + 2)
  else if additionalInfo =? 26 then
    value ← getUint32 v offset; Ok (of_Z value, offset + 4)
  else if additionalInfo =? 27 then
    hi ← getUint32 v offset;
    lo ← getUint32 v (offset + 4);
    Ok (add (mul (of_Z hi) (of_Z (2 ^ 32))) (of_Z lo), offset + 8)
  else Throw ("Unsupported length: " +:+ int_string additionalInfo).

Definition decodeUnsigned (v : view) (offset additionalInfo : Z) : result (cval * Z) :=
  '(value, newOffset) ← decodeLength v offset additionalInfo;
  Ok (VNum value, newOffset).

Definition decodeSigned (v : view) (offset additionalInfo : Z) : result (cval * Z) :=
  '(value, newOffset) ← decodeLength v offset additionalInfo;
  Ok (VNum (sub (of_Z (-1)) value), newOffset).

(** An integer-valued number. *)
Definition int_of (n : num) : Z := match n with Fin m => m / unit1 | _ => 0 end.

(** [newOffset + length > view.byteLength], or the bytes and where they end. *)
Definition take_bytes (v : view) (newOffset : Z) (len : num) (error : string)
    : result (list Z * Z) :=
  if ltb (of_Z (byteLength v)) (add (of_Z newOffset) len) then Throw error
  else Ok (take (Z.to_nat (int_of len)) (drop (Z.to_nat newOffset) v), newOffset + int_of len).

Definition decodeByteString (v : view) (offset additionalInfo : Z) : result (cval * Z) :=
  '(len, newOffset) ← decodeLength v offset additionalInfo;
  '(value, o) ← take_bytes v newOffset len "Byte string length exceeds data length";
  Ok (VBytes value, o).

(** [None] is running out of fuel. *)
Abbreviation run A := (option (result A)).

Definition rbind {A B} (m : run A) (f : A -> run B) : run B :=
  match m with
  | Some (Ok a) => f a
  | Some (Throw e) => Some (Throw e)
  | None => None
  end.

Section Decoder.
(** [new TextDecoder().decode(bytes)] *)
Context (decodeText : list Z -> string).

Definition decodeString (v : view) (offset additionalInfo : Z) : result (cval * Z) :=
  '(len, newOffset) ← decodeLength v offset additionalInfo;
  '(bytes, o) ← take_bytes v newOffset len "String length exceeds data length";
  Ok (VStr (decodeText bytes), o).

(** [2 ** e] *)
Definition pow2 (e : Z) : num := Fin (2 ^ (1074 + e)).

Definition decodeFloat16 (uint16 : Z) : num :=
  let exponent := Z.shiftr (Z.land uint16 0x7c00) 10 in
  let fraction := Z.land uint16 0x03ff in
  let sign := if Z.land uint16 0x8000 =? 0 then of_Z 1 else of_Z (-1) in
  if exponent =? 0 then
    mul (mul sign (pow2 (-14))) (div (of_Z fraction) (of_Z 1024))
  else if exponent =? 0x1f then
    (if negb (fraction =? 0) then NaN else mul sign (Inf false))
  else mul (mul sign (pow2 (exponent - 15))) (add (of_Z 1) (div (of_Z fraction) (of_Z 1024))).

Definition decodeSimpleAndFloat (v : view) (offset additionalInfo : Z) : result (cval * Z) :=
  if additionalInfo <? 24 then
    if additionalInfo =? 20 then Ok (VBool false, offset)
    else if additionalInfo =? 21 then Ok (VBool true, offset)
    else if additionalInfo =? 22 then Ok (VNull, offset)
    else if additionalInfo =? 23 then Ok (VUndef, offset)
    else Throw ("Unknown simple value: " +:+ int_string additionalInfo)
  else if additionalInfo =? 24 then
    value ← getUint8 v offset; Ok (VNum (of_Z value), offset + 1)
  else if additionalInfo =? 25 then
    bits ← getUint16 v offset; Ok (VNum (decodeFloat16 bits), offset + 2)
  else if additionalInfo =? 26 then
    value ← getFloat32 v offset; Ok (VNum value, offset + 4)
  else if additionalInfo =? 27 then
    value ← getFloat64 v offset; Ok (VNum value, offset + 8)
  else Throw ("Unknown simple or float value: " +:+ int_string additionalInfo).

(** A key, as the property name it is converted to. *)
Definition isResultKeyType (value : cval) : option string :=
  match value with
  | VNum n => Some (num_string n)
  | VStr s => Some s
  | _ => None
  end.

(** [map[key] = value] *)
Definition assign (key : string) (value : cval) (map : list (string * cval))
    : list (string * cval) :=
  if decide (key = "__proto__") then map else set_prop key value map.

(** One item; then the loops of [decodeArray] and [decodeMap], from index [i]
    on, with what they have built. *)
Fixpoint decodeItem (fuel : nat) (v : view) (offset : Z) : run (cval * Z) :=
  match fuel with
  | O => None
  | S fuel =>
      if byteLength v <=? offset then Some (Throw "Unexpected end of data")
      else
        rbind (Some (getUint8 v offset)) (fun initialByte =>
        let offset := offset + 1 in
        let majorType := Z.shiftr initialByte 5 in
        let additionalInfo := Z.land initialByte 0x1f in
        if majorType =? 0 then Some (decodeUnsigned v offset additionalInfo)
        else if majorType =? 1 then Some (decodeSigned v offset additionalInfo)
        else if majorType =? 2 then Some (decodeByteString v offset additionalInfo)
        else if majorType =? 3 then Some (decodeString v offset additionalInfo)
        else if majorType =? 4 then
          rbind (Some (decodeLength v offset additionalInfo)) (fun '(len, newOffset) =>
          rbind (array_loop fuel v len 0 [] newOffset) (fun '(array, currentOffset) =>
          Some (Ok (VArr array, currentOffset))))
        else if majorType =? 5 then
          rbind (Some (decodeLength v offset additionalInfo)) (fun '(len, newOffset) =>
          rbind (map_loop fuel v len 0 [] newOffset) (fun '(map, currentOffset) =>
          Some (Ok (VObj map, currentOffset))))
        else if majorType =? 7 then Some (decodeSimpleAndFloat v offset additionalInfo)
        else Some (Throw ("Unsupported major type: " +:+ int_string majorType)))
  end
with array_loop (fuel : nat) (v : view) (len : num) (i : Z) (array : list cval)
    (currentOffset : Z) : run (list cval * Z) :=
  match fuel with
  | O => None
  | S fuel =>
      if ltb (of_Z i) len then
        rbind (decodeItem fuel v currentOffset) (fun '(value, o) =>
        array_loop fuel v len (i + 1) (array ++ [value]) o)
      else Some (Ok (array, currentOffset))
  end
with map_loop (fuel : nat) (v : view) (len : num) (i : Z) (map : list (string * cval))
    (currentOffset : Z) : run (list (string * cval) * Z) :=
  match fuel with
  | O => None
  | S fuel =>
      if ltb (of_Z i) len then
        rbind (decodeItem fuel v currentOffset) (fun '(key, o) =>
        match isResultKeyType key with
        | None => Some (Throw "Invalid key type")
        | Some k =>
            rbind (decodeItem fuel v o) (fun '(value, o) =>
            map_loop fuel v len (i + 1) (assign k value map) o)
        end)
      else Some (Ok (map, currentOffset))
  end.

Definition decode_fuel (v : view) : nat := 2 * length v + 3.

Definition decodeCBOR (v : view) : run cval :=
  rbind (decodeItem (decode_fuel v) v 0) (fun '(value, _) => Some (Ok value)).

End Decoder.

(** ** Reading stays inside the view *)

(** A number that is a non-negative integer. *)
Definition natural (x : num) : Prop := exists n, 0 <= n /\ x = Fin (n * unit1).

Lemma natural_of_Z n : 0 <= n -> safe n -> natural (of_Z n).
Proof. intros H S. exists n. split; [done|]. by apply of_Z_safe. Qed.

Lemma int_of_natural n : int_of (Fin (n * unit1)) = n.
Proof. simpl. apply Z.div_mul. pose proof unit1_pos. lia. Qed.

Lemma int_of_Z n : safe n -> int_of (of_Z n) = n.
Proof. intros S. rewrite of_Z_safe by done. apply int_of_natural. Qed.

Lemma getUint8_bound v o b : 0 <= o -> getUint8 v o = Ok b -> o < byteLength v.
Proof.
  unfold getUint8, byteLength. intros Ho H. destruct (v !! Z.to_nat o) eqn:E; [|done].
  apply lookup_lt_Some in E. lia.
Qed.

Definition bytes (v : view) : Prop := Forall (fun b => 0 <= b < 256) v.

Lemma getUint8_byte v o b : bytes v -> getUint8 v o = Ok b -> 0 <= b < 256.
Proof.
  unfold getUint8, bytes. intros B H. destruct (v !! Z.to_nat o) eqn:E; [|done]. inv_ok.
  rewrite list.Forall_forall in B. apply B. by apply list_elem_of_lookup_2 in E.
Qed.

Lemma getUint_spec n v o acc x :
  bytes v -> 0 <= o <= byteLength v -> 0 <= acc -> getUint n v o acc = Ok x ->
  o + Z.of_nat n <= byteLength v /\ acc * 256 ^ Z.of_nat n <= x < (acc + 1) * 256 ^ Z.of_nat n.
Proof.
  intros B. revert o acc. induction n as [|n IH]; intros o acc Ho Ha H.
  - simpl in H. inv_ok. change (256 ^ Z.of_nat 0) with 1. lia.
  - cbn [getUint] in H. apply bind_Ok_inv in H as (b & Hb & H).
    pose proof (getUint8_bound _ _ _ (proj1 Ho) Hb). pose proof (getUint8_byte _ _ _ B Hb).
    destruct (IH (o + 1) (256 * acc + b) ltac:(lia) ltac:(lia) H) as [Hb1 Hb2].
    rewrite Nat2Z.inj_succ, Z.pow_succ_r by lia.
    assert (0 < 256 ^ Z.of_nat n) by (apply Z.pow_pos_nonneg; lia). split; [lia | nia].
Qed.

(** Integers up to 2^64 stay integers when they are rounded. *)
Lemma natural_u64 n : 0 <= n < 2 ^ 64 -> natural (of_Z n).
Proof.
  intros Hn. destruct (Z.lt_ge_cases n (2 ^ 53)) as [Hs|Hs].
  { apply natural_of_Z; unfold safe; lia. }
  assert (K : 1074 <= grid (n * unit1 / 1)).
  { unfold grid. rewrite Z.div_1_r. unfold unit1. rewrite Z.log2_mul_pow2 by lia.
    pose proof (Z.log2_le_mono (2 ^ 53) n ltac:(lia)). rewrite Z.log2_pow2 in H by lia. lia. }
  assert (B : round_mag (n * unit1) 1 <= 2 ^ 64 * unit1).
  { rewrite <- (round_mag_exact (2 ^ 64 * unit1) 1); [|lia|].
    - pose proof unit1_pos. apply round_mag_mono; nia.
    - exists 1, 1138. split; [lia|]. split; [lia|]. reflexivity. }
  assert (M : 2 ^ 64 * unit1 < max_units) by reflexivity.
  unfold of_Z. pose proof unit1_pos.
  pose proof (round_mag_nonneg (n * unit1) 1 ltac:(nia) ltac:(lia)) as P.
  unfold fin_round. rewrite Z.abs_eq by nia.
  destruct (Z.leb_spec max_units (round_mag (n * unit1) 1)); [lia|].
  rewrite Z.sgn_pos, Z.mul_1_l by nia. unfold round_mag in *.
  set (k := grid (n * unit1 / 1)) in *.
  exists (half_even (n * unit1) (1 * 2 ^ k) * 2 ^ (k - 1074)).
  pose proof (pow2_pos (k - 1074) ltac:(lia)). pose proof (pow2_pos k ltac:(lia)).
  split.
  - assert (0 <= half_even (n * unit1) (1 * 2 ^ k)) by nia. nia.
  - f_equal. rewrite <- Z.mul_assoc. f_equal. unfold unit1.
    rewrite <- Z.pow_add_r by lia. f_equal. lia.
Qed.

Lemma mul_u32 hi : 0 <= hi < 2 ^ 32 -> mul (of_Z hi) (of_Z (2 ^ 32)) = Fin (hi * 2 ^ 32 * unit1).
Proof.
  intros H. rewrite !of_Z_safe by (unfold safe; lia). cbn [mul].
  replace (hi * unit1 * (2 ^ 32 * unit1)) with (hi * 2 ^ 32 * unit1 * unit1) by ring.
  pose proof unit1_pos. apply fin_round_exact; [done | |].
  - exists hi, 1106. split; [lia|]. split; [lia|].
    rewrite Z.abs_eq by nia. unfold unit1. rewrite <- Z.mul_assoc, <- Z.pow_add_r by lia. done.
  - rewrite Z.abs_eq by nia. assert (2 ^ 64 * unit1 < max_units) by reflexivity. nia.
Qed.

(** A length is a natural number, and its bytes lie in the view. *)
Lemma decodeLength_spec v o info x o' :
  bytes v -> 0 <= o <= byteLength v -> 0 <= info -> decodeLength v o info = Ok (x, o') ->
  natural x /\ o <= o' <= byteLength v.
Proof.
  intros B Ho Hi. unfold decodeLength, getUint16, getUint32. intros H.
  repeat case_if; bools; try discriminate H; try (apply bind_Ok_inv in H as (w & Hw & H)).
  - apply Ok_inj in H. simplify_eq. split; [apply natural_of_Z; unfold safe; lia | lia].
  - apply Ok_inj in H. simplify_eq.
    pose proof (getUint8_bound _ _ _ (proj1 Ho) Hw). pose proof (getUint8_byte _ _ _ B Hw).
    split; [apply natural_of_Z; unfold safe; lia | lia].
  - apply Ok_inj in H. simplify_eq. apply getUint_spec in Hw as [Hb1 Hb2]; [|done|lia|lia].
    split; [apply natural_of_Z; unfold safe; lia | lia].
  - apply Ok_inj in H. simplify_eq. apply getUint_spec in Hw as [Hb1 Hb2]; [|done|lia|lia].
    split; [apply natural_of_Z; unfold safe; lia | lia].
  - apply bind_Ok_inv in H as (z & Hz & H). apply Ok_inj in H. simplify_eq.
    apply getUint_spec in Hw as [Hb1 Hb2]; [|done|lia|lia].
    apply getUint_spec in Hz as [Hc1 Hc2]; [|done|lia|lia].
    split; [|lia].
    rewrite mul_u32, (of_Z_safe z) by (unfold safe; lia). cbn [add].
    rewrite <- Z.mul_add_distr_r. apply natural_u64. lia.
Qed.

Lemma take_bytes_spec v o x e l o' :
  byteLength v <= 2 ^ 52 -> 0 <= o <= byteLength v -> natural x ->
  take_bytes v o x e = Ok (l, o') -> o <= o' <= byteLength v.
Proof.
  intros Hv Ho (n & Hn & ->) H. unfold take_bytes in H.
  destruct (ltb _ _) eqn:L; [done|]. inv_ok. simplify_eq. rewrite int_of_natural.
  split; [lia|]. destruct (Z.le_gt_cases (o + n) (byteLength v)) as [|G]; [done|exfalso].
  pose proof unit1_pos as U.
  rewrite (of_Z_safe o), (of_Z_safe (byteLength v)) in L by (unfold safe; lia). cbn [add] in L.
  rewrite <- Z.mul_add_distr_r in L.
  assert (M : (byteLength v + 1) * unit1 <= round_mag ((o + n) * unit1) 1).
  { pose proof (repr_int (byteLength v + 1) ltac:(unfold safe; lia)) as R.
    rewrite Z.abs_eq in R by lia.
    rewrite <- (round_mag_exact ((byteLength v + 1) * unit1) 1) by (done || lia).
    apply round_mag_mono; nia. }
  unfold fin_round in L. rewrite Z.abs_eq in L by nia. case_if.
  - unfold ltb in L. rewrite (proj2 (Z.ltb_ge ((o + n) * unit1) 0)) in L by nia. done.
  - unfold ltb in L. rewrite Z.sgn_pos, Z.mul_1_l in L by nia. apply Z.ltb_ge in L. nia.
Qed.

Section Decoding.
Context (decodeText : list Z -> string).

Lemma decodeSimpleAndFloat_bound v o info x o' :
  bytes v -> 0 <= o <= byteLength v -> decodeSimpleAndFloat v o info = Ok (x, o') ->
  o <= o' <= byteLength v.
Proof.
  intros B Ho. unfold decodeSimpleAndFloat, getFloat32, getFloat64, getUint16, getUint32. intros H.
  repeat case_if; try discriminate H; try (apply bind_Ok_inv in H as (w & Hw & H));
    apply Ok_inj in H; simplify_eq; try lia.
  - pose proof (getUint8_bound _ _ _ (proj1 Ho) Hw). lia.
  - apply getUint_spec in Hw as [Hb1 Hb2]; lia || done.
  - apply bind_Ok_inv in Hw as (z & Hz & Hw). apply getUint_spec in Hz as [Hb1 Hb2]; lia || done.
  - apply bind_Ok_inv in Hw as (z & Hz & Hw). apply getUint_spec in Hz as [Hb1 Hb2]; lia || done.
Qed.

(** What an item or a loop that starts at [o] may return. *)
Definition advances {A} (v : view) (low : Z) (r : run (A * Z)) : Prop :=
  forall x o', r = Some (Ok (x, o')) -> low <= o' <= byteLength v.

Lemma rbind_advances {A B} v low (m : run A) (f : A -> run (B * Z)) :
  (forall a, m = Some (Ok a) -> advances v low (f a)) -> advances v low (rbind m f).
Proof. intros H x o'. destruct m as [[a|e]|]; simpl; [by apply H | done | done]. Qed.

Definition decoder_advances (v : view) (fuel : nat) : Prop := forall o, 0 <= o <= byteLength v ->
  advances v (o + 1) (decodeItem decodeText fuel v o) /\
  (forall len i array, advances v o (array_loop decodeText fuel v len i array o)) /\
  (forall len i map, advances v o (map_loop decodeText fuel v len i map o)).

Lemma advances_weaken {A} v low low' (r : run (A * Z)) :
  advances v low r -> low' <= low -> advances v low' r.
Proof. intros H L x o' E. specialize (H x o' E). lia. Qed.

Lemma head_bits b : 0 <= b < 256 -> 0 <= Z.land b 0x1f < 32.
Proof.
  intros H. change 0x1f with (Z.ones 5). rewrite Z.land_ones by lia.
  apply Z.mod_pos_bound. lia.
Qed.

Lemma decoder_advances_all v fuel :
  bytes v -> byteLength v <= 2 ^ 52 -> decoder_advances v fuel.
Proof.
  intros B Hv. induction fuel as [|fuel IH]; intros o Ho.
  { split_and!; [intros x o' E | intros len i a x o' E | intros len i m x o' E]; discriminate E. }
  split_and!.
  - cbn [decodeItem]. case_if; [by intros x o' E|]. bools.
    apply rbind_advances. intros b Hb. injection Hb as Hb.
    pose proof (head_bits b (getUint8_byte _ _ _ B Hb)) as Hi.
    assert (Ho1 : 0 <= o + 1 <= byteLength v) by lia. cbv zeta.
    repeat case_if.
    + intros x o' E. injection E as E. apply bind_Ok_inv in E as ([y o2] & E & E'). inv_ok.
      simplify_eq. by apply decodeLength_spec in E as [_ E]; [|done|done|lia].
    + intros x o' E. injection E as E. apply bind_Ok_inv in E as ([y o2] & E & E'). inv_ok.
      simplify_eq. by apply decodeLength_spec in E as [_ E]; [|done|done|lia].
    + intros x o' E. injection E as E. apply bind_Ok_inv in E as ([y o2] & E & E').
      apply bind_Ok_inv in E' as ([z o3] & E' & E''). inv_ok. simplify_eq.
      apply decodeLength_spec in E as [N E]; [|done|done|lia].
      apply take_bytes_spec in E'; [lia | done | lia | done].
    + intros x o' E. injection E as E. apply bind_Ok_inv in E as ([y o2] & E & E').
      apply bind_Ok_inv in E' as ([z o3] & E' & E''). inv_ok. simplify_eq.
      apply decodeLength_spec in E as [N E]; [|done|done|lia].
      apply take_bytes_spec in E'; [lia | done | lia | done].
    + apply rbind_advances. intros [len o2] E. injection E as E.
      apply decodeLength_spec in E as [_ E]; [|done|done|lia].
      apply rbind_advances. intros [a o3] E3.
      destruct (IH o2 ltac:(lia)) as (_ & L & _). apply L in E3.
      intros x o' E4. simplify_eq. lia.
    + apply rbind_advances. intros [len o2] E. injection E as E.
      apply decodeLength_spec in E as [_ E]; [|done|done|lia].
      apply rbind_advances. intros [a o3] E3.
      destruct (IH o2 ltac:(lia)) as (_ & _ & L). apply L in E3.
      intros x o' E4. simplify_eq. lia.
    + intros x o' E. injection E as E. by apply decodeSimpleAndFloat_bound in E.
    + by intros x o' E.
  - intros len i a. cbn [array_loop]. case_if; [|intros x o' E; simplify_eq; lia].
    apply rbind_advances. intros [y o2] E. destruct (IH o Ho) as (I & _). apply I in E.
    destruct (IH o2 ltac:(lia)) as (_ & L & _). eapply advances_weaken; [apply L | lia].
  - intros len i m. cbn [map_loop]. case_if; [|intros x o' E; simplify_eq; lia].
    apply rbind_advances. intros [y o2] E. destruct (IH o Ho) as (I & _). apply I in E.
    destruct (isResultKeyType y); [|by intros x o' E'].
    apply rbind_advances. intros [z o3] E3. destruct (IH o2 ltac:(lia)) as (I2 & _).
    apply I2 in E3. destruct (IH o3 ltac:(lia)) as (_ & _ & L).
    eapply advances_weaken; [apply L | lia].
Qed.

(** ** Fuel *)

Definition answers {A} (r : run A) : Prop := r <> None.

Lemma rbind_answers {A B} (m : run A) (f : A -> run B) :
  answers m -> (forall a, m = Some (Ok a) -> answers (f a)) -> answers (rbind m f).
Proof. intros M F. destruct m as [[a|e]|]; simpl; [by apply F | done | done]. Qed.

Lemma fuel_enough v fuel o :
  bytes v -> byteLength v <= 2 ^ 52 -> 0 <= o <= byteLength v ->
  (2 * (byteLength v - o) + 1 <= Z.of_nat fuel -> answers (decodeItem decodeText fuel v o)) /\
  (2 * (byteLength v - o) + 2 <= Z.of_nat fuel -> forall len i a m,
     answers (array_loop decodeText fuel v len i a o) /\
     answers (map_loop decodeText fuel v len i m o)).
Proof.
  intros B Hv. revert o. induction fuel as [|fuel IH]; intros o Ho; [split; lia|].
  split.
  - intros Hf. cbn [decodeItem]. case_if; [done|]. bools.
    apply rbind_answers; [done|]. intros b Hb. injection Hb as Hb.
    pose proof (head_bits b (getUint8_byte _ _ _ B Hb)) as Hi. cbv zeta.
    repeat case_if; try done.
    all: apply rbind_answers; [done|]; intros [len o2] E; injection E as E.
    all: apply decodeLength_spec in E as [_ E]; [|done|lia|lia].
    all: destruct (IH o2 ltac:(lia)) as [_ L]; destruct (L ltac:(lia) len 0 [] []) as [L1 L2].
    all: by apply rbind_answers; [|intros []].
  - intros Hf len i a m.
    destruct (IH o Ho) as [I _]. specialize (I ltac:(lia)).
    destruct (decoder_advances_all v fuel B Hv o Ho) as [A _].
    split; cbn [array_loop map_loop]; case_if; try done.
    + apply rbind_answers; [done|]. intros [y o2] E. apply A in E.
      destruct (IH o2 ltac:(lia)) as [_ L]. apply (L ltac:(lia) len (i + 1) _ []).
    + apply rbind_answers; [done|]. intros [y o2] E. apply A in E.
      destruct (isResultKeyType y); [|done].
      destruct (IH o2 ltac:(lia)) as [I2 _].
      apply rbind_answers; [apply I2; lia|]. intros [z o3] E3.
      destruct (decoder_advances_all v fuel B Hv o2 ltac:(lia)) as [A2 _]. apply A2 in E3.
      destruct (IH o3 ltac:(lia)) as [_ L]. apply (L ltac:(lia) len (i + 1) [] _).
Qed.

(** C35: Decoding terminates on every input, however deeply its items are nested
    and whatever lengths its heads announce: [decodeCBOR] returns a value or
    throws, because every item moves past at least one byte and never past the
    end of the view. *)
Theorem decodeCBOR_terminates v :
  bytes v -> byteLength v <= 2 ^ 52 ->
  exists r, decodeCBOR decodeText v = Some r /\
    forall x o, decodeItem decodeText (decode_fuel v) v 0 = Some (Ok (x, o)) ->
      r = Ok x /\ 1 <= o <= byteLength v.
Proof.
  intros B Hv. unfold decodeCBOR.
  destruct (fuel_enough v (decode_fuel v) 0 B Hv ltac:(unfold byteLength; lia)) as [H _].
  specialize (H ltac:(unfold decode_fuel, byteLength; lia)).
  destruct (decoder_advances_all v (decode_fuel v) B Hv 0 ltac:(unfold byteLength; lia)) as [A _].
  destruct (decodeItem decodeText (decode_fuel v) v 0) as [[[x o]|e]|] eqn:E; simpl; [| |done].
  - exists (Ok x). split; [done|]. intros x' o' [= <- <-]. split; [done|].
    specialize (A x o eq_refl). lia.
  - exists (Throw e). split; [done|]. intros x o [=].
Qed.

End Decoding.

Lemma decodeCBOR_terminates_witness :
  exists r, decodeCBOR (fun _ => "") [0x9b; 255; 255; 255; 255; 255; 255; 255; 255; 0x80] = Some r.
Proof.
  destruct (decodeCBOR_terminates (fun _ => "")
    [0x9b; 255; 255; 255; 255; 255; 255; 255; 255; 0x80]) as (r & E & _).
  - repeat (apply list.Forall_cons; split; [lia|]). by apply list.Forall_nil.
  - vm_compute. discriminate.
  - exists r. exact E.
Defined.

(** ** An encoder

    The deterministic encoding of RFC 8949 for the data the decoder is used on:
    integers of up to 53 bits, text, byte strings, arrays, maps with text keys
    and the simple values. *)
Inductive item : Type :=
  | IInt (n : Z)
  | IStr (s : string)
  | IBytes (l : list Z)
  | IArr (l : list item)
  | IMap (o : list (string * item))
  | IBool (b : bool)
  | INull
  | IUndef.

(** [k] bytes, the most significant first. *)
Fixpoint be (k : nat) (n : Z) : list Z :=
  match k with
  | O => []
  | S k => n / 256 ^ Z.of_nat k :: be k (n mod 256 ^ Z.of_nat k)
  end.

Definition head_args (n : Z) : Z * list Z :=
  if n <? 24 then (n, [])
  else if n <? 256 then (24, be 1 n)
  else if n <? 65536 then (25, be 2 n)
  else if n <? 2 ^ 32 then (26, be 4 n)
  else (27, be 4 (n / 2 ^ 32) ++ be 4 (n mod 2 ^ 32)).

Definition head (major n : Z) : list Z := 32 * major + (head_args n).1 :: (head_args n).2.

Section RoundTrip.
(** A text codec: [encodeText] gives the bytes of a string, and decoding them
    gives the string back. *)
Context (encodeText : string -> list Z) (decodeText : list Z -> string).
Context (text_roundtrip : forall s, decodeText (encodeText s) = s).

Fixpoint encode (x : item) : list Z :=
  match x with
  | IInt n => if 0 <=? n then head 0 n else head 1 (-1 - n)
  | IBytes l => head 2 (Z.of_nat (length l)) ++ l
  | IStr s => head 3 (Z.of_nat (length (encodeText s))) ++ encodeText s
  | IArr l => head 4 (Z.of_nat (length l)) ++ foldr (fun y acc => encode y ++ acc) [] l
  | IMap o =>
      head 5 (Z.of_nat (length o)) ++
      foldr (fun kv acc =>
        ((head 3 (Z.of_nat (length (encodeText kv.1))) ++ encodeText kv.1) ++ encode kv.2) ++ acc) [] o
  | IBool b => [if b then 0xf5 else 0xf4]
  | INull => [0xf6]
  | IUndef => [0xf7]
  end.

(** The value an item decodes to. *)
Fixpoint value_of (x : item) : cval :=
  match x with
  | IInt n => VNum (of_Z n)
  | IStr s => VStr s
  | IBytes l => VBytes l
  | IArr l => VArr (map value_of l)
  | IMap o => VObj (foldl (fun m kv => assign kv.1 kv.2 m) [] (map (fun kv => (kv.1, value_of kv.2)) o))
  | IBool b => VBool b
  | INull => VNull
  | IUndef => VUndef
  end.

(** Integers are exact doubles, byte strings are bytes. *)
Fixpoint valid (x : item) : Prop :=
  match x with
  | IInt n => - 2 ^ 53 <= n <= 2 ^ 53
  | IBytes l => bytes l
  | IArr l => foldr (fun y acc => valid y /\ acc) True l
  | IMap o => foldr (fun kv acc => valid kv.2 /\ acc) True o
  | _ => True
  end.

Definition at_offset (v : view) (o : Z) (l : list Z) : Prop :=
  exists pre post, v = pre ++ l ++ post /\ o = Z.of_nat (length pre).

Lemma at_offset_app v o l1 l2 :
  at_offset v o (l1 ++ l2) -> at_offset v o l1 /\ at_offset v (o + Z.of_nat (length l1)) l2.
Proof.
  intros (pre & post & -> & ->). split.
  - exists pre, (l2 ++ post). by rewrite <- app_assoc.
  - exists (pre ++ l1), post. rewrite length_app, <- !app_assoc. split; [done | lia].
Qed.

Lemma at_offset_bound v o l : at_offset v o l -> 0 <= o /\ o + Z.of_nat (length l) <= byteLength v.
Proof.
  intros (pre & post & -> & ->). unfold byteLength. rewrite !length_app. lia.
Qed.

Lemma getUint8_at v o b l : at_offset v o (b :: l) -> getUint8 v o = Ok b.
Proof.
  intros (pre & post & -> & ->). unfold getUint8.
  by rewrite Nat2Z.id, lookup_app_r, Nat.sub_diag by lia.
Qed.

Lemma getUint_at k v o n acc : 0 <= n < 256 ^ Z.of_nat k -> at_offset v o (be k n) ->
  getUint k v o acc = Ok (acc * 256 ^ Z.of_nat k + n).
Proof.
  revert o n acc. induction k as [|k IH]; intros o n acc Hn H.
  { change (256 ^ Z.of_nat 0) with 1 in *. simpl. f_equal. lia. }
  assert (P : 0 < 256 ^ Z.of_nat k) by (apply Z.pow_pos_nonneg; lia).
  rewrite Nat2Z.inj_succ, Z.pow_succ_r in * by lia.
  cbn [getUint be] in *. rewrite (getUint8_at _ _ _ _ H). simpl.
  apply (at_offset_app v o [_]) in H as [_ H]. simpl in H.
  pose proof (Z.div_mod n (256 ^ Z.of_nat k)). pose proof (Z.mod_pos_bound n (256 ^ Z.of_nat k) P).
  rewrite (IH _ (n mod 256 ^ Z.of_nat k)); [f_equal; nia | done | done].
Qed.

Lemma length_be k n : length (be k n) = k.
Proof. revert n. induction k; intros; simpl; auto. Qed.

Lemma head_args_info n : 0 <= n -> 0 <= (head_args n).1 < 32.
Proof. intros H. unfold head_args. repeat case_if; bools; simpl; lia. Qed.

Lemma decodeLength_at v o n : 0 <= n <= 2 ^ 53 -> at_offset v o (head_args n).2 ->
  decodeLength v o (head_args n).1 = Ok (of_Z n, o + Z.of_nat (length (head_args n).2)).
Proof.
  intros Hn. unfold head_args, decodeLength, getUint16, getUint32.
  destruct (n <? 24) eqn:E1; bools; [|destruct (n <? 256) eqn:E2; bools;
    [|destruct (n <? 65536) eqn:E3; bools; [|destruct (n <? 2 ^ 32) eqn:E4; bools]]];
    cbn [fst snd]; intros H.
  - rewrite (proj2 (Z.ltb_lt n 24)) by lia. do 2 f_equal. cbn [length]. lia.
  - cbn [Z.ltb Z.eqb Z.compare Pos.compare Pos.compare_cont Pos.eqb].
    rewrite (getUint8_at v o (n / 1) []) by done. simpl. by rewrite Z.div_1_r.
  - cbn [Z.ltb Z.eqb Z.compare Pos.compare Pos.compare_cont Pos.eqb].
    rewrite (getUint_at 2 v o n 0) by (done || lia). done.
  - cbn [Z.ltb Z.eqb Z.compare Pos.compare Pos.compare_cont Pos.eqb].
    rewrite (getUint_at 4 v o n 0) by (done || lia). done.
  - apply at_offset_app in H as [H1 H2]. rewrite length_be in H2.
    assert (0 <= n / 2 ^ 32 < 2 ^ 32)
      by (split; [apply Z.div_pos | apply Z.div_lt_upper_bound]; lia).
    pose proof (Z.mod_pos_bound n (2 ^ 32) ltac:(lia)).
    pose proof (Z.div_mod n (2 ^ 32) ltac:(lia)).
    cbn [Z.ltb Z.eqb Z.compare Pos.compare Pos.compare_cont Pos.eqb].
    rewrite (getUint_at 4 v o (n / 2 ^ 32) 0) by (done || lia).
    rewrite bind_ok, (getUint_at 4 v (o + 4) (n mod 2 ^ 32) 0) by (done || lia).
    rewrite bind_ok, !Z.mul_0_l, !Z.add_0_l, mul_int, add_int by (unfold safe; lia).
    do 2 f_equal. f_equal. lia.
Qed.

(** The first byte of a head. *)
Lemma head_byte major n : 0 <= n -> 0 <= major < 8 ->
  Z.shiftr (32 * major + (head_args n).1) 5 = major /\
  Z.land (32 * major + (head_args n).1) 0x1f = (head_args n).1.
Proof.
  intros Hn Hm. pose proof (head_args_info n Hn). change 0x1f with (Z.ones 5).
  rewrite Z.shiftr_div_pow2, Z.land_ones by lia. change (2 ^ 5) with 32. split.
  - symmetry. apply (Z.div_unique_pos _ _ _ (head_args n).1); lia.
  - symmetry. apply (Z.mod_unique_pos _ _ major); lia.
Qed.

Lemma length_head m n : 1 <= Z.of_nat (length (head m n)).
Proof. unfold head. cbn [length]. lia. Qed.

Lemma length_encode x : 1 <= Z.of_nat (length (encode x)).
Proof.
  destruct x; cbn [encode length]; rewrite ?length_app; try lia; try case_if;
    rewrite ?length_app; try apply length_head;
    match goal with |- context [length (head ?m ?n)] => pose proof (length_head m n) end; lia.
Qed.

Lemma take_bytes_at v o l e : byteLength v <= 2 ^ 52 -> at_offset v o l ->
  take_bytes v o (of_Z (Z.of_nat (length l))) e = Ok (l, o + Z.of_nat (length l)).
Proof.
  intros Hv H. pose proof (at_offset_bound _ _ _ H) as [Ho Hl]. unfold take_bytes.
  rewrite add_int, ltb_int, int_of_Z by (unfold safe; lia).
  rewrite (proj2 (Z.ltb_ge (byteLength v) _)) by lia.
  destruct H as (pre & post & -> & ->). rewrite !Nat2Z.id, drop_app_length, take_app_length. done.
Qed.

(** Decoding a head, up to the choice of the major type. *)
Lemma decodeItem_head fuel v o major n :
  0 <= n <= 2 ^ 53 -> 0 <= major < 8 -> at_offset v o (head major n) ->
  let o' := o + Z.of_nat (length (head major n)) in
  decodeItem decodeText (S fuel) v o =
    if major =? 0 then Some (Ok (VNum (of_Z n), o'))
    else if major =? 1 then Some (Ok (VNum (sub (of_Z (-1)) (of_Z n)), o'))
    else if major =? 2 then
      Some ('(l, o2) ← take_bytes v o' (of_Z n) "Byte string length exceeds data length"; Ok (VBytes l, o2))
    else if major =? 3 then
      Some ('(l, o2) ← take_bytes v o' (of_Z n) "String length exceeds data length";
            Ok (VStr (decodeText l), o2))
    else if major =? 4 then
      rbind (array_loop decodeText fuel v (of_Z n) 0 [] o') (fun '(a, o2) => Some (Ok (VArr a, o2)))
    else if major =? 5 then
      rbind (map_loop decodeText fuel v (of_Z n) 0 [] o') (fun '(m, o2) => Some (Ok (VObj m, o2)))
    else decodeItem decodeText (S fuel) v o.
Proof.
  intros Hn Hm H. pose proof (at_offset_bound _ _ _ H) as [Ho Hl].
  pose proof (length_head major n). pose proof (head_byte major n ltac:(lia) Hm) as [B1 B2].
  cbn [decodeItem]. rewrite (proj2 (Z.leb_gt (byteLength v) o)) by lia.
  unfold head in H. rewrite (getUint8_at _ _ _ _ H). cbn [rbind]. cbv zeta.
  rewrite B1, B2. apply (at_offset_app v o [_]) in H as [_ H]. cbn [length Z.of_nat] in H.
  unfold decodeUnsigned, decodeSigned, decodeByteString, decodeString.
  rewrite decodeLength_at by (done || lia). rewrite !bind_ok. cbn [rbind].
  assert (E : o + 1 + Z.of_nat (length (head_args n).2) = o + Z.of_nat (length (head major n)))
    by (unfold head; cbn [length]; lia).
  rewrite E. repeat case_if; reflexivity.
Qed.
Abbreviation encode_all := (foldr (fun y acc => encode y ++ acc) []).
Abbreviation encode_pairs := (foldr (fun kv acc => (encode (IStr kv.1) ++ encode kv.2) ++ acc) []).

Definition decodes (v : view) (fuel : nat) : Prop := forall o, 0 <= o ->
  (forall x, valid x -> at_offset v o (encode x) -> 2 * (byteLength v - o) + 1 <= Z.of_nat fuel ->
     decodeItem decodeText fuel v o = Some (Ok (value_of x, o + Z.of_nat (length (encode x))))) /\
  (forall xs i a, foldr (fun y acc => valid y /\ acc) True xs -> 0 <= i ->
     i + Z.of_nat (length xs) <= 2 ^ 53 -> at_offset v o (encode_all xs) ->
     2 * (byteLength v - o) + 2 <= Z.of_nat fuel ->
     array_loop decodeText fuel v (of_Z (i + Z.of_nat (length xs))) i a o =
       Some (Ok (a ++ map value_of xs, o + Z.of_nat (length (encode_all xs))))) /\
  (forall xs i m, foldr (fun kv acc => valid kv.2 /\ acc) True xs -> 0 <= i ->
     i + Z.of_nat (length xs) <= 2 ^ 53 -> at_offset v o (encode_pairs xs) ->
     2 * (byteLength v - o) + 2 <= Z.of_nat fuel ->
     map_loop decodeText fuel v (of_Z (i + Z.of_nat (length xs))) i m o =
       Some (Ok (foldl (fun m kv => assign kv.1 kv.2 m) m (map (fun kv => (kv.1, value_of kv.2)) xs),
                 o + Z.of_nat (length (encode_pairs xs))))).

Lemma length_encode_all xs : Z.of_nat (length xs) <= Z.of_nat (length (encode_all xs)).
Proof.
  induction xs as [|x xs IH]; [done|]. cbn [foldr length]. rewrite length_app.
  pose proof (length_encode x). lia.
Qed.

Lemma length_encode_pairs xs : Z.of_nat (length xs) <= Z.of_nat (length (encode_pairs xs)).
Proof.
  induction xs as [|x xs IH]; [done|]. cbn [foldr length]. rewrite !length_app.
  pose proof (length_encode x.2). lia.
Qed.

Ltac decode_head fuel A :=
  let H := fresh in
  pose proof (fun p q => decodeItem_head fuel _ _ _ _ p q A) as H; cbv zeta in H;
  rewrite H by lia; clear H; cbn [Z.eqb Pos.eqb].

Lemma decodes_item v fuel o x :
  byteLength v <= 2 ^ 52 -> decodes v fuel -> 0 <= o -> valid x -> at_offset v o (encode x) ->
  2 * (byteLength v - o) + 1 <= Z.of_nat (S fuel) ->
  decodeItem decodeText (S fuel) v o = Some (Ok (value_of x, o + Z.of_nat (length (encode x)))).
Proof.
  intros Hv D Ho V A F. pose proof (at_offset_bound _ _ _ A) as [_ B].
  destruct x as [n|t|l|l|l|b| |]; cbn [encode value_of valid] in *; rewrite ?length_app in *.
  - case_if; bools; decode_head fuel A; [done|].
    rewrite sub_int by (unfold safe; lia). replace (-1 - (-1 - n)) with n by lia. done.
  - apply at_offset_app in A as [A A2].
    decode_head fuel A.
    rewrite take_bytes_at by done. rewrite bind_ok, text_roundtrip. do 3 f_equal. lia.
  - apply at_offset_app in A as [A A2].
    decode_head fuel A.
    rewrite take_bytes_at by done. rewrite bind_ok. do 3 f_equal. lia.
  - apply at_offset_app in A as [A A2].
    pose proof (length_encode_all l). pose proof (length_head 4 (Z.of_nat (length l))).
    decode_head fuel A.
    destruct (D (o + Z.of_nat (length (head 4 (Z.of_nat (length l))))) ltac:(lia)) as (_ & L & _).
    specialize (L l 0 [] V ltac:(lia) ltac:(lia) A2 ltac:(lia)). rewrite Z.add_0_l in L.
    rewrite L. cbn [rbind]. rewrite app_nil_l. do 3 f_equal. lia.
  - apply at_offset_app in A as [A A2].
    pose proof (length_encode_pairs l) as Ll. cbn [encode] in Ll.
    pose proof (length_head 5 (Z.of_nat (length l))).
    decode_head fuel A.
    destruct (D (o + Z.of_nat (length (head 5 (Z.of_nat (length l))))) ltac:(lia)) as (_ & _ & L).
    specialize (L l 0 [] V ltac:(lia) ltac:(lia) A2 ltac:(lia)). rewrite Z.add_0_l in L.
    rewrite L. cbn [rbind encode]. do 3 f_equal. lia.
  - assert (Q : getUint8 v o = Ok (if b then 0xf5 else 0xf4)) by (by apply (getUint8_at _ _ _ [])).
    cbn [decodeItem length] in *. rewrite (proj2 (Z.leb_gt (byteLength v) o)) by lia.
    rewrite Q. destruct b; reflexivity.
  - assert (Q : getUint8 v o = Ok 0xf6) by (by apply (getUint8_at _ _ _ [])).
    cbn [decodeItem length] in *. rewrite (proj2 (Z.leb_gt (byteLength v) o)) by lia.
    rewrite Q. reflexivity.
  - assert (Q : getUint8 v o = Ok 0xf7) by (by apply (getUint8_at _ _ _ [])).
    cbn [decodeItem length] in *. rewrite (proj2 (Z.leb_gt (byteLength v) o)) by lia.
    rewrite Q. reflexivity.
Qed.

Lemma decodes_all v fuel : byteLength v <= 2 ^ 52 -> decodes v fuel.
Proof.
  intros Hv. induction fuel as [|fuel IH]; intros o Ho.
  { split_and!; intros; exfalso;
      match goal with H : at_offset _ _ _ |- _ => apply at_offset_bound in H as [? ?] end; lia. }
  split_and!.
  - intros x V A F. by apply decodes_item.
  - intros xs i a V Hi Hl A F. pose proof (at_offset_bound _ _ _ A) as [_ B].
    destruct xs as [|x xs]; cbn [array_loop length foldr map] in *.
    + rewrite ltb_int by (unfold safe; lia). rewrite (proj2 (Z.ltb_ge i _)) by lia.
      rewrite app_nil_r. do 3 f_equal. cbn. lia.
    + destruct V as [V1 V2]. pose proof (length_encode x). rewrite length_app in B.
      apply at_offset_app in A as [A1 A2].
      rewrite ltb_int by (unfold safe; lia). rewrite (proj2 (Z.ltb_lt i _)) by lia.
      destruct (IH o Ho) as (I & _). rewrite (I x V1 A1 ltac:(lia)). cbn [rbind].
      destruct (IH (o + Z.of_nat (length (encode x))) ltac:(lia)) as (_ & L & _).
      specialize (L xs (i + 1) (a ++ [value_of x]) V2 ltac:(lia) ltac:(lia) A2 ltac:(lia)).
      replace (i + Z.of_nat (S (length xs))) with (i + 1 + Z.of_nat (length xs)) by lia.
      rewrite L, <- app_assoc, length_app. do 3 f_equal. lia.
  - intros xs i m V Hi Hl A F. pose proof (at_offset_bound _ _ _ A) as [_ B].
    destruct xs as [|[k x] xs]; cbn [map_loop length foldr map foldl fst snd] in *.
    + rewrite ltb_int by (unfold safe; lia). rewrite (proj2 (Z.ltb_ge i _)) by lia.
      do 3 f_equal. cbn. lia.
    + destruct V as [V1 V2]. pose proof (length_encode x). pose proof (length_encode (IStr k)).
      rewrite !length_app in B.
      apply at_offset_app in A as [A1 A3]. rewrite length_app in A3.
      apply at_offset_app in A1 as [A1 A2].
      rewrite ltb_int by (unfold safe; lia). rewrite (proj2 (Z.ltb_lt i _)) by lia.
      destruct (IH o Ho) as (I & _). rewrite (I (IStr k) ltac:(done) A1 ltac:(lia)).
      cbn [rbind value_of isResultKeyType].
      destruct (IH (o + Z.of_nat (length (encode (IStr k)))) ltac:(lia)) as (I2 & _).
      rewrite (I2 x V1 A2 ltac:(lia)). cbn [rbind].
      destruct (IH (o + Z.of_nat (length (encode (IStr k))) + Z.of_nat (length (encode x)))
        ltac:(lia)) as (_ & _ & L).
      specialize (L xs (i + 1) (assign k (value_of x) m) V2 ltac:(lia) ltac:(lia)).
      rewrite Nat2Z.inj_add, Z.add_assoc in A3. specialize (L A3 ltac:(lia)).
      replace (i + Z.of_nat (S (length xs))) with (i + 1 + Z.of_nat (length xs)) by lia.
      rewrite L, !length_app. do 3 f_equal. lia.
Qed.

Lemma decodeItem_encode x :
  valid x -> Z.of_nat (length (encode x)) <= 2 ^ 52 ->
  exists o, decodeItem decodeText (decode_fuel (encode x)) (encode x) 0 = Some (Ok (value_of x, o)).
Proof.
  intros V L. destruct (decodes_all (encode x) (decode_fuel (encode x)) L 0 ltac:(lia)) as (I & _).
  eexists. apply (I x V); [|unfold decode_fuel, byteLength; lia].
  exists [], []. by rewrite app_nil_r.
Qed.

(** C34: Decoding inverts encoding: the decoder reads back every value that the
    deterministic encoding can represent with integers of up to 53 bits, nested
    to any depth; a map is read as the object built by assigning its pairs in
    order, so that the last of two equal keys wins. *)
Theorem decodeCBOR_encode x :
  valid x -> Z.of_nat (length (encode x)) <= 2 ^ 52 ->
  decodeCBOR decodeText (encode x) = Some (Ok (value_of x)).
Proof.
  intros V L. unfold decodeCBOR. destruct (decodeItem_encode x V L) as [o E]. by rewrite E.
Qed.

End RoundTrip.

(** Latin-1 text. *)
Definition latin1_encode (s : string) : list Z :=
  map (fun c => Z.of_N (Ascii.N_of_ascii c)) (String.list_ascii_of_string s).
Definition latin1_decode (l : list Z) : string :=
  String.string_of_list_ascii (map (fun z => Ascii.ascii_of_N (Z.to_N z)) l).

Lemma latin1_roundtrip s : latin1_decode (latin1_encode s) = s.
Proof.
  unfold latin1_decode, latin1_encode. rewrite map_map.
  rewrite <- (String.string_of_list_ascii_of_string s) at 2. f_equal.
  rewrite <- (map_id (String.list_ascii_of_string s)) at 2. apply map_ext.
  intros c. by rewrite N2Z.id, Ascii.ascii_N_embedding.
Qed.

Definition demo_token : item :=
  IMap [("m", IStr "https://mint"); ("u", IStr "sat");
        ("t", IArr [IMap [("i", IBytes [0; 173; 38]); ("p", IArr [IInt 256; IInt (-5); IBool true])]])].

Lemma decodeCBOR_encode_witness :
  decodeCBOR latin1_decode (encode latin1_encode demo_token) = Some (Ok (value_of demo_token)).
Proof.
  apply decodeCBOR_encode.
  - exact latin1_roundtrip.
  - cbn [valid demo_token foldr fst snd]. repeat split; try lia.
    repeat (apply list.Forall_cons; split; [lia|]). by apply list.Forall_nil.
  - vm_compute. discriminate.
Defined.

(** ** Half-precision numbers *)

Lemma mul_exact a b m : a * b = m * unit1 -> repr (Z.abs m) -> Z.abs m < max_units ->
  mul (Fin a) (Fin b) = Fin m.
Proof. intros E R M. cbn [mul]. rewrite E. apply fin_round_exact; [apply unit1_pos | done | done]. Qed.

Lemma repr_scaled a k : 0 <= a <= 2 ^ 53 -> 0 <= k -> repr (a * 2 ^ k).
Proof. intros. by exists a, k. Qed.

Lemma pow_below k : k <= 1100 -> 2 ^ k * 2 ^ 20 < max_units.
Proof.
  intros H. apply Z.le_lt_trans with (2 ^ 1100 * 2 ^ 20); [|by vm_compute].
  pose proof (Z.pow_le_mono_r 2 k 1100 ltac:(lia) H). nia.
Qed.

Lemma scaled_below a k : 0 <= a <= 2 ^ 20 -> 0 <= k <= 1100 -> Z.abs (a * 2 ^ k) < max_units.
Proof.
  intros Ha Hk. pose proof (pow2_pos k ltac:(lia)). pose proof (pow_below k ltac:(lia)).
  rewrite Z.abs_eq by nia. nia.
Qed.

(** The sign of a half times a power of two. *)
Definition half_sign (s : bool) : num := if s then of_Z (-1) else of_Z 1.

Lemma half_product (s : bool) k g :
  -14 <= k <= 16 -> 0 <= g <= 2 ^ 11 ->
  mul (mul (half_sign s) (pow2 k)) (Fin (g * 2 ^ 1064)) =
    Fin ((if s then -1 else 1) * (g * 2 ^ (1064 + k))).
Proof.
  intros Hk Hg. pose proof (pow2_pos (1064 + k) ltac:(lia)).
  assert (U : unit1 = 2 ^ 1064 * 2 ^ 10) by reflexivity.
  assert (P : 2 ^ (1074 + k) = 2 ^ (1064 + k) * 2 ^ 10)
    by (rewrite <- Z.pow_add_r by lia; f_equal; lia).
  assert (S : mul (half_sign s) (pow2 k) = Fin ((if s then -1 else 1) * 2 ^ (1074 + k))).
  { unfold half_sign, pow2. pose proof (pow2_pos (1074 + k) ltac:(lia)).
    destruct s; rewrite of_Z_safe by (unfold safe; lia); apply mul_exact.
    1, 4: ring.
    1, 3: (replace (Z.abs _) with (1 * 2 ^ (1074 + k)) by lia); apply repr_scaled; lia.
    all: (replace (Z.abs _) with (Z.abs (1 * 2 ^ (1074 + k))) by lia); apply scaled_below; lia. }
  rewrite S. apply mul_exact.
  - rewrite P, U. ring.
  - replace (Z.abs _) with (g * 2 ^ (1064 + k)) by (destruct s; nia). apply repr_scaled; lia.
  - replace (Z.abs _) with (Z.abs (g * 2 ^ (1064 + k))) by (destruct s; nia).
    apply scaled_below; lia.
Qed.

Lemma half_fraction f : 0 <= f < 1024 -> div (of_Z f) (of_Z 1024) = Fin (f * 2 ^ 1064).
Proof.
  intros H. pose proof unit1_pos. rewrite !of_Z_safe by (unfold safe; lia). cbn [div].
  rewrite (proj2 (Z.eqb_neq (1024 * unit1) 0)), Z.sgn_pos, Z.mul_1_l,
    (Z.abs_eq (1024 * unit1)) by lia.
  replace (f * unit1 * unit1) with (f * 2 ^ 1064 * (1024 * unit1)).
  - apply fin_round_exact; [lia | |]; [|apply scaled_below; lia].
    rewrite Z.abs_eq by (pose proof (pow2_pos 1064); nia). apply repr_scaled; lia.
  - assert (U : unit1 = 2 ^ 1064 * 1024) by reflexivity. rewrite U at 2. ring.
Qed.

Lemma half_significand f : 0 <= f < 1024 ->
  add (of_Z 1) (Fin (f * 2 ^ 1064)) = Fin ((1024 + f) * 2 ^ 1064).
Proof.
  intros H. rewrite of_Z_safe by (unfold safe; lia). cbn [add].
  replace (1 * unit1 + f * 2 ^ 1064) with ((1024 + f) * 2 ^ 1064 * 1).
  - apply fin_round_exact; [lia | |]; [|apply scaled_below; lia].
    rewrite Z.abs_eq by (pose proof (pow2_pos 1064); nia). apply repr_scaled; lia.
  - assert (U : unit1 = 1024 * 2 ^ 1064) by reflexivity. rewrite U. ring.
Qed.

Lemma land_sign n : (Z.land n 0x8000 =? 0) = negb (Z.testbit n 15).
Proof.
  change 0x8000 with (2 ^ 15). destruct (Z.testbit n 15) eqn:E; cbn [negb].
  - apply Z.eqb_neq. intros H. apply (f_equal (fun z => Z.testbit z 15)) in H.
    rewrite Z.land_spec, E, Z.pow2_bits_true, Z.bits_0 in H by lia. done.
  - apply Z.eqb_eq, Z.bits_inj'. intros i Hi. rewrite Z.land_spec, Z.bits_0.
    destruct (Z.eq_dec i 15) as [->|N]; [by rewrite E|].
    by rewrite Z.pow2_bits_false, andb_false_r by lia.
Qed.

(** The half-precision decoder, which multiplies and divides doubles, computes
    the exact value of every 16-bit pattern by the formula of IEEE 754 binary16:
    sign, five exponent bits with bias 15 and ten fraction bits, subnormals,
    infinities and NaN included. *)
Theorem decodeFloat16_exact uint16 :
  0 <= uint16 < 65536 -> decodeFloat16 uint16 = float_bits 5 10 15 uint16.
Proof.
  intros H. unfold decodeFloat16, float_bits. rewrite Z.shiftr_land.
  change (Z.shiftr 0x7c00 10) with 31. change (2 ^ 5 - 1) with 31.
  change (2 ^ 10 - 1) with 1023. change 0x03ff with 1023. change (5 + 10) with 15.
  rewrite land_sign.
  assert (Hf : 0 <= Z.land uint16 1023 < 1024).
  { change 1023 with (Z.ones 10). rewrite Z.land_ones by lia. apply Z.mod_pos_bound. lia. }
  assert (He : 0 <= Z.land (Z.shiftr uint16 10) 31 < 32).
  { change 31 with (Z.ones 5) at 1 2. rewrite Z.land_ones by lia. apply Z.mod_pos_bound. lia. }
  set (e := Z.land (Z.shiftr uint16 10) 31) in *. set (f := Z.land uint16 1023) in *.
  set (s := Z.testbit uint16 15).
  assert (S : (if negb s then of_Z 1 else of_Z (-1)) = half_sign s) by (by destruct s).
  rewrite S. clearbody e f s. clear H S.
  destruct (Z.eqb_spec e 0) as [->|N].
  - cbn [Z.eqb Z.sub Z.add Z.opp Z.pos_sub Pos.pred_double Pos.eqb].
    rewrite half_fraction, half_product by lia.
    destruct s; f_equal; change (1064 + -14) with 1050; change (1075 - 15 - 10) with 1050; ring.
  - change (31 =? 31) with true. destruct (Z.eqb_spec e 31) as [->|N'].
    + destruct (Z.eqb_spec f 0); cbn [negb]; [|done].
      unfold half_sign. destruct s; rewrite of_Z_safe by (unfold safe; lia); reflexivity.
    + rewrite half_fraction, half_significand, half_product by lia.
      change (2 ^ 10) with 1024.
      replace (1064 + (e - 15)) with (1074 + e - 15 - 10) by lia. destruct s; f_equal; ring.
Qed.

Lemma decodeFloat16_exact_witness : decodeFloat16 0x3555 = float_bits 5 10 15 0x3555.
Proof. apply decodeFloat16_exact. lia. Defined.
