(* ===== verification/Fi.v ===== *)
(** The wallet service slice: [ui/common/redux/fi.ts].

    A wallet service is a federation that the bridge forms with guardians it
    pays.  The slice mirrors what the bridge reports of the formation, raises a
    high-water mark so that progress shown is never taken back, holds the quote
    the user is about to pay and the attachment of a Lightning provider.  Thunks
    are the answers of the bridge turned into the actions they dispatch; logging
    goes no further than the decision whether to log.  Amounts in msats cross
    the bridge as decimal strings and are read as bigints, [Z] here. *)
From Stdlib Require Import ZArith Lia Ascii.
From stdpp Require Import base tactics strings list option pretty.
From S2P Require Import Prelude JsNum Js JsStr Upsert Meta Federation.
Local Open Scope string_scope.
Local Open Scope list_scope.
Local Open Scope Z_scope.

(** ** What the bridge reports

    Of a payload, the fields the slice stores and reads; a list whose elements it
    never looks at is a list of values. *)

Inductive RpcFiErrorCode : Type :=
  | invalidIntent | invalidOptions | e_storage | identity | busy | noActiveFormation
  | abandonUnavailable | registry | selection | selectionReauthorizationRequired
  | capabilityUnavailable | invalidFleetManagers | fleetManager | payment | liquidity
  | maintenanceWrongState | maintenanceRejected | maintenanceConsensusTooLarge
  | maintenanceConsensusInvalid | maintenanceConvergence | pushNotifications | timeout.

Inductive RpcFiOperationErrorDetail : Type :=
  | InsufficientFmanSeats (requested selected seen eligible : num)
  | SelectionReauthorizationRequired (reason : string)
  | AbandonUnavailable (reason : string).

Record RpcFiOperationError := mkError {
  error_code : RpcFiErrorCode;
  message : string;
  detail : option RpcFiOperationErrorDetail
}.

Inductive RpcFiFormationPhase : Type :=
  | preparing | awaitingPaymentReadiness | acquiringSeats | preparingDkg
  | p_dkgUnderway | publishingSeatBindings | formed.

Inductive RpcFiFormationFreshness : Type := fresh | unsynced.

Inductive RpcFiSeatPhase : Type :=
  | selected | replacementRequired | quoteReady | acquiring | created
  | guardianCodeReady | dkgUnderway | running.

#[export] Instance RpcFiErrorCode_eq_dec : EqDecision RpcFiErrorCode.
Proof. solve_decision. Defined.
#[export] Instance RpcFiFormationPhase_eq_dec : EqDecision RpcFiFormationPhase.
Proof. solve_decision. Defined.
#[export] Instance RpcFiFormationFreshness_eq_dec : EqDecision RpcFiFormationFreshness.
Proof. solve_decision. Defined.
#[export] Instance RpcFiSeatPhase_eq_dec : EqDecision RpcFiSeatPhase.
Proof. solve_decision. Defined.

Record RpcFiFormationMilestones := mkMilestones {
  ecashSent : bool;
  guardiansConfirmed : bool;
  walletServiceCreated : bool
}.

#[export] Instance RpcFiFormationMilestones_eq_dec : EqDecision RpcFiFormationMilestones.
Proof. solve_decision. Defined.

(** Of a seat, only its phase is read. *)
Record RpcFiSeatProgress := mkSeatProgress {
  seat_index : num;
  seat_phase : RpcFiSeatPhase
}.

Record RpcFiSeatPaymentRequirement := mkSeatPayment {
  paymentFederationId : string;
  amountMsats : string
}.

Record RpcFiPaymentRequirements := mkRequirements {
  authorizationId : string;
  totalMsats : string;
  maxTotalMsats : option string;
  seats : list RpcFiSeatPaymentRequirement
}.

Record RpcFiGuardianReplacementRequirements := mkReplacement {
  replacementId : string;
  replacement_seats : list jval
}.

Inductive RpcFiFormationActionRequired : Type :=
  | authorizePayments (requirements : RpcFiPaymentRequirements)
  | authorizeReplacementPayments (requirements : RpcFiPaymentRequirements)
  | replaceGuardians (requirements : RpcFiGuardianReplacementRequirements).

Record RpcFiResolvedFormationIntent := mkIntent {
  federationName : string;
  federationSize : num;
  guardianFeePpm : num;
  intent_maxTotalMsats : option string
}.

Record RpcFiFormationSnapshot := mkFormation {
  formationId : string;
  phase : RpcFiFormationPhase;
  intent : RpcFiResolvedFormationIntent;
  formation_seats : list RpcFiSeatProgress;
  freshness : RpcFiFormationFreshness;
  actionRequired : option RpcFiFormationActionRequired;
  paymentOutputsStarted : bool;
  milestones : RpcFiFormationMilestones;
  inviteCode : option string;
  lastError : option RpcFiErrorCode
}.

Inductive RpcFiStatus : Type :=
  | idle
  | formation (f : RpcFiFormationSnapshot).

Inductive RpcFiClientStatus : Type :=
  | ready (status : RpcFiStatus)
  | failed (error : RpcFiOperationError).

Inductive RpcFiLiquidityItemPhase : Type :=
  | pending | item_running | item_actionRequired | completed | item_failed | cancelled.

Inductive RpcFiLiquidityItemTarget : Type := gateway | stabilityPool.

Record RpcFiLiquidityItemStatus := mkItem {
  target : RpcFiLiquidityItemTarget;
  item_phase : RpcFiLiquidityItemPhase
}.

Inductive RpcFiLiquidityOperationPhase : Type := prepared | accepted | rejected.

Record RpcFiLiquidityOperation := mkOperation {
  operationId : string;
  op_formationId : string;
  op_phase : RpcFiLiquidityOperationPhase;
  itemStatuses : option (list RpcFiLiquidityItemStatus);
  gatewayViewVerified : bool
}.

Record RpcFiSelectionPreview := mkPreview {
  previewId : string;
  totalAdvertisedMsats : string;
  preview_seats : list jval
}.

Record RpcFiReplacementPreview := mkReplacementPreview {
  replacement_previewId : string;
  requirements : RpcFiGuardianReplacementRequirements;
  replacement_totalMsats : string
}.

Record RpcFiEligiblePayer := mkPayer {
  payer_federationId : string;
  balanceMsats : string
}.

(** ** Constants *)

Definition WALLET_SERVICE_SIZE_OPTIONS : list Z := [7; 10; 13; 16; 19].
Definition RECOMMENDED_WALLET_SERVICE_SIZE : Z := 10.
Definition MIN_WALLET_SERVICE_SIZE : Z := default 0 (head WALLET_SERVICE_SIZE_OPTIONS).
Definition MAX_WALLET_SERVICE_SIZE : Z := default 0 (last WALLET_SERVICE_SIZE_OPTIONS).

Definition PPM_DENOMINATOR : num := of_Z 1000000.

Definition guardianFeePercentToPpm (percent : num) : num :=
  floor (mul percent (div PPM_DENOMINATOR (of_Z 100))).

Definition guardianFeePpmToPercent (ppm : num) : num :=
  mul (div ppm PPM_DENOMINATOR) (of_Z 100).

Definition walletServiceFaultTolerance (size : num) : num :=
  floor (div (sub size (of_Z 1)) (of_Z 3)).

(** ** The slice *)

Record WalletServiceDraft := mkDraft { name : string; size : num }.

Record CreationHighWaterMark := mkMark {
  mark_formationId : string;
  stage : Z;
  isComplete : bool;
  hasFormed : bool
}.

Record FiLiquidity := mkLiquidity {
  operation : option RpcFiLiquidityOperation;
  hasRead : bool;
  errorCode : option RpcFiErrorCode;
  isRequesting : bool
}.

Record FiState := mkFi {
  status : option RpcFiStatus;
  clientError : option RpcFiOperationError;
  creationHighWaterMark : option CreationHighWaterMark;
  draft : WalletServiceDraft;
  selectionPreview : option RpcFiSelectionPreview;
  replacementPreview : option RpcFiReplacementPreview;
  eligiblePayers : option (list RpcFiEligiblePayer);
  payerError : option RpcFiOperationError;
  operationError : option RpcFiOperationError;
  fi_liquidity : FiLiquidity
}.

#[export] Instance FiLiquidity_eta : Eta FiLiquidity := fun l =>
  mkLiquidity (operation l) (hasRead l) (errorCode l) (isRequesting l).
#[export] Instance FiState_eta : Eta FiState := fun s =>
  mkFi (status s) (clientError s) (creationHighWaterMark s) (draft s) (selectionPreview s)
    (replacementPreview s) (eligiblePayers s) (payerError s) (operationError s)
    (fi_liquidity s).

Definition NO_LIQUIDITY_READ : FiLiquidity := mkLiquidity None false None false.

Definition fi_initialState : FiState :=
  mkFi None None None (mkDraft "" (of_Z RECOMMENDED_WALLET_SERVICE_SIZE)) None None None None
    None NO_LIQUIDITY_READ.

Definition getWalletServiceCreationStage (f : RpcFiFormationSnapshot) : Z :=
  if guardiansConfirmed (milestones f) then 3
  else if ecashSent (milestones f) then 2
  else 1.

Definition is_formed (f : RpcFiFormationSnapshot) : bool := bool_decide (phase f = formed).

Definition formationIsComplete (f : RpcFiFormationSnapshot) : bool :=
  is_formed f || walletServiceCreated (milestones f).

(** The mark, when it is the mark of the formation [f]. *)
Definition mark_of_formation (f : RpcFiFormationSnapshot) (m : option CreationHighWaterMark)
    : option CreationHighWaterMark :=
  match m with
  | Some m => if decide (mark_formationId m = formationId f) then Some m else None
  | None => None
  end.

Definition recordCreationHighWaterMark (s : FiState) : FiState :=
  match status s with
  | Some (formation f) =>
      let previous := mark_of_formation f (creationHighWaterMark s) in
      s <| creationHighWaterMark := Some (mkMark (formationId f)
        (Z.max (getWalletServiceCreationStage f) (from_option stage 1 previous))
        (formationIsComplete f || from_option isComplete false previous)
        (is_formed f || from_option hasFormed false previous)) |>
  | _ => s <| creationHighWaterMark := None |>
  end.

Definition setFiStatus (payload : RpcFiStatus) (s : FiState) : FiState :=
  recordCreationHighWaterMark (s <| status := Some payload |> <| clientError := None |>).

Definition setFiClientStatus (payload : RpcFiClientStatus) (s : FiState) : FiState :=
  match payload with
  | ready st =>
      recordCreationHighWaterMark (s <| status := Some st |> <| clientError := None |>)
  | failed e => s <| clientError := Some e |>
  end.

(** The payload is a partial draft: an absent field keeps its value. *)
Definition setWalletServiceDraft (name' : option string) (size' : option num) (s : FiState)
    : FiState :=
  s <| draft := mkDraft (default (name (draft s)) name') (default (size (draft s)) size') |>.

Definition clearFiOperationError (s : FiState) : FiState := s <| operationError := None |>.

Definition selectFiFormation (s : FiState) : option RpcFiFormationSnapshot :=
  match status s with Some (formation f) => Some f | _ => None end.

Definition setFiLiquidityOperation (payload : RpcFiLiquidityOperation) (s : FiState) : FiState :=
  let currentFormationId := default "" (formationId <$> selectFiFormation s) in
  if negb (bool_decide (currentFormationId = "")) &&
     negb (bool_decide (op_formationId payload = currentFormationId)) then s
  else s <| fi_liquidity := mkLiquidity (Some payload) true None false |>.

Definition recordFiLiquidityAbsent (s : FiState) : FiState :=
  s <| fi_liquidity := fi_liquidity s <| hasRead := true |> |>.

Definition setFiLiquidityRequesting (b : bool) (s : FiState) : FiState :=
  s <| fi_liquidity := fi_liquidity s <| isRequesting := b |> |>.

Definition clearFiLiquidity (s : FiState) : FiState :=
  s <| fi_liquidity := mkLiquidity None false None false |>.

Definition setFiLiquidityError (e : RpcFiErrorCode) (s : FiState) : FiState :=
  s <| fi_liquidity := mkLiquidity (operation (fi_liquidity s)) true (Some e) false |>.

Definition clearFiLiquidityError (s : FiState) : FiState :=
  s <| fi_liquidity := fi_liquidity s <| errorCode := None |> |>.

Definition clearWalletServiceSelectionPreview (s : FiState) : FiState :=
  s <| selectionPreview := None |> <| eligiblePayers := None |> <| payerError := None |>.

(** ** Thunks

    A thunk dispatches [pending] when it is called and [fulfilled] or
    [rejected] when the bridge has answered.  A rejection carries the error the
    bridge reported, or none when the call itself threw. *)

Definition rpc_result (A : Type) : Type := sum RpcFiOperationError A.

Record PreparedPayment := mkPrepared {
  prepared_preview : RpcFiSelectionPreview;
  prepared_payers : list RpcFiEligiblePayer;
  prepared_payerError : option RpcFiOperationError
}.

(** What the payer lookup says: no payers when it failed. *)
Definition payers_answer (r : rpc_result (list RpcFiEligiblePayer))
    : list RpcFiEligiblePayer * option RpcFiOperationError :=
  match r with
  | inl e => ([], Some e)
  | inr payers => (payers, None)
  end.

Definition prepareWalletServicePayment (previewResult : rpc_result RpcFiSelectionPreview)
    (payersResult : rpc_result (list RpcFiEligiblePayer)) : rpc_result PreparedPayment :=
  match previewResult with
  | inl e => inl e
  | inr preview =>
      let '(payers, e) := payers_answer payersResult in inr (mkPrepared preview payers e)
  end.

Definition prepareWalletServicePayment_pending (s : FiState) : FiState :=
  s <| operationError := None |> <| payerError := None |>.

Definition prepareWalletServicePayment_fulfilled (p : PreparedPayment) (s : FiState) : FiState :=
  s <| selectionPreview := Some (prepared_preview p) |>
    <| eligiblePayers := Some (prepared_payers p) |>
    <| payerError := prepared_payerError p |>.

Definition operation_rejected (payload : option RpcFiOperationError) (s : FiState) : FiState :=
  s <| operationError := payload |>.

Definition refreshWalletServiceEligiblePayers_fulfilled
    (r : rpc_result (list RpcFiEligiblePayer)) (s : FiState) : FiState :=
  let '(payers, e) := payers_answer r in
  s <| eligiblePayers := Some payers |> <| payerError := e |>.

(** [fiClientPayAndCreate] *)
Record PayAndCreate := mkPayAndCreate {
  pay_previewId : string;
  pay_federationName : option string;
  pay_federationSize : num;
  pay_paymentFederationId : string;
  pay_maxTotalMsats : string
}.

(** The request sent, or the error without one. *)
Definition createWalletService (s : FiState) (payFrom : string) : rpc_result PayAndCreate :=
  match selectionPreview s with
  | None => inl (mkError selection "no selection preview to pay for" None)
  | Some preview =>
      inr (mkPayAndCreate (previewId preview)
        (if decide (name (draft s) = "") then None else Some (name (draft s)))
        (size (draft s)) payFrom (totalAdvertisedMsats preview))
  end.

Definition createWalletService_fulfilled (s : FiState) : FiState :=
  s <| selectionPreview := None |> <| eligiblePayers := None |> <| payerError := None |>.

Definition createWalletService_rejected (payload : option RpcFiOperationError) (s : FiState)
    : FiState :=
  let s := s <| operationError := payload |> in
  match payload ≫= detail with
  | Some (SelectionReauthorizationRequired _) => s <| selectionPreview := None |>
  | _ => s
  end.

Definition previewWalletServiceReplacements_fulfilled (p : RpcFiReplacementPreview)
    (s : FiState) : FiState :=
  s <| replacementPreview := Some p |>.

Definition previewWalletServiceReplacements_rejected (payload : option RpcFiOperationError)
    (s : FiState) : FiState :=
  s <| replacementPreview := None |> <| operationError := payload |>.

Definition applyWalletServiceReplacements_fulfilled (s : FiState) : FiState :=
  s <| replacementPreview := None |>.

Definition applyWalletServiceReplacements_rejected (payload : option RpcFiOperationError)
    (s : FiState) : FiState :=
  s <| replacementPreview := None |> <| operationError := payload |>.

(** [createWalletService], [authorizeWalletServicePayments],
    [previewWalletServiceReplacements], [applyWalletServiceReplacements] and
    [resumeWalletService] start by forgetting the last error. *)
Definition operation_pending (s : FiState) : FiState := s <| operationError := None |>.

Inductive fi_action : Type :=
  | SetFiClientStatus (st : RpcFiClientStatus)
  | SetFiStatus (st : RpcFiStatus)
  | SetWalletServiceDraft (name' : option string) (size' : option num)
  | ClearFiOperationError
  | SetFiLiquidityOperation (op : RpcFiLiquidityOperation)
  | RecordFiLiquidityAbsent
  | SetFiLiquidityRequesting (b : bool)
  | ClearFiLiquidity
  | SetFiLiquidityError (e : RpcFiErrorCode)
  | ClearFiLiquidityError
  | ClearWalletServiceSelectionPreview
  | PreparePending
  | PrepareAnswer (preview : rpc_result RpcFiSelectionPreview)
      (payers : rpc_result (list RpcFiEligiblePayer))
  | PayersAnswer (payers : rpc_result (list RpcFiEligiblePayer))
  | OperationPending
  | CreateFulfilled
  | CreateRejected (e : option RpcFiOperationError)
  | ReplacementPreviewed (p : RpcFiReplacementPreview)
  | ReplacementRejected (e : option RpcFiOperationError)
  | ReplacementApplied
  | OperationRejected (e : option RpcFiOperationError).

(** [fiSlice.reducer] *)
Definition fi_reduce (s : FiState) (a : fi_action) : FiState :=
  match a with
  | SetFiClientStatus st => setFiClientStatus st s
  | SetFiStatus st => setFiStatus st s
  | SetWalletServiceDraft n sz => setWalletServiceDraft n sz s
  | ClearFiOperationError => clearFiOperationError s
  | SetFiLiquidityOperation op => setFiLiquidityOperation op s
  | RecordFiLiquidityAbsent => recordFiLiquidityAbsent s
  | SetFiLiquidityRequesting b => setFiLiquidityRequesting b s
  | ClearFiLiquidity => clearFiLiquidity s
  | SetFiLiquidityError e => setFiLiquidityError e s
  | ClearFiLiquidityError => clearFiLiquidityError s
  | ClearWalletServiceSelectionPreview => clearWalletServiceSelectionPreview s
  | PreparePending => prepareWalletServicePayment_pending s
  | PrepareAnswer preview payers =>
      match prepareWalletServicePayment preview payers with
      | inr p => prepareWalletServicePayment_fulfilled p s
      | inl e => operation_rejected (Some e) s
      end
  | PayersAnswer payers => refreshWalletServiceEligiblePayers_fulfilled payers s
  | OperationPending => operation_pending s
  | CreateFulfilled => createWalletService_fulfilled s
  | CreateRejected e => createWalletService_rejected e s
  | ReplacementPreviewed p => previewWalletServiceReplacements_fulfilled p s
  | ReplacementRejected e => previewWalletServiceReplacements_rejected e s
  | ReplacementApplied => applyWalletServiceReplacements_fulfilled s
  | OperationRejected e => operation_rejected e s
  end.

Definition fi_run (l : list fi_action) : FiState := foldl fi_reduce fi_initialState l.

(** ** Selectors *)

Definition selectWalletServiceEligiblePayerIds (s : FiState) : list string :=
  payer_federationId <$> default [] (eligiblePayers s).

Definition selectCanSubmitWalletServiceDraft (s : FiState) : bool :=
  leb (of_Z MIN_WALLET_SERVICE_SIZE) (size (draft s)).

Inductive WalletServicePayerAvailability : Type :=
  | a_unknown | available | noTrustedFederation | lookupFailed.

Definition selectWalletServicePayerAvailability (s : FiState) : WalletServicePayerAvailability :=
  match payerError s, eligiblePayers s with
  | Some _, _ => lookupFailed
  | None, None => a_unknown
  | None, Some [] => noTrustedFederation
  | None, Some (_ :: _) => available
  end.

Definition selectWalletServiceCreationProgress (s : FiState) : option (Z * bool) :=
  match selectFiFormation s with
  | None => None
  | Some f =>
      let mark := mark_of_formation f (creationHighWaterMark s) in
      Some (Z.max (getWalletServiceCreationStage f) (from_option stage 0 mark),
            formationIsComplete f || from_option isComplete false mark)
  end.

Definition selectIsWalletServiceFormed (s : FiState) : bool :=
  from_option is_formed false (selectFiFormation s) ||
  from_option hasFormed false (creationHighWaterMark s).

Definition selectIsWalletServiceMaintenanceReady (s : FiState) : bool :=
  from_option is_formed false (selectFiFormation s).

Inductive FlowStatus : Type := f_unknown | f_none | inProgress | f_formed.

Definition selectWalletServiceFlowStatus (s : FiState) : FlowStatus :=
  match status s with
  | None => f_unknown
  | Some idle => f_none
  | Some (formation f) => if is_formed f then f_formed else inProgress
  end.

Inductive WalletServiceLightningStage : Type :=
  | requested | allocating | providerComplete | verifying | l_ready | l_actionRequired.

Definition is_gateway (i : RpcFiLiquidityItemStatus) : bool :=
  match target i with gateway => true | stabilityPool => false end.

Definition findGatewayItem (op : RpcFiLiquidityOperation) : option RpcFiLiquidityItemStatus :=
  head (filter (fun i => is_gateway i) (default [] (itemStatuses op))).

Definition toLightningStage (op : RpcFiLiquidityOperation) : WalletServiceLightningStage :=
  if gatewayViewVerified op then l_ready
  else match item_phase <$> findGatewayItem op with
  | None => requested
  | Some item_actionRequired => l_actionRequired
  | Some completed => verifying
  | Some item_running => allocating
  | Some _ => requested
  end.

Inductive WalletServiceLightningStatus : Type :=
  | l_unknown | l_idle | attaching | attached | l_failed.

(** The slice of the initial state has the key [liquidity], so the default for
    its absence is never taken. *)
Definition selectWalletServiceLightningStatus (s : FiState) : WalletServiceLightningStatus :=
  let l := fi_liquidity s in
  if negb (hasRead l) then l_unknown
  else match errorCode l with
  | Some _ => l_failed
  | None =>
      match operation l with
      | None => l_idle
      | Some op =>
          match op_phase op with
          | rejected => l_failed
          | _ => if gatewayViewVerified op then attached else attaching
          end
      end
  end.

Definition selectWalletServiceLightningStage (s : FiState) : option WalletServiceLightningStage :=
  toLightningStage <$> operation (fi_liquidity s).

Definition selectIsWalletServiceLightningRunning (s : FiState) : bool :=
  match selectWalletServiceLightningStatus s with attaching => true | _ => false end.

Definition selectFiPaymentRequirements (s : FiState) : option RpcFiPaymentRequirements :=
  match selectFiFormation s ≫= actionRequired with
  | Some (authorizePayments r) | Some (authorizeReplacementPayments r) => Some r
  | _ => None
  end.

Definition selectFiReplacementRequirements (s : FiState)
    : option RpcFiGuardianReplacementRequirements :=
  match selectFiFormation s ≫= actionRequired with
  | Some (replaceGuardians r) => Some r
  | _ => None
  end.

Definition SEAT_PHASE_COUNTS_AS_CONFIRMED (p : RpcFiSeatPhase) : bool :=
  match p with
  | selected | replacementRequired | quoteReady | acquiring | created => false
  | guardianCodeReady | dkgUnderway | running => true
  end.

Definition selectWalletServiceGuardianProgress (s : FiState) : option (nat * nat) :=
  f ← selectFiFormation s;
  match formation_seats f with
  | [] => None
  | l => Some (length (filter (fun x => SEAT_PHASE_COUNTS_AS_CONFIRMED (seat_phase x)) l), length l)
  end.

Definition TERMINAL_FI_ERROR_CODES : list RpcFiErrorCode :=
  [invalidIntent; invalidOptions; abandonUnavailable].

Definition isTerminalWalletServiceError (c : option RpcFiErrorCode) : bool :=
  match c with Some c => bool_decide (c ∈ TERMINAL_FI_ERROR_CODES) | None => false end.

Definition selectFiInviteCode (s : FiState) : option string := selectFiFormation s ≫= inviteCode.
Definition selectFiFormationName (s : FiState) : option string :=
  (fun f => federationName (intent f)) <$> selectFiFormation s.
Definition selectFiLastErrorCode (s : FiState) : option RpcFiErrorCode :=
  selectFiFormation s ≫= lastError.
Definition selectFiIsUnsynced (s : FiState) : bool :=
  match freshness <$> selectFiFormation s with Some unsynced => true | _ => false end.
Definition selectWalletServiceMaxTotalMsats (s : FiState) : option string :=
  selectFiFormation s ≫= (fun f => intent_maxTotalMsats (intent f)).

(** ** Messages of errors *)

Definition error_generic : string := "feature.wallet-service.error-generic".

Definition FI_ERROR_MESSAGE_KEYS (c : RpcFiErrorCode) : string :=
  match c with
  | abandonUnavailable => "feature.wallet-service.error-abandon-unavailable"
  | busy => "feature.wallet-service.error-busy"
  | capabilityUnavailable => "feature.wallet-service.error-capability-unavailable"
  | fleetManager => "feature.wallet-service.error-fleet-manager"
  | identity => "feature.wallet-service.error-generic"
  | invalidFleetManagers => "feature.wallet-service.error-invalid-fleet-managers"
  | invalidIntent => "feature.wallet-service.error-invalid-intent"
  | invalidOptions => "feature.wallet-service.error-invalid-options"
  | liquidity => "feature.wallet-service.error-liquidity"
  | maintenanceConsensusInvalid => "feature.wallet-service.error-maintenance-invalid"
  | maintenanceConsensusTooLarge => "feature.wallet-service.error-maintenance-too-large"
  | maintenanceConvergence => "feature.wallet-service.error-maintenance-timeout"
  | maintenanceRejected => "feature.wallet-service.error-maintenance-rejected"
  | maintenanceWrongState => "feature.wallet-service.error-maintenance-wrong-state"
  | noActiveFormation => "feature.wallet-service.error-no-active-formation"
  | payment => "feature.wallet-service.error-payment"
  | pushNotifications => "feature.wallet-service.error-push-notifications"
  | registry => "feature.wallet-service.error-registry"
  | selection => "feature.wallet-service.error-selection"
  | selectionReauthorizationRequired => "feature.wallet-service.error-selection-changed"
  | e_storage => "feature.wallet-service.error-generic"
  | timeout => "feature.wallet-service.error-timeout"
  end.

Definition getWalletServiceErrorKey (c : option RpcFiErrorCode) : string :=
  match c with Some c => FI_ERROR_MESSAGE_KEYS c | None => error_generic end.

(** ** Bigints *)

Definition decimal_integer (l : list Ascii.ascii) : result Z :=
  match take_digits 10 0 0 l with
  | (n, cnt, []) => if cnt =? 0 then Throw "SyntaxError" else Ok n
  | _ => Throw "SyntaxError"
  end.

Definition radix_integer (radix : Z) (l : list Ascii.ascii) : result Z :=
  match take_digits radix 0 0 l with
  | (n, cnt, []) => if cnt =? 0 then Throw "SyntaxError" else Ok n
  | _ => Throw "SyntaxError"
  end.

Definition signed_integer (l : list Ascii.ascii) : result Z :=
  match l with
  | [] => Ok 0
  | c :: l' =>
      if JsStr.code c =? 43 then decimal_integer l'
      else if JsStr.code c =? 45 then n ← decimal_integer l'; Ok (- n)
      else decimal_integer l
  end.

(** [BigInt(s)] of a string *)
Definition bigint_of_string (s : string) : result Z :=
  let l := trim (chars s) in
  match l with
  | z :: x :: l' =>
      if JsStr.code z =? 48 then
        if (JsStr.code x =? 120) || (JsStr.code x =? 88) then radix_integer 16 l'
        else if (JsStr.code x =? 111) || (JsStr.code x =? 79) then radix_integer 8 l'
        else if (JsStr.code x =? 98) || (JsStr.code x =? 66) then radix_integer 2 l'
        else signed_integer l
      else signed_integer l
  | _ => signed_integer l
  end.

(** [BigInt(n)] of a number *)
Definition bigint_of_num (n : num) : result Z :=
  match n with
  | Fin m => if m mod unit1 =? 0 then Ok (m / unit1) else Throw "RangeError"
  | _ => Throw "RangeError"
  end.

(** ** Paying *)

Definition selectCanPayForWalletService (s : FiState) (fed : FederationState)
    (federationId : string) : result bool :=
  let balanceMsats :=
    if decide (federationId = "") then of_Z 0
    else Federation.selectFederationBalance fed federationId in
  match selectionPreview s, eligiblePayers s with
  | Some preview, Some payers =>
      if decide (federationId = "") then Ok false
      else if decide (federationId ∈ payer_federationId <$> payers) then
        balance ← bigint_of_num balanceMsats;
        total ← bigint_of_string (totalAdvertisedMsats preview);
        Ok (total <=? balance)
      else Ok false
  | _, _ => Ok false
  end.

Record WalletServicePaymentShortfall := mkShortfall {
  short_federationId : string;
  shortfallMsats : Z;
  requiredMsats : Z
}.

(** [requiredByPayer.set(id, (requiredByPayer.get(id) ?? 0n) + amount)]: a map
    keeps the order in which its keys were first added. *)
Fixpoint add_required (id : string) (amount : Z) (l : list (string * Z)) : list (string * Z) :=
  match l with
  | [] => [(id, amount)]
  | (id', a) :: l =>
      if decide (id = id') then (id', a + amount) :: l else (id', a) :: add_required id amount l
  end.

Definition requiredByPayer (seats : list RpcFiSeatPaymentRequirement)
    : result (list (string * Z)) :=
  foldM (fun m seat =>
    amount ← bigint_of_string (amountMsats seat);
    Ok (add_required (paymentFederationId seat) amount m)) [] seats.

(** [l.join('|')] *)
Fixpoint join_bar (l : list string) : string :=
  match l with
  | [] => ""
  | [x] => x
  | x :: l => x +:+ "|" +:+ join_bar l
  end.

Definition balance_key (fed : FederationState) (id : string) : string :=
  id +:+ ":" +:+ num_string (Federation.selectFederationBalance fed id).

Definition shortfall_key (fed : FederationState) (r : RpcFiPaymentRequirements)
    (payers : list (string * Z)) : string :=
  join_bar (authorizationId r :: totalMsats r :: ((fun p => balance_key fed p.1) <$> payers)).

(** The loop over the payers: the first one whose balance does not suffice. *)
Fixpoint first_shortfall (fed : FederationState) (payers : list (string * Z))
    : result (option WalletServicePaymentShortfall) :=
  match payers with
  | [] => Ok None
  | (id, required) :: payers =>
      balance ← bigint_of_num (Federation.selectFederationBalance fed id);
      if balance <? required
      then Ok (Some (mkShortfall id (required - balance) required))
      else first_shortfall fed payers
  end.

(** [lastShortfallKey] and [lastShortfallResult] *)
Definition shortfall_memo : Type := option string * option WalletServicePaymentShortfall.

(** The answer, and the memo it leaves. *)
Definition selectWalletServicePaymentShortfall (s : FiState) (fed : FederationState)
    (memo : shortfall_memo)
    : result (option WalletServicePaymentShortfall) * shortfall_memo :=
  match selectFiPaymentRequirements s with
  | None => (Ok None, memo)
  | Some r =>
      match requiredByPayer (seats r) with
      | Throw e => (Throw e, memo)
      | Ok payers =>
          let key := shortfall_key fed r payers in
          if decide (Some key = memo.1) then (Ok memo.2, memo)
          else
            match first_shortfall fed payers with
            | Ok res => (Ok res, (Some key, res))
            | Throw e => (Throw e, (Some key, None))
            end
      end
  end.

(** ** Logging *)

(** The number of seats in each phase, in the order the phases first occur. *)
Fixpoint bump (p : RpcFiSeatPhase) (l : list (RpcFiSeatPhase * Z)) : list (RpcFiSeatPhase * Z) :=
  match l with
  | [] => [(p, 1)]
  | (q, n) :: l => if decide (p = q) then (q, n + 1) :: l else (q, n) :: bump p l
  end.

Definition tallySeatPhases (l : list RpcFiSeatProgress) : list (RpcFiSeatPhase * Z) :=
  foldl (fun tally seat => bump (seat_phase seat) tally) [] l.

Inductive action_type : Type := t_authorize | t_authorizeReplacement | t_replace.

#[export] Instance action_type_eq_dec : EqDecision action_type.
Proof. solve_decision. Defined.

Definition type_of_action (a : RpcFiFormationActionRequired) : action_type :=
  match a with
  | authorizePayments _ => t_authorize
  | authorizeReplacementPayments _ => t_authorizeReplacement
  | replaceGuardians _ => t_replace
  end.

Inductive summary : Type :=
  | SFailed (errorCode : RpcFiErrorCode) (errorMessage : string)
  | SIdle
  | SFormation (formationId : string) (phase : RpcFiFormationPhase)
      (freshness : RpcFiFormationFreshness) (actionRequired : option action_type)
      (lastError : option RpcFiErrorCode) (paymentOutputsStarted hasInviteCode : bool)
      (milestones : RpcFiFormationMilestones) (seats : list (RpcFiSeatPhase * Z)).

(** [JSON.stringify] separates different summaries, so comparing the texts is
    comparing the summaries. *)
#[export] Instance summary_eq_dec : EqDecision summary.
Proof. solve_decision. Defined.

Definition summarizeFiClientStatus (st : RpcFiClientStatus) : summary :=
  match st with
  | failed e => SFailed (error_code e) (message e)
  | ready idle => SIdle
  | ready (formation f) =>
      SFormation (formationId f) (phase f) (freshness f) (type_of_action <$> actionRequired f)
        (lastError f) (paymentOutputsStarted f) (bool_decide (is_Some (inviteCode f)))
        (milestones f) (tallySeatPhases (formation_seats f))
  end.

Inductive level : Type := info | warn | error.

Definition level_of (fields : summary) : level :=
  match fields with
  | SFailed _ _ => error
  | SFormation _ _ _ _ (Some _) _ _ _ _ => warn
  | _ => info
  end.

Definition describeFiClientStatusChange (previous : option RpcFiClientStatus)
    (next : RpcFiClientStatus) : option (level * summary) :=
  let fields := summarizeFiClientStatus next in
  if decide (summarizeFiClientStatus <$> previous = Some fields) then None
  else Some (level_of fields, fields).

(** The lines logged and the status held as the previous one. *)
Definition logFiClientStatusChange (acc : list (level * summary) * option RpcFiClientStatus)
    (next : RpcFiClientStatus) : list (level * summary) * option RpcFiClientStatus :=
  ((acc.1 ++ option_list (describeFiClientStatusChange acc.2 next))%list, Some next).

(** ** Progress is never taken back *)

(** The status an action reports. *)
Definition reported (a : fi_action) : option RpcFiStatus :=
  match a with
  | SetFiClientStatus (ready st) | SetFiStatus st => Some st
  | _ => None
  end.

(** The snapshots of the current formation, the latest first: back to the last
    report of no formation or of another one. *)
Fixpoint episode_of (l : list RpcFiStatus) : list RpcFiFormationSnapshot :=
  match l with
  | formation f :: l =>
      f :: match episode_of l with
           | g :: gs => if decide (formationId g = formationId f) then g :: gs else []
           | [] => []
           end
  | _ => []
  end.

Definition episode (l : list fi_action) : list RpcFiFormationSnapshot :=
  episode_of (rev (omap reported l)).

Definition max_stage (fs : list RpcFiFormationSnapshot) : Z :=
  foldr (fun f => Z.max (getWalletServiceCreationStage f)) 1 fs.

(** The mark that a formation's snapshots leave. *)
Definition mark_of (fs : list RpcFiFormationSnapshot) : option CreationHighWaterMark :=
  match fs with
  | [] => None
  | f :: _ => Some (mkMark (formationId f) (max_stage fs)
                (existsb formationIsComplete fs) (existsb is_formed fs))
  end.

Lemma mark_of_formation_mark_of f fs :
  mark_of_formation f (mark_of fs) =
    mark_of (match fs with
             | g :: gs => if decide (formationId g = formationId f) then g :: gs else []
             | [] => []
             end).
Proof. destruct fs as [|g gs]; [done|]. cbn. by case_decide. Qed.

(** One report, on a state that carries the mark of the episode so far. *)
Lemma record_mark s f fs :
  status s = Some (formation f) -> creationHighWaterMark s = mark_of fs ->
  creationHighWaterMark (recordCreationHighWaterMark s) =
    mark_of (f :: match fs with
                  | g :: gs => if decide (formationId g = formationId f) then g :: gs else []
                  | [] => []
                  end).
Proof.
  intros S M. unfold recordCreationHighWaterMark. rewrite S, M, mark_of_formation_mark_of.
  destruct fs as [|g gs]; [|case_decide]; cbn; try done;
    by rewrite ?orb_false_r, ?Z.max_comm.
Qed.

Lemma record_status s : status (recordCreationHighWaterMark s) = status s.
Proof.
  unfold recordCreationHighWaterMark. by destruct (status s) as [[|f]|] eqn:E; cbn; rewrite E.
Qed.

Lemma report_step st s (l : list RpcFiStatus) s' :
  creationHighWaterMark s = mark_of (episode_of l) ->
  s' = recordCreationHighWaterMark (s <| status := Some st |> <| clientError := None |>) ->
  status s' = Some st /\ creationHighWaterMark s' = mark_of (episode_of (st :: l)).
Proof.
  intros M ->. split; [by rewrite record_status|].
  destruct st as [|f]; [done|]. by apply record_mark.
Qed.

(** The other actions leave the status and the mark alone. *)
Lemma reduce_unreported s a :
  reported a = None ->
  status (fi_reduce s a) = status s /\
  creationHighWaterMark (fi_reduce s a) = creationHighWaterMark s.
Proof.
  destruct a as [st|st|n sz| |op| |b| |e| | | |preview payers|payers| | |e|p|e| |e];
    intros R; try done.
  - by destruct st.
  - cbn. unfold setFiLiquidityOperation. by case_if.
  - cbn. destruct preview; [done|]. by destruct payers.
  - cbn. by destruct payers.
  - cbn. unfold createWalletService_rejected.
    by destruct (e ≫= detail) as [[]|].
Qed.

Lemma run_mark l :
  status (fi_run l) = head (rev (omap reported l)) /\
  creationHighWaterMark (fi_run l) = mark_of (episode l).
Proof.
  induction l as [|a l [IHs IHm]] using rev_ind; [done|].
  unfold episode, fi_run. rewrite foldl_app, omap_app, rev_app_distr. cbn [foldl].
  fold (fi_run l). destruct (reported a) as [st|] eqn:R.
  - cbn [omap list_omap]. rewrite R. cbn [rev app head].
    destruct a as [[]|?| | | | | | | | | | | | | | | | | | | ]; try discriminate R;
      apply (f_equal (fun o => default st o)) in R; cbn in R; subst st;
      by eapply report_step.
  - destruct (reduce_unreported (fi_run l) a R) as [-> ->].
    cbn [omap list_omap]. rewrite R. done.
Qed.

(** C9: What the screens show of a formation's progress is the furthest its
    snapshots ever got since it became the current one: the stage is the
    greatest stage reported, it is complete once a snapshot was, and it is
    formed once a snapshot was, whatever the latest snapshot says and whatever
    other actions come in between.  Nothing of another formation counts, and
    without a formation there is no progress. *)
Theorem progress_never_rewinds l :
  selectWalletServiceCreationProgress (fi_run l) =
    match episode l with
    | [] => None
    | fs => Some (max_stage fs, existsb formationIsComplete fs)
    end /\
  selectIsWalletServiceFormed (fi_run l) = existsb is_formed (episode l).
Proof.
  destruct (run_mark l) as [S M].
  unfold selectWalletServiceCreationProgress, selectIsWalletServiceFormed, selectFiFormation.
  rewrite S, M. unfold episode.
  destruct (rev (omap reported l)) as [|[|f] r]; [done | done |].
  cbn [head episode_of mark_of mark_of_formation mark_formationId].
  rewrite decide_True by done.
  cbn [from_option stage isComplete hasFormed max_stage foldr existsb].
  split; [f_equal; f_equal|].
  - lia.
  - by destruct (formationIsComplete f).
  - by destruct (is_formed f).
Qed.

(** ** The memoized shortfall *)

Definition bar_free (x : string) : Prop := "|"%char ∉ chars x.

#[export] Instance bar_free_dec x : Decision (bar_free x).
Proof. unfold bar_free. apply _. Defined.

(** What may follow a part of a key: nothing, or a bar. *)
Definition after_part (x : string) : Prop := x = "" \/ exists y, x = String "|" y.

Lemma after_bar x : after_part (String "|" x).
Proof. right. by exists x. Qed.

Lemma bar_inj x y : String "|" x = String "|" y -> x = y.
Proof. by intros [= ->]. Qed.

Lemma split_part x y s t :
  bar_free x -> bar_free y -> after_part s -> after_part t ->
  x +:+ s = y +:+ t -> x = y /\ s = t.
Proof.
  intros Bx By As At. revert y By. induction x as [|c x IH]; intros [|d y] By E; cbn in E.
  - done.
  - exfalso. apply By. destruct As as [->|[s' ->]]; [done|]. injection E as <- _. left.
  - exfalso. apply Bx. destruct At as [->|[t' ->]]; [done|]. injection E as -> _. left.
  - injection E as <- E. apply IH in E as [-> ->]; [done | |].
    + intros H. apply Bx. by right.
    + intros H. apply By. by right.
Qed.

Lemma join_bar_cons x l :
  join_bar (x :: l) = x +:+ match l with [] => "" | _ => String "|" (join_bar l) end.
Proof. destruct l; [|done]. cbn. by rewrite str_app_nil_r. Qed.

Lemma after_join (l : list string) :
  after_part (match l with [] => "" | _ => String "|" (join_bar l) end).
Proof. destruct l; [by left | right; eauto]. Qed.

Lemma join_bar_inj x y l l' :
  bar_free x -> bar_free y -> length l = length l' ->
  join_bar (x :: l) = join_bar (y :: l') -> x = y /\ (l = [] \/ join_bar l = join_bar l').
Proof.
  intros Bx By L. rewrite !join_bar_cons. intros E.
  apply split_part in E as [-> E]; [|done|done|apply after_join..].
  split; [done|]. destruct l, l'; try done; [by left|]. right. by injection E.
Qed.

Lemma bar_free_pretty_N_go n s : bar_free s -> bar_free (pretty_N_go n s).
Proof.
  revert s. induction (N.lt_wf_0 n) as [n _ IH]; intros s B.
  destruct (decide (n = 0)%N) as [->|]; [by rewrite pretty_N_go_0|].
  rewrite pretty_N_go_step by lia. apply IH; [apply N.div_lt; lia|].
  intros [E|H]%elem_of_cons; [|done].
  unfold pretty_N_char in E. by repeat case_match.
Qed.

Lemma bar_free_pretty_N (n : N) : bar_free (pretty n).
Proof.
  unfold pretty, pretty_N. case_decide.
  - by intros [?|?%elem_of_nil]%elem_of_cons.
  - apply bar_free_pretty_N_go. apply not_elem_of_nil.
Qed.

Lemma bar_free_int_string n : bar_free (int_string n).
Proof.
  unfold int_string, pretty, pretty_Z. destruct n as [|p|p].
  - by intros [?|?%elem_of_nil]%elem_of_cons.
  - apply bar_free_pretty_N.
  - intros [?|H]%elem_of_cons; [done|]. by apply bar_free_pretty_N in H.
Qed.

Lemma num_string_int n : safe n -> num_string (of_Z n) = int_string n.
Proof.
  intros S. rewrite of_Z_safe by done. cbn [num_string].
  rewrite Z.mod_mul, Z.div_mul by (pose proof unit1_pos; lia).
  unfold safe in S. by rewrite (proj2 (Z.leb_le _ _) S).
Qed.

Lemma bigint_of_int n : safe n -> bigint_of_num (of_Z n) = Ok n.
Proof.
  intros S. rewrite of_Z_safe by done. cbn [bigint_of_num].
  by rewrite Z.mod_mul, Z.div_mul by (pose proof unit1_pos; lia).
Qed.

(** Every balance is an integer that a number holds exactly. *)
Definition exact_balances (fed : FederationState) : Prop :=
  forall id, exists n, safe n /\ Federation.selectFederationBalance fed id = of_Z n.

Lemma first_shortfall_ok fed payers :
  exact_balances fed -> exists res, first_shortfall fed payers = Ok res.
Proof.
  intros X. induction payers as [|[id required] payers IH]; [by eexists|].
  cbn [first_shortfall]. destruct (X id) as (n & S & ->). rewrite bigint_of_int by done.
  cbn [mbind]. rewrite bind_ok. case_if; [by eexists | done].
Qed.

Lemma balance_key_int fed id n :
  safe n -> Federation.selectFederationBalance fed id = of_Z n ->
  balance_key fed id = id +:+ (":" +:+ int_string n).
Proof. intros S E. unfold balance_key. by rewrite E, num_string_int. Qed.

(** Keys of the same payers are equal only when the balances are. *)
Lemma balances_key_inj fed fed' payers :
  exact_balances fed -> exact_balances fed' ->
  join_bar ((fun p => balance_key fed p.1) <$> payers) =
    join_bar ((fun p => balance_key fed' p.1) <$> payers) ->
  first_shortfall fed payers = first_shortfall fed' payers.
Proof.
  intros X X'. induction payers as [|[id required] payers IH]; [done|].
  rewrite !fmap_cons. cbn [fst]. rewrite !join_bar_cons.
  destruct (X id) as (n & S & E), (X' id) as (n' & S' & E').
  rewrite (balance_key_int fed id n), (balance_key_int fed' id n') by done.
  rewrite !str_app_assoc. intros H.
  apply (inj (String.append id)) in H. apply (inj (String.append ":")) in H.
  apply split_part in H as [Hn H];
    [|apply bar_free_int_string|apply bar_free_int_string|apply after_join|apply after_join].
  apply (inj pretty) in Hn as <-. cbn [first_shortfall]. rewrite E, E'.
  rewrite IH; [done|]. by destruct payers; [|injection H].
Qed.

(** What a seat's payment asks for, once its amount can be read. *)
Definition amount_value (seat : RpcFiSeatPaymentRequirement) : Z :=
  match bigint_of_string (amountMsats seat) with Ok n => n | Throw _ => 0 end.

Definition readable (seat : RpcFiSeatPaymentRequirement) : Prop :=
  exists n, bigint_of_string (amountMsats seat) = Ok n.

(** The sum over the seats that the federation [id] pays for. *)
Fixpoint required (id : string) (l : list RpcFiSeatPaymentRequirement) : Z :=
  match l with
  | [] => 0
  | seat :: l =>
      if decide (paymentFederationId seat = id) then amount_value seat + required id l
      else required id l
  end.

Definition balance (fed : FederationState) (id : string) : Z :=
  match bigint_of_num (Federation.selectFederationBalance fed id) with Ok n => n | _ => 0 end.

Lemma required_app id l l' : required id (l ++ l') = required id l + required id l'.
Proof. induction l as [|seat l IH]; [done|]. cbn. case_decide; rewrite IH; lia. Qed.

Lemma dedup_snoc l x :
  Federation.dedup (l ++ [x]) =
    if decide (x ∈ l) then Federation.dedup l else Federation.dedup l ++ [x].
Proof.
  induction l as [|y l IH]; [done|]. cbn [Federation.dedup app]. rewrite IH.
  destruct (decide (x = y)) as [->|N].
  - rewrite (decide_True (P := y ∈ y :: l)) by left. case_decide; [done|].
    rewrite filter_app, filter_cons_False by naive_solver. by rewrite filter_nil, app_nil_r.
  - destruct (decide (x ∈ l)) as [H|H].
    + by rewrite decide_True by (by right).
    + rewrite decide_False by (by intros [|]%elem_of_cons).
      rewrite filter_app. cbn [app]. f_equal. f_equal. by rewrite filter_cons_True.
Qed.

(** Adding to a map from keys to values that are [f] of the key. *)
Lemma add_required_fmap (f : string -> Z) id n ids :
  NoDup ids ->
  add_required id n ((fun i => (i, f i)) <$> ids) =
    ((fun i => (i, if decide (i = id) then f i + n else f i)) <$> ids) ++
      (if decide (id ∈ ids) then [] else [(id, n)]).
Proof.
  induction 1 as [|i ids Hi Hids IH]; [done|]. rewrite !fmap_cons. cbn [add_required].
  destruct (decide (id = i)) as [->|N].
  - rewrite (decide_True (P := i ∈ i :: ids)) by left.
    rewrite app_nil_r, decide_True by done. f_equal. apply list_fmap_ext.
    intros k j Hj. rewrite decide_False; [done|].
    intros ->. by apply list_elem_of_lookup_2 in Hj.
  - rewrite IH, (decide_False (P := i = id)) by done. cbn [app]. f_equal. f_equal.
    apply decide_ext. rewrite elem_of_cons. naive_solver.
Qed.

Lemma requiredByPayer_spec l :
  Forall readable l ->
  requiredByPayer l =
    Ok ((fun id => (id, required id l)) <$> Federation.dedup (paymentFederationId <$> l)).
Proof.
  induction l as [|seat l IH] using rev_ind; [done|].
  intros [Hl Hs]%list.Forall_app. apply list.Forall_cons in Hs as [[n Hn] _].
  unfold requiredByPayer. rewrite foldM_app. unfold requiredByPayer in IH. rewrite IH by done.
  cbn [foldM]. rewrite bind_ok, Hn, !bind_ok. f_equal.
  rewrite add_required_fmap by apply Federation.NoDup_dedup.
  rewrite fmap_app. cbn [fmap list_fmap]. rewrite dedup_snoc.
  assert (R : forall id, required id (l ++ [seat]) =
    if decide (id = paymentFederationId seat) then required id l + n else required id l).
  { intros id. rewrite required_app. cbn. unfold amount_value. rewrite Hn.
    repeat case_decide; try lia; congruence. }
  assert (Z0 : ~ paymentFederationId seat ∈ paymentFederationId <$> l ->
    required (paymentFederationId seat) l = 0).
  { clear. induction l as [|x l IH]; [done|]. rewrite fmap_cons, elem_of_cons. intros H.
    cbn. rewrite decide_False by naive_solver. apply IH. naive_solver. }
  destruct (decide (paymentFederationId seat ∈ paymentFederationId <$> l)) as [H|H].
  - rewrite decide_True by (by apply Federation.elem_of_dedup). rewrite app_nil_r.
    apply list_fmap_ext. intros ? id _. by rewrite R.
  - rewrite decide_False by (by rewrite Federation.elem_of_dedup). rewrite fmap_app. f_equal.
    + apply list_fmap_ext. intros ? id _. by rewrite R.
    + cbn. by rewrite R, decide_True, Z0 by done.
Qed.

(** What the shortfall means: with none, every payer has what its seats cost;
    otherwise it names the payer of the first seat whose payer has not. *)
Definition covered (fed : FederationState) (l : list RpcFiSeatPaymentRequirement)
    (seat : RpcFiSeatPaymentRequirement) : Prop :=
  required (paymentFederationId seat) l <= balance fed (paymentFederationId seat).

Definition shortfall_spec (fed : FederationState) (l : list RpcFiSeatPaymentRequirement)
    (res : option WalletServicePaymentShortfall) : Prop :=
  match res with
  | None => Forall (covered fed l) l
  | Some x =>
      exists before seat after, l = before ++ seat :: after /\
        Forall (covered fed l) before /\ ~ covered fed l seat /\
        x = mkShortfall (paymentFederationId seat)
              (required (paymentFederationId seat) l - balance fed (paymentFederationId seat))
              (required (paymentFederationId seat) l)
  end.

Lemma head_filter {A} (P : A -> Prop) `{forall x, Decision (P x)} l :
  match head (filter P l) with
  | None => Forall (fun x => ~ P x) l
  | Some x => exists l1 l2, l = l1 ++ x :: l2 /\ Forall (fun x => ~ P x) l1 /\ P x
  end.
Proof.
  induction l as [|x l IH]; [constructor|]. destruct (decide (P x)).
  - rewrite filter_cons_True by done. cbn. exists [], l. by repeat constructor.
  - rewrite filter_cons_False by done. destruct (head (filter P l)) as [y|].
    + destruct IH as (l1 & l2 & -> & F & Py). exists (x :: l1), l2.
      repeat split; [by constructor | done].
    + by constructor.
Qed.

Lemma head_filter_dedup (P : string -> Prop) `{forall x, Decision (P x)} l :
  head (filter P (Federation.dedup l)) = head (filter P l).
Proof.
  induction l as [|x l IH]; [done|]. cbn [Federation.dedup]. destruct (decide (P x)).
  - by rewrite !filter_cons_True by done.
  - rewrite !filter_cons_False, list_filter_filter by done. rewrite <- IH. f_equal.
    apply list_filter_iff. intros y. naive_solver.
Qed.

Lemma first_shortfall_spec fed (f : string -> Z) ids :
  exact_balances fed ->
  first_shortfall fed ((fun id => (id, f id)) <$> ids) =
    Ok ((fun id => mkShortfall id (f id - balance fed id) (f id)) <$>
          head (filter (fun id => balance fed id < f id) ids)).
Proof.
  intros X. induction ids as [|id ids IH]; [done|]. rewrite fmap_cons. cbn [first_shortfall].
  destruct (X id) as (n & S & E).
  assert (B : balance fed id = n) by (unfold balance; by rewrite E, bigint_of_int).
  rewrite E, bigint_of_int, bind_ok by done. destruct (Z.ltb_spec n (f id)).
  - rewrite filter_cons_True by lia. cbn. by rewrite B.
  - by rewrite filter_cons_False by lia.
Qed.

(** The selector without its memo. *)
Definition shortfall_of (fed : FederationState) (r : RpcFiPaymentRequirements)
    : result (option WalletServicePaymentShortfall) :=
  payers ← requiredByPayer (seats r); first_shortfall fed payers.

Lemma shortfall_of_spec fed r :
  exact_balances fed -> Forall readable (seats r) ->
  exists res, shortfall_of fed r = Ok res /\ shortfall_spec fed (seats r) res.
Proof.
  intros X R. unfold shortfall_of. rewrite requiredByPayer_spec, bind_ok by done.
  rewrite (first_shortfall_spec fed (fun id => required id (seats r))) by done.
  eexists. split; [done|]. rewrite head_filter_dedup.
  pose proof (head_filter (fun id => balance fed id < required id (seats r))
    (paymentFederationId <$> seats r)) as H.
  destruct (head _) as [id|]; cbn [fmap option_fmap option_map shortfall_spec].
  - destruct H as (l1 & l2 & E & F & P).
    apply fmap_app_inv in E as (before & rest & -> & E2 & Es).
    symmetry in E2. apply fmap_cons_inv in E2 as (seat & after & -> & -> & ->).
    exists before, seat, after. split; [done|]. split; [|split; [unfold covered; lia | done]].
    apply list.Forall_forall. intros s Hs.
    pose proof (proj1 (list.Forall_forall _ _) F _ (list_elem_of_fmap_2 paymentFederationId _ _ Hs)) as Hc.
    cbv beta in Hc. unfold covered. lia.
  - apply list.Forall_forall. intros s Hs.
    pose proof (proj1 (list.Forall_forall _ _) H _ (list_elem_of_fmap_2 paymentFederationId _ _ Hs)) as Hc.
    cbv beta in Hc. unfold covered. lia.
Qed.

Section Memo.
(** The selector's calls, in order. *)
Context (calls : list (FiState * FederationState)).

Definition call_ok (c : FiState * FederationState) : Prop :=
  exact_balances c.2 /\
  forall r, selectFiPaymentRequirements c.1 = Some r ->
    bar_free (authorizationId r) /\ Forall readable (seats r).

(** An authorization stands for one set of requirements. *)
Definition binding : Prop :=
  forall c c' r r', c ∈ calls -> c' ∈ calls ->
    selectFiPaymentRequirements c.1 = Some r -> selectFiPaymentRequirements c'.1 = Some r' ->
    authorizationId r = authorizationId r' -> r = r'.

(** The memo holds what the selector answers for the key. *)
Definition memo_ok (memo : shortfall_memo) : Prop :=
  forall key, memo.1 = Some key ->
    exists c r payers, c ∈ calls /\ selectFiPaymentRequirements c.1 = Some r /\
      requiredByPayer (seats r) = Ok payers /\ key = shortfall_key c.2 r payers /\
      first_shortfall c.2 payers = Ok memo.2.

Context (Hcalls : Forall call_ok calls) (Hbinding : binding).

Lemma shortfall_key_inj c c' r r' payers payers' :
  c ∈ calls -> c' ∈ calls ->
  selectFiPaymentRequirements c.1 = Some r -> selectFiPaymentRequirements c'.1 = Some r' ->
  requiredByPayer (seats r) = Ok payers -> requiredByPayer (seats r') = Ok payers' ->
  shortfall_key c.2 r payers = shortfall_key c'.2 r' payers' ->
  first_shortfall c.2 payers = first_shortfall c'.2 payers'.
Proof.
  intros Hc Hc' R R' P P' K.
  pose proof Hcalls as HF. rewrite list.Forall_forall in HF.
  destruct (HF c Hc) as [X A], (HF c' Hc') as [X' A'].
  destruct (A r R) as [B _], (A' r' R') as [B' _].
  unfold shortfall_key in K. rewrite !(join_bar_cons (authorizationId _)) in K.
  apply split_part in K as [E K];
    [|done|done|apply after_bar|apply after_bar].
  assert (r = r') as <- by (by apply (Hbinding c c')).
  rewrite P in P'. injection P' as <-. apply bar_inj in K.
  rewrite !join_bar_cons in K. apply (inj (String.append _)) in K.
  apply balances_key_inj; [done|done|]. destruct payers; [done|].
  rewrite !fmap_cons in K |- *. by apply bar_inj in K.
Qed.

Lemma shortfall_step c memo :
  c ∈ calls -> memo_ok memo ->
  let '(res, memo') := selectWalletServicePaymentShortfall c.1 c.2 memo in
  memo_ok memo' /\
  res = match selectFiPaymentRequirements c.1 with
        | None => Ok None
        | Some r => shortfall_of c.2 r
        end.
Proof.
  intros Hc M. unfold selectWalletServicePaymentShortfall.
  destruct (selectFiPaymentRequirements c.1) as [r|] eqn:R; [|done].
  pose proof Hcalls as HF. rewrite list.Forall_forall in HF.
  destruct (HF c Hc) as [X A], (A r R) as [_ S]. unfold shortfall_of.
  destruct (requiredByPayer (seats r)) as [payers|e] eqn:P; [|done].
  rewrite bind_ok. case_decide as K.
  - split; [done|].
    destruct (M _ (eq_sym K)) as (c' & r' & payers' & Hc' & R' & P' & K' & <-).
    symmetry. by eapply shortfall_key_inj.
  - destruct (first_shortfall_ok c.2 payers X) as [res E]. rewrite E. split; [|done].
    intros key [= <-]. by exists c, r, payers.
Qed.
End Memo.

(** The answers of the selector over its calls. *)
Fixpoint shortfall_answers (memo : shortfall_memo) (calls : list (FiState * FederationState))
    : list (result (option WalletServicePaymentShortfall)) :=
  match calls with
  | [] => []
  | c :: calls =>
      let '(res, memo') := selectWalletServicePaymentShortfall c.1 c.2 memo in
      res :: shortfall_answers memo' calls
  end.

(** C31: Over every sequence of calls, the memoized selector answers what the
    balances at that very call imply: nothing without a parked authorization;
    no shortfall when every payer's live balance covers the sum of what it pays
    for its seats; and otherwise the first payer, in the order of the seats,
    whose balance does not, with the sum and what is missing.  It holds when an
    authorization id stands for one set of requirements and contains no bar,
    amounts are integers, and balances are integers a number holds. *)
Theorem shortfall_follows_balances calls :
  Forall call_ok calls -> binding calls ->
  Forall2 (fun c res => exists x, res = Ok x /\
      match selectFiPaymentRequirements c.1 with
      | None => x = None
      | Some r => shortfall_spec c.2 (seats r) x
      end) calls (shortfall_answers (None, None) calls).
Proof.
  intros HF HB.
  assert (G : forall l memo, l ⊆ calls -> memo_ok calls memo ->
    Forall2 (fun c res => exists x, res = Ok x /\
      match selectFiPaymentRequirements c.1 with
      | None => x = None
      | Some r => shortfall_spec c.2 (seats r) x
      end) l (shortfall_answers memo l)).
  { induction l as [|c l IH]; intros memo Hl M; [constructor|]. cbn [shortfall_answers].
    assert (Hc : c ∈ calls) by (apply Hl; left).
    pose proof (shortfall_step calls HF HB c memo Hc M) as Hstep.
    destruct (selectWalletServicePaymentShortfall c.1 c.2 memo) as [res memo'].
    destruct Hstep as [M' ->]. constructor; [|apply IH; [intros x Hx; apply Hl; by right | done]].
    rewrite list.Forall_forall in HF. destruct (HF c Hc) as [X A].
    destruct (selectFiPaymentRequirements c.1) as [r|]; [|by eexists].
    apply shortfall_of_spec; [done|]. by apply A. }
  apply G; [done|]. by intros key ?.
Qed.

(** A wallet with 5000 msats that is asked for twice 3000, and then topped up. *)
Definition example_wallet (msats : Z) : FederationState :=
  Federation.initialState <| federations :=
    [[("id", JStr "fed1"); ("init_state", JStr "ready"); ("name", JStr "w");
      ("balance", JNum (of_Z msats))]] |>.

Definition example_parked : FiState :=
  fi_run [SetFiStatus (formation (mkFormation "f1" awaitingPaymentReadiness
    (mkIntent "w" (of_Z 7) (of_Z 0) None) [] fresh
    (Some (authorizePayments (mkRequirements "auth1" "6000" None
      [mkSeatPayment "fed1" "3000"; mkSeatPayment "fed1" "3000"])))
    true (mkMilestones false false false) None None))].

Lemma example_balances msats : safe msats -> exact_balances (example_wallet msats).
Proof.
  intros S id. unfold Federation.selectFederationBalance, Federation.selectLoadedFederation.
  change (Federation.selectLoadedFederations (example_wallet msats)) with
    [[("id", JStr "fed1"); ("init_state", JStr "ready"); ("name", JStr "w");
      ("balance", JNum (of_Z msats)); ("recovering", JBool false)]].
  unfold Federation.find_first. destruct (decide (id = "fed1")) as [->|N].
  - exists msats. split; [done | reflexivity].
  - exists 0. split; [unfold safe; lia|].
    rewrite filter_cons_False; [done|]. unfold Federation.has_id, id_of. cbn [get lookup_prop].
    intros H%Is_true_true%bool_decide_eq_true. apply N. by injection H.
Qed.

Lemma example_call_ok msats : safe msats -> call_ok (example_parked, example_wallet msats).
Proof.
  intros S. split; [by apply example_balances|]. intros r E.
  apply (f_equal (fun o => default r o)) in E. vm_compute in E. subst r.
  split; [by apply (bool_decide_unpack (bar_free "auth1"))|].
  repeat constructor; by eexists.
Qed.

Lemma shortfall_follows_balances_witness :
  let calls := [(example_parked, example_wallet 5000); (example_parked, example_wallet 6000)] in
  Forall2 (fun c res => exists x, res = Ok x /\
      match selectFiPaymentRequirements c.1 with
      | None => x = None
      | Some r => shortfall_spec c.2 (seats r) x
      end) calls (shortfall_answers (None, None) calls) /\
  shortfall_answers (None, None) calls = [Ok (Some (mkShortfall "fed1" 1000 6000)); Ok None].
Proof.
  split; [|vm_compute; reflexivity]. apply shortfall_follows_balances.
  - constructor; [|constructor; [|constructor]]; apply example_call_ok; unfold safe; lia.
  - intros c c' r r' [->|[->|?%elem_of_nil]%elem_of_cons]%elem_of_cons
      [->|[->|?%elem_of_nil]%elem_of_cons]%elem_of_cons; try done;
      cbn [fst]; congruence.
Defined.

(** When the pay button is enabled, pressing it sends a request: the quote
    shown, the wallet shown, and as spending limit the advertised total, which
    that wallet's live balance covers; the wallet is one the bridge admitted. *)
Theorem pay_covered_by_balance s fed id :
  selectCanPayForWalletService s fed id = Ok true ->
  exists request preview limit,
    createWalletService s id = inr request /\
    selectionPreview s = Some preview /\ pay_previewId request = previewId preview /\
    pay_paymentFederationId request = id /\ id ∈ selectWalletServiceEligiblePayerIds s /\
    bigint_of_string (pay_maxTotalMsats request) = Ok limit /\ limit <= balance fed id.
Proof.
  unfold selectCanPayForWalletService, createWalletService, selectWalletServiceEligiblePayerIds.
  destruct (selectionPreview s) as [preview|], (eligiblePayers s) as [payers|]; try done.
  destruct (decide (id = "")); [done|]. case_decide as P; [|done]. intros H.
  apply bind_Ok_inv in H as (b & Hb & H). apply bind_Ok_inv in H as (limit & Hl & H).
  apply Ok_inj in H. apply Z.leb_le in H.
  eexists _, preview, limit. split; [done|]. cbn. split_and!; try done.
  unfold balance. by rewrite Hb.
Qed.

(** A quote of 6000 msats, and a wallet with as much. *)
Lemma pay_covered_by_balance_witness :
  let s := fi_run [PreparePending;
    PrepareAnswer (inr (mkPreview "p1" "6000" [])) (inr [mkPayer "fed1" "0"])] in
  exists request preview limit,
    createWalletService s "fed1" = inr request /\
    selectionPreview s = Some preview /\ pay_previewId request = previewId preview /\
    pay_paymentFederationId request = "fed1" /\
    "fed1" ∈ selectWalletServiceEligiblePayerIds s /\
    bigint_of_string (pay_maxTotalMsats request) = Ok limit /\
    limit <= balance (example_wallet 6000) "fed1".
Proof. apply pay_covered_by_balance. vm_compute. reflexivity. Defined.
