(* ===== verification/KeyedMap.v ===== *)
(** JavaScript Maps from an id of a value to the value, as the slices use them
    to list values once: the list of the values in insertion order.

    [merged] is what remains of a page of new values and those already
    listed: the last of the new ones with an id, else the first of the old. *)
From stdpp Require Import base tactics strings list option sets.
From S2P Require Import Prelude.
Local Open Scope list_scope.

Section Keyed.
Context {A K : Type} `{EqDecision K} (key : A -> K).

(** [map.has(id)] of the entry of [x] *)
Definition has_key (id : K) (x : A) : bool := bool_decide (key x = id).

(** [map.set(key(x), x)] *)
Fixpoint map_set (x : A) (m : list A) : list A :=
  match m with
  | [] => [x]
  | y :: m => if has_key (key x) y then x :: m else y :: map_set x m
  end.

(** [if (!map.has(key(x))) map.set(key(x), x)] *)
Definition map_add (m : list A) (x : A) : list A :=
  if existsb (has_key (key x)) m then m else map_set x m.

(** [map.get(id)] *)
Definition find_key (id : K) (l : list A) : option A := head (filter (fun x => has_key id x) l).

(** ** Lookup *)

Lemma find_key_cons id x l :
  find_key id (x :: l) = if decide (key x = id) then Some x else find_key id l.
Proof.
  unfold find_key. rewrite filter_cons. unfold has_key at 1.
  case_decide as H; rewrite Is_true_true, bool_decide_eq_true in H.
  - by rewrite decide_True.
  - by rewrite decide_False.
Qed.

Lemma find_map_set id x m :
  find_key id (map_set x m) = if decide (key x = id) then Some x else find_key id m.
Proof.
  induction m as [|d m IH]; cbn [map_set]; [by rewrite find_key_cons|].
  unfold has_key at 1. case_bool_decide as E; rewrite !find_key_cons.
  - case_decide; [done|]. by rewrite decide_False by congruence.
  - rewrite IH. repeat case_decide; congruence.
Qed.

Lemma elem_of_find x l : NoDup (key <$> l) -> x ∈ l <-> find_key (key x) l = Some x.
Proof.
  induction l as [|d l IH]; csimpl; [by split; [intros ?%elem_of_nil|]|].
  intros [N D]%list.NoDup_cons. rewrite elem_of_cons, find_key_cons, (IH D). split.
  - intros [->|H]; [by rewrite decide_True|]. rewrite decide_False; [done|].
    intros E. apply N. rewrite E. by apply list_elem_of_fmap_2, IH.
  - case_decide; [intros [= ->]; by left | by right].
Qed.

Lemma find_key_elem id l x : find_key id l = Some x -> x ∈ l /\ key x = id.
Proof.
  unfold find_key. intros H%head_Some_elem_of%list_elem_of_filter.
  destruct H as [E H]. split; [done|]. by apply Is_true_true, bool_decide_eq_true in E.
Qed.

Lemma has_key_find id l : existsb (has_key id) l = bool_decide (is_Some (find_key id l)).
Proof.
  induction l as [|d l IH]; [done|]. cbn [existsb]. rewrite IH, find_key_cons.
  unfold has_key. repeat case_bool_decide; case_decide; naive_solver.
Qed.

Lemma map_set_ids x m :
  key <$> map_set x m = (key <$> m) ++ if existsb (has_key (key x)) m then [] else [key x].
Proof.
  induction m as [|d m IH]; [done|]. cbn [map_set existsb].
  unfold has_key at 1 2. case_bool_decide as E; csimpl.
  - by rewrite E, app_nil_r.
  - by rewrite IH.
Qed.

Lemma NoDup_map_set x m : NoDup (key <$> m) -> NoDup (key <$> map_set x m).
Proof.
  intros D. rewrite map_set_ids, has_key_find. case_bool_decide as F.
  - by rewrite app_nil_r.
  - apply list.NoDup_app. split; [done|]. split; [|apply NoDup_singleton].
    intros y Hy ->%list_elem_of_singleton. apply F.
    apply list_elem_of_fmap in Hy as (d & Ed & Hd). exists d. rewrite Ed. by apply elem_of_find.
Qed.

(** ** New values over old ones *)

Definition merged (new old : list A) : list A :=
  foldl map_add (foldl (fun m x => map_set x m) [] new) old.

(** The value kept for an id: the last of the new ones, else the first of the
    old ones. *)
Definition kept (id : K) (new old : list A) : option A :=
  match last (filter (fun x => has_key id x) new) with
  | Some x => Some x
  | None => find_key id old
  end.

Lemma find_new id new :
  find_key id (foldl (fun m x => map_set x m) [] new) =
    last (filter (fun x => has_key id x) new).
Proof.
  induction new as [|x new IH] using rev_ind; [done|].
  rewrite foldl_app, filter_app. cbn [foldl]. rewrite find_map_set, filter_cons, filter_nil.
  destruct (decide (has_key id x)) as [H|H];
    rewrite Is_true_true in H; unfold has_key in H; rewrite bool_decide_eq_true in H.
  - by rewrite decide_True, last_snoc.
  - by rewrite decide_False, app_nil_r.
Qed.

Lemma find_old id m old :
  find_key id (foldl map_add m old) =
    match find_key id m with Some x => Some x | None => find_key id old end.
Proof.
  revert m. induction old as [|x old IH]; intros m; cbn [foldl]; [by destruct (find_key id m)|].
  rewrite IH, find_key_cons. unfold map_add. rewrite has_key_find. case_bool_decide as S.
  - case_decide as E; [|done]. rewrite E in S. destruct S as [d Ed]. by rewrite Ed.
  - rewrite find_map_set. case_decide as E; [|done].
    destruct (find_key id m) eqn:F; [|done]. rewrite E, F in S. destruct S. by eexists.
Qed.

Lemma find_merged id new old : find_key id (merged new old) = kept id new old.
Proof. unfold merged. by rewrite find_old, find_new. Qed.

Lemma NoDup_merged new old : NoDup (key <$> merged new old).
Proof.
  assert (N : NoDup (key <$> foldl (fun m x => map_set x m) [] new)).
  { induction new as [|x new IH] using rev_ind; [constructor|].
    rewrite foldl_app. by apply NoDup_map_set. }
  unfold merged. revert N. generalize (foldl (fun m x => map_set x m) [] new).
  induction old as [|x old IH]; intros m N; [done|]. cbn [foldl]. apply IH. unfold map_add.
  case_if; [done | by apply NoDup_map_set].
Qed.

Lemma elem_of_merged new old x : x ∈ merged new old <-> kept (key x) new old = Some x.
Proof. by rewrite elem_of_find, find_merged by apply NoDup_merged. Qed.

Lemma map_set_fresh x m : key x ∉ key <$> m -> map_set x m = m ++ [x].
Proof.
  induction m as [|y m IH]; csimpl; [done|]. rewrite not_elem_of_cons. intros [N M].
  unfold has_key. rewrite bool_decide_eq_false_2 by congruence. by rewrite IH.
Qed.

Lemma map_add_fresh x m : key x ∉ key <$> m -> map_add m x = m ++ [x].
Proof.
  intros N. unfold map_add. rewrite has_key_find, bool_decide_eq_false_2; [by apply map_set_fresh|].
  intros [y [Hy E]%find_key_elem]. apply N. rewrite <- E. by apply list_elem_of_fmap_2.
Qed.

(** Nothing is replaced when all keys differ. *)
Lemma merged_fresh new old : NoDup (key <$> new ++ old) -> merged new old = new ++ old.
Proof.
  intros D. assert (N : foldl (fun m x => map_set x m) [] new = new).
  { rewrite fmap_app in D. apply list.NoDup_app in D as [D _]. revert D.
    induction new as [|x new IH] using rev_ind; [done|]. rewrite fmap_app, list.NoDup_app.
    intros (D & F & _). rewrite foldl_app, IH by done. apply map_set_fresh. intros H.
    apply (F _ H). left. }
  unfold merged. rewrite N. clear N. revert new D.
  induction old as [|x old IH]; intros new D; cbn [foldl]; [by rewrite app_nil_r|].
  change (new ++ x :: old) with (new ++ [x] ++ old) in *. rewrite (assoc_L (++)) in D |- *.
  rewrite map_add_fresh, IH; [done | done |]. rewrite !fmap_app in D. apply list.NoDup_app in D as [D _]. apply list.NoDup_app in D as (_ & D & _).
  intros H. apply (D _ H). left.
Qed.

Lemma kept_elem id new old x : kept id new old = Some x -> x ∈ new ++ old.
Proof.
  unfold kept. intros H. apply elem_of_app.
  destruct (last _) as [d|] eqn:E; [left | right].
  - injection H as <-. by apply last_Some_elem_of, list_elem_of_filter in E as [_ E].
  - by apply find_key_elem in H as [? _].
Qed.
End Keyed.
