(* ===== verification/MatrixEvents.v ===== *)
(** Matrix events: [ui/common/utils/matrix.ts].

    What the chat shows of a room's timeline: payment updates folded into the
    message that started the payment, bookkeeping messages left out, messages
    grouped by sender and time; which payments can be claimed or taken back;
    the roles and votes of a multispend group; power levels.  Events, rooms and
    members are the objects the bridge sends.  Texts, links,
    html and translations are not modelled. *)
From Stdlib Require Import ZArith Lia Sorted.
From stdpp Require Import base tactics strings list option sorting.
From S2P Require Import Prelude JsNum Js Upsert Federation.
Local Open Scope string_scope.
Local Open Scope list_scope.
Local Open Scope Z_scope.

(** ** Kinds of events *)

(** [ev.content] *)
Definition content (ev : obj) : obj := match get "content" ev with JObj c => c | _ => [] end.

(** [ev.content.msgtype === t] *)
Definition is_msgtype (t : string) (ev : obj) : bool :=
  bool_decide (get "msgtype" (content ev) = JStr t).

(** A multispend message of kind [k]. *)
Definition is_kind (k : string) (ev : obj) : bool :=
  is_msgtype "xyz.fedi.multispend" ev && bool_decide (get "kind" (content ev) = JStr k).

Definition isPaymentEvent (ev : obj) : bool := is_msgtype "xyz.fedi.payment" ev.
Definition isFormEvent (ev : obj) : bool := is_msgtype "xyz.fedi.form" ev.
Definition isSpTransferEvent (ev : obj) : bool := is_msgtype "spTransfer" ev.
Definition isDeletedEvent (ev : obj) : bool := is_msgtype "redacted" ev.
Definition isTextEvent (ev : obj) : bool := is_msgtype "m.text" ev.
Definition isImageEvent (ev : obj) : bool := is_msgtype "m.image" ev.
Definition isPreviewMediaEvent (ev : obj) : bool := is_msgtype "xyz.fedi.preview-media" ev.
Definition isFileEvent (ev : obj) : bool := is_msgtype "m.file" ev.
Definition isVideoEvent (ev : obj) : bool := is_msgtype "m.video" ev.
Definition isEncryptedEvent (ev : obj) : bool := is_msgtype "unableToDecrypt" ev.
Definition isPollEvent (ev : obj) : bool := is_msgtype "m.poll" ev.
Definition isRoomMemberEvent (ev : obj) : bool := is_msgtype "m.room.member" ev.
Definition isFederationInviteEvent (ev : obj) : bool := is_msgtype "xyz.fedi.federationInvite" ev.
Definition isCommunityInviteEvent (ev : obj) : bool := is_msgtype "xyz.fedi.communityInvite" ev.
Definition isMultispendEvent (ev : obj) : bool := is_msgtype "xyz.fedi.multispend" ev.
Definition isMultispendWithdrawalResponseEvent (ev : obj) : bool := is_kind "withdrawalResponse" ev.
Definition isMatrixMultispendWithdrawalEvent (ev : obj) : bool := is_kind "withdrawalRequest" ev.
Definition isMatrixMultispendDepositEvent (ev : obj) : bool := is_kind "depositNotification" ev.
Definition isMultispendInvitationEvent (ev : obj) : bool := is_kind "groupInvitation" ev.
Definition isMultispendInvitationVoteEvent (ev : obj) : bool := is_kind "groupInvitationVote" ev.
Definition isMultispendInvitationCancelEvent (ev : obj) : bool :=
  is_kind "groupInvitationCancel" ev.
Definition isMultispendReannounceEvent (ev : obj) : bool := is_kind "groupReannounce" ev.

Definition change_of (ev : obj) : jval := get "change" (content ev).

Definition isJoinedRoomMemberEvent (ev : obj) : bool :=
  isRoomMemberEvent ev &&
  (bool_decide (change_of ev = JStr "joined") || bool_decide (change_of ev = JStr "invitationAccepted")).

Definition isPreviewableRoomMemberEvent (ev : obj) : bool :=
  isRoomMemberEvent ev && bool_decide (change_of ev = JStr "invitationAccepted").

Definition canReplyToMatrixEvent (ev : obj) : bool :=
  existsb (fun t => is_msgtype t ev) ["m.text"; "m.notice"; "m.emote"] ||
  isImageEvent ev || isVideoEvent ev || isFileEvent ev.

(** ** What a room shows *)

(** [l.includes(ev.content.status)] *)
Definition status_in (l : list string) (ev : obj) : bool :=
  existsb (fun st => bool_decide (get "status" (content ev) = JStr st)) l.

(** The property name that [ev.content.paymentId] is as a key. *)
Definition payment_key (ev : obj) : string := to_str (get "paymentId" (content ev)).

(** [latestPayments[event.content.paymentId] = event] *)
Definition record_payment (latest : list (string * obj)) (ev : obj) : list (string * obj) :=
  if isPaymentEvent ev then set_prop (payment_key ev) ev latest else latest.

Definition initial_or_other (ev : obj) : bool :=
  negb (isPaymentEvent ev) || status_in ["pushed"; "requested"] ev.

(** The event with the content of the latest update of its payment. *)
Definition with_latest (latestPayments : list (string * obj)) (ev : obj) : obj :=
  if negb (isPaymentEvent ev) then ev
  else match lookup_prop (payment_key ev) latestPayments with
  | None => ev
  | Some latest =>
      if bool_decide (id_of ev = id_of latest) then ev
      else set_prop "content" (JObj (spread (content ev) (content latest))) ev
  end.

Definition consolidatePaymentEvents (events : list obj) : list obj :=
  let latestPayments := foldl record_payment [] events in
  with_latest latestPayments <$> filter (fun ev => initial_or_other ev) events.

Definition filterMultispendEvents (events : list obj) : list obj :=
  filter (fun ev =>
    negb (isMultispendReannounceEvent ev) && negb (isMultispendInvitationCancelEvent ev) &&
    negb (isMultispendWithdrawalResponseEvent ev) && negb (isMultispendInvitationVoteEvent ev))
    events.

Definition filterVirtualSpTransferEvents (events : list obj) : list obj :=
  filter (fun ev => negb (isSpTransferEvent ev && negb (truthy (get "shouldRender" (content ev)))))
    events.

(** The two maps are association lists; the later entries of the arrays they
    are built from win. *)
Definition resolvePinnedEventToConversationEvent (pinnedEvent : obj)
    (visibleEventsById : list (jval * obj)) (visiblePaymentEventsByPaymentId : list (jval * obj))
    : option obj :=
  let find key m := snd <$> head (filter (fun kv : jval * obj => kv.1 = key) (rev m)) in
  match find (id_of pinnedEvent) visibleEventsById with
  | Some ev => Some ev
  | None =>
      match (if isPaymentEvent pinnedEvent
             then find (get "paymentId" (content pinnedEvent)) visiblePaymentEventsByPaymentId
             else None) with
      | Some ev => Some ev
      | None =>
          head (consolidatePaymentEvents
            (filterVirtualSpTransferEvents (filterMultispendEvents [pinnedEvent])))
      end
  end.

(** ** Reactions *)

Definition MAX_CHAT_REACTION_EMOJIS : nat := 7.

Record RpcTimelineReaction := mkReaction { key : string; count : num; userIds : list string }.

Record MatrixReactionChip := mkChip {
  chip_key : string; chip_count : num; reactedByMe : bool; chip_userIds : list string
}.

Definition makeMatrixReactionChips (reactions : option (list RpcTimelineReaction))
    (myId : option string) : list MatrixReactionChip :=
  (fun r => mkChip (key r) (count r)
     (match myId with
      | Some id => negb (bool_decide (id = "")) && bool_decide (id ∈ userIds r)
      | None => false
      end) (userIds r)) <$>
    take MAX_CHAT_REACTION_EMOJIS
      (filter (fun r => ltb (of_Z 0) (count r)) (default [] reactions)).

Definition canAddMatrixReaction (canReact : bool) (reactions : list RpcTimelineReaction)
    (reactionKey : string) : bool :=
  if negb canReact then false
  else existsb (fun r => bool_decide (key r = reactionKey)) reactions ||
       bool_decide (length reactions < MAX_CHAT_REACTION_EMOJIS)%nat.

(** ** Grouping *)

(** Whether [event] continues the time group of [lastEvent]. *)
Definition same_time_group (lastEvent event : obj) : bool :=
  truthy (get "timestamp" lastEvent) && truthy (get "timestamp" event) &&
  let d := sub (to_num (get "timestamp" lastEvent)) (to_num (get "timestamp" event)) in
  leb (if ltb d (of_Z 0) then neg d else d) (of_Z 60000).

Definition same_sender (lastEvent event : obj) : bool :=
  bool_decide (get "sender" lastEvent = get "sender" event).

(** [l[l.length - 1].push(x)], on a non-empty [l] *)
Fixpoint push_last {A} (x : A) (l : list (list A)) : list (list A) :=
  match l with
  | [] => []
  | [g] => [g ++ [x]]
  | g :: l => g :: push_last x l
  end.

(** Replacing the last element: [currentTimeGroup] is the last of
    [eventGroups] and changes in place. *)
Fixpoint set_last {A} (x : A) (l : list A) : list A :=
  match l with
  | [] => []
  | [_] => [x]
  | y :: l => y :: set_last x l
  end.

(** [eventGroups], [currentTimeGroup] and [lastEvent]. *)
Definition group_step (acc : list (list (list obj)) * list (list obj) * option obj) (event : obj)
    : list (list (list obj)) * list (list obj) * option obj :=
  let '(eventGroups, currentTimeGroup, lastEvent) := acc in
  match lastEvent with
  | Some last =>
      if same_time_group last event then
        let current :=
          if same_sender last event then push_last event currentTimeGroup
          else currentTimeGroup ++ [[event]] in
        (set_last current eventGroups, current, Some event)
      else (eventGroups ++ [[[event]]], [[event]], Some event)
  | None => (eventGroups ++ [[[event]]], [[event]], Some event)
  end.

Section Groups.
(** lodash's [orderBy(events, 'timestamp', order)]. *)
Context (orderByTimestamp : bool -> list obj -> list obj).

Definition makeMatrixEventGroups (events : list obj) (descending : bool)
    : list (list (list obj)) :=
  (foldl group_step ([], [], None) (orderByTimestamp descending events)).1.1.
End Groups.

(** ** Payments to claim or to take back *)

(** Writing a property: the key [__proto__] sets the prototype and adds no own
    property. *)
Definition assign_prop {V} (k : string) (v : V) (o : list (string * V)) : list (string * V) :=
  if decide (k = "__proto__") then o else set_prop k v o.

(** The user has joined the federation of the payment and is not recovering. *)
Definition spendable (myFederations : list obj) (ev : obj) : bool :=
  match head (filter (fun f => id_of f = get "federationId" (content ev)) myFederations) with
  | None => false
  | Some f => negb (truthy (get "recovering" f))
  end.

Definition receivable_candidate (myId : string) (myFederations : list obj) (ev : obj) : bool :=
  isPaymentEvent ev && bool_decide (get "recipientId" (content ev) = JStr myId) &&
  truthy (get "federationId" (content ev)) && spendable myFederations ev.

Definition record_receivable (myId : string) (myFederations : list obj)
    (latest : list (string * obj)) (item : option obj) : list (string * obj) :=
  match item with
  | Some ev =>
      if receivable_candidate myId myFederations ev
      then assign_prop (payment_key ev) ev latest else latest
  | None => latest
  end.

Definition getReceivablePaymentEvents (timeline : list (option obj)) (myId : string)
    (myFederations : list obj) : list obj :=
  filter (fun ev => status_in ["accepted"; "pushed"] ev)
    (foldl (record_receivable myId myFederations) [] timeline).*2.

Definition reclaimable (myId : string) (myFederations : list obj) (ev : obj) : bool :=
  isPaymentEvent ev && bool_decide (get "senderId" (content ev) = JStr myId) &&
  truthy (get "ecash" (content ev)) && status_in ["rejected"] ev &&
  truthy (get "federationId" (content ev)) && spendable myFederations ev.

Definition getReclaimablePaymentEvents (timeline : list (option obj)) (myId : string)
    (myFederations : list obj) : list obj :=
  filter (fun ev => reclaimable myId myFederations ev) (omap id timeline).

(** ** Previews of rooms that are not joined *)

(** [(x?.timestamp || 0)] *)
Definition timestamp_or_0 (ev : option obj) : num :=
  match ev with Some ev => to_num (jor (get "timestamp" ev) (JNum (of_Z 0))) | None => of_Z 0 end.

Definition makeChatFromUnjoinedRoomPreview (info : obj) (timeline : list obj) : obj :=
  let previewableTimeline := filter (fun ev => negb (isRoomMemberEvent ev)) timeline in
  let chatPreview := foldl (fun latest current =>
      if ltb (timestamp_or_0 (Some current)) (timestamp_or_0 latest) then latest else Some current)
    (head previewableTimeline) previewableTimeline in
  set_prop "broadcastOnly" (JBool true)
    (set_prop "preview" (match chatPreview with Some ev => JObj ev | None => JNull end) info).

(** ** Power levels *)

Inductive RpcUserPowerLevel : Type := infinite | int_level (value : num).

Definition MAX_SAFE_INTEGER : num := of_Z (2 ^ 53 - 1).

Definition isPowerLevelGreaterOrEqual (powerLevel threshold : RpcUserPowerLevel) : bool :=
  match powerLevel with
  | infinite => true
  | int_level value =>
      leb (match threshold with infinite => MAX_SAFE_INTEGER | int_level v => v end) value
  end.

(** The level required for the first of the [events] that has one. *)
Fixpoint getRoomEventPowerLevel (powerLevels : obj) (events : list string) : jval :=
  match events with
  | [] => jor (get "events_default" powerLevels) (JNum (of_Z 0))
  | event :: events =>
      match opt_prop (get "events" powerLevels) event with
      | JNum level => JNum level
      | _ => getRoomEventPowerLevel powerLevels events
      end
  end.

Definition shouldShowUnreadIndicator (notificationCount : option num) (isMarkedUnread : bool)
    : bool :=
  match notificationCount with
  | Some n => num_truthy n && ltb (of_Z 0) n || isMarkedUnread
  | None => isMarkedUnread
  end.

(** ** Multispend groups *)

Record GroupInvitation := mkInvitation {
  signers : list string;
  threshold : Z;
  federationInviteCode : string;
  invitation_federationName : string
}.

Inductive RpcMultispendGroupStatus : Type :=
  | inactive
  | activeInvitation (active_invite_id : string) (invitation : GroupInvitation) (proposer : string)
  | finalized (invite_event_id : string) (invitation : GroupInvitation) (proposer : string).

Inductive MultispendRole : Type := member | voter | proposer_role.

Definition getMultispendInvite (st : RpcMultispendGroupStatus) : option GroupInvitation :=
  match st with
  | inactive => None
  | activeInvitation _ i _ | finalized _ i _ => Some i
  end.

Definition getMultispendRole (st : RpcMultispendGroupStatus) (userId : string) : MultispendRole :=
  let '(signers, proposer) :=
    match st with
    | inactive => ([], None)
    | activeInvitation _ i p | finalized _ i p => (signers i, Some p)
    end in
  if bool_decide (proposer = Some userId) then proposer_role
  else if bool_decide (userId ∈ signers) then voter
  else member.

Definition role_power (st : RpcMultispendGroupStatus) (m : obj) : Z :=
  match getMultispendRole st (to_str (id_of m)) with
  | proposer_role => 2
  | voter => 1
  | member => 0
  end.

(** [members.sort(...)]: the array it is given is the one it sorts. *)
Definition sortMultispendRoomMembers (members : list obj) (st : option RpcMultispendGroupStatus)
    : list obj :=
  match st with
  | None => members
  | Some st => sort_stable (fun a b => role_power st b <=? role_power st a) members
  end.

Inductive WithdrawTxSubmissionStatus : Type :=
  | tx_unknown
  | tx_accepted (txid : string)
  | tx_rejected (error : string).

(** A withdrawal request with the votes it has: [signatures] is a record from
    user ids to signatures. *)
Record WithdrawRequestWithApprovals := mkWithdraw {
  transfer_amount : num;
  description : string;
  signatures : list (string * string);
  rejections : list string;
  txSubmissionStatus : WithdrawTxSubmissionStatus;
  w_sender : string
}.

Record MultispendDepositEventData := mkDeposit {
  d_user : string;
  d_fiatAmount : num;
  d_txid : string;
  d_description : string
}.

Definition getHasUserVotedForWithdrawal (w : WithdrawRequestWithApprovals) (userId : string)
    : bool :=
  bool_decide (userId ∈ rejections w) ||
  match lookup_prop userId (signatures w) with
  | Some signature => negb (bool_decide (signature = ""))
  | None => false
  end.

Definition isMultispendWithdrawalRejected (w : WithdrawRequestWithApprovals)
    (st : RpcMultispendGroupStatus) : bool :=
  match getMultispendInvite st with
  | Some i => Z.of_nat (length (signers i)) - threshold i <? Z.of_nat (length (rejections w))
  | None => false
  end.

Definition isWithdrawalRequestApproved (w : WithdrawRequestWithApprovals)
    (st : RpcMultispendGroupStatus) : bool :=
  match getMultispendInvite st with
  | Some i => threshold i <=? Z.of_nat (length (signatures w))
  | None => false
  end.

(** [MsEventData], by kind; the keys in an invitation are left out. *)
Inductive MsEventData : Type :=
  | withdrawalRequest (w : WithdrawRequestWithApprovals)
  | groupInvitation (i : GroupInvitation)
  | depositNotification (d : MultispendDepositEventData)
  | invalidEvent.

Record MultispendListedEvent := mkListed {
  counter : num;
  time : num;
  event : MsEventData;
  eventId : string
}.

Definition isMultispendFinancialEvent (e : MultispendListedEvent) : bool :=
  match event e with withdrawalRequest _ | depositNotification _ => true | _ => false end.
Definition isMultispendWithdrawalEvent (e : MultispendListedEvent) : bool :=
  match event e with withdrawalRequest _ => true | _ => false end.
Definition isMultispendDepositEvent (e : MultispendListedEvent) : bool :=
  match event e with depositNotification _ => true | _ => false end.
Definition isMultispendInvitation (e : MultispendListedEvent) : bool :=
  match event e with groupInvitation _ => true | _ => false end.

(** ** Properties of what a room shows *)

(** The payment events of the payment with key [k]. *)
Definition payment_with (k : string) (ev : obj) : Prop :=
  isPaymentEvent ev = true /\ payment_key ev = k.

#[export] Instance payment_with_dec k ev : Decision (payment_with k ev).
Proof. unfold payment_with. apply _. Defined.

Lemma latest_payment k l :
  lookup_prop k (foldl record_payment [] l) = last (filter (payment_with k) l).
Proof.
  induction l as [|ev l IH] using rev_ind; [done|].
  rewrite foldl_app, filter_app. cbn [foldl]. unfold record_payment at 1.
  destruct (isPaymentEvent ev) eqn:P.
  - destruct (decide (payment_key ev = k)) as [<-|N].
    + rewrite lookup_set_eq, filter_cons_True by done. by rewrite filter_nil, last_snoc.
    + rewrite lookup_set_ne by congruence. rewrite filter_cons_False by (intros [H1 H2]; congruence).
      by rewrite filter_nil, app_nil_r.
  - rewrite filter_cons_False by (intros [H1 H2]; congruence).
    by rewrite filter_nil, app_nil_r.
Qed.

(** The message [shown] for the event [ev] of the timeline [l]. *)
Definition shows_latest (l : list obj) (ev shown : obj) : Prop :=
  id_of shown = id_of ev /\
  if isPaymentEvent ev then
    exists latest, last (filter (payment_with (payment_key ev)) l) = Some latest /\
      forall k, lookup_prop k (content shown) =
        match lookup_prop k (content latest) with
        | Some v => Some v
        | None => lookup_prop k (content ev)
        end
  else shown = ev.

Lemma with_latest_shows l ev :
  Forall (fun e => wf_obj (content e)) l -> NoDup (id_of <$> l) -> ev ∈ l ->
  shows_latest l ev (with_latest (foldl record_payment [] l) ev).
Proof.
  intros W D Hev. unfold shows_latest, with_latest.
  destruct (isPaymentEvent ev) eqn:P; [|done]. cbn [negb]. rewrite latest_payment.
  destruct (last (filter (payment_with (payment_key ev)) l)) as [latest|] eqn:E.
  - assert (Hl : latest ∈ l) by (apply last_Some_elem_of, list_elem_of_filter in E; tauto).
    case_bool_decide as I.
    + split; [done|]. exists latest. split; [done|]. intros k.
      assert (ev = latest) as ->.
      { apply list_elem_of_lookup in Hev as [i Hi], Hl as [j Hj].
        assert (i = j) as ->; [|congruence].
        eapply (NoDup_lookup (id_of <$> l) i j (id_of ev)); [done| |].
        - by rewrite list_lookup_fmap, Hi.
        - by rewrite list_lookup_fmap, Hj, I. }
      by destruct (lookup_prop k (content latest)).
    + split; [unfold id_of; by rewrite get_set_ne|]. exists latest. split; [done|]. intros k.
      unfold content at 1. rewrite get_set_eq, lookup_spread_wf; [done|].
      rewrite list.Forall_forall in W. by apply W.
  - exfalso. apply last_None in E.
    assert (H : ev ∈ filter (payment_with (payment_key ev)) l)
      by (apply list_elem_of_filter; done).
    rewrite E in H. by apply elem_of_nil in H.
Qed.


Definition example_payment (id status : string) (extra : obj) : obj :=
  [("id", JStr id); ("content", JObj ([("msgtype", JStr "xyz.fedi.payment");
    ("paymentId", JStr "p"); ("status", JStr status); ("amount", JNum (of_Z 1000))] ++ extra))].

Definition example_timeline : list obj :=
  [example_payment "e1" "pushed" [("ecash", JStr "token")];
   [("id", JStr "e2"); ("content", JObj [("msgtype", JStr "m.text"); ("body", JStr "hi")])];
   example_payment "e3" "received" []].


(** ** Properties of the payments *)

(** The payment is for the user, with ecash of a joined federation that is not
    recovering. *)
Definition claimable (myId : string) (myFederations : list obj) (ev : obj) : Prop :=
  isPaymentEvent ev = true /\ get "recipientId" (content ev) = JStr myId /\
  truthy (get "federationId" (content ev)) = true /\
  exists l1 f l2, myFederations = l1 ++ f :: l2 /\
    Forall (fun g => id_of g <> get "federationId" (content ev)) l1 /\
    id_of f = get "federationId" (content ev) /\ truthy (get "recovering" f) = false.

Lemma head_filter_Some {A} (P : A -> Prop) `{forall x, Decision (P x)} l x :
  head (filter P l) = Some x <->
  exists l1 l2, l = l1 ++ x :: l2 /\ Forall (fun y => ~ P y) l1 /\ P x.
Proof.
  split.
  - revert x. induction l as [|y l IH]; intros x; [done|]. rewrite filter_cons. case_decide.
    + intros [= <-]. by exists [], l.
    + intros (l1 & l2 & -> & F & Px)%IH. exists (y :: l1), l2. by repeat constructor.
  - intros (l1 & l2 & -> & F & Px). induction F as [|y l1 Hy F IH]; cbn [app].
    + by rewrite filter_cons_True.
    + by rewrite filter_cons_False.
Qed.

Lemma spendable_spec feds ev :
  spendable feds ev = true <->
  exists l1 f l2, feds = l1 ++ f :: l2 /\
    Forall (fun g => id_of g <> get "federationId" (content ev)) l1 /\
    id_of f = get "federationId" (content ev) /\ truthy (get "recovering" f) = false.
Proof.
  unfold spendable. destruct (head _) as [f|] eqn:E.
  - pose proof E as E'. apply head_filter_Some in E' as (l1 & l2 & -> & F & I).
    rewrite negb_true_iff. split; [intros R; by exists l1, f, l2|].
    intros (l1' & f' & l2' & Ef & F' & I' & R).
    assert (Some f = Some f') as [= ->]; [|done]. rewrite <- E. apply head_filter_Some.
    by exists l1', l2'.
  - split; [done|]. intros (l1 & f & l2 & -> & F & I & R).
    assert (head (filter (fun f => id_of f = get "federationId" (content ev)) (l1 ++ f :: l2))
      = Some f) as E' by (apply head_filter_Some; by exists l1, l2).
    congruence.
Qed.

Lemma sublist_map {A B} (f : A -> B) l k : sublist l k -> sublist (f <$> l) (f <$> k).
Proof. induction 1; cbn [fmap list_fmap]; by constructor. Qed.

Lemma receivable_candidate_spec me feds ev :
  receivable_candidate me feds ev = true <-> claimable me feds ev.
Proof.
  unfold receivable_candidate, claimable. rewrite !andb_true_iff, bool_decide_eq_true.
  rewrite spendable_spec. tauto.
Qed.

Definition claimable_with (me : string) (feds : list obj) (k : string) (ev : obj) : Prop :=
  claimable me feds ev /\ payment_key ev = k.

#[export] Instance claimable_with_dec me feds k ev : Decision (claimable_with me feds k ev).
Proof.
  refine (cast_if (decide (receivable_candidate me feds ev = true /\ payment_key ev = k)));
    unfold claimable_with; by rewrite <- receivable_candidate_spec.
Defined.

Lemma NoDup_receivable me feds tl :
  NoDup (foldl (record_receivable me feds) [] tl).*1.
Proof.
  induction tl as [|item tl IH] using rev_ind; [constructor|].
  rewrite foldl_app. cbn [foldl]. unfold record_receivable at 1.
  destruct item as [ev|]; [|done]. case_if; [|done]. unfold assign_prop. case_decide; [done|].
  by apply NoDup_set.
Qed.

Lemma latest_receivable me feds k tl :
  lookup_prop k (foldl (record_receivable me feds) [] tl) =
    if decide (k = "__proto__") then None
    else last (filter (claimable_with me feds k) (omap id tl)).
Proof.
  induction tl as [|item tl IH] using rev_ind; [by case_decide|].
  rewrite foldl_app, omap_app. cbn [foldl]. unfold record_receivable at 1.
  destruct item as [ev|]; cbn [omap list_omap id]; [|by rewrite app_nil_r].
  rewrite filter_app. destruct (receivable_candidate me feds ev) eqn:R.
  - unfold assign_prop. destruct (decide (payment_key ev = k)) as [<-|N].
    + rewrite filter_cons_True by (by split; [apply receivable_candidate_spec|]).
      case_decide; [done|]. by rewrite lookup_set_eq, filter_nil, last_snoc.
    + rewrite (filter_cons_False _ ev) by (intros [_ ?]; congruence).
      rewrite filter_nil, app_nil_r, <- IH.
      destruct (decide (payment_key ev = "__proto__")); [done|].
      by rewrite lookup_set_ne by congruence.
  - rewrite filter_cons_False; [by rewrite filter_nil, app_nil_r|].
    intros [C%receivable_candidate_spec _]. congruence.
Qed.

Lemma receivable_keys me feds tl k ev :
  (k, ev) ∈ foldl (record_receivable me feds) [] tl -> payment_key ev = k.
Proof.
  intros H. apply elem_of_lookup_prop in H; [|apply NoDup_receivable].
  rewrite latest_receivable in H. case_decide; [done|].
  apply last_Some_elem_of, list_elem_of_filter in H. apply H.
Qed.

(** C4: The payments offered for claiming are, for each payment id, the latest
    message of the payment that is for the user and whose ecash can be spent,
    when that message says the payment is pushed or accepted: no payment is
    offered twice, nor one that a later message settled, nor ecash of a
    federation the user has not joined or is recovering.  A payment whose id is
    [__proto__] is never offered. *)
Theorem receivable_payments tl me feds :
  (forall ev, ev ∈ getReceivablePaymentEvents tl me feds <->
     payment_key ev <> "__proto__" /\ status_in ["accepted"; "pushed"] ev = true /\
     last (filter (claimable_with me feds (payment_key ev)) (omap id tl)) = Some ev) /\
  NoDup (payment_key <$> getReceivablePaymentEvents tl me feds).
Proof.
  unfold getReceivablePaymentEvents. set (latest := foldl _ _ _).
  assert (K : forall kv, kv ∈ latest -> payment_key kv.2 = kv.1)
    by (intros [k ev] H; by apply receivable_keys in H).
  split.
  - intros ev. rewrite list_elem_of_filter, list_elem_of_fmap.
    transitivity (status_in ["accepted"; "pushed"] ev = true /\
      lookup_prop (payment_key ev) latest = Some ev).
    + rewrite Is_true_true. split.
      * intros [S ([k ev'] & -> & H)]. split; [done|].
        pose proof (K _ H) as Ek. cbn [fst snd] in Ek |- *. rewrite Ek. apply elem_of_lookup_prop; [apply NoDup_receivable | done].
      * intros [S H]. split; [done|]. exists (payment_key ev, ev). split; [done|].
        apply elem_of_lookup_prop; [apply NoDup_receivable | done].
    + unfold latest. rewrite latest_receivable. case_decide; naive_solver.
  - assert (E : payment_key <$> latest.*2 = latest.*1).
    { rewrite <- list_fmap_compose. apply list_fmap_ext. intros i kv H.
      apply K. by apply list_elem_of_lookup_2 in H. }
    apply (sublist_NoDup _ (payment_key <$> latest.*2)); [|apply sublist_map, sublist_filter].
    rewrite E. apply NoDup_receivable.
Qed.

(** ** Properties of the groups *)

(** Two consecutive groups, where [f] is the last event of the first and [g]
    the first event of the second, break the relation [R]. *)
Definition breaks {A} (f g : A -> option obj) (R : obj -> obj -> bool) (x y : A) : Prop :=
  exists a b, f x = Some a /\ g y = Some b /\ R a b = false.

(** A run of messages of one sender. *)
Definition run (r : list obj) : Prop := r <> [] /\ Sorted (fun a b => same_sender a b = true) r.

(** The runs of one time group. *)
Definition time_group (g : list (list obj)) : Prop :=
  g <> [] /\ Forall run g /\ Sorted (fun a b => same_time_group a b = true) (concat g) /\
  Sorted (breaks last head same_sender) g.

(** The groups [gs] cover the messages [l]: nothing is lost, moved or repeated,
    and a new group starts exactly where the relation breaks. *)
Definition groups_of (l : list obj) (gs : list (list (list obj))) : Prop :=
  concat (concat gs) = l /\ Forall time_group gs /\
  Sorted (breaks (fun g => last (concat g)) (fun g => head (concat g)) same_time_group) gs.

Lemma Sorted_snoc {A} (R : A -> A -> Prop) l x :
  Sorted R l -> (forall y, last l = Some y -> R y x) -> Sorted R (l ++ [x]).
Proof.
  induction 1 as [|y l S IH Hd]; intros L; cbn [app]; [by repeat constructor|].
  constructor.
  - apply IH. intros z Hz. apply L. destruct l; done.
  - destruct Hd; cbn [app]; constructor; [by apply L | done].
Qed.

(** The last element can be exchanged for one the relation does not tell apart
    on its left. *)
Lemma Sorted_replace_last {A} (R : A -> A -> Prop) l x y :
  (forall z, R z x -> R z y) -> Sorted R (l ++ [x]) -> Sorted R (l ++ [y]).
Proof.
  intros H. induction l as [|z l IH]; cbn [app]; [by repeat constructor|].
  intros [S Hd]%Sorted_inv. constructor; [by apply IH|].
  destruct l; cbn [app] in *; apply HdRel_inv in Hd; constructor; auto.
Qed.

Lemma push_last_snoc {A} (x : A) l g : push_last x (l ++ [g]) = l ++ [g ++ [x]].
Proof. induction l as [|h l IH]; [done|]. cbn. rewrite IH. by destruct l. Qed.

Lemma set_last_snoc {A} (x : A) l y : set_last x (l ++ [y]) = l ++ [x].
Proof. induction l as [|h l IH]; [done|]. cbn. rewrite IH. by destruct l. Qed.

Lemma concat_snoc {A} (l : list (list A)) g : concat (l ++ [g]) = concat l ++ g.
Proof. by rewrite concat_app, concat_cons, concat_nil, app_nil_r. Qed.

Lemma time_group_single x : time_group [[x]].
Proof. by repeat constructor. Qed.

Lemma last_concat {A} (rs : list (list A)) r a :
  last r = Some a -> last (concat (rs ++ [r])) = Some a.
Proof. intros L. by rewrite concat_snoc, last_app, L. Qed.

Lemma time_group_push rs r x a :
  time_group (rs ++ [r]) -> last r = Some a ->
  same_time_group a x = true -> same_sender a x = true -> time_group (rs ++ [r ++ [x]]).
Proof.
  intros (N & F & T & B) L Tx Sx. apply list.Forall_app in F as [F [[Nr Sr] _]%list.Forall_cons].
  split; [by destruct rs|]. split; [|split].
  - apply list.Forall_app. split; [done|]. constructor; [|done]. split; [by destruct r|].
    apply Sorted_snoc; [done|]. intros y Hy. congruence.
  - rewrite concat_snoc, app_assoc, <- concat_snoc. apply Sorted_snoc; [done|].
    intros y Hy. rewrite (last_concat _ _ a L) in Hy. congruence.
  - revert B. apply Sorted_replace_last. intros z (b & c & Eb & Ec & R). exists b, c.
    split; [done|]. split; [|done]. by destruct r.
Qed.

Lemma time_group_new rs r x a :
  time_group (rs ++ [r]) -> last r = Some a ->
  same_time_group a x = true -> same_sender a x = false -> time_group ((rs ++ [r]) ++ [[x]]).
Proof.
  intros (N & F & T & B) L Tx Sx. split; [by destruct rs|]. split; [|split].
  - apply list.Forall_app. split; [done|]. by repeat constructor.
  - rewrite concat_snoc. apply Sorted_snoc; [done|].
    intros y Hy. rewrite (last_concat _ _ a L) in Hy. congruence.
  - apply Sorted_snoc; [done|]. intros y Hy. rewrite last_snoc in Hy. injection Hy as <-.
    by exists a, x.
Qed.

Lemma groups_replace l ds g g' x :
  groups_of l (ds ++ [g]) -> time_group g' -> concat g' = concat g ++ [x] ->
  groups_of (l ++ [x]) (ds ++ [g']).
Proof.
  intros (C & F & B) T E. apply list.Forall_app in F as [F [Tg _]%list.Forall_cons].
  split; [|split].
  - rewrite <- C, !concat_snoc, !concat_app, E. by rewrite app_assoc.
  - apply list.Forall_app. split; [done|]. by constructor.
  - revert B. apply Sorted_replace_last. intros z (b & c & Eb & Ec & R). exists b, c.
    split; [done|]. split; [|done]. rewrite E. by destruct (concat g).
Qed.

Lemma groups_new l gs x :
  groups_of l gs -> (forall g a, last gs = Some g -> last (concat g) = Some a ->
    same_time_group a x = false) -> groups_of (l ++ [x]) (gs ++ [[[x]]]).
Proof.
  intros (C & F & B) H. split; [|split].
  - by rewrite concat_snoc, concat_app, C.
  - apply list.Forall_app. split; [done|]. constructor; [apply time_group_single | done].
  - apply Sorted_snoc; [done|]. intros g Hg.
    assert (Tg : time_group g)
      by (rewrite list.Forall_forall in F; by apply F, last_Some_elem_of).
    destruct (last (concat g)) as [a|] eqn:L.
    + exists a, x. split; [done|]. split; [done|]. by apply (H g).
    + exfalso. apply last_None in L. destruct Tg as (N & R & _).
      destruct g as [|r g]; [done|]. apply list.Forall_cons in R as [[Nr _] _]. by destruct r.
Qed.

(** What [eventGroups], [currentTimeGroup] and [lastEvent] are after the
    events [l]. *)
Definition grouped (l : list obj)
    (acc : list (list (list obj)) * list (list obj) * option obj) : Prop :=
  acc.2 = last l /\ groups_of l acc.1.1 /\
  match last l with
  | None => acc.1.1 = []
  | Some a => exists ds rs r,
      acc.1.2 = rs ++ [r] /\ acc.1.1 = ds ++ [rs ++ [r]] /\ last r = Some a
  end.

Lemma group_step_grouped l x acc : grouped l acc -> grouped (l ++ [x]) (group_step acc x).
Proof.
  destruct acc as [[gs cur] le]. intros (E & G & H). cbn [fst snd] in *. subst le.
  unfold grouped. rewrite last_snoc. unfold group_step.
  destruct (last l) as [a|] eqn:L.
  - destruct H as (ds & rs & r & -> & -> & Lr).
    assert (Tg : time_group (rs ++ [r]))
      by (destruct G as (_ & F & _); apply list.Forall_app in F as [_ F];
          by apply list.Forall_cons in F as [? _]).
    destruct (same_time_group a x) eqn:Tx; [destruct (same_sender a x) eqn:Sx|]; cbn [fst snd].
    + rewrite push_last_snoc, set_last_snoc. split; [done|]. split; [|by exists ds, rs, (r ++ [x]);
        rewrite last_snoc].
      apply (groups_replace _ _ (rs ++ [r])); [done|by apply (time_group_push _ _ _ a)|].
      by rewrite !concat_snoc, app_assoc.
    + rewrite set_last_snoc. split; [done|]. split; [|by exists ds, (rs ++ [r]), [x]].
      apply (groups_replace _ _ (rs ++ [r])); [done|by apply (time_group_new _ _ _ a)|].
      by rewrite concat_snoc.
    + split; [done|]. split; [|by exists (ds ++ [rs ++ [r]]), [], [x]].
      apply groups_new; [done|]. intros g b. rewrite last_snoc. intros [= <-].
      rewrite (last_concat _ _ a Lr). congruence.
  - cbn [fst snd]. subst gs. split; [done|]. split; [|by exists [], [], [x]].
    by apply groups_new.
Qed.

(** The groups of a room's messages hold every message once, in the order
    of their timestamps; inside a time group consecutive messages are at most a
    minute apart, a run in it is of one sender, and a new group or a new run
    starts only where that stops being so. *)
Theorem makeMatrixEventGroups_spec orderByTimestamp events descending :
  groups_of (orderByTimestamp descending events)
    (makeMatrixEventGroups orderByTimestamp events descending).
Proof.
  unfold makeMatrixEventGroups. set (l := orderByTimestamp descending events).
  enough (grouped l (foldl group_step ([], [], None) l)) as (_ & G & _) by done.
  induction l as [|x l IH] using rev_ind.
  - repeat split; constructor.
  - rewrite foldl_app. by apply group_step_grouped.
Qed.

(** ** Properties of the votes *)

(** The votes of a withdrawal request: signers of the group, each once, for or
    against. *)
Definition valid_votes (signers : list string) (w : WithdrawRequestWithApprovals) : Prop :=
  NoDup ((signatures w).*1 ++ rejections w) /\ (signatures w).*1 ++ rejections w ⊆ signers.

Lemma NoDup_subset_length {A} (l k : list A) : NoDup l -> l ⊆ k -> (length l <= length k)%nat.
Proof. intros D H. by apply submseteq_length, NoDup_submseteq. Qed.

(** Those who have not voted against. *)
Definition others (w : WithdrawRequestWithApprovals) (signers : list string) : list string :=
  filter (fun u => u ∉ rejections w) signers.

Lemma others_length w l :
  NoDup l -> NoDup (rejections w) -> rejections w ⊆ l ->
  (length (others w l) + length (rejections w) = length l)%nat.
Proof.
  intros D Dr S. rewrite <- length_app. apply Permutation_length.
  apply NoDup_Permutation; [|done|].
  - apply list.NoDup_app. split; [by apply list.NoDup_filter|]. split; [|done].
    intros u [Hu _]%list_elem_of_filter. done.
  - intros u. unfold others. rewrite elem_of_app, list_elem_of_filter. split.
    + intros [[_ Hu]|Hu]; [done|by apply S].
    + intros Hu. destruct (decide (u ∈ rejections w)); auto.
Qed.

(** A withdrawal counts as rejected exactly when the signers who have not
    rejected it are too few to reach the threshold; it is then not approved,
    and once every signer has voted it is one or the other. *)
Theorem withdrawal_votes w st i :
  getMultispendInvite st = Some i -> NoDup (signers i) -> valid_votes (signers i) w ->
  (isMultispendWithdrawalRejected w st = true <->
     forall sigs, NoDup sigs -> sigs ⊆ signers i -> (forall u, u ∈ sigs -> u ∉ rejections w) ->
       Z.of_nat (length sigs) < threshold i) /\
  ~ (isMultispendWithdrawalRejected w st = true /\ isWithdrawalRequestApproved w st = true) /\
  ((forall u, u ∈ signers i -> u ∈ (signatures w).*1 \/ u ∈ rejections w) ->
     isMultispendWithdrawalRejected w st = true \/ isWithdrawalRequestApproved w st = true).
Proof.
  intros Ei D [Dv Sv]. unfold isMultispendWithdrawalRejected, isWithdrawalRequestApproved.
  rewrite Ei, Z.ltb_lt, Z.leb_le.
  pose proof (NoDup_subset_length _ _ Dv Sv) as Lv.
  rewrite length_app, length_fmap in Lv.
  apply list.NoDup_app in Dv as (Ds & Dis & Dr).
  assert (Sr : rejections w ⊆ signers i)
    by (intros u Hu; apply Sv, elem_of_app; by right).
  pose proof (others_length w (signers i) D Dr Sr) as O.
  split; [|split].
  - split.
    + intros R sigs N S X.
      assert (length sigs <= length (others w (signers i)))%nat; [|lia].
      apply NoDup_subset_length; [done|]. intros u Hu. apply list_elem_of_filter. auto.
    + intros H. specialize (H (others w (signers i))). apply dec_stable. intros N.
      enough (Z.of_nat (length (others w (signers i))) < threshold i) by lia.
      apply H; [by apply list.NoDup_filter| |]; by intros u [? ?]%list_elem_of_filter.
  - lia.
  - intros A.
    assert (length (signers i) <= length ((signatures w).*1 ++ rejections w))%nat as LA.
    { apply NoDup_subset_length; [done|]. intros u Hu. apply elem_of_app, A, Hu. }
    rewrite length_app, length_fmap in LA. lia.
Qed.

Definition example_group : RpcMultispendGroupStatus :=
  finalized "$e" (mkInvitation ["a"; "b"; "c"] 2 "fed1" "Fed") "a".
Definition example_withdrawal : WithdrawRequestWithApprovals :=
  mkWithdraw (of_Z 100) "rent" [("a", "sig")] ["b"; "c"] tx_unknown "a".

Lemma withdrawal_votes_witness :
  ~ (isMultispendWithdrawalRejected example_withdrawal example_group = true /\
     isWithdrawalRequestApproved example_withdrawal example_group = true) /\
  isMultispendWithdrawalRejected example_withdrawal example_group = true.
Proof.
  split; [|reflexivity].
  apply (withdrawal_votes example_withdrawal example_group
    (mkInvitation ["a"; "b"; "c"] 2 "fed1" "Fed")); [reflexivity| |split].
  - by apply (bool_decide_unpack (NoDup ["a"; "b"; "c"])).
  - by apply (bool_decide_unpack (NoDup ["a"; "b"; "c"])).
  - intros u. done.
Defined.
