(* ===== verification/Matrix.v ===== *)
(** The matrix slice: [ui/common/redux/matrix.ts].

    Chat state as the bridge streams it: the list of rooms and what is known of
    each, their members, timelines, pinned messages, power levels and multispend
    events, the users met, and what the user is writing or has already seen.
    The actions are the reducers and the completions of the thunks; the events
    of the chat client are turned into the actions they dispatch.  Payments are
    in MatrixThunks.v, selectors in MatrixSelect.v.

    A record keyed by room is a list of properties; room and event ids start
    with [!] and [$], so no key is [__proto__]. *)
From Stdlib Require Import ZArith Lia Sorted Ascii.
From stdpp Require Import base tactics strings list option sets.
From S2P Require Import Prelude JsNum Js JsStr Stream Upsert Federation KeyedMap MatrixEvents.
Local Open Scope string_scope.
Local Open Scope list_scope.

(** ** The state *)

Inductive MatrixSyncStatus : Type := uninitialized | stopped | initialSync | syncing | synced.

#[export] Instance MatrixSyncStatus_eq_dec : EqDecision MatrixSyncStatus.
Proof. solve_decision. Defined.

(** [Record<K, V>] *)
Abbreviation record V := (list (string * V)).

Definition remove_key {V} (k : string) (o : record V) : record V :=
  filter (fun kv => kv.1 <> k) o.

(** [{ Ok: RpcSPv2SyncResponse } | { Err: NetworkError }], with the balance
    [lockedPlusStaged.fiat] of the first, in cents. *)
Inductive AccountInfo : Type :=
  | acc_Ok (lockedPlusStaged_fiat : num)
  | acc_Err (error : jval).

Record PreviewMedia := mkPreviewMedia { visible : bool; media : obj }.

Record ChatReplyState := mkReply { reply_roomId : option string; reply_event : option obj }.

Record MatrixState := mkMatrix {
  setup : bool;
  started : bool;
  auth : option obj;
  status : MatrixSyncStatus;
  roomList : list obj;
  roomInfo : obj;
  roomMembers : record (list obj);
  roomTimelines : record (list (option obj));
  roomPaginationStatus : record jval;
  roomPowerLevels : record obj;
  roomNotificationMode : record jval;
  roomPinnedTimelineItems : record (list obj);
  roomMultispendStatus : record (option RpcMultispendGroupStatus);
  roomMultispendAccountInfo : record (option AccountInfo);
  roomMultispendEvents : record (list MultispendListedEvent);
  spTransferStates : record (record jval);
  users : obj;
  ignoredUsers : list string;
  rejectedRoomInvites : list string;
  seenRoomInvites : list string;
  seenKnockRequests : record (list string);
  errors : list jval;
  pushNotificationToken : option string;
  groupPreviews : record obj;
  drafts : record string;
  selectedChatMessage : option obj;
  messageToEdit : option obj;
  previewMedia : list PreviewMedia;
  replyingToMessage : ChatReplyState;
  tempMediaUriMap : record string;
  chatsListSearchQuery : string;
  chatTimelineSearchQuery : string
}.

#[export] Instance MatrixState_eta : Eta MatrixState := fun s =>
  mkMatrix (setup s) (started s) (auth s) (status s) (roomList s) (roomInfo s) (roomMembers s)
    (roomTimelines s) (roomPaginationStatus s) (roomPowerLevels s) (roomNotificationMode s)
    (roomPinnedTimelineItems s) (roomMultispendStatus s) (roomMultispendAccountInfo s)
    (roomMultispendEvents s) (spTransferStates s) (users s) (ignoredUsers s)
    (rejectedRoomInvites s) (seenRoomInvites s) (seenKnockRequests s) (errors s)
    (pushNotificationToken s) (groupPreviews s) (drafts s) (selectedChatMessage s)
    (messageToEdit s) (previewMedia s) (replyingToMessage s) (tempMediaUriMap s)
    (chatsListSearchQuery s) (chatTimelineSearchQuery s).

Definition matrix_initialState : MatrixState :=
  mkMatrix false false None uninitialized [] [] [] [] [] [] [] [] [] [] [] [] [] [] [] [] [] []
    None [] [] None None [] (mkReply None None) [] "" "".

(** ** Helpers of the reducers *)

Section Multispend.
(** lodash's [orderBy(transactions, 'counter', 'desc')]. *)
Context (orderByCounterDesc : list MultispendListedEvent -> list MultispendListedEvent).

(** The map of events by id, in insertion order, is the list of its values. *)
Definition updateMultispendEvents (newTransactions oldTransactions : list MultispendListedEvent)
    : list MultispendListedEvent :=
  let transactionMap := foldl (fun m ev => map_set eventId ev m) [] newTransactions in
  let transactionMap := foldl (map_add eventId) transactionMap oldTransactions in
  orderByCounterDesc transactionMap.
End Multispend.

Definition is_membership (k : string) (m : obj) : bool :=
  bool_decide (get "membership" m = JStr k).

Definition members_of (s : MatrixState) (roomId : string) : list obj :=
  default [] (lookup_prop roomId (roomMembers s)).

(** The ids of the members who knock. *)
Definition knocking (s : MatrixState) (roomId : string) : list jval :=
  id_of <$> filter (fun m => is_membership "knock" m) (members_of s roomId).

Definition pruneSeenKnockRequests (s : MatrixState) (roomId : string) : MatrixState :=
  match lookup_prop roomId (seenKnockRequests s) with
  | None => s
  | Some seen =>
      let pruned := filter (fun id => JStr id ∈ knocking s roomId) seen in
      if bool_decide (pruned = []) then
        s <| seenKnockRequests := remove_key roomId (seenKnockRequests s) |>
      else if negb (bool_decide (length pruned = length seen)) then
        s <| seenKnockRequests := set_prop roomId pruned (seenKnockRequests s) |>
      else s
  end.

Definition doesEventContentMatchPreviewMedia (media content : obj) : bool :=
  let info := get "info" content in
  bool_decide (opt_prop info "mimetype" = get "mimeType" media) &&
  bool_decide (opt_prop info "width" = get "width" media) &&
  bool_decide (opt_prop info "height" = get "height" media) &&
  bool_decide (get "body" content = get "fileName" media).

(** ** Texts of ids and urls *)

(** [s.split(c)] *)
Fixpoint split_on (c : Ascii.ascii) (s : string) : list string :=
  match s with
  | EmptyString => [""]
  | String d s =>
      if decide (d = c) then "" :: split_on c s
      else match split_on c s with
           | w :: ws => String d w :: ws
           | [] => [String d EmptyString]
           end
  end.

(** [s.replace(c, '')] *)
Fixpoint remove_first (c : Ascii.ascii) (s : string) : string :=
  match s with
  | EmptyString => EmptyString
  | String d s => if decide (d = c) then s else String d (remove_first c s)
  end.

Definition matrixIdToUsername (id : option string) : string :=
  match id with
  | None | Some "" => "?"
  | Some id => remove_first "@"%char (default "" (head (split_on ":"%char id)))
  end.

Section Url.
(** [new URL(base)], with its path and query set, as a string. *)
Context (url_string : string -> string -> list (string * string) -> result string).

Definition mxcUrlToHttpUrl (mxcUrl : string) (width height : Z) (method : string)
    : result (option string) :=
  match drop 2 (split_on "/"%char mxcUrl) with
  | serverName :: mediaId :: _ =>
      if bool_decide (mediaId = "") then Ok None
      else
        url ← url_string ("https://" +:+ serverName)
          ("/_matrix/media/r0/thumbnail/" +:+ serverName +:+ "/" +:+ mediaId)
          ((if bool_decide (width = 0%Z) then [] else [("width", int_string width)]) ++
           (if bool_decide (height = 0%Z) then [] else [("height", int_string height)]) ++
           [("method", method)]);
        Ok (Some url)
  | _ => Ok None
  end.
End Url.

(** ** Reducers *)

Section Slice.
(** lodash's [isEqual] and [orderBy], and the [URL] of the platform. *)
Context (isEqual : jval -> jval -> bool).
Context (orderByCounterDesc : list MultispendListedEvent -> list MultispendListedEvent).
Context (url_string : string -> string -> list (string * string) -> result string).

Definition setMatrixSetup (b : bool) (s : MatrixState) : MatrixState := s <| setup := b |>.
Definition setMatrixStatus (st : MatrixSyncStatus) (s : MatrixState) : MatrixState :=
  s <| status := st |>.
Definition setMatrixAuth (a : option obj) (s : MatrixState) : MatrixState := s <| auth := a |>.

Definition addMatrixRoomInfo (room : obj) (s : MatrixState) : MatrixState :=
  let s := s <| roomInfo := (upsertRecordEntity isEqual (Some (roomInfo s)) room).2 |> in
  if bool_decide (get "roomState" room = JStr "invited") then s
  else s <| seenRoomInvites := filter (fun roomId => JStr roomId <> id_of room)
              (seenRoomInvites s) |>.

Definition markMatrixRoomInviteSeen (roomId : string) (s : MatrixState) : MatrixState :=
  if decide (roomId ∈ seenRoomInvites s) then s
  else s <| seenRoomInvites := seenRoomInvites s ++ [roomId] |>.

Definition markKnockRequestsSeen (roomId : string) (userIds : list string) (s : MatrixState)
    : MatrixState :=
  match userIds with
  | [] => s
  | _ =>
      let existing := default [] (lookup_prop roomId (seenKnockRequests s)) in
      s <| seenKnockRequests :=
        set_prop roomId (Federation.dedup (existing ++ userIds)) (seenKnockRequests s) |>
  end.

Definition handleMatrixRoomListStreamUpdates (updates : list (VectorDiff obj)) (s : MatrixState)
    : MatrixState :=
  s <| roomList := applyStreamUpdates (roomList s) updates |>.

(** The property name that [member.roomId] is as a key. *)
Definition room_of (member : obj) : string := to_str (get "roomId" member).

Definition addMatrixRoomMember (member : obj) (s : MatrixState) : MatrixState :=
  let roomId := room_of member in
  let '(same, newRoomMembers) :=
    upsertListItem isEqual (lookup_prop roomId (roomMembers s)) member None None in
  let s := if same : bool then s
           else s <| roomMembers := set_prop roomId newRoomMembers (roomMembers s) |> in
  pruneSeenKnockRequests s roomId.

Definition setMatrixRoomMembers (roomId : string) (members : list obj) (s : MatrixState)
    : MatrixState :=
  pruneSeenKnockRequests (s <| roomMembers := set_prop roomId members (roomMembers s) |>) roomId.

Definition setMatrixIgnoredUsers (ids : list string) (s : MatrixState) : MatrixState :=
  s <| ignoredUsers := ids |>.

Definition addMatrixUser (user : obj) (s : MatrixState) : MatrixState :=
  s <| users := (upsertRecordEntity isEqual (Some (users s)) user).2 |>.

Definition setMatrixUsers (l : list obj) (s : MatrixState) : MatrixState :=
  s <| users := foldl (fun acc user => set_prop (to_str (id_of user)) (JObj user) acc) [] l |>.

Definition handleMatrixRoomTimelineStreamUpdates (roomId : string)
    (updates : list (VectorDiff (option obj))) (s : MatrixState) : MatrixState :=
  s <| roomTimelines := set_prop roomId
    (applyStreamUpdates (default [] (lookup_prop roomId (roomTimelines s))) updates)
    (roomTimelines s) |>.

Definition handleMatrixRoomTimelinePaginationStatus (roomId : string) (paginationStatus : jval)
    (s : MatrixState) : MatrixState :=
  s <| roomPaginationStatus := set_prop roomId paginationStatus (roomPaginationStatus s) |>.

Definition setMatrixRoomPowerLevels (roomId : string) (powerLevels : obj) (s : MatrixState)
    : MatrixState :=
  s <| roomPowerLevels := set_prop roomId powerLevels (roomPowerLevels s) |>.

Definition handleMatrixRoomPinnedTimelineStreamUpdates (roomId : string)
    (updates : list (VectorDiff obj)) (s : MatrixState) : MatrixState :=
  s <| roomPinnedTimelineItems := set_prop roomId
    (applyStreamUpdates (default [] (lookup_prop roomId (roomPinnedTimelineItems s))) updates)
    (roomPinnedTimelineItems s) |>.

Definition setMatrixRoomNotificationMode (roomId : string) (mode : jval) (s : MatrixState)
    : MatrixState :=
  s <| roomNotificationMode := set_prop roomId mode (roomNotificationMode s) |>.

Definition setMatrixRoomMultispendStatus (roomId : string) (st : RpcMultispendGroupStatus)
    (s : MatrixState) : MatrixState :=
  s <| roomMultispendStatus := set_prop roomId
    (match st with inactive => None | _ => Some st end) (roomMultispendStatus s) |>.

Definition setMatrixRoomMultispendAccountInfo (roomId : string) (info : option AccountInfo)
    (s : MatrixState) : MatrixState :=
  s <| roomMultispendAccountInfo := set_prop roomId info (roomMultispendAccountInfo s) |>.

Definition setMatrixRoomMultispendTransactions (roomId : string)
    (transactions : list MultispendListedEvent) (s : MatrixState) : MatrixState :=
  s <| roomMultispendEvents := set_prop roomId transactions (roomMultispendEvents s) |>.

Definition updateMatrixRoomMultispendTxns (roomId : string) (events : list MultispendListedEvent)
    (s : MatrixState) : MatrixState :=
  let currentTxns := default [] (lookup_prop roomId (roomMultispendEvents s)) in
  s <| roomMultispendEvents := set_prop roomId
    (updateMultispendEvents orderByCounterDesc events currentTxns) (roomMultispendEvents s) |>.

Definition with_event (id : string) (update : MsEventData) (e : MultispendListedEvent)
    : MultispendListedEvent :=
  if has_key eventId id e then mkListed (counter e) (time e) update id else e.

Definition updateMatrixRoomMultispendEvent (roomId id : string) (update : MsEventData)
    (s : MatrixState) : MatrixState :=
  s <| roomMultispendEvents := set_prop roomId
    (match lookup_prop roomId (roomMultispendEvents s) with
     | None => [mkListed (of_Z 0) (of_Z 0) update id]
     | Some existingRoomEvents => with_event id update <$> existingRoomEvents
     end) (roomMultispendEvents s) |>.

Definition setSpTransferState (roomId id : string) (transferState : jval) (s : MatrixState)
    : MatrixState :=
  s <| spTransferStates := set_prop roomId
    (set_prop id transferState (default [] (lookup_prop roomId (spTransferStates s))))
    (spTransferStates s) |>.

Definition addMatrixError (e : jval) (s : MatrixState) : MatrixState :=
  s <| errors := errors s ++ [e] |>.

Definition resetMatrixState (s : MatrixState) : MatrixState := matrix_initialState.

Definition setChatDraft (roomId text : string) (s : MatrixState) : MatrixState :=
  if bool_decide (text = "") then s <| drafts := remove_key roomId (drafts s) |>
  else if decide (lookup_prop roomId (drafts s) = Some text) then s
  else s <| drafts := set_prop roomId text (drafts s) |>.

Definition setSelectedChatMessage (ev : option obj) (s : MatrixState) : MatrixState :=
  s <| selectedChatMessage := ev |>.
Definition setMessageToEdit (ev : option obj) (s : MatrixState) : MatrixState :=
  s <| messageToEdit := ev |>.

Definition addPreviewMedia (l : list obj) (s : MatrixState) : MatrixState :=
  s <| previewMedia := previewMedia s ++ (mkPreviewMedia true <$> l) |>.

(** [some(event => doesEventContentMatchPreviewMedia(media, event.content))] *)
Definition matched_by (events : list obj) (cached : PreviewMedia) : bool :=
  existsb (fun ev => doesEventContentMatchPreviewMedia (media cached) (content ev)) events.

Definition matchAndHidePreviewMedia (events : list obj) (s : MatrixState) : MatrixState :=
  let hasUpdates := existsb (fun cached => matched_by events cached && visible cached)
                      (previewMedia s) in
  let updatedPreviewMedia := (fun cached =>
      if matched_by events cached && visible cached then mkPreviewMedia false (media cached)
      else cached) <$> previewMedia s in
  if hasUpdates then s <| previewMedia := updatedPreviewMedia |> else s.

Definition setChatReplyingToMessage (roomId : string) (ev : obj) (s : MatrixState) : MatrixState :=
  s <| replyingToMessage := mkReply (Some roomId) (Some ev) |>.
Definition clearChatReplyingToMessage (s : MatrixState) : MatrixState :=
  s <| replyingToMessage := mkReply None None |>.

Definition addTempMediaUriEntry (uri hash : string) (s : MatrixState) : MatrixState :=
  s <| tempMediaUriMap := set_prop hash uri (tempMediaUriMap s) |>.

Definition setChatsListSearchQuery (q : string) (s : MatrixState) : MatrixState :=
  s <| chatsListSearchQuery := q |>.
Definition setChatTimelineSearchQuery (q : string) (s : MatrixState) : MatrixState :=
  s <| chatTimelineSearchQuery := q |>.

Definition addRejectedMatrixRoom (roomId : string) (s : MatrixState) : MatrixState :=
  s <| rejectedRoomInvites := rejectedRoomInvites s ++ [roomId] |>
    <| seenRoomInvites := filter (fun id => id <> roomId) (seenRoomInvites s) |>.

(** ** Completions of the thunks *)

Definition startMatrixClient_pending (s : MatrixState) : MatrixState :=
  s <| status := initialSync |>.
Definition startMatrixClient_fulfilled (s : MatrixState) : MatrixState := s <| started := true |>.
Definition startMatrixClient_rejected (s : MatrixState) : MatrixState :=
  s <| status := stopped |> <| started := false |>.

Definition setMatrixDisplayName_fulfilled (displayName : string) (s : MatrixState) : MatrixState :=
  match auth s with
  | None => s
  | Some a => s <| auth := Some (set_prop "displayName" (JStr displayName) a) |>
  end.

(** A reducer that throws leaves the state. *)
Definition uploadAndSetMatrixAvatarUrl_fulfilled (contentUri : string) (s : MatrixState)
    : MatrixState :=
  match auth s with
  | None => s
  | Some a =>
      match mxcUrlToHttpUrl url_string contentUri 200 200 "crop" with
      | Ok url => s <| auth := Some (set_prop "avatarUrl" (from_option JStr JUndef url) a) |>
      | Throw _ => s
      end
  end.

Definition setMatrixRoomBroadcastOnly_fulfilled (roomId : string) (powerLevels : obj)
    (s : MatrixState) : MatrixState :=
  s <| roomPowerLevels := set_prop roomId powerLevels (roomPowerLevels s) |>.

(** [upsertListItem(roomMembers, { ...member, [field]: v })] for the member
    with id [userId], when there is one. *)
Definition update_member (userId field : string) (v : jval) (members : list obj)
    : option (list obj) :=
  member ← Federation.find_first (Federation.has_id userId) members;
  Some (upsertListItem isEqual (Some members) (set_prop field v member) None None).2.

Definition setMatrixRoomMemberPowerLevel_fulfilled (roomId userId : string) (powerLevel : num)
    (powerLevels : obj) (s : MatrixState) : MatrixState :=
  let s := s <| roomPowerLevels := set_prop roomId powerLevels (roomPowerLevels s) |> in
  match lookup_prop roomId (roomMembers s) ≫=
        update_member userId "powerLevel" (JObj [("type", JStr "int"); ("value", JNum powerLevel)])
  with
  | Some members => s <| roomMembers := set_prop roomId members (roomMembers s) |>
  | None => s
  end.

Definition searchMatrixUsers_fulfilled (results : list obj) (s : MatrixState) : MatrixState :=
  foldl (fun s user => addMatrixUser user s) s results.

Definition fetchMatrixProfile_fulfilled (user : obj) (s : MatrixState) : MatrixState :=
  addMatrixUser user s.

Definition configureMatrixPushNotifications_fulfilled (token : string) (s : MatrixState)
    : MatrixState := s <| pushNotificationToken := Some token |>.

(** The part of the stored state that the slice takes. *)
Record StoredChat := mkStored {
  chatDrafts : record string;
  stored_rejected : list string;
  stored_seenInvites : list string;
  stored_seenKnocks : record (list string)
}.

Definition matrix_loadFromStorage (payload : option StoredChat) (s : MatrixState) : MatrixState :=
  match payload with
  | None => s
  | Some p =>
      s <| drafts := chatDrafts p |> <| rejectedRoomInvites := stored_rejected p |>
        <| seenRoomInvites := stored_seenInvites p |> <| seenKnockRequests := stored_seenKnocks p |>
  end.

Definition updateMatrixRoomNotificationMode_fulfilled (roomId : string) (mode : jval)
    (s : MatrixState) : MatrixState := setMatrixRoomNotificationMode roomId mode s.

Definition getMatrixRoomPreview_fulfilled (roomId : string) (preview : obj) (s : MatrixState)
    : MatrixState :=
  s <| groupPreviews := set_prop roomId
    (spread (spread [] (default [] (lookup_prop roomId (groupPreviews s)))) preview)
    (groupPreviews s) |>.

Definition editMatrixMessage_fulfilled (s : MatrixState) : MatrixState :=
  s <| messageToEdit := None |>.

(** [state.roomMembers[roomId] = ...] for every room with the member: the keys
    are there already. *)
Definition set_ignored (userId : string) (ignored : bool) (members : list obj) : list obj :=
  default members (update_member userId "ignored" (JBool ignored) members).

Definition ignoreUser_fulfilled (userId : string) (ignored : bool) (s : MatrixState)
    : MatrixState :=
  s <| roomMembers := prod_map id (set_ignored userId ignored) <$> roomMembers s |>.

(** [preview.info.id], as a key *)
Definition preview_id (preview : obj) : string := to_str (opt_prop (get "info" preview) "id").

Definition add_preview (result : record obj) (preview : obj) : record obj :=
  let updatedPreview := set_prop "isDefaultGroup" (JBool true) preview in
  match lookup_prop (preview_id preview) result with
  | Some existing =>
      if isEqual (JObj existing) (JObj updatedPreview) then result
      else set_prop (preview_id preview) updatedPreview result
  | None => set_prop (preview_id preview) updatedPreview result
  end.

(** [groupPreviews] is replaced only when a preview changed; without a change
    the copy has the same properties. *)
Definition previewDefaultChats_fulfilled (previews : list obj) (s : MatrixState) : MatrixState :=
  s <| groupPreviews := foldl add_preview (groupPreviews s) previews |>.

Inductive matrix_action : Type :=
  | SetMatrixSetup (b : bool)
  | SetMatrixStatus (st : MatrixSyncStatus)
  | SetMatrixAuth (a : option obj)
  | AddMatrixRoomInfo (room : obj)
  | MarkMatrixRoomInviteSeen (roomId : string)
  | MarkKnockRequestsSeen (roomId : string) (userIds : list string)
  | HandleMatrixRoomListStreamUpdates (updates : list (VectorDiff obj))
  | AddMatrixRoomMember (member : obj)
  | SetMatrixRoomMembers (roomId : string) (members : list obj)
  | SetMatrixIgnoredUsers (ids : list string)
  | AddMatrixUser (user : obj)
  | SetMatrixUsers (l : list obj)
  | HandleMatrixRoomTimelineStreamUpdates (roomId : string)
      (updates : list (VectorDiff (option obj)))
  | HandleMatrixRoomTimelinePaginationStatus (roomId : string) (st : jval)
  | SetMatrixRoomPowerLevels (roomId : string) (powerLevels : obj)
  | HandleMatrixRoomPinnedTimelineStreamUpdates (roomId : string) (updates : list (VectorDiff obj))
  | SetMatrixRoomNotificationMode (roomId : string) (mode : jval)
  | SetMatrixRoomMultispendStatus (roomId : string) (st : RpcMultispendGroupStatus)
  | SetMatrixRoomMultispendAccountInfo (roomId : string) (info : option AccountInfo)
  | SetMatrixRoomMultispendTransactions (roomId : string) (l : list MultispendListedEvent)
  | UpdateMatrixRoomMultispendTxns (roomId : string) (l : list MultispendListedEvent)
  | UpdateMatrixRoomMultispendEvent (roomId id : string) (update : MsEventData)
  | SetSpTransferState (roomId id : string) (transferState : jval)
  | AddMatrixError (e : jval)
  | ResetMatrixState
  | SetChatDraft (roomId text : string)
  | SetSelectedChatMessage (ev : option obj)
  | SetMessageToEdit (ev : option obj)
  | AddPreviewMedia (l : list obj)
  | MatchAndHidePreviewMedia (events : list obj)
  | SetChatReplyingToMessage (roomId : string) (ev : obj)
  | ClearChatReplyingToMessage
  | AddTempMediaUriEntry (uri hash : string)
  | SetChatsListSearchQuery (q : string)
  | SetChatTimelineSearchQuery (q : string)
  | AddRejectedMatrixRoom (roomId : string)
  | StartPending
  | StartFulfilled
  | StartRejected
  | DisplayNameSet (displayName : string)
  | AvatarSet (contentUri : string)
  | BroadcastOnlySet (roomId : string) (powerLevels : obj)
  | MemberPowerLevelSet (roomId userId : string) (powerLevel : num) (powerLevels : obj)
  | UsersFound (results : list obj)
  | ProfileFetched (user : obj)
  | PushConfigured (token : string)
  | Matrix_LoadFromStorage (payload : option StoredChat)
  | NotificationModeUpdated (roomId : string) (mode : jval)
  | RoomPreviewed (roomId : string) (preview : obj)
  | MessageEdited
  | UserIgnored (userId : string) (ignored : bool)
  | DefaultChatsPreviewed (previews : list obj).

(** [matrixSlice.reducer] *)
Definition matrix_reduce (s : MatrixState) (a : matrix_action) : MatrixState :=
  match a with
  | SetMatrixSetup b => setMatrixSetup b s
  | SetMatrixStatus st => setMatrixStatus st s
  | SetMatrixAuth a => setMatrixAuth a s
  | AddMatrixRoomInfo room => addMatrixRoomInfo room s
  | MarkMatrixRoomInviteSeen r => markMatrixRoomInviteSeen r s
  | MarkKnockRequestsSeen r ids => markKnockRequestsSeen r ids s
  | HandleMatrixRoomListStreamUpdates u => handleMatrixRoomListStreamUpdates u s
  | AddMatrixRoomMember m => addMatrixRoomMember m s
  | SetMatrixRoomMembers r l => setMatrixRoomMembers r l s
  | SetMatrixIgnoredUsers l => setMatrixIgnoredUsers l s
  | AddMatrixUser u => addMatrixUser u s
  | SetMatrixUsers l => setMatrixUsers l s
  | HandleMatrixRoomTimelineStreamUpdates r u => handleMatrixRoomTimelineStreamUpdates r u s
  | HandleMatrixRoomTimelinePaginationStatus r st =>
      handleMatrixRoomTimelinePaginationStatus r st s
  | SetMatrixRoomPowerLevels r p => setMatrixRoomPowerLevels r p s
  | HandleMatrixRoomPinnedTimelineStreamUpdates r u =>
      handleMatrixRoomPinnedTimelineStreamUpdates r u s
  | SetMatrixRoomNotificationMode r m => setMatrixRoomNotificationMode r m s
  | SetMatrixRoomMultispendStatus r st => setMatrixRoomMultispendStatus r st s
  | SetMatrixRoomMultispendAccountInfo r i => setMatrixRoomMultispendAccountInfo r i s
  | SetMatrixRoomMultispendTransactions r l => setMatrixRoomMultispendTransactions r l s
  | UpdateMatrixRoomMultispendTxns r l => updateMatrixRoomMultispendTxns r l s
  | UpdateMatrixRoomMultispendEvent r i u => updateMatrixRoomMultispendEvent r i u s
  | SetSpTransferState r i t => setSpTransferState r i t s
  | AddMatrixError e => addMatrixError e s
  | ResetMatrixState => resetMatrixState s
  | SetChatDraft r t => setChatDraft r t s
  | SetSelectedChatMessage e => setSelectedChatMessage e s
  | SetMessageToEdit e => setMessageToEdit e s
  | AddPreviewMedia l => addPreviewMedia l s
  | MatchAndHidePreviewMedia l => matchAndHidePreviewMedia l s
  | SetChatReplyingToMessage r e => setChatReplyingToMessage r e s
  | ClearChatReplyingToMessage => clearChatReplyingToMessage s
  | AddTempMediaUriEntry u h => addTempMediaUriEntry u h s
  | SetChatsListSearchQuery q => setChatsListSearchQuery q s
  | SetChatTimelineSearchQuery q => setChatTimelineSearchQuery q s
  | AddRejectedMatrixRoom r => addRejectedMatrixRoom r s
  | StartPending => startMatrixClient_pending s
  | StartFulfilled => startMatrixClient_fulfilled s
  | StartRejected => startMatrixClient_rejected s
  | DisplayNameSet n => setMatrixDisplayName_fulfilled n s
  | AvatarSet u => uploadAndSetMatrixAvatarUrl_fulfilled u s
  | BroadcastOnlySet r p => setMatrixRoomBroadcastOnly_fulfilled r p s
  | MemberPowerLevelSet r u n p => setMatrixRoomMemberPowerLevel_fulfilled r u n p s
  | UsersFound l => searchMatrixUsers_fulfilled l s
  | ProfileFetched u => fetchMatrixProfile_fulfilled u s
  | PushConfigured t => configureMatrixPushNotifications_fulfilled t s
  | Matrix_LoadFromStorage p => matrix_loadFromStorage p s
  | NotificationModeUpdated r m => updateMatrixRoomNotificationMode_fulfilled r m s
  | RoomPreviewed r p => getMatrixRoomPreview_fulfilled r p s
  | MessageEdited => editMatrixMessage_fulfilled s
  | UserIgnored u b => ignoreUser_fulfilled u b s
  | DefaultChatsPreviewed l => previewDefaultChats_fulfilled l s
  end.

(** ** What the chat client reports *)

Definition GUARDIANITO_BOT_DISPLAY_NAME : string := "G-Bot".

Inductive client_event : Type :=
  | Ev_auth (a : option obj)
  | Ev_roomListUpdate (updates : list (VectorDiff obj))
  | Ev_roomInfo (room : obj)
  | Ev_roomMember (member : obj)
  | Ev_roomMembers (roomId : string) (members : list obj)
  | Ev_roomTimelineUpdate (roomId : string) (updates : list (VectorDiff (option obj)))
  | Ev_roomPinnedTimelineUpdate (roomId : string) (updates : list (VectorDiff obj))
  | Ev_roomTimelinePaginationStatus (roomId : string) (st : jval)
  | Ev_roomPowerLevels (roomId : string) (powerLevels : obj)
  | Ev_roomNotificationMode (roomId : string) (mode : jval)
  | Ev_multispendUpdate (roomId : string) (st : option RpcMultispendGroupStatus)
  | Ev_multispendEventUpdate (roomId id : string) (update : option MsEventData)
  | Ev_multispendAccountUpdate (roomId : string) (info : option AccountInfo)
  | Ev_multispendTransactions (roomId : string) (l : option (list MultispendListedEvent))
  | Ev_spTransferStateUpdate (roomId id : string) (transferState : jval)
  | Ev_ignoredUsers (ids : list string)
  | Ev_error (e : jval)
  | Ev_status (st : MatrixSyncStatus).

Inductive dispatched : Type :=
  | d_action (a : matrix_action)
  | d_joinMatrixRoom (roomId : jval)
  | d_setGuardianitoBot (bot_user_id bot_room_id : jval).

Definition is_guardianito (room : obj) : bool :=
  bool_decide (get "name" room = JStr GUARDIANITO_BOT_DISPLAY_NAME).

(** The listener of [roomInfo]; [sp_transfer_ui] is the mode of the feature
    flag of that name. *)
Definition on_roomInfo (sp_transfer_ui : option string) (room : obj) : list dispatched :=
  let autoJoinRooms := negb (bool_decide (sp_transfer_ui = Some "Chat")) in
  [d_action (AddMatrixRoomInfo room)] ++
  (if bool_decide (get "roomState" room = JStr "invited") &&
      (autoJoinRooms || is_guardianito room || negb (truthy (get "isDirect" room)))
   then [d_joinMatrixRoom (id_of room)] else []) ++
  (if is_guardianito room && truthy (get "directUserId" room)
   then [d_setGuardianitoBot (get "directUserId" room) (id_of room)] else []).

Definition opt_action {A} (f : A -> matrix_action) (o : option A) : list dispatched :=
  match o with Some x => [d_action (f x)] | None => [] end.

(** The listeners that [startMatrixClient] binds. *)
Definition on_client_event (sp_transfer_ui : option string) (s : MatrixState) (e : client_event)
    : list dispatched :=
  match e with
  | Ev_auth a => [d_action (SetMatrixAuth a)]
  | Ev_roomListUpdate u => [d_action (HandleMatrixRoomListStreamUpdates u)]
  | Ev_roomInfo room => on_roomInfo sp_transfer_ui room
  | Ev_roomMember m => [d_action (AddMatrixRoomMember m)]
  | Ev_roomMembers r l => [d_action (SetMatrixRoomMembers r l)]
  | Ev_roomTimelineUpdate r u => [d_action (HandleMatrixRoomTimelineStreamUpdates r u)]
  | Ev_roomPinnedTimelineUpdate r u =>
      [d_action (HandleMatrixRoomPinnedTimelineStreamUpdates r u)]
  | Ev_roomTimelinePaginationStatus r st =>
      [d_action (HandleMatrixRoomTimelinePaginationStatus r st)]
  | Ev_roomPowerLevels r p => [d_action (SetMatrixRoomPowerLevels r p)]
  | Ev_roomNotificationMode r m => [d_action (SetMatrixRoomNotificationMode r m)]
  | Ev_multispendUpdate r st => opt_action (SetMatrixRoomMultispendStatus r) st
  | Ev_multispendEventUpdate r i u => opt_action (UpdateMatrixRoomMultispendEvent r i) u
  | Ev_multispendAccountUpdate r i =>
      opt_action (fun info => SetMatrixRoomMultispendAccountInfo r (Some info)) i
  | Ev_multispendTransactions r l => opt_action (UpdateMatrixRoomMultispendTxns r) l
  | Ev_spTransferStateUpdate r i t => [d_action (SetSpTransferState r i t)]
  | Ev_ignoredUsers ids => [d_action (SetMatrixIgnoredUsers ids)]
  | Ev_error e => [d_action (AddMatrixError e)]
  | Ev_status st => if decide (st = status s) then [] else [d_action (SetMatrixStatus st)]
  end.

Definition matrix_run (s : MatrixState) (l : list matrix_action) : MatrixState :=
  foldl matrix_reduce s l.
End Slice.

(** ** Records whose values satisfy a predicate *)

Definition all_rooms {V} (P : V -> Prop) (m : record V) : Prop :=
  NoDup m.*1 /\ Forall (fun kv => P kv.2) m.

Lemma all_rooms_nil {V} (P : V -> Prop) : all_rooms P [].
Proof. split; constructor. Qed.

Lemma all_rooms_lookup {V} (P : V -> Prop) m k v :
  all_rooms P m -> lookup_prop k m = Some v -> P v.
Proof.
  intros [D F] H. apply (elem_of_lookup_prop _ _ _ D) in H.
  rewrite list.Forall_forall in F. by apply (F (k, v)).
Qed.

Lemma all_rooms_intro {V} (P : V -> Prop) m :
  NoDup m.*1 -> (forall k v, lookup_prop k m = Some v -> P v) -> all_rooms P m.
Proof.
  intros D H. split; [done|]. apply list.Forall_forall. intros [k v] Hv.
  by apply (H k), elem_of_lookup_prop.
Qed.

Lemma all_rooms_set {V} (P : V -> Prop) m k v :
  all_rooms P m -> P v -> all_rooms P (set_prop k v m).
Proof.
  intros A Pv. apply all_rooms_intro; [by apply NoDup_set, A|]. intros k' v'.
  destruct (decide (k' = k)) as [->|N]; [rewrite lookup_set_eq; by intros [= <-]|].
  rewrite lookup_set_ne by done. by apply all_rooms_lookup.
Qed.

Lemma lookup_remove_key {V} k k' (m : record V) :
  lookup_prop k' (remove_key k m) = if decide (k' = k) then None else lookup_prop k' m.
Proof.
  unfold remove_key. induction m as [|[k2 v] m IH]; [by case_decide|].
  rewrite filter_cons. cbn [fst lookup_prop]. repeat case_decide; cbn [lookup_prop];
    repeat case_decide; congruence.
Qed.

Lemma all_rooms_remove {V} (P : V -> Prop) m k : all_rooms P m -> all_rooms P (remove_key k m).
Proof.
  intros [D F]. unfold remove_key. split.
  - eapply sublist_NoDup; [exact D | apply sublist_map, sublist_filter].
  - rewrite list.Forall_forall in F |- *. intros kv [_ H]%list_elem_of_filter. by apply F.
Qed.

Lemma all_rooms_fmap {V} (P : V -> Prop) (f : V -> V) m :
  (forall v, P v -> P (f v)) -> all_rooms P m -> all_rooms P (prod_map id f <$> m).
Proof.
  intros H [D F]. split.
  - rewrite <- list_fmap_compose. by rewrite (list_fmap_ext _ fst).
  - apply list.Forall_fmap. eapply list.Forall_impl; [exact F|]. intros kv. apply H.
Qed.

(** ** Members of a room *)

(** Each member has an id, and no two have the same. *)
Definition member_ok (m : obj) : Prop := wf_obj m /\ lookup_prop "id" m <> None.
Definition members_ok (l : list obj) : Prop := Forall member_ok l /\ NoDup (id_of <$> l).

#[export] Instance member_ok_dec m : Decision (member_ok m).
Proof. unfold member_ok. apply _. Defined.
#[export] Instance members_ok_dec l : Decision (members_ok l).
Proof. unfold members_ok. apply _. Defined.

Lemma wf_spread o p : wf_obj o -> wf_obj (spread o p).
Proof.
  unfold spread, wf_obj, keys. revert o. induction p as [|[k v] p IH]; intros o W; [done|].
  cbn [foldl fst snd]. by apply IH, NoDup_set.
Qed.

Lemma member_ok_merge o item : member_ok o -> member_ok item -> member_ok (merge_item None o item).
Proof.
  intros [W H] [Wi Hi]. unfold merge_item. split; [by apply wf_spread|].
  rewrite lookup_spread_wf by done. by destruct (lookup_prop "id" item).
Qed.

Lemma members_ok_upsert isEqual l item :
  members_ok (default [] l) -> member_ok item ->
  members_ok (upsertListItem isEqual l item None None).2.
Proof.
  intros [F D] M. assert (N : "id" ∉ default [] (@None (list string)))
    by (intros X; by apply elem_of_nil in X).
  change (upsertListItem isEqual l item None None)
    with (upsertListItem isEqual (Some (default [] l)) item None None).
  split; [|by apply upsertListItem_wf_ids; try apply M].
  destruct (upsertListItem_eq isEqual (default [] l) item None) as [e' ->].
  destruct (known item (default [] l) && e'); [done|]. cbn [snd].
  apply list.Forall_app. split; [|by destruct (known item (default [] l)); [|constructor]].
  apply list.Forall_fmap. eapply list.Forall_impl; [exact F|]. intros o Ho. cbn.
  unfold upsert_item. case_decide; [by apply member_ok_merge | done].
Qed.

Lemma member_ok_set m f v : member_ok m -> member_ok (set_prop f v m).
Proof.
  intros [W H]. split; [by apply NoDup_set|]. destruct (decide ("id" = f)) as [<-|N].
  - by rewrite lookup_set_eq.
  - by rewrite lookup_set_ne.
Qed.

Lemma members_ok_update isEqual u f v l l' :
  members_ok l -> update_member isEqual u f v l = Some l' -> members_ok l'.
Proof.
  intros M. unfold update_member.
  destruct (Federation.find_first (Federation.has_id u) l) as [m|] eqn:E; [|done].
  cbn. intros [= <-]. apply members_ok_upsert; [done|]. apply member_ok_set.
  destruct M as [F _]. rewrite list.Forall_forall in F. apply F.
  apply head_Some_elem_of, list_elem_of_filter in E. tauto.
Qed.

(** ** The multispend events of a room *)

(** A counter of the server, below 2^53. *)
Definition counted (e : MultispendListedEvent) : Prop := exists n, safe n /\ counter e = of_Z n.

(** [a] is listed before [b]. *)
Definition newer (a b : MultispendListedEvent) : bool := leb (counter b) (counter a).

Definition newest_first : list MultispendListedEvent -> Prop :=
  StronglySorted (fun a b => newer a b = true).

Section MultispendEvents.
Context (orderByCounterDesc : list MultispendListedEvent -> list MultispendListedEvent).

Lemma updateMultispendEvents_NoDup new old :
  (forall l, Permutation (orderByCounterDesc l) l) ->
  NoDup (eventId <$> updateMultispendEvents orderByCounterDesc new old).
Proof. intros P. unfold updateMultispendEvents. rewrite P. apply NoDup_merged. Qed.

Lemma elem_of_updateMultispendEvents new old e :
  (forall l, Permutation (orderByCounterDesc l) l) ->
  e ∈ updateMultispendEvents orderByCounterDesc new old <->
    kept eventId (eventId e) new old = Some e.
Proof. intros P. unfold updateMultispendEvents. rewrite P. apply elem_of_merged. Qed.

(** Merging a page of multispend events into those already listed gives
    each event once, the newest counter first: for an id the page has, its last
    version in the page, for any other id the version already listed. *)
Theorem updateMultispendEvents_spec new old :
  (forall l, Permutation (orderByCounterDesc l) l) ->
  (forall l, Forall counted l -> newest_first (orderByCounterDesc l)) ->
  Forall counted (new ++ old) ->
  let r := updateMultispendEvents orderByCounterDesc new old in
  NoDup (eventId <$> r) /\
  newest_first r /\
  forall e, e ∈ r <-> kept eventId (eventId e) new old = Some e.
Proof.
  intros P S C r. split; [by apply updateMultispendEvents_NoDup|]. split.
  - apply S, list.Forall_forall. intros e He. rewrite list.Forall_forall in C.
    apply C, (kept_elem eventId (eventId e)), elem_of_updateMultispendEvents; [done|].
    unfold updateMultispendEvents. by rewrite P.
  - intros e. by apply elem_of_updateMultispendEvents.
Qed.
End MultispendEvents.

Lemma sort_newest_first l : Forall counted l -> newest_first (sort_stable newer l).
Proof.
  apply sort_stable_sorted; unfold newer.
  - intros x y (n & Sn & ->) (m & Sm & ->). rewrite !leb_int by done. rewrite !Z.leb_le. lia.
  - intros x y z (n & Sn & ->) (m & Sm & ->) (k & Sk & ->). rewrite !leb_int by done.
    rewrite !Z.leb_le. lia.
Qed.

Definition listed (c : Z) (id : string) : MultispendListedEvent :=
  mkListed (of_Z c) (of_Z 0) (depositNotification (mkDeposit "@a" (of_Z c) "tx" "")) id.

Lemma listed_counted l : Forall (fun ci : Z * string => safe ci.1) l ->
  Forall counted ((fun ci => listed ci.1 ci.2) <$> l).
Proof.
  intros F. apply list.Forall_fmap. eapply list.Forall_impl; [exact F|].
  intros [c i] H. by exists c.
Qed.

Lemma updateMultispendEvents_spec_witness :
  newest_first (updateMultispendEvents (sort_stable newer)
    [listed 3 "c"; listed 2 "b"] [listed 1 "b"; listed 0 "a"]) /\
  eventId <$> updateMultispendEvents (sort_stable newer)
    [listed 3 "c"; listed 2 "b"] [listed 1 "b"; listed 0 "a"] = ["c"; "b"; "a"].
Proof.
  split; [|vm_compute; reflexivity].
  apply (updateMultispendEvents_spec (sort_stable newer)).
  - apply sort_stable_perm.
  - exact sort_newest_first.
  - apply (listed_counted [(3, "c"); (2, "b"); (1, "b"); (0, "a")]%Z).
    repeat constructor; unfold safe; cbn; lia.
Defined.

(** ** Well-formed states *)

(** The members and the multispend events of a room, the invites and the requests to
    join that were seen are listed once; no room keeps an empty list of seen requests;
    no draft is empty; and a multispend group that is listed is not inactive.  (Rejected
    invites may repeat: [addRejectedMatrixRoom] appends without looking.) *)
Record matrix_wf (s : MatrixState) : Prop := {
  wf_members : all_rooms members_ok (roomMembers s);
  wf_events : all_rooms (fun l => NoDup (eventId <$> l)) (roomMultispendEvents s);
  wf_status : all_rooms (fun st => st <> Some inactive) (roomMultispendStatus s);
  wf_knocks : all_rooms (fun l => l <> [] /\ NoDup l) (seenKnockRequests s);
  wf_drafts : all_rooms (fun t => t <> "") (drafts s);
  wf_invites : NoDup (seenRoomInvites s)
}.

(** What the bridge reports: members have an id, and a list of the members of a room
    names each once, as does a list of all its events (which nothing dispatches).
    What the storage restores is [matrix_reachable]'s. *)
Definition action_ok (a : matrix_action) : Prop :=
  match a with
  | AddMatrixRoomMember m => member_ok m
  | SetMatrixRoomMembers _ l => members_ok l
  | SetMatrixRoomMultispendTransactions _ l => NoDup (eventId <$> l)
  | Matrix_LoadFromStorage (Some _) => False
  | _ => True
  end.

(** [p] is what was saved of the state [old], which a migration may have given fields
    that its version did not have yet: the migrations add them empty. *)
Record saved_from (old : MatrixState) (p : StoredChat) : Prop := {
  saved_drafts : chatDrafts p = drafts old \/ chatDrafts p = [];
  saved_rejected : stored_rejected p = rejectedRoomInvites old \/ stored_rejected p = [];
  saved_seenInvites : stored_seenInvites p = seenRoomInvites old \/ stored_seenInvites p = [];
  saved_seenKnocks : stored_seenKnocks p = seenKnockRequests old \/ stored_seenKnocks p = []
}.

(** The room whose members an action lists anew. *)
Definition members_changed (a : matrix_action) : option string :=
  match a with
  | AddMatrixRoomMember m => Some (room_of m)
  | SetMatrixRoomMembers r _ => Some r
  | _ => None
  end.

(** The requests to join room [r] that were seen. *)
Definition seen_in (s : MatrixState) (r : string) : list string :=
  default [] (lookup_prop r (seenKnockRequests s)).

(** Of the seen requests, pruning keeps those of who still knocks. *)
Lemma seen_prune s r :
  seen_in (pruneSeenKnockRequests s r) r =
    filter (fun u => JStr u ∈ knocking s r) (seen_in s r).
Proof.
  unfold seen_in, pruneSeenKnockRequests.
  destruct (lookup_prop r (seenKnockRequests s)) as [seen|] eqn:E; cbn [default]; [|by rewrite E].
  case_bool_decide as P; [|case_bool_decide as L]; cbn [negb].
  - etrans; [|symmetry; exact P]. cbn. by rewrite lookup_remove_key, decide_True.
  - rewrite E. symmetry. by apply filter_same_length.
  - cbn. by rewrite lookup_set_eq.
Qed.

Lemma prune_keeps_members s r r' :
  members_of (pruneSeenKnockRequests s r) r' = members_of s r'.
Proof.
  unfold pruneSeenKnockRequests. destruct (lookup_prop r _); [|done].
  case_bool_decide; [done|]. by destruct (negb _).
Qed.

Lemma prune_knocks s r :
  matrix_wf s -> all_rooms (fun l => l <> [] /\ NoDup l)
    (seenKnockRequests (pruneSeenKnockRequests s r)).
Proof.
  intros [_ _ _ K _ _]. unfold pruneSeenKnockRequests.
  destruct (lookup_prop r (seenKnockRequests s)) as [seen|] eqn:E; [|done].
  case_bool_decide as P; [by apply all_rooms_remove|].
  destruct (negb _); [|done]. apply all_rooms_set; [done|]. split; [done|].
  apply list.NoDup_filter. by apply (all_rooms_lookup _ _ _ _ K) in E as [_ ?].
Qed.

Lemma prune_wf s r : matrix_wf s -> matrix_wf (pruneSeenKnockRequests s r).
Proof.
  intros W. pose proof (prune_knocks s r W) as K. revert K. destruct W.
  unfold pruneSeenKnockRequests. destruct (lookup_prop r (seenKnockRequests s)) as [seen|]; [|done].
  case_bool_decide; [by constructor|]. by destruct (negb _); constructor.
Qed.

Section Wf.
Context (isEqual : jval -> jval -> bool).
Context (orderByCounterDesc : list MultispendListedEvent -> list MultispendListedEvent).
Context (url_string : string -> string -> list (string * string) -> result string).
Context (orderBy_perm : forall l, Permutation (orderByCounterDesc l) l).

Lemma members_of_ok s r : matrix_wf s -> members_ok (default [] (lookup_prop r (roomMembers s))).
Proof.
  intros W. destruct (lookup_prop r (roomMembers s)) eqn:E.
  - by apply (all_rooms_lookup _ _ _ _ (wf_members _ W) E).
  - split; constructor.
Qed.

Lemma set_members_wf s r l :
  matrix_wf s -> members_ok l -> matrix_wf (s <| roomMembers := set_prop r l (roomMembers s) |>).
Proof. intros [] M. constructor; try done. by apply all_rooms_set. Qed.

Lemma addMatrixRoomMember_wf m s :
  matrix_wf s -> member_ok m -> matrix_wf (addMatrixRoomMember isEqual m s).
Proof.
  intros W M. unfold addMatrixRoomMember.
  pose proof (members_ok_upsert isEqual (lookup_prop (room_of m) (roomMembers s)) m
    (members_of_ok s _ W) M) as O.
  destruct (upsertListItem _ _ _ _ _) as [[|] l]; apply prune_wf; [done|].
  by apply set_members_wf.
Qed.

Lemma markKnockRequestsSeen_wf r ids s :
  matrix_wf s -> matrix_wf (markKnockRequestsSeen r ids s).
Proof.
  intros W. unfold markKnockRequestsSeen. destruct ids as [|u ids]; [done|].
  destruct W. constructor; try done. apply all_rooms_set; [done|]. split.
  - intros E. pose proof (Federation.elem_of_dedup u
      (default [] (lookup_prop r (seenKnockRequests s)) ++ u :: ids)) as [_ H].
    rewrite E in H. eapply elem_of_nil, H, elem_of_app. right. left.
  - apply Federation.NoDup_dedup.
Qed.

Lemma addMatrixUser_wf u s : matrix_wf s -> matrix_wf (addMatrixUser isEqual u s).
Proof. intros []. by constructor. Qed.

Lemma memberPowerLevel_wf r u n p s :
  matrix_wf s -> matrix_wf (setMatrixRoomMemberPowerLevel_fulfilled isEqual r u n p s).
Proof.
  intros W. unfold setMatrixRoomMemberPowerLevel_fulfilled.
  set (s' := s <| roomPowerLevels := _ |>).
  assert (W' : matrix_wf s') by (destruct W; by constructor).
  destruct (lookup_prop r (roomMembers s')) as [l|] eqn:E; cbn [mbind option_bind]; [|done].
  destruct (update_member isEqual u _ _ l) as [l'|] eqn:U; [|done].
  apply set_members_wf; [done|].
  apply (members_ok_update _ _ _ _ _ _ (all_rooms_lookup _ _ _ _ (wf_members _ W') E) U).
Qed.

Lemma ignoreUser_wf u b s : matrix_wf s -> matrix_wf (ignoreUser_fulfilled isEqual u b s).
Proof.
  intros []. constructor; try done. apply all_rooms_fmap; [|done]. intros l M.
  unfold set_ignored. destruct (update_member _ _ _ _ l) eqn:U; [|done].
  by apply (members_ok_update _ _ _ _ _ _ M U).
Qed.

Lemma updateMultispendEvent_wf r i u s :
  matrix_wf s -> matrix_wf (updateMatrixRoomMultispendEvent r i u s).
Proof.
  intros []. constructor; try done. apply all_rooms_set; [done|].
  destruct (lookup_prop r (roomMultispendEvents s)) as [l|] eqn:E; [|apply NoDup_singleton].
  apply (all_rooms_lookup _ _ _ _ wf_events0) in E. cbv beta in E.
  rewrite <- list_fmap_compose. erewrite list_fmap_ext; [exact E|]. intros k e _. cbn.
  unfold with_event, has_key. case_bool_decide; [by cbn | done].
Qed.

Lemma loadFromStorage_wf p old s :
  matrix_wf s -> matrix_wf old -> saved_from old p -> matrix_wf (matrix_loadFromStorage (Some p) s).
Proof.
  intros [] [_ _ _ K D I] [Sd _ Si Sk]. constructor; try done; cbn.
  - destruct Sk as [->| ->]; [done|apply all_rooms_nil].
  - destruct Sd as [->| ->]; [done|apply all_rooms_nil].
  - destruct Si as [->| ->]; [done|constructor].
Qed.

Lemma reduce_wf s a :
  matrix_wf s -> action_ok a -> matrix_wf (matrix_reduce isEqual orderByCounterDesc url_string s a).
Proof.
  intros W A. destruct a; cbn [matrix_reduce]; try (destruct W; constructor; done).
  - unfold addMatrixRoomInfo. destruct W. case_if; constructor; try done. by apply list.NoDup_filter.
  - unfold markMatrixRoomInviteSeen. case_decide; [done|]. destruct W. constructor; try done.
    apply NoDup_app. split; [done|]. split; [|apply NoDup_singleton].
    by intros x Hx ->%list_elem_of_singleton.
  - by apply markKnockRequestsSeen_wf.
  - by apply addMatrixRoomMember_wf.
  - apply prune_wf. by apply set_members_wf.
  - destruct W. constructor; try done. apply all_rooms_set; [done|]. by destruct st.
  - destruct W. constructor; try done. by apply all_rooms_set.
  - destruct W. constructor; try done. apply all_rooms_set; [done|].
    by apply updateMultispendEvents_NoDup.
  - by apply updateMultispendEvent_wf.
  - constructor; try apply all_rooms_nil. constructor.
  - unfold setChatDraft. destruct W. case_bool_decide; [|case_decide; [by constructor|]];
      constructor; try done; [by apply all_rooms_remove | by apply all_rooms_set].
  - unfold matchAndHidePreviewMedia. case_if; [destruct W; by constructor | done].
  - destruct W. constructor; try done. by apply list.NoDup_filter.
  - unfold setMatrixDisplayName_fulfilled. destruct (auth s); [destruct W; by constructor | done].
  - unfold uploadAndSetMatrixAvatarUrl_fulfilled. destruct (auth s); [|done].
    case_match; [destruct W; by constructor | done].
  - by apply memberPowerLevel_wf.
  - unfold searchMatrixUsers_fulfilled. revert s W.
    induction results as [|u l IH]; intros s W; [done|]. by apply IH, addMatrixUser_wf.
  - by destruct payload.
  - by apply ignoreUser_wf.
Qed.

(** The states of the slice: actions follow each other, and the storage restores what
    was saved of such a state. *)
Inductive matrix_reachable : MatrixState -> Prop :=
  | reachable_initial : matrix_reachable matrix_initialState
  | reachable_action s a : matrix_reachable s -> action_ok a ->
      matrix_reachable (matrix_reduce isEqual orderByCounterDesc url_string s a)
  | reachable_restored s old p : matrix_reachable s -> matrix_reachable old -> saved_from old p ->
      matrix_reachable (matrix_reduce isEqual orderByCounterDesc url_string s
        (Matrix_LoadFromStorage (Some p))).

Lemma reachable_run l s : Forall action_ok l -> matrix_reachable s ->
  matrix_reachable (matrix_run isEqual orderByCounterDesc url_string s l).
Proof.
  intros F. revert s. induction F as [|a l A F IH]; intros s R; [done|].
  apply IH. by constructor.
Qed.

Lemma members_changed_seen s a r : members_changed a = Some r ->
  let s' := matrix_reduce isEqual orderByCounterDesc url_string s a in
  seen_in s' r = filter (fun id => JStr id ∈ knocking s' r) (seen_in s r).
Proof.
  destruct a; cbn [members_changed]; try done; intros [= <-]; cbn [matrix_reduce].
  - unfold addMatrixRoomMember. destruct (upsertListItem _ _ _ _ _) as [[|] l];
      cbv zeta; unfold knocking; by rewrite seen_prune, prune_keeps_members.
  - cbv zeta. unfold setMatrixRoomMembers, knocking. by rewrite seen_prune, prune_keeps_members.
Qed.

(** C12: the matrix slice is well formed.  The bridge naming each member of a room and
    each of its events once, whatever the user does and whatever was saved before and
    is restored: the members and multispend events of a room, the seen invites and
    the seen requests to join are listed once, no draft is empty, and no group is
    listed as inactive.  Whenever members of a room are reported, the requests to it
    that stay seen are exactly those of people who still knock. *)
Theorem matrix_wf_reachable s :
  matrix_reachable s ->
  matrix_wf s /\
  forall a r, members_changed a = Some r ->
    let s' := matrix_reduce isEqual orderByCounterDesc url_string s a in
    seen_in s' r = filter (fun id => JStr id ∈ knocking s' r) (seen_in s r).
Proof using orderBy_perm.
  intros R. split; [|intros a r; apply members_changed_seen].
  induction R as [|s a R IH A|s old p R IH Ro IHo S].
  - constructor; try apply all_rooms_nil; constructor.
  - by apply reduce_wf.
  - by apply (loadFromStorage_wf p old).
Qed.
End Wf.

Definition example_member (id membership : string) : obj :=
  [("id", JStr id); ("roomId", JStr "!r"); ("membership", JStr membership)].

Definition example_actions : list matrix_action :=
  [SetMatrixRoomMembers "!r" [example_member "@a" "knock"; example_member "@b" "knock"];
   MarkKnockRequestsSeen "!r" ["@a"; "@b"]].

(** Of the two requests that were seen only that of who still knocks stays. *)
Lemma matrix_wf_reachable_witness :
  let s := matrix_run demo_equal (sort_stable newer) (fun _ _ _ => Throw type_error)
    matrix_initialState example_actions in
  matrix_wf s /\ seen_in s "!r" = ["@a"; "@b"] /\
  seen_in (matrix_reduce demo_equal (sort_stable newer) (fun _ _ _ => Throw type_error) s
    (AddMatrixRoomMember (example_member "@a" "leave"))) "!r" = ["@b"].
Proof.
  cbv zeta. edestruct (matrix_wf_reachable demo_equal (sort_stable newer)) as [W K].
  - intros l. apply sort_stable_perm.
  - apply (reachable_run demo_equal (sort_stable newer) (fun _ _ _ => Throw type_error) example_actions).
    + repeat constructor; apply (bool_decide_unpack _); vm_compute; exact I.
    + apply reachable_initial.
  - split; [exact W|]. split; [vm_compute; reflexivity|].
    rewrite (K (AddMatrixRoomMember (example_member "@a" "leave")) "!r" eq_refl).
    vm_compute. reflexivity.
Defined.
