(* ===== verification/MatrixSelect.v ===== *)
(** Selectors of the matrix slice: [ui/common/redux/matrix.ts].

    What the screens read: the rooms and the chat list with previews of default
    rooms merged in, the members of a room and who knocks, the messages shown
    and pinned, who may do what, notifications, contacts, and the multispend
    group with its balance and transactions.  A selector that reads another
    slice takes that slice's state. *)
From Stdlib Require Import ZArith Lia Sorted Ascii.
From stdpp Require Import base tactics strings list option sets.
From S2P Require Import Prelude JsNum Js JsStr Stream Upsert Amount Meta Federation KeyedMap MatrixEvents Matrix.
Local Open Scope string_scope.
Local Open Scope list_scope.
Import Federation.

Abbreviation status := Matrix.status.

(** ** Rooms *)

Definition ModeratorLevel : num := of_Z 50.
Definition AdminLevel : num := of_Z 100.

(** The objects of an array of objects. *)
Definition objs (v : jval) : list obj :=
  match v with JArr l => omap (fun x => match x with JObj o => Some o | _ => None end) l | _ => [] end.

Definition is_room_state (st : string) (room : obj) : bool :=
  bool_decide (get "roomState" room = JStr st).

(** [ids.includes(v)] *)
Definition includes (ids : list string) (v : jval) : bool := bool_decide (v ∈ JStr <$> ids).

(** The room pushed for an item of the list, if any. *)
Definition room_entry (s : MatrixState) (item : obj) : option obj :=
  if negb (truthy (id_of item)) then None
  else
    let room := get (to_str (id_of item)) (roomInfo s) in
    if negb (truthy room) then None
    else
      let room := own_props room in
      if includes (rejectedRoomInvites s) (id_of room) then None
      else
        let broadcastOnly :=
          match lookup_prop (to_str (id_of room)) (roomPowerLevels s) with
          | Some powerLevels => leb ModeratorLevel (to_num
              (getRoomEventPowerLevel powerLevels ["m.room.message"; "unableToDecrypt"]))
          | None => false
          end in
        let isBlocked :=
          truthy (get "directUserId" room) && includes (ignoredUsers s) (get "directUserId" room) in
        Some (set_prop "isBlocked" (JBool isBlocked)
          (set_prop "broadcastOnly" (JBool broadcastOnly) room)).

Definition selectMatrixRooms (s : MatrixState) : list obj := omap (room_entry s) (roomList s).

Definition selectMatrixStatus (s : MatrixState) : MatrixSyncStatus := Matrix.status s.
Definition selectIsMatrixReady (s : MatrixState) : bool :=
  bool_decide (selectMatrixStatus s = synced).
Definition selectMatrixPushNotificationToken (s : MatrixState) : option string :=
  pushNotificationToken s.
Definition selectGroupPreviews (s : MatrixState) : record obj := groupPreviews s.

(** [room.preview?.timestamp ?? 0] *)
Definition previewTimestamp (room : obj) : num :=
  to_num (nullish (opt_prop (get "preview" room) "timestamp") (JNum (of_Z 0))).

(** The chats shown for the default rooms that the user has not joined, before
    they are sorted.  When it is present, [info] is an object and [timeline] an
    array. *)
Definition unjoined_preview (roomsList : list obj) (preview : obj) : option obj :=
  match get "info" preview, get "timeline" preview with
  | JObj info, JArr timeline =>
      if negb (truthy (get "isDefaultGroup" preview)) then None
      else if existsb (fun r => bool_decide (id_of r = id_of info)) roomsList then None
      else Some (makeChatFromUnjoinedRoomPreview info (objs (JArr timeline)))
  | _, _ => None
  end.

Section Chats.
(** lodash's [orderBy(l, key, 'desc')]. *)
Context (orderByDesc : (obj -> num) -> list obj -> list obj).

Definition selectDefaultChatsForChatList (s : MatrixState) : list obj :=
  orderByDesc previewTimestamp
    (omap (unjoined_preview (selectMatrixRooms s)) (selectGroupPreviews s).*2).

Definition recency (room : obj) : num :=
  to_num (nullish (get "recencyStamp" room) (JNum MAX_SAFE_INTEGER)).

Definition selectMatrixChatsWithoutDefaultGroupPreviewsList (s : MatrixState) : list obj :=
  orderByDesc recency (filter (fun r => is_room_state "joined" r) (selectMatrixRooms s)).

(** The [while] loop with the two indices, and the rest of the two lists. *)
Fixpoint merge_chats (filteredRoomsList : list obj) : list obj -> list obj :=
  fix previews (defaultGroupsList : list obj) : list obj :=
    match filteredRoomsList, defaultGroupsList with
    | normalRoom :: rooms, previewRoom :: defaults =>
        if ltb (previewTimestamp normalRoom) (previewTimestamp previewRoom)
        then previewRoom :: previews defaults
        else normalRoom :: merge_chats rooms defaultGroupsList
    | rooms, [] => rooms
    | [], defaults => defaults
    end.

Definition is_chat (r : obj) : bool :=
  is_room_state "joined" r || is_room_state "invited" r || is_room_state "knocked" r.

Definition selectMatrixChatsList (s : MatrixState) : list obj :=
  let filteredRoomsList := filter (fun r => is_chat r) (selectMatrixRooms s) in
  let defaultGroupsList := selectDefaultChatsForChatList s in
  match defaultGroupsList with
  | [] => filteredRoomsList
  | _ => merge_chats filteredRoomsList defaultGroupsList
  end.

Definition selectIsMatrixChatEmpty (s : MatrixState) : bool :=
  bool_decide (length (selectMatrixChatsList s) = 0).
End Chats.

Definition selectMatrixAuth (s : MatrixState) : option obj :=
  (fun a => set_prop "displayName" (jor (get "displayName" a)
     (JStr (matrixIdToUsername (Some (to_str (get "userId" a)))))) a) <$> auth s.

(** [auth?.userId] *)
Definition myId (s : MatrixState) : jval :=
  match selectMatrixAuth s with Some a => get "userId" a | None => JUndef end.

Definition selectMatrixUsers (s : MatrixState) : obj := users s.
Definition selectMatrixUser (s : MatrixState) (userId : string) : jval := get userId (users s).

Definition selectMatrixRoom (s : MatrixState) (roomId : string) : option obj :=
  find_first (has_id roomId) (selectMatrixRooms s).

Definition selectMatrixRoomInviteIsSeen (s : MatrixState) (roomId : string) : bool :=
  bool_decide (roomId ∈ seenRoomInvites s).

Definition selectGroupPreview (s : MatrixState) (roomId : string) : option obj :=
  lookup_prop roomId (groupPreviews s).

Definition selectMatrixRoomPowerLevels (s : MatrixState) (roomId : string) : option obj :=
  lookup_prop roomId (roomPowerLevels s).
Definition selectMatrixRoomNotificationMode (s : MatrixState) (roomId : string) : option jval :=
  lookup_prop roomId (roomNotificationMode s).
Definition selectMatrixRoomMultispendStatus (s : MatrixState) (roomId : string)
    : option RpcMultispendGroupStatus :=
  match lookup_prop roomId (roomMultispendStatus s) with Some st => st | None => None end.
Definition selectMatrixRoomPaginationStatus (s : MatrixState) (roomId : string) : option jval :=
  lookup_prop roomId (roomPaginationStatus s).

(** ** Members *)

Definition selectMatrixRoomMembers (s : MatrixState) (roomId : string) : list obj :=
  default [] (lookup_prop roomId (roomMembers s)).

Definition selectActiveMatrixRoomMembers (s : MatrixState) (roomId : string) : list obj :=
  filter (fun m => is_membership "join" m) (selectMatrixRoomMembers s roomId).

Definition selectMatrixRoomKnockingMembers (s : MatrixState) (roomId : string) : list obj :=
  filter (fun m => is_membership "knock" m) (selectMatrixRoomMembers s roomId).

Definition selectMatrixRoomMembersByMe (s : MatrixState) (roomId : string) : list obj :=
  let members := selectActiveMatrixRoomMembers s roomId in
  match list_find (fun m => id_of m = myId s) members with
  | None => members
  | Some (index, me) => me :: take index members ++ drop (S index) members
  end.

Definition selectMatrixRoomMembersCount (s : MatrixState) (roomId : string) : nat :=
  length (selectActiveMatrixRoomMembers s roomId).

Definition selectMatrixRoomMemberMap (s : MatrixState) (roomId : string) : record obj :=
  foldl (fun acc m => set_prop (to_str (id_of m)) m acc) [] (selectMatrixRoomMembers s roomId).

Definition selectMatrixRoomMember (s : MatrixState) (roomId userId : string) : option obj :=
  find_first (has_id userId) (selectMatrixRoomMembers s roomId).

Definition selectMatrixRoomMembersReadyForConversation (s : MatrixState) (roomId : string) : bool :=
  bool_decide (is_Some (lookup_prop roomId (roomMembers s))) &&
  bool_decide (0 < selectMatrixRoomMembersCount s roomId)%nat.

(** ** Power *)

Definition power_of (v : jval) : option RpcUserPowerLevel :=
  match v with
  | JObj o =>
      if bool_decide (get "type" o = JStr "infinite") then Some infinite
      else Some (int_level (to_num (get "value" o)))
  | _ => None
  end.

Definition selectMatrixRoomSelfPowerLevel (s : MatrixState) (roomId : string)
    : option RpcUserPowerLevel :=
  m ← head (filter (fun m => id_of m = myId s) (selectMatrixRoomMembers s roomId));
  power_of (get "powerLevel" m).

(** A level that is compared with a plain number. *)
Definition reaches (powerLevel : option RpcUserPowerLevel) (threshold : num) : bool :=
  match powerLevel with
  | Some p => isPowerLevelGreaterOrEqual p (int_level threshold)
  | None => false
  end.

Definition selectCanRespondToKnockRequests (s : MatrixState) (roomId : string) : bool :=
  reaches (selectMatrixRoomSelfPowerLevel s roomId) ModeratorLevel.

Definition selectShouldShowPendingJoinsIndicator (s : MatrixState) (roomId : string) : bool :=
  if negb (selectCanRespondToKnockRequests s roomId) then false
  else
    let seenSet := default [] (lookup_prop roomId (seenKnockRequests s)) in
    existsb (fun m => negb (includes seenSet (id_of m))) (selectMatrixRoomKnockingMembers s roomId).

Definition selectMatrixRoomIsReadOnly (s : MatrixState) (roomId : string) : bool :=
  match selectMatrixRoomPowerLevels s roomId, selectMatrixRoomSelfPowerLevel s roomId with
  | Some levels, Some self =>
      let requiredLevel := getRoomEventPowerLevel levels ["m.room.message"; "unableToDecrypt"] in
      negb (reaches (Some self) (to_num requiredLevel))
  | _, _ => false
  end.

Definition selectMatrixRoomIsPublic (s : MatrixState) (roomId : string) : jval :=
  match selectMatrixRoom s roomId with Some room => get "isPublic" room | None => JUndef end.

Definition selectMatrixRoomCanUploadMedia (s : MatrixState) (roomId : string) : bool :=
  if negb (truthy (selectMatrixRoomIsPublic s roomId)) then true
  else match selectMatrixRoomPowerLevels s roomId, selectMatrixRoomSelfPowerLevel s roomId with
       | Some _, Some self => reaches (Some self) ModeratorLevel
       | _, _ => false
       end.

Definition selectMatrixDirectMessageRoom (s : MatrixState) (userId : string) : option obj :=
  find_first (fun r => bool_decide (get "directUserId" r = JStr userId)) (selectMatrixRooms s).

Definition selectCanReply (s : MatrixState) (roomId : string) : bool :=
  match selectMatrixAuth s with
  | None => false
  | Some _ =>
      match selectMatrixRoom s roomId with
      | Some room => is_room_state "joined" room && negb (selectMatrixRoomIsReadOnly s roomId)
      | None => false
      end
  end.

Definition selectMatrixUserIsIgnored (s : MatrixState) (userId : string) : bool :=
  bool_decide (userId ∈ ignoredUsers s).

Definition selectMatrixRoomIsBlocked (s : MatrixState) (roomId : string) : jval :=
  match selectMatrixRoom s roomId with Some room => get "isBlocked" room | None => JUndef end.

(** ** Notifications *)

Definition unread (room : obj) : bool :=
  shouldShowUnreadIndicator
    (match get "notificationCount" room with JNum n => Some n | _ => None end)
    (truthy (get "isMarkedUnread" room)).

Definition selectMatrixHasNotifications (s : MatrixState) : bool :=
  existsb unread (selectMatrixRooms s).

Definition selectMatrixHasNotificationsIncludingInvites (s : MatrixState) : bool :=
  existsb (fun room =>
    if is_room_state "invited" room then negb (includes (seenRoomInvites s) (id_of room))
    else unread room) (selectMatrixRooms s).

(** ** Contacts *)

(** The other member of a direct chat, unless one with the id is listed. *)
Definition direct_user (s : MatrixState) (found : list obj) (room : obj) : option obj :=
  if negb (truthy (get "isDirect" room)) then None
  else if existsb (fun u => bool_decide (id_of u = get "directUserId" room)) found then None
  else head (filter (fun m => id_of m = get "directUserId" room)
         (selectMatrixRoomMembers s (to_str (id_of room)))).

Definition selectMatrixContactsList (s : MatrixState) : list obj :=
  foldl (fun found room =>
      if is_guardianito room then found
      else match direct_user s found room with Some u => found ++ [u] | None => found end)
    [] (selectMatrixRooms s).

Definition selectMatrixContactById (s : MatrixState) (userId : string) : option obj :=
  find_first (has_id userId) (selectMatrixContactsList s).

(** The loop stops after the push that reaches the limit. *)
Fixpoint recent_users (s : MatrixState) (limit : nat) (found rooms : list obj) : list obj :=
  match rooms with
  | [] => found
  | room :: rooms =>
      match direct_user s found room with
      | None => recent_users s limit found rooms
      | Some u =>
          if (limit <=? length found + 1)%nat then found ++ [u]
          else recent_users s limit (found ++ [u]) rooms
      end
  end.

Definition selectRecentMatrixRoomMembers (s : MatrixState) (limit : option nat) : list obj :=
  let limit := match limit with Some (S n) => S n | _ => 4%nat end in
  recent_users s limit [] (selectMatrixRooms s).

(** ** Messages *)

Definition selectMatrixRoomEventsHaveLoaded (s : MatrixState) (roomId : string) : bool :=
  bool_decide (is_Some (lookup_prop roomId (roomTimelines s))).

Definition timeline_of (s : MatrixState) (roomId : string) : list (option obj) :=
  default [] (lookup_prop roomId (roomTimelines s)).

Definition selectMatrixRoomRawEvents (s : MatrixState) (roomId : string) : list obj :=
  omap id (timeline_of s roomId).

Definition selectMatrixRoomEvents (s : MatrixState) (roomId : string) : list obj :=
  consolidatePaymentEvents (filterVirtualSpTransferEvents
    (filterMultispendEvents (selectMatrixRoomRawEvents s roomId))).

Definition SelectableEventKinds : list string :=
  ["m.text"; "m.image"; "m.video"; "m.audio"; "m.file"; "m.notice"; "m.emote"; "m.poll";
   "xyz.fedi.payment"; "xyz.fedi.federationInvite"; "xyz.fedi.communityInvite"].

Definition selectMatrixRoomSelectableEventIds (s : MatrixState) (roomId : string) : list jval :=
  id_of <$> filter (fun ev => includes SelectableEventKinds (get "msgtype" (content ev)))
    (omap id (timeline_of s roomId)).

Definition RpcMatrixEventKinds : list string :=
  ["m.text"; "m.image"; "m.video"; "m.audio"; "m.file"; "m.notice"; "m.emote"; "m.room.member";
   "xyz.fedi.payment"; "xyz.fedi.form"; "xyz.fedi.multispend"; "xyz.fedi.federationInvite";
   "xyz.fedi.communityInvite"; "m.poll"; "spTransfer"; "redacted"; "unableToDecrypt";
   "failedToParseCustom"; "unknown"].

Definition isRpcMatrixEvent (item : obj) : bool :=
  includes RpcMatrixEventKinds (get "msgtype" (content item)).

Definition raw_pinned (roomId : string) (item : obj) : option obj :=
  if bool_decide (get "kind" item = JStr "event") then
    let ev := set_prop "roomId" (JStr roomId) (own_props (get "value" item)) in
    if isRpcMatrixEvent ev then Some ev else None
  else None.

Definition selectMatrixRoomRawPinnedEvents (s : MatrixState) (roomId : string) : list obj :=
  omap (raw_pinned roomId) (default [] (lookup_prop roomId (roomPinnedTimelineItems s))).

(** An entry of the map [entriesByVisibleId], whose key is the id of its
    event; the map is the list of its entries in insertion order. *)
Record MatrixRoomPinnedVisibleEntry := mkEntry { entry_event : obj; rawEventIds : list jval }.

Definition entry_id (e : MatrixRoomPinnedVisibleEntry) : jval := id_of (entry_event e).

(** [if (!ids.includes(id)) ids.push(id)] *)
Definition push_new (id : jval) (ids : list jval) : list jval :=
  if decide (id ∈ ids) then ids else ids ++ [id].

Definition pin_step (resolve : obj -> option obj) (entries : list MatrixRoomPinnedVisibleEntry)
    (rawPinnedEvent : obj) : list MatrixRoomPinnedVisibleEntry :=
  match resolve rawPinnedEvent with
  | None => entries
  | Some resolvedEvent =>
      let rawPinnedEventId := id_of rawPinnedEvent in
      match head (filter (fun e => entry_id e = id_of resolvedEvent) entries) with
      | Some existingEntry =>
          filter (fun e => entry_id e <> id_of resolvedEvent) entries ++
          [mkEntry resolvedEvent (push_new rawPinnedEventId (rawEventIds existingEntry))]
      | None => entries ++ [mkEntry resolvedEvent [rawPinnedEventId]]
      end
  end.

Definition resolve_pinned (visibleEvents : list obj) (pinnedEvent : obj) : option obj :=
  resolvePinnedEventToConversationEvent pinnedEvent
    ((fun ev => (id_of ev, ev)) <$> visibleEvents)
    ((fun ev => (get "paymentId" (content ev), ev)) <$>
       filter (fun ev => isPaymentEvent ev) visibleEvents).

Definition selectMatrixRoomPinnedVisibleEntries (s : MatrixState) (roomId : string)
    : list MatrixRoomPinnedVisibleEntry :=
  foldl (pin_step (resolve_pinned (selectMatrixRoomEvents s roomId))) []
    (selectMatrixRoomRawPinnedEvents s roomId).

Definition selectMatrixRoomPinnedEvents (s : MatrixState) (roomId : string) : list obj :=
  entry_event <$> selectMatrixRoomPinnedVisibleEntries s roomId.
Definition selectMatrixRoomPinnedEventIds (s : MatrixState) (roomId : string) : list jval :=
  id_of <$> selectMatrixRoomPinnedEvents s roomId.

Definition selectMatrixRoomPinnedRawEventIdsForVisibleEvent (s : MatrixState) (roomId : string)
    (eventId : option string) : list jval :=
  match eventId with
  | None | Some "" => []
  | Some i =>
      match head (filter (fun e => entry_id e = JStr i) (selectMatrixRoomPinnedVisibleEntries s roomId))
      with Some e => rawEventIds e | None => [] end
  end.

Definition selectMatrixRoomEventIds (s : MatrixState) (roomId : string) : list jval :=
  id_of <$> selectMatrixRoomEvents s roomId.
Definition selectRoomTextEvents (s : MatrixState) (roomId : string) : list obj :=
  filter (fun ev => isTextEvent ev) (selectMatrixRoomEvents s roomId).

Definition selectMatrixRoomLatestPaymentEvent (s : MatrixState) (roomId : string)
    (paymentId : jval) : option obj :=
  last (filter (fun ev => isPaymentEvent ev && bool_decide (get "paymentId" (content ev) = paymentId))
    (selectMatrixRoomEvents s roomId)).

Definition selectLatestMatrixRoomEventId (s : MatrixState) (roomId : string) : option jval :=
  last (filter (fun i => truthy i) (id_of <$> omap id (timeline_of s roomId))).

(** ** Payments in a chat *)

Definition pays (chatPayment f : obj) : bool :=
  truthy (get "balance" f) &&
  ltb (to_num (get "amount" (content chatPayment))) (to_num (get "balance" f)).

Definition payment_federation (chatPayment f : obj) : bool :=
  bool_decide (id_of f = get "federationId" (content chatPayment)).

Definition selectCanPayFromOtherFeds (fed : FederationState) (chatPayment : obj) : bool :=
  existsb (pays chatPayment) (selectLoadedFederations fed).
Definition selectCanSendPayment (fed : FederationState) (chatPayment : obj) : bool :=
  existsb (fun f => payment_federation chatPayment f && pays chatPayment f)
    (selectLoadedFederations fed).
Definition selectCanClaimPayment (fed : FederationState) (chatPayment : obj) : bool :=
  existsb (payment_federation chatPayment) (selectLoadedFederations fed).

(** ** What the user is writing *)

Definition selectChatDrafts (s : MatrixState) : record string := drafts s.
Definition selectSelectedChatMessage (s : MatrixState) : option obj := selectedChatMessage s.
Definition selectMessageToEdit (s : MatrixState) : option obj := messageToEdit s.
Definition selectMatrixStarted (s : MatrixState) : bool := started s.
Definition selectPreviewMedia (s : MatrixState) : list PreviewMedia := previewMedia s.
Definition selectPreviewMediaMatchingEventContent (s : MatrixState) (content : obj)
    : option PreviewMedia :=
  head (filter (fun p => doesEventContentMatchPreviewMedia (media p) content) (previewMedia s)).
Definition selectChatReplyingToMessage (s : MatrixState) : ChatReplyState := replyingToMessage s.
Definition selectReplyingToMessageEventForRoom (s : MatrixState) (roomId : string) : option obj :=
  if decide (reply_roomId (replyingToMessage s) = Some roomId)
  then reply_event (replyingToMessage s) else None.
Definition selectTempMediaUriMap (s : MatrixState) : record string := tempMediaUriMap s.

(** ** Multispend *)

Definition selectMultispendRole (s : MatrixState) (roomId userId : string) : option MultispendRole :=
  if bool_decide (userId = "") then None
  else st ← selectMatrixRoomMultispendStatus s roomId; Some (getMultispendRole st userId).

Definition selectMyMultispendRole (s : MatrixState) (roomId : string) : option MultispendRole :=
  match myId s with
  | JStr me => selectMultispendRole s roomId me
  | _ => None
  end.

Definition selectMultispendInvite (s : MatrixState) (roomId : string) : option GroupInvitation :=
  st ← selectMatrixRoomMultispendStatus s roomId; getMultispendInvite st.

Definition selectMatrixRoomMultispendAccountInfo (s : MatrixState) (roomId : string)
    : option AccountInfo :=
  match lookup_prop roomId (roomMultispendAccountInfo s) with Some i => i | None => None end.

Definition selectSpTransferState (s : MatrixState) (roomId eventId : string) : option jval :=
  states ← lookup_prop roomId (spTransferStates s); lookup_prop eventId states.

Definition selectMatrixRoomMultispendEvents (s : MatrixState) (roomId : string)
    : list MultispendListedEvent :=
  default [] (lookup_prop roomId (roomMultispendEvents s)).

Definition selectRoomMultispendFinancialEvents (s : MatrixState) (roomId : string)
    : list MultispendListedEvent :=
  filter (fun e => isMultispendFinancialEvent e) (selectMatrixRoomMultispendEvents s roomId).

(** [transactions.reduce(..., transactions[0])] *)
Definition latest_txn (transactions : list MultispendListedEvent) : option MultispendListedEvent :=
  match transactions with
  | [] => None
  | first :: _ =>
      Some (foldl (fun latest current =>
        if ltb (counter latest) (counter current) then latest else current) first transactions)
  end.

Definition selectLatestMultispendTxnInRoom (s : MatrixState) (roomId : string)
    : option MultispendListedEvent :=
  latest_txn (selectRoomMultispendFinancialEvents s roomId).

Definition selectMultispendBalance (s : MatrixState) (roomId : string) : num :=
  match selectMatrixRoomMultispendAccountInfo s roomId with
  | Some (acc_Ok fiat) => fiat
  | _ => of_Z 0
  end.

Definition selectMultispendBalanceCents (s : MatrixState) (roomId : string) : num :=
  let precise := selectMultispendBalance s roomId in
  if num_truthy precise then to_fixed_num precise 0 else of_Z 0.

(** The exchange rate is [selectBtcUsdExchangeRate]. *)
Definition selectMultispendBalanceSats (s : MatrixState) (btcUsdExchangeRate : num)
    (roomId : string) : num :=
  fiatToSat (div (selectMultispendBalanceCents s roomId) (of_Z 100)) btcUsdExchangeRate.

Definition selectMatrixRoomMultispendWithdrawalRequests (s : MatrixState) (roomId : string)
    : list MultispendListedEvent :=
  filter (fun e => isMultispendWithdrawalEvent e) (selectRoomMultispendFinancialEvents s roomId).

Definition selectMatrixRoomMultispendEvent (s : MatrixState) (roomId eventId : string)
    : option MultispendListedEvent :=
  events ← lookup_prop roomId (roomMultispendEvents s); find_key MatrixEvents.eventId eventId events.

Definition selectMultispendInvitationEvents (s : MatrixState) (roomId : string)
    : list MultispendListedEvent :=
  filter (fun e => isMultispendInvitation e) (selectMatrixRoomMultispendEvents s roomId).
Definition selectMultispendInvitationEvent (s : MatrixState) (roomId eventId : string)
    : option MultispendListedEvent :=
  find_key MatrixEvents.eventId eventId (selectMultispendInvitationEvents s roomId).

(** ** Requests to join *)

(** [m] is a request to join among the members [l]. *)
Definition knocks (l : list obj) (m : obj) : Prop := m ∈ l /\ is_membership "knock" m = true.

Lemma indicator_spec s r :
  selectShouldShowPendingJoinsIndicator s r = true <->
  selectCanRespondToKnockRequests s r = true /\
  exists m, knocks (members_of s r) m /\ id_of m ∉ JStr <$> seen_in s r.
Proof.
  unfold selectShouldShowPendingJoinsIndicator, knocks.
  destruct (selectCanRespondToKnockRequests s r); cbn [negb]; [|by split; [|intros []]].
  rewrite existsb_exists. split.
  - intros (m & Hm & N). split; [done|]. exists m.
    apply list_elem_of_In, list_elem_of_filter in Hm as [K Hm]. rewrite Is_true_true in K.
    rewrite negb_true_iff in N. unfold includes in N. by rewrite bool_decide_eq_false in N.
  - intros (_ & m & [Hm K] & N). exists m. split.
    + apply list_elem_of_In, list_elem_of_filter. by rewrite Is_true_true.
    + apply negb_true_iff. by apply bool_decide_eq_false.
Qed.

Lemma elem_of_knocking s r v :
  v ∈ knocking s r <-> exists m, knocks (members_of s r) m /\ id_of m = v.
Proof.
  unfold knocking, knocks. rewrite list_elem_of_fmap. split.
  - intros (m & -> & [K H]%list_elem_of_filter). exists m. by rewrite Is_true_true in K.
  - intros (m & [H K] & <-). exists m. split; [done|]. apply list_elem_of_filter.
    by rewrite Is_true_true.
Qed.

Lemma set_members_of r l s : members_of (setMatrixRoomMembers r l s) r = l.
Proof.
  unfold setMatrixRoomMembers. rewrite prune_keeps_members. unfold members_of. cbn.
  by rewrite lookup_set_eq.
Qed.

Lemma set_members_seen r l s u :
  u ∈ seen_in (setMatrixRoomMembers r l s) r <->
  u ∈ seen_in s r /\ exists m, knocks l m /\ id_of m = JStr u.
Proof.
  unfold setMatrixRoomMembers. rewrite seen_prune, list_elem_of_filter.
  rewrite elem_of_knocking. unfold members_of. cbn. rewrite lookup_set_eq. tauto.
Qed.

Lemma elem_of_JStr u (l : list string) : JStr u ∈ JStr <$> l <-> u ∈ l.
Proof.
  rewrite list_elem_of_fmap. split; [by intros (u' & [= ->] & H)|]. by exists u.
Qed.

(** For a user who may answer requests to join, the indicator of a room
    shows exactly while someone knocks whose request has not been seen.  It
    goes out when the requests of all who knock are marked seen, and stays out
    while the same people knock; and who has stopped knocking and knocks again
    is shown again, whatever was seen before. *)
Theorem knock_requests_shown s r l ids u l1 l2 :
  (forall m, knocks l m -> exists v, v ∈ ids /\ id_of m = JStr v) ->
  (forall m, knocks l1 m -> id_of m <> JStr u) ->
  (exists m, knocks l2 m /\ id_of m = JStr u) ->
  let seen_all := markKnockRequestsSeen r ids (setMatrixRoomMembers r l s) in
  let again := setMatrixRoomMembers r l2 (setMatrixRoomMembers r l1 s) in
  selectShouldShowPendingJoinsIndicator seen_all r = false /\
  selectShouldShowPendingJoinsIndicator (setMatrixRoomMembers r l seen_all) r = false /\
  selectShouldShowPendingJoinsIndicator again r = selectCanRespondToKnockRequests again r.
Proof.
  intros A N1 (m2 & K2 & E2) seen_all again.
  assert (M : members_of seen_all r = l).
  { etrans; [|apply (set_members_of r l s)]. unfold seen_all, markKnockRequestsSeen. by destruct ids. }
  assert (S : forall m, knocks l m -> exists v, v ∈ seen_in seen_all r /\ id_of m = JStr v).
  { intros m (v & Hv & E)%A. exists v. split; [|done]. unfold seen_all, markKnockRequestsSeen.
    destruct ids as [|i ids]; [by apply elem_of_nil in Hv|]. unfold seen_in at 1. cbn.
    rewrite lookup_set_eq. cbn [default]. apply elem_of_dedup, elem_of_app. by right. }
  split; [|split].
  - apply not_true_iff_false. intros (_ & m & K & N)%indicator_spec. rewrite M in K.
    destruct (S m K) as (v & Hv & E). apply N. rewrite E. by apply elem_of_JStr.
  - apply not_true_iff_false. intros (_ & m & K & N)%indicator_spec. rewrite set_members_of in K.
    destruct (S m K) as (v & Hv & E). apply N. rewrite E. apply elem_of_JStr, set_members_seen. eauto.
  - apply eq_true_iff_eq. rewrite indicator_spec. split; [by intros [? _]|]. intros R.
    split; [done|]. exists m2. unfold again at 1. rewrite set_members_of. split; [done|].
    rewrite E2, elem_of_JStr. unfold again. rewrite !set_members_seen.
    intros [[_ (m & K & E)] _]. by apply (N1 m).
Qed.

Definition knock_state : MatrixState :=
  matrix_initialState <| auth := Some [("userId", JStr "@me")] |>.
Definition moderator : obj :=
  [("id", JStr "@me"); ("membership", JStr "join");
   ("powerLevel", JObj [("type", JStr "int"); ("value", JNum (of_Z 50))])].

Lemma knocks_example l m : knocks (moderator :: l) m -> knocks l m.
Proof. intros [[->|H]%elem_of_cons K]; [done | by split]. Qed.

Lemma knock_requests_shown_witness :
  let again := setMatrixRoomMembers "!r" [moderator; example_member "@b" "knock"]
    (setMatrixRoomMembers "!r" [moderator] knock_state) in
  selectShouldShowPendingJoinsIndicator again "!r" = selectCanRespondToKnockRequests again "!r" /\
  selectCanRespondToKnockRequests again "!r" = true.
Proof.
  split; [|vm_compute; reflexivity].
  apply (knock_requests_shown knock_state "!r" [moderator; example_member "@b" "knock"] ["@b"] "@b").
  - intros m [[->|H]%elem_of_cons _]%knocks_example; [|by apply elem_of_nil in H].
    exists "@b". split; [left | done].
  - intros m [H _]%knocks_example. by apply elem_of_nil in H.
  - exists (example_member "@b" "knock"). split; [|done]. split; [right; left | done].
Defined.

(** ** Pinned messages *)

(** The elements of [l] that do not occur again later. *)
Fixpoint last_occurrences (l : list jval) : list jval :=
  match l with
  | [] => []
  | x :: l => if decide (x ∈ l) then last_occurrences l else x :: last_occurrences l
  end.

Lemma last_occurrences_snoc l x :
  last_occurrences (l ++ [x]) = filter (fun y => y <> x) (last_occurrences l) ++ [x].
Proof.
  induction l as [|y l IH]; [done|]. cbn [app last_occurrences]. rewrite IH.
  destruct (decide (y = x)) as [->|N].
  - rewrite decide_True by (apply elem_of_app; right; left). case_decide; [done|].
    by rewrite filter_cons_False by naive_solver.
  - destruct (decide (y ∈ l)) as [H|H].
    + by rewrite decide_True by (apply elem_of_app; by left).
    + rewrite decide_False; [by rewrite filter_cons_True|].
      rewrite elem_of_app, list_elem_of_singleton. tauto.
Qed.

Lemma elem_of_last_occurrences x l : x ∈ last_occurrences l <-> x ∈ l.
Proof.
  induction l as [|y l IH]; [done|]. cbn [last_occurrences]. rewrite elem_of_cons.
  case_decide; rewrite ?elem_of_cons, IH; [naive_solver | done].
Qed.

Section Pinned.
Context (resolve : obj -> option obj).

(** The event of the conversation that a pinned event shows as. *)
Definition resolves_to (v : jval) (raw : obj) : bool :=
  match resolve raw with Some ev => bool_decide (id_of ev = v) | None => false end.

Definition resolved_ids (raws : list obj) : list jval :=
  id_of <$> omap resolve raws.

(** The entry describes the pins that show as one event. *)
Definition entry_ok (raws : list obj) (e : MatrixRoomPinnedVisibleEntry) : Prop :=
  (exists raw, last (filter (fun raw => resolves_to (entry_id e) raw) raws) = Some raw /\
     resolve raw = Some (entry_event e)) /\
  NoDup (rawEventIds e) /\
  forall i, i ∈ rawEventIds e <->
    exists raw, raw ∈ raws /\ resolves_to (entry_id e) raw = true /\ id_of raw = i.

Lemma entry_ok_other raws raw e :
  resolves_to (entry_id e) raw = false -> entry_ok raws e -> entry_ok (raws ++ [raw]) e.
Proof.
  intros R ((last_raw & L & E) & D & I). split; [|split; [done|]].
  - exists last_raw. split; [|done]. rewrite filter_app.
    rewrite (filter_cons_False _ raw) by (rewrite R; intros []). by rewrite filter_nil, app_nil_r.
  - intros i. rewrite I. split; intros (r & Hr & Rr & E'); exists r; [|].
    + split; [apply elem_of_app; by left | done].
    + apply elem_of_app in Hr as [Hr| ->%list_elem_of_singleton]; [done | congruence].
Qed.

Lemma last_filter_snoc (P : obj -> bool) l x :
  P x = true -> last (filter (fun y => P y) (l ++ [x])) = Some x.
Proof.
  intros Px. rewrite filter_app, (filter_cons_True _ x) by (by rewrite Px).
  by rewrite filter_nil, last_snoc.
Qed.

(** Pinning an event adds its id to those that show as [ev]. *)
Lemma entry_ok_pin raws raw ev ids :
  resolve raw = Some ev -> NoDup ids ->
  (forall i, i ∈ ids <-> exists r, r ∈ raws /\ resolves_to (id_of ev) r = true /\ id_of r = i) ->
  entry_ok (raws ++ [raw]) (mkEntry ev (push_new (id_of raw) ids)).
Proof.
  intros R D I. assert (T : resolves_to (id_of ev) raw = true)
    by (unfold resolves_to; rewrite R; by apply bool_decide_eq_true).
  split; [|split]; cbn [entry_id entry_event rawEventIds].
  - exists raw. split; [by apply last_filter_snoc | done].
  - unfold push_new. case_decide; [done|]. apply NoDup_app. split; [done|].
    split; [|apply NoDup_singleton]. by intros x Hx ->%list_elem_of_singleton.
  - intros i. assert (i ∈ push_new (id_of raw) ids <-> i ∈ ids \/ i = id_of raw) as ->.
    { unfold push_new. case_decide; [naive_solver|].
      by rewrite elem_of_app, list_elem_of_singleton. }
    rewrite I. split.
    + intros [(r & Hr & Rr & E)| ->]; [exists r | exists raw]; rewrite elem_of_app; [tauto|].
      split; [right; left | done].
    + intros (r & [Hr| ->%list_elem_of_singleton]%elem_of_app & Rr & E); [left; by exists r | by right].
Qed.

(** What the entries are after the pins [raws]. *)
Definition pinned_as (raws : list obj) (entries : list MatrixRoomPinnedVisibleEntry) : Prop :=
  entry_id <$> entries = last_occurrences (resolved_ids raws) /\
  NoDup (entry_id <$> entries) /\ Forall (entry_ok raws) entries.

Lemma resolved_ids_snoc raws raw :
  resolved_ids (raws ++ [raw]) =
    resolved_ids raws ++ match resolve raw with Some ev => [id_of ev] | None => [] end.
Proof.
  unfold resolved_ids. rewrite omap_app, fmap_app. cbn [omap list_omap].
  by destruct (resolve raw).
Qed.

Lemma entry_ids_filter v (entries : list MatrixRoomPinnedVisibleEntry) :
  entry_id <$> filter (fun e => entry_id e <> v) entries =
    filter (fun y => y <> v) (entry_id <$> entries).
Proof.
  induction entries as [|e l IH]; [done|]. rewrite filter_cons. csimpl. rewrite filter_cons.
  case_decide; csimpl; by rewrite IH.
Qed.

Lemma entries_ok_others raws raw ev entries :
  resolve raw = Some ev -> Forall (entry_ok raws) entries ->
  Forall (entry_ok (raws ++ [raw])) (filter (fun e => entry_id e <> id_of ev) entries).
Proof.
  intros R F. rewrite list.Forall_forall in F |- *. intros e [N He]%list_elem_of_filter.
  apply entry_ok_other; [|by apply F]. unfold resolves_to. rewrite R.
  apply bool_decide_eq_false. congruence.
Qed.

Lemma pin_step_pinned raws raw entries :
  pinned_as raws entries -> pinned_as (raws ++ [raw]) (pin_step resolve entries raw).
Proof.
  intros (E & D & F). unfold pinned_as, pin_step. rewrite resolved_ids_snoc.
  destruct (resolve raw) as [ev|] eqn:R.
  2:{ rewrite app_nil_r. split; [done|]. split; [done|].
      eapply list.Forall_impl; [exact F|]. intros e. apply entry_ok_other.
      unfold resolves_to. by rewrite R. }
  pose proof (entries_ok_others raws raw ev entries R F) as Fo.
  assert (Do : NoDup (filter (fun y => y <> id_of ev) (entry_id <$> entries) ++ [id_of ev])).
  { apply NoDup_app. split; [by apply list.NoDup_filter|]. split; [|apply NoDup_singleton].
    intros x [Nx _]%list_elem_of_filter Hx%list_elem_of_singleton. done. }
  rewrite last_occurrences_snoc, <- E.
  destruct (head (filter (fun e => entry_id e = id_of ev) entries)) as [old|] eqn:H.
  - apply head_Some_elem_of, list_elem_of_filter in H as [Eo Ho].
    rewrite list.Forall_forall in F. destruct (F old Ho) as (_ & Dr & I). rewrite Eo in I.
    rewrite fmap_app, entry_ids_filter. split; [done|]. split; [done|].
    apply list.Forall_app. split; [done|]. constructor; [|constructor]. by apply entry_ok_pin.
  - assert (N : forall e, e ∈ entries -> entry_id e <> id_of ev).
    { intros e He Ee. apply head_None in H.
      assert (X : e ∈ filter (fun e => entry_id e = id_of ev) entries)
        by (by apply list_elem_of_filter).
      rewrite H in X. by apply elem_of_nil in X. }
    assert (Fi : filter (fun e => entry_id e <> id_of ev) entries = entries)
      by (by apply filter_all, list.Forall_forall).
    rewrite <- entry_ids_filter, Fi in Do |- *. rewrite Fi in Fo. rewrite fmap_app.
    split; [done|]. split; [done|]. apply list.Forall_app. split; [done|].
    constructor; [|constructor].
    change (mkEntry ev [id_of raw]) with (mkEntry ev (push_new (id_of raw) [])).
    apply entry_ok_pin; [done | constructor|]. intros i. split; [intros X; by apply elem_of_nil in X|].
    intros (r & Hr & Rr & _). unfold resolves_to in Rr.
    destruct (resolve r) as [ev'|] eqn:Er; [|done]. apply bool_decide_eq_true in Rr.
    assert (X : id_of ev ∈ entry_id <$> entries).
    { rewrite E, elem_of_last_occurrences, <- Rr. apply list_elem_of_fmap_2.
      apply list_elem_of_omap. eauto. }
    apply list_elem_of_fmap in X as (e & Ee & He). destruct (N e He). done.
Qed.

Lemma pinned_entries raws : pinned_as raws (foldl (pin_step resolve) [] raws).
Proof.
  induction raws as [|raw raws IH] using rev_ind; [by repeat constructor|].
  rewrite foldl_app. by apply pin_step_pinned.
Qed.
End Pinned.

(** The pinned messages of a room are each message of the conversation that
    a pin shows as, once, in the order of the last such pin and with its
    content; and the ids kept for it, which unpinning it clears, are exactly
    those of the pinned events that show as it. *)
Theorem pinned_messages s r :
  pinned_as (resolve_pinned (selectMatrixRoomEvents s r)) (selectMatrixRoomRawPinnedEvents s r)
    (selectMatrixRoomPinnedVisibleEntries s r).
Proof. apply pinned_entries. Qed.

(** ** The chat list *)

(** [l] holds the elements of [l1] and of [l2], each in their order. *)
Inductive shuffle {A} : list A -> list A -> list A -> Prop :=
  | shuffle_nil : shuffle [] [] []
  | shuffle_l x l1 l2 l : shuffle l1 l2 l -> shuffle (x :: l1) l2 (x :: l)
  | shuffle_r x l1 l2 l : shuffle l1 l2 l -> shuffle l1 (x :: l2) (x :: l).

Lemma shuffle_nil_r {A} (l : list A) : shuffle l [] l.
Proof. induction l; by constructor. Qed.
Lemma shuffle_nil_l {A} (l : list A) : shuffle [] l l.
Proof. induction l; by constructor. Qed.

Lemma shuffle_elem {A} (l1 l2 l : list A) x : shuffle l1 l2 l -> x ∈ l <-> x ∈ l1 \/ x ∈ l2.
Proof. induction 1; set_solver. Qed.

Lemma merge_shuffle rooms defaults : shuffle rooms defaults (merge_chats rooms defaults).
Proof.
  revert defaults. induction rooms as [|r rooms IH]; intros defaults.
  - destruct defaults; [constructor | apply shuffle_nil_l].
  - induction defaults as [|d defaults IHd]; [apply shuffle_nil_r|]. cbn [merge_chats].
    case_if; constructor; [done | apply IH].
Qed.

(** The room has a preview with a time in milliseconds, or none. *)
Definition dated (room : obj) : Prop := exists n, safe n /\ previewTimestamp room = of_Z n.

(** The rooms with the most recent message come first. *)
Definition most_recent_first : list obj -> Prop :=
  StronglySorted (fun a b => leb (previewTimestamp b) (previewTimestamp a) = true).

Lemma dated_total a b : dated a -> dated b ->
  ltb (previewTimestamp a) (previewTimestamp b) = false ->
  leb (previewTimestamp b) (previewTimestamp a) = true.
Proof.
  intros (n & Sn & ->) (m & Sm & ->). rewrite ltb_int, leb_int by done.
  rewrite Z.ltb_ge, Z.leb_le. done.
Qed.

Lemma dated_lt a b : dated a -> dated b ->
  ltb (previewTimestamp a) (previewTimestamp b) = true ->
  leb (previewTimestamp a) (previewTimestamp b) = true.
Proof.
  intros (n & Sn & ->) (m & Sm & ->). rewrite ltb_int, leb_int by done.
  rewrite Z.ltb_lt, Z.leb_le. lia.
Qed.

Lemma dated_trans a b c : dated a -> dated b -> dated c ->
  leb (previewTimestamp b) (previewTimestamp a) = true ->
  leb (previewTimestamp c) (previewTimestamp b) = true ->
  leb (previewTimestamp c) (previewTimestamp a) = true.
Proof.
  intros (n & Sn & ->) (m & Sm & ->) (k & Sk & ->). rewrite !leb_int by done.
  rewrite !Z.leb_le. lia.
Qed.

Lemma most_recent_cons x l :
  most_recent_first l -> (forall y, y ∈ l -> leb (previewTimestamp y) (previewTimestamp x) = true) ->
  most_recent_first (x :: l).
Proof. intros S H. constructor; [done|]. by apply list.Forall_forall. Qed.

(** When [x] is not older than the head of a sorted list, it is not older than
    the list. *)
Lemma above_head x d l :
  Forall dated (x :: d :: l) -> most_recent_first (d :: l) ->
  leb (previewTimestamp d) (previewTimestamp x) = true ->
  forall y, y ∈ d :: l -> leb (previewTimestamp y) (previewTimestamp x) = true.
Proof.
  intros F [_ G]%StronglySorted_inv H y [->|Hy]%elem_of_cons; [done|].
  rewrite list.Forall_forall in F, G.
  apply (dated_trans x d y); try apply F; [left | right; left | by right; right | done | by apply G].
Qed.

Lemma merge_sorted rooms defaults :
  Forall dated (rooms ++ defaults) -> most_recent_first rooms -> most_recent_first defaults ->
  most_recent_first (merge_chats rooms defaults).
Proof.
  revert defaults. induction rooms as [|r rooms IH]; intros defaults; [by destruct defaults|].
  induction defaults as [|d defaults IHd]; [done|]. intros F Sr Sd. cbn [merge_chats].
  pose proof Sr as [Sr' Hr]%StronglySorted_inv. pose proof Sd as [Sd' Hd]%StronglySorted_inv.
  rewrite list.Forall_forall in F.
  assert (Dr : dated r) by (apply F; left).
  assert (Dd : dated d) by (apply F, elem_of_app; right; left).
  destruct (ltb (previewTimestamp r) (previewTimestamp d)) eqn:L; apply most_recent_cons.
  - apply IHd; [|done|done]. apply list.Forall_forall. intros x Hx. apply F.
    apply elem_of_app in Hx as [Hx|Hx]; apply elem_of_app; [by left | right; by right].
  - intros y Hy. apply (shuffle_elem _ _ _ y (merge_shuffle (r :: rooms) defaults)) in Hy as [Hy|Hy].
    + apply (above_head d r rooms); [|done|by apply dated_lt|done].
      constructor; [done|]. apply list.Forall_forall. intros x Hx. apply F, elem_of_app. by left.
    + rewrite list.Forall_forall in Hd. by apply Hd.
  - apply IH; [|done|done]. apply list.Forall_forall. intros x Hx. apply F. by right.
  - intros y Hy. apply (shuffle_elem _ _ _ y (merge_shuffle rooms (d :: defaults))) in Hy as [Hy|Hy].
    + rewrite list.Forall_forall in Hr. by apply Hr.
    + apply (above_head r d defaults); [|done|by apply dated_total|done].
      constructor; [done|]. apply list.Forall_forall. intros x Hx. apply F, elem_of_app. by right.
Qed.

Section ChatList.
Context (orderByDesc : (obj -> num) -> list obj -> list obj).
Context (orderBy_perm : forall key l, Permutation (orderByDesc key l) l).
Context (orderBy_sorted : forall key l,
  Forall (fun o => exists n, safe n /\ key o = of_Z n) l ->
  StronglySorted (fun a b => leb (key b) (key a) = true) (orderByDesc key l)).

Lemma unjoined_ids rooms p c :
  unjoined_preview rooms p = Some c -> id_of c ∉ id_of <$> rooms.
Proof.
  unfold unjoined_preview. destruct (get "info" p) as [| | | | | |info]; try done.
  destruct (get "timeline" p); try done. destruct (negb _); [done|].
  destruct (existsb _ rooms) eqn:X; [done|]. intros [= <-] H.
  apply list_elem_of_fmap in H as (r & E & Hr). apply not_true_iff_false in X. apply X.
  apply existsb_exists. exists r. split; [by apply list_elem_of_In|]. apply bool_decide_eq_true.
  rewrite <- E. unfold makeChatFromUnjoinedRoomPreview, id_of.
  by rewrite !get_set_ne by discriminate.
Qed.

Lemma chats_list_merge s :
  selectMatrixChatsList orderByDesc s =
    merge_chats (filter (fun r => is_chat r) (selectMatrixRooms s))
      (selectDefaultChatsForChatList orderByDesc s).
Proof.
  unfold selectMatrixChatsList. destruct (selectDefaultChatsForChatList orderByDesc s); [|done].
  by destruct (filter _ _).
Qed.

(** C38: The chat list holds the rooms that are joined, invited to or knocked
    at, in the order of the bridge, and the previews of the default rooms that
    are not among the user's rooms, each once; and when the rooms come with the
    most recent message first, so does the list. *)
Theorem selectMatrixChatsList_spec s :
  let rooms := filter (fun r => is_chat r) (selectMatrixRooms s) in
  let previews := selectDefaultChatsForChatList orderByDesc s in
  let chats := selectMatrixChatsList orderByDesc s in
  shuffle rooms previews chats /\
  Permutation previews (omap (unjoined_preview (selectMatrixRooms s)) (groupPreviews s).*2) /\
  (forall p, p ∈ previews -> id_of p ∉ id_of <$> selectMatrixRooms s) /\
  (Forall dated (rooms ++ previews) -> most_recent_first rooms -> most_recent_first chats).
Proof.
  intros rooms previews chats. unfold chats. rewrite chats_list_merge.
  split; [apply merge_shuffle|]. split; [apply orderBy_perm|]. split.
  - intros p Hp. unfold previews, selectDefaultChatsForChatList in Hp. rewrite orderBy_perm in Hp.
    apply list_elem_of_omap in Hp as (x & _ & Hx). by apply unjoined_ids in Hx.
  - intros F S. apply merge_sorted; [done | done|]. apply orderBy_sorted.
    apply list.Forall_app in F as [_ F]. unfold previews, selectDefaultChatsForChatList in F.
    by rewrite orderBy_perm in F.
Qed.
End ChatList.

(** A sort in descending order of a key. *)
Definition sort_desc (key : obj -> num) (l : list obj) : list obj :=
  sort_stable (fun a b => leb (key b) (key a)) l.

Lemma sort_desc_sorted key l :
  Forall (fun o => exists n, safe n /\ key o = of_Z n) l ->
  StronglySorted (fun a b => leb (key b) (key a) = true) (sort_desc key l).
Proof.
  apply sort_stable_sorted.
  - intros x y (n & Sn & ->) (m & Sm & ->). rewrite !leb_int by done. rewrite !Z.leb_le. lia.
  - intros x y z (n & Sn & ->) (m & Sm & ->) (k & Sk & ->). rewrite !leb_int by done.
    rewrite !Z.leb_le. lia.
Qed.

Definition example_room (id : string) (t : Z) : obj :=
  [("id", JStr id); ("roomState", JStr "joined");
   ("preview", JObj [("timestamp", JNum (of_Z t))])].

Definition chats_state : MatrixState :=
  matrix_initialState <| roomList := [[("id", JStr "!a")]; [("id", JStr "!b")]] |>
    <| roomInfo := [("!a", JObj (example_room "!a" 30)); ("!b", JObj (example_room "!b" 10))] |>
    <| groupPreviews := [("!p", [("info", JObj [("id", JStr "!p")]);
         ("timeline", JArr [JObj [("timestamp", JNum (of_Z 20))]]);
         ("isDefaultGroup", JBool true)])] |>.

Lemma selectMatrixChatsList_spec_witness :
  most_recent_first (selectMatrixChatsList sort_desc chats_state) /\
  id_of <$> selectMatrixChatsList sort_desc chats_state = [JStr "!a"; JStr "!p"; JStr "!b"].
Proof.
  split; [|vm_compute; reflexivity].
  apply (selectMatrixChatsList_spec sort_desc (fun key l => sort_stable_perm _ l) sort_desc_sorted).
  - apply (list.Forall_impl (fun r => previewTimestamp r ∈ [of_Z 30; of_Z 20; of_Z 10])).
    + apply (bool_decide_unpack _). vm_compute. exact I.
    + intros r [E|[E|[E|H]%elem_of_cons]%elem_of_cons]%elem_of_cons;
        [exists 30%Z|exists 20%Z|exists 10%Z|by apply elem_of_nil in H];
        (split; [unfold safe; lia | exact E]).
  - apply most_recent_cons; [apply most_recent_cons; [constructor|]|].
    + intros y H. vm_compute in H. by apply elem_of_nil in H.
    + intros y H. apply list_elem_of_singleton in H. subst y. vm_compute. reflexivity.
Defined.
