(* ===== verification/Effects.v ===== *)
(** Effects: code that calls the bridge or a server and waits for the answer.

    A thunk is a sequence of calls, each of which answers or fails; what a call
    is answered may depend on the calls made before, so that a theorem for all
    answers covers every behaviour of the other side. *)
From stdpp Require Import base tactics strings list option.
From S2P Require Import Prelude JsNum Js.
Local Open Scope string_scope.
Local Open Scope list_scope.

(** ** Calls to the bridge *)

Record call := mkCall { rpc_name : string; rpc_args : list jval }.

#[export] Instance call_eq_dec : EqDecision call.
Proof. solve_decision. Defined.

(** What the bridge answers to a call, after the calls made so far. *)
Definition bridge : Type := list call -> call -> result jval.

(** The calls made so far go in, those made by then and the outcome come out. *)
Definition thunk (A : Type) : Type := bridge -> list call -> list call * result A.

Definition t_ret {A} (r : result A) : thunk A := fun _ h => (h, r).
#[export] Instance thunk_ret : MRet thunk := fun _ a => t_ret (Ok a).
#[export] Instance thunk_bind : MBind thunk := fun _ _ f m b h =>
  match m b h with
  | (h, Ok a) => f a b h
  | (h, Throw e) => (h, Throw e)
  end.
Definition t_throw {A} (e : string) : thunk A := t_ret (Throw e).

Definition rpc (name : string) (args : list jval) : thunk jval := fun b h =>
  let c := mkCall name args in (h ++ [c], b h c).

(** [try { m } catch { handler }] *)
Definition t_catch {A} (m : thunk A) (handler : string -> thunk A) : thunk A := fun b h =>
  match m b h with
  | (h, Ok a) => (h, Ok a)
  | (h, Throw e) => handler e b h
  end.

(** [await Promise.allSettled(l)], the calls in the order they are made; the
    outcome of each. *)
Fixpoint t_allSettled {A} (l : list (thunk A)) : thunk (list (result A)) := fun b h =>
  match l with
  | [] => (h, Ok [])
  | m :: l =>
      let '(h, r) := m b h in
      match t_allSettled l b h with
      | (h, Ok rs) => (h, Ok (r :: rs))
      | (h, Throw e) => (h, Throw e)
      end
  end.

(** The calls and the outcome of a thunk that is run on its own. *)
Definition run {A} (m : thunk A) (b : bridge) : list call * result A := m b [].

(** ** What a thunk does first *)

Lemma run_rpc {A} name args (k : jval -> thunk A) b h :
  (x ← rpc name args; k x) b h =
    match b h (mkCall name args) with
    | Ok v => k v b (h ++ [mkCall name args])
    | Throw e => (h ++ [mkCall name args], Throw e)
    end.
Proof. reflexivity. Qed.

Lemma run_ret {A B} (a : A) (k : A -> thunk B) b h : (x ← mret a; k x) b h = k a b h.
Proof. reflexivity. Qed.

Lemma run_throw {A B} e (k : A -> thunk B) b h : (x ← t_throw e; k x) b h = (h, Throw e).
Proof. reflexivity. Qed.

(** ** What a thunk may do

    [obeys N Q X m]: whatever the other side answers, every call [m] makes
    satisfies [N], and it returns a value that satisfies [Q] or throws an error
    that satisfies [X]. *)
Definition obeys {A} (N : call -> Prop) (Q : A -> Prop) (X : string -> Prop) (m : thunk A) : Prop :=
  forall b h, exists l, (m b h).1 = h ++ l /\ Forall N l /\
    match (m b h).2 with Ok a => Q a | Throw e => X e end.

Section Obeys.
Context (N : call -> Prop).

Lemma obeys_ret {A} (Q : A -> Prop) X (r : result A) :
  match r with Ok a => Q a | Throw e => X e end -> obeys N Q X (t_ret r).
Proof. intros H b h. exists []. by rewrite app_nil_r. Qed.

Lemma obeys_mret {A} (Q : A -> Prop) X (a : A) : Q a -> obeys N Q X (mret a).
Proof. intros H. by apply obeys_ret. Qed.

Lemma obeys_throw {A} (Q : A -> Prop) (X : string -> Prop) e : X e -> obeys N Q X (t_throw e).
Proof. intros H. by apply obeys_ret. Qed.

Lemma obeys_rpc (X : string -> Prop) name args :
  N (mkCall name args) -> (forall e, X e) -> obeys N (fun _ => True) X (rpc name args).
Proof.
  intros H HX b h. exists [mkCall name args]. split_and!; [done|by repeat constructor|].
  cbn. by destruct (b h (mkCall name args)).
Qed.

Lemma obeys_bind {A B} (P : A -> Prop) (Q : B -> Prop) X (m : thunk A) (f : A -> thunk B) :
  obeys N P X m -> (forall a, P a -> obeys N Q X (f a)) -> obeys N Q X (a ← m; f a).
Proof.
  intros M F b h. destruct (M b h) as (l & E & L & R). unfold mbind, thunk_bind.
  destruct (m b h) as [h' [a|e]]; cbn in *; subst h'; [|by exists l].
  destruct (F a R b (h ++ l)) as (l' & E' & L' & R'). exists (l ++ l').
  rewrite E', (assoc_L (++)). split_and!; [done|by apply list.Forall_app|done].
Qed.

Lemma obeys_catch {A} (Q : A -> Prop) X Y (m : thunk A) (handler : string -> thunk A) :
  obeys N Q Y m -> (forall e, Y e -> obeys N Q X (handler e)) -> obeys N Q X (t_catch m handler).
Proof.
  intros M F b h. destruct (M b h) as (l & E & L & R). unfold t_catch.
  destruct (m b h) as [h' [a|e]]; cbn in *; subst h'; [by exists l|].
  destruct (F e R b (h ++ l)) as (l' & E' & L' & R'). exists (l ++ l').
  rewrite E', (assoc_L (++)). split_and!; [done|by apply list.Forall_app|done].
Qed.

Lemma obeys_impl {A} (Q Q' : A -> Prop) (X X' : string -> Prop) (m : thunk A) :
  obeys N Q X m -> (forall a, Q a -> Q' a) -> (forall e, X e -> X' e) -> obeys N Q' X' m.
Proof.
  intros M HQ HX b h. destruct (M b h) as (l & E & L & R). exists l. split_and!; try done.
  destruct (m b h).2; auto.
Qed.
End Obeys.

(** The calls a thunk may make only depend on its code. *)
Lemma obeys_calls {A} (N N' : call -> Prop) (Q : A -> Prop) X (m : thunk A) :
  obeys N Q X m -> (forall c, N c -> N' c) -> obeys N' Q X m.
Proof.
  intros M I b h. destruct (M b h) as (l & E & L & R). exists l. split_and!; try done.
  by eapply list.Forall_impl.
Qed.
