(* ===== verification/MatrixThunks.v ===== *)
(** Thunks of the matrix slice: [ui/common/redux/matrix.ts], with the methods
    of [ui/common/utils/MatrixChatClient.ts] that they call.

    A thunk is a sequence of calls to the bridge, each of which answers or
    fails; what the bridge answers may depend on the calls made before.  The
    payments of a chat are sent, claimed, rejected, canceled and taken back
    here, and [checkForReceivablePayments] starts the claims of a timeline.
    Logging is left out; [JSON] values stand for what crosses the bridge. *)
From Stdlib Require Import ZArith Lia.
From stdpp Require Import base tactics strings list option sets relations.
From S2P Require Import Prelude JsNum Js JsStr Stream Upsert Amount Meta Federation.
From S2P Require Import KeyedMap MatrixEvents Matrix MatrixSelect Effects.
Local Open Scope string_scope.
Local Open Scope list_scope.

(** ** The chat client *)

Section Client.

(** [const { msgtype, body, ...data } = content] *)
Definition sendMessage (roomId : jval) (c : obj) : thunk jval :=
  rpc "matrixSendMessage" [roomId; JObj [("msgtype", get "msgtype" c); ("body", get "body" c);
    ("data", JObj (del_props ["msgtype"; "body"] c)); ("mentions", JNull)]].

Definition markRoomAsUnread (roomId : jval) (unread : bool) : thunk jval :=
  rpc "matrixRoomMarkAsUnread" [roomId; JBool unread].

Definition sendReadReceipt (roomId eventId : jval) : thunk jval :=
  rpc "matrixRoomSendReceipt" [roomId; eventId].

Definition paginateTimeline (roomId : jval) (eventNum : num) : thunk jval :=
  rpc "matrixRoomTimelineItemsPaginateBackwards" [roomId; JNum eventNum].

Definition toggleReaction (roomId eventId : jval) (reactionKey : string) : thunk jval :=
  rpc "matrixToggleReaction" [roomId; eventId; JStr reactionKey].

(** [{ ...oldPowerLevels, ...powerLevels }] *)
Definition setRoomPowerLevels (roomId : jval) (powerLevels : obj) : thunk jval :=
  oldPowerLevels ← rpc "matrixRoomGetPowerLevels" [roomId];
  let newPowerLevels := JObj (spread (own_props oldPowerLevels) powerLevels) in
  _ ← rpc "matrixRoomSetPowerLevels" [roomId; newPowerLevels];
  mret newPowerLevels.

Definition setRoomMemberPowerLevel (roomId : jval) (userId : string) (powerLevel : num)
    : thunk jval :=
  oldPowerLevels ← rpc "matrixRoomGetPowerLevels" [roomId];
  let users := own_props (jor (opt_prop oldPowerLevels "users") (JObj [])) in
  let newPowerLevels := JObj (set_prop "users"
    (JObj (set_prop userId (JNum powerLevel) users)) (own_props oldPowerLevels)) in
  _ ← rpc "matrixRoomSetPowerLevels" [roomId; newPowerLevels];
  mret newPowerLevels.

Definition joinRoom (roomId : jval) (isPublic : bool) : thunk jval :=
  if isPublic then rpc "matrixRoomJoinPublic" [roomId] else rpc "matrixRoomJoin" [roomId].

Definition createRoom (options : obj) : thunk jval := rpc "matrixRoomCreate" [JObj options].
Definition setRoomTopic (roomId : jval) (topic : jval) : thunk jval :=
  rpc "matrixRoomSetTopic" [roomId; topic].

End Client.

(** ** The state a thunk reads *)

Record ChatState := mkChat {
  matrix : MatrixState;
  federation : FederationState;
  private_room_knocking : bool
}.

Section Thunks.
(** [Intl.NumberFormat().format] and [uuidv4]. *)
Context (formatSats : num -> string).
Context (uuidv4 : list call -> string).

Definition fresh_id : thunk string := fun _ h => (h, Ok (uuidv4 h)).

(** ** Sending payments *)

Definition require {A} (o : option A) (e : string) : thunk A :=
  match o with Some a => mret a | None => t_throw e end.

Definition not_authenticated : string := "Not authenticated".

Definition auth_of (s : ChatState) : thunk obj :=
  require (selectMatrixAuth (matrix s)) not_authenticated.

Definition frontendMetadata (recipient sender notes : jval) : jval :=
  JObj [("recipientMatrixId", recipient); ("senderMatrixId", sender); ("initialNotes", notes)].

Definition sendMatrixPaymentPush (s : ChatState) (federationId : string) (roomId : jval)
    (recipientId : string) (amount : num) (notes : option string) : thunk jval :=
  let fed := Federation.selectLoadedFederation (federation s) federationId in
  matrixAuth ← auth_of s;
  f ← require fed "Federation not found";
  let msats := satToMsat amount in
  let includeInvite := shouldShowInviteCode (meta_of f) in
  generated ← rpc "generateEcash" [JNum msats; JStr federationId; JBool includeInvite;
    frontendMetadata (JStr recipientId) (get "userId" matrixAuth) (from_option JStr JNull notes)];
  let senderOperationId := opt_prop generated "operationId" in
  paymentId ← fresh_id;
  _ ← rpc "updateTransactionNotes"
        [senderOperationId; JStr (default "" notes); JStr federationId];
  _ ← sendMessage roomId [("msgtype", JStr "xyz.fedi.payment");
    ("body", JStr ("Sent payment of " +:+ formatSats amount +:+
                   " SATS. Use the Fedi app to accept this payment."));
    ("status", JStr "pushed"); ("paymentId", JStr paymentId);
    ("senderOperationId", senderOperationId); ("senderId", get "userId" matrixAuth);
    ("recipientId", JStr recipientId); ("amount", JNum msats);
    ("ecash", opt_prop generated "ecash"); ("federationId", id_of f)];
  mret senderOperationId.

Definition sendMatrixPaymentRequest (s : ChatState) (federationId : string) (roomId : jval)
    (amount : num) : thunk jval :=
  matrixAuth ← auth_of s;
  let msats := satToMsat amount in
  paymentId ← fresh_id;
  sendMessage roomId [("msgtype", JStr "xyz.fedi.payment");
    ("body", JStr ("Requested payment of " +:+ formatSats amount +:+
                   " SATS. Use the Fedi app to complete this request."));
    ("paymentId", JStr paymentId); ("status", JStr "requested");
    ("recipientId", get "userId" matrixAuth); ("amount", JNum msats);
    ("federationId", JStr federationId)].

(** ** Answering payments *)

Definition room_of_event (event : obj) : jval := get "roomId" event.

(** [{ ...event.content, body, status, ... }] *)
Definition updated_content (event : obj) (fields : obj) : obj := spread (content event) fields.

Definition check (b : bool) (e : string) : thunk unit := if b then mret tt else t_throw e.

Definition claimMatrixPayment (s : ChatState) (event : obj) : thunk jval :=
  matrixAuth ← auth_of s;
  let ecash := get "ecash" (content event) in
  let federationId := get "federationId" (content event) in
  _ ← check (truthy ecash) "Payment message is missing ecash token";
  _ ← check (truthy federationId) "Payment message is missing federationId";
  received ← rpc "receiveEcash" [ecash; federationId;
    frontendMetadata (get "userId" matrixAuth) (jor (get "senderId" (content event)) JNull) JNull];
  let receiverOperationId := match received with JArr (_ :: op :: _) => op | _ => JUndef end in
  _ ← sendMessage (room_of_event event) (updated_content event
    [("body", JStr "Payment received."); ("status", JStr "received");
     ("receiverOperationId", receiverOperationId)]);
  markRoomAsUnread (room_of_event event) true.

(** The promise of the [cancelEcash] thunk is not awaited: its calls start
    here, its outcome goes nowhere. *)
Definition detached {A} (m : thunk A) : thunk unit := fun b h => ((m b h).1, Ok tt).

Section Reclaim.
(** The thunk [cancelEcash] of the wallet slice. *)
Context (cancelEcash : jval -> thunk jval).

Definition tryReclaimMatrixPayment (event : obj) : thunk unit :=
  let c := content event in
  if negb (truthy (get "ecash" c)) || negb (truthy (get "federationId" c)) ||
     negb (truthy (get "senderOperationId" c)) || negb (status_in ["rejected"] event)
  then mret tt
  else
    transaction ← rpc "getTransaction" [get "federationId" c; get "senderOperationId" c];
    if negb (truthy transaction) ||
       negb (bool_decide (opt_prop transaction "kind" = JStr "oobSend"))
    then mret tt
    else detached (cancelEcash (get "ecash" c)).
End Reclaim.

Definition cancelMatrixPayment (event : obj) : thunk jval :=
  let c := content event in
  _ ← (if truthy (get "ecash" c) && truthy (get "federationId" c)
       then rpc "cancelEcash" [get "ecash" c; get "federationId" c] else mret JUndef);
  sendMessage (room_of_event event) (updated_content event
    [("body", JStr "Payment canceled."); ("status", JStr "canceled")]).

Definition acceptMatrixPaymentRequest (s : ChatState) (event : obj) : thunk jval :=
  matrixAuth ← auth_of s;
  let c := content event in
  _ ← check (status_in ["requested"] event) "Can only accept payment requests";
  _ ← check (truthy (get "federationId" c)) "Payment missing federationId";
  _ ← check (truthy (get "amount" c)) "Payment request missing amount";
  let federationMeta :=
    Federation.selectFederationMetadata (federation s) (to_str (get "federationId" c)) in
  let includeInvite := shouldShowInviteCode federationMeta in
  let msats := get "amount" c in
  generated ← rpc "generateEcash" [msats; get "federationId" c; JBool includeInvite;
    frontendMetadata (jor (get "recipientId" c) JNull) (get "userId" matrixAuth) (JStr "")];
  sendMessage (room_of_event event) (updated_content event
    [("body", JStr ("Sent payment of " +:+ formatSats (msatToSat (to_num msats)) +:+ " SATS."));
     ("status", JStr "accepted"); ("senderId", get "userId" matrixAuth);
     ("senderOperationId", opt_prop generated "operationId");
     ("ecash", opt_prop generated "ecash")]).

Definition rejectMatrixPaymentRequest (event : obj) : thunk jval :=
  sendMessage (room_of_event event) (updated_content event
    [("body", JStr "Payment request rejected."); ("status", JStr "rejected")]).

(** The body of the [try]; every error is logged and dropped. *)
Definition check_bolt11 (s : ChatState) (event : obj) : thunk jval :=
  matrixAuth ← auth_of s;
  let c := content event in
  if negb (truthy (get "bolt11" c)) then mret JUndef
  else if negb (status_in ["requested"] event) then mret JUndef
  else if negb (bool_decide (get "sender" event = get "userId" matrixAuth)) then mret JUndef
  else
    match Federation.selectLastUsedFederation (federation s) with
    | None => mret JUndef
    | Some f =>
        answer ← rpc "getPrevPayInvoiceResult" [get "bolt11" c; id_of f];
        if truthy (opt_prop answer "completed") then
          sendMessage (room_of_event event) (updated_content event
            [("body", JStr "Payment successful."); ("status", JStr "received");
             ("senderId", get "userId" matrixAuth)])
        else mret JUndef
    end.

Definition checkBolt11PaymentResult (s : ChatState) (event : obj) : thunk jval :=
  t_catch (check_bolt11 s event) (fun _ => mret JUndef).

(** ** Other thunks *)

(** [matrixApproveMultispendInvitation] and [matrixRejectMultispendInvitation]
    answer with the call of that name. *)
Definition multispend_vote (rpc_name : string) (s : ChatState) (roomId : string) : thunk jval :=
  match selectMatrixRoomMultispendStatus (matrix s) roomId with
  | Some (activeInvitation inviteId _ _) => rpc rpc_name [JStr roomId; JStr inviteId]
  | _ => t_throw "Cannot vote if multispend status is not activeInvitation"
  end.
Definition matrixApproveMultispendInvitation : ChatState -> string -> thunk jval :=
  multispend_vote "matrixApproveMultispendGroupInvitation".
Definition matrixRejectMultispendInvitation : ChatState -> string -> thunk jval :=
  multispend_vote "matrixRejectMultispendGroupInvitation".

Definition setMatrixRoomBroadcastOnly (roomId : string) (broadcastOnly : bool) : thunk jval :=
  setRoomPowerLevels (JStr roomId)
    [("events_default", JNum (if broadcastOnly then ModeratorLevel else of_Z 0))].

Definition is_active_invitation (st : option RpcMultispendGroupStatus) : bool :=
  match st with Some (activeInvitation _ _ _) => true | _ => false end.

Definition setMatrixRoomMemberPowerLevel (s : ChatState) (roomId userId : string)
    (powerLevel : num) : thunk jval :=
  if bool_decide (powerLevel = AdminLevel) &&
     is_active_invitation (selectMatrixRoomMultispendStatus (matrix s) roomId)
  then t_throw "errors.admin-promotion-pending-multispend"
  else setRoomMemberPowerLevel (JStr roomId) userId powerLevel.

Definition toggleMatrixReaction (s : ChatState) (roomId : string) (eventId : jval)
    (reactionKey : string) : thunk jval :=
  let event := head (filter (fun e => id_of e = eventId)
                 (selectMatrixRoomRawEvents (matrix s) roomId)) in
  let reactions := match event with Some e => objs (get "reactions" e) | None => [] end in
  if (match event with Some e => truthy (get "canReact" e) | None => false end) &&
     negb (existsb (fun r => bool_decide (get "key" r = JStr reactionKey)) reactions) &&
     (MAX_CHAT_REACTION_EMOJIS <=? length reactions)%nat
  then t_throw "errors.chat-reaction-limit-exceeded"
  else toggleReaction (JStr roomId) eventId reactionKey.

Definition createMatrixRoom (s : ChatState) (name : string)
    (broadcastOnly isPublic allowKnocking : bool) : thunk jval :=
  let roomArgs := [("name", JStr name)] in
  let roomArgs := if broadcastOnly then set_prop "power_level_content_override"
      (JObj [("events_default", JNum ModeratorLevel)]) roomArgs else roomArgs in
  let roomArgs := if isPublic then set_prop "initial_state"
      (JArr [JObj [("content", JObj [("history_visibility", JStr "world_readable")]);
                   ("type", JStr "m.room.history_visibility"); ("state_key", JStr "")]])
      (set_prop "visibility" (JStr "public") roomArgs) else roomArgs in
  roomId ← createRoom roomArgs;
  _ ← (if isPublic then setRoomTopic roomId roomId else mret JUndef);
  _ ← (if negb isPublic && allowKnocking && private_room_knocking s
       then rpc "matrixRoomSetAllowKnocking" [roomId; JBool true] else mret JUndef);
  mret roomId.

Definition sendMatrixReadReceipt (roomId eventId : jval) : thunk jval :=
  _ ← sendReadReceipt roomId eventId; markRoomAsUnread roomId false.

Definition paginateMatrixRoomTimeline (s : ChatState) (roomId : string) (limit : nat)
    : thunk jval :=
  let numEvents := length (timeline_of (matrix s) roomId) in
  paginateTimeline (JStr roomId) (of_Z (Z.of_nat (numEvents + limit))).

Definition sendMatrixDirectMessage (s : ChatState) (userId : string) (body : string)
    (repliedEventId : option string) (sendDirectMessage : thunk jval) : thunk jval :=
  match repliedEventId with
  | Some reply =>
      if bool_decide (reply = "") then sendDirectMessage
      else
        existingRoom ← require (selectMatrixDirectMessageRoom (matrix s) userId)
          "Cannot reply to message in new direct message room";
        _ ← rpc "matrixSendReply" [id_of existingRoom; JStr reply; JStr body];
        mret (id_of existingRoom)
  | None => sendDirectMessage
  end.

Definition sendMatrixFormResponse (s : ChatState) (roomId : jval) (formResponse : obj)
    : thunk jval :=
  _ ← auth_of s;
  let responseValue := get "responseValue" formResponse in
  let body := match responseValue with JUndef | JNull => "" | v => to_str v end in
  sendMessage roomId [("msgtype", JStr "xyz.fedi.form"); ("body", JStr body);
    ("formResponse", JObj formResponse); ("i18nKeyLabel", get "responseI18nKey" formResponse);
    ("type", get "responseType" formResponse); ("options", JNull); ("value", JNull)].

(** Events of a multispend group are asked for [limit] at a time, after the
    counter [startAfter]. *)
Definition fetchMultispendTransactions (roomId : string) (startAfter : option num) (limit : num)
    : thunk jval :=
  t_catch (rpc "matrixMultispendListEvents"
             [JStr roomId; from_option JNum JNull startAfter; JNum limit])
    (fun _ => mret JUndef).

Definition fetchMultispendEvents (s : ChatState) (roomId : string) (refresh more : bool)
    (limit : num) : thunk jval :=
  if refresh then
    let txns := selectRoomMultispendFinancialEvents (matrix s) roomId in
    fetchMultispendTransactions roomId None
      (of_Z (Z.max 100 (Z.of_nat (length txns) + 1)))
  else if more then
    fetchMultispendTransactions roomId
      (counter <$> selectLatestMultispendTxnInRoom (matrix s) roomId) limit
  else fetchMultispendTransactions roomId None limit.
End Thunks.

(** ** Claiming the payments of a timeline *)

Section Checker.
Context (cancelEcash : jval -> thunk jval).

(** A claim or a reclaim that has been dispatched. *)
Inductive job : Type := claim (event : obj) | reclaim (event : obj).

Definition job_event (j : job) : obj := match j with claim ev | reclaim ev => ev end.
Definition payment_of (j : job) : jval := get "paymentId" (content (job_event j)).

(** The set [receivedPayments], the jobs that have not ended, and the ids of
    those that ended without an error. *)
Record Checker := mkChecker {
  receivedPayments : list jval;
  inflight : list job;
  settled : list jval
}.

Definition start_job (mk : obj -> job) (st : Checker) (event : obj) : Checker :=
  let paymentId := get "paymentId" (content event) in
  if decide (paymentId ∈ receivedPayments st) then st
  else mkChecker (receivedPayments st ++ [paymentId]) (inflight st ++ [mk event]) (settled st).

(** The timeline of the room, or all loaded timelines one after the other. *)
Definition checked_timeline (s : MatrixState) (roomId : option string)
    : option (list (option obj)) :=
  match roomId with
  | Some "" | None => Some (concat (roomTimelines s).*2)
  | Some r => lookup_prop r (roomTimelines s)
  end.

Definition checkForReceivablePayments (s : ChatState) (roomId : option string) (st : Checker)
    : Checker :=
  match auth (matrix s) with
  | Some a =>
      match get "userId" a with
      | JStr me =>
          if bool_decide (me = "") then st
          else match checked_timeline (matrix s) roomId with
          | None => st
          | Some timeline =>
              let walletFederations := Federation.selectLoadedFederations (federation s) in
              let st := foldl (start_job claim) st
                (getReceivablePaymentEvents timeline me walletFederations) in
              foldl (start_job reclaim) st
                (getReclaimablePaymentEvents timeline me walletFederations)
          end
      | _ => st
      end
  | None => st
  end.

(** Whether the job ends without an error, for what the bridge answers. *)
Definition job_ok (s : ChatState) (j : job) (b : bridge) (h : list call) : bool :=
  match j with
  | claim ev => is_ok (claimMatrixPayment s ev b h).2
  | reclaim ev => is_ok (tryReclaimMatrixPayment cancelEcash ev b h).2
  end.

(** The handlers of [then] and [catch]: an id is freed when its job fails. *)
Definition end_job (ok : bool) (j : job) (rest : list job) (st : Checker) : Checker :=
  if ok then mkChecker (receivedPayments st) rest (settled st ++ [payment_of j])
  else mkChecker (filter (fun p => p <> payment_of j) (receivedPayments st)) rest (settled st).

(** Timelines are checked again and again, and jobs end in any order. *)
Inductive check_step (st : Checker) : Checker -> Prop :=
  | step_check s roomId : check_step st (checkForReceivablePayments s roomId st)
  | step_end s l1 j l2 b h : inflight st = l1 ++ j :: l2 ->
      check_step st (end_job (job_ok s j b h) j (l1 ++ l2) st).

Definition checker_start : Checker := mkChecker [] [] [].

(** Every id of a job in flight or settled is in the set, and none twice. *)
Definition started_once (st : Checker) : Prop :=
  NoDup ((payment_of <$> inflight st) ++ settled st) /\
  (payment_of <$> inflight st) ++ settled st ⊆ receivedPayments st.

Lemma start_job_once mk st ev :
  (forall e, job_event (mk e) = e) -> started_once st -> started_once (start_job mk st ev).
Proof.
  intros E [D S]. unfold start_job. case_decide as H; [done|].
  assert (P : payment_of (mk ev) = get "paymentId" (content ev)) by (unfold payment_of; by rewrite E).
  split; cbn [inflight settled receivedPayments]; rewrite fmap_app; csimpl; rewrite P.
  - assert ((payment_of <$> inflight st) ++ [get "paymentId" (content ev)] ++ settled st ≡ₚ
      get "paymentId" (content ev) :: ((payment_of <$> inflight st) ++ settled st)) as Q
      by (symmetry; apply Permutation_middle).
    rewrite <- app_assoc, Q. constructor; [|done]. intros X. by apply H, S.
  - intros p Hp. apply elem_of_app. apply elem_of_app in Hp as [Hp|Hp].
    + apply elem_of_app in Hp as [Hp|Hp]; [left|by right]. apply S, elem_of_app. by left.
    + left. apply S, elem_of_app. by right.
Qed.

Lemma start_jobs_once mk l st :
  (forall e, job_event (mk e) = e) -> started_once st -> started_once (foldl (start_job mk) st l).
Proof.
  intros E. revert st. induction l as [|ev l IH]; intros st H; [done|].
  by apply IH, start_job_once.
Qed.

Lemma check_once s roomId st :
  started_once st -> started_once (checkForReceivablePayments s roomId st).
Proof.
  intros H. unfold checkForReceivablePayments.
  destruct (auth (matrix s)) as [a|]; [|done]. destruct (get "userId" a); try done.
  case_bool_decide; [done|]. destruct (checked_timeline _ _); [|done].
  by apply start_jobs_once, start_jobs_once.
Qed.

Lemma end_job_once ok l1 j l2 st :
  inflight st = l1 ++ j :: l2 -> started_once st -> started_once (end_job ok j (l1 ++ l2) st).
Proof.
  intros E [D S]. rewrite E, fmap_app in D, S. csimpl in *.
  assert (P : ((payment_of <$> l1) ++ payment_of j :: (payment_of <$> l2)) ++ settled st ≡ₚ
    payment_of j :: (payment_of <$> l1 ++ l2) ++ settled st)
    by (rewrite fmap_app, <- !app_assoc; symmetry; apply Permutation_middle).
  rewrite P in D. apply list.NoDup_cons in D as [N D].
  unfold end_job. destruct ok; split; cbn [inflight settled receivedPayments].
  - rewrite app_assoc, <- Permutation_cons_append. by constructor.
  - intros p Hp. apply S. rewrite P. rewrite app_assoc, <- Permutation_cons_append in Hp. done.
  - done.
  - intros p Hp. apply list_elem_of_filter. split; [by intros ->|].
    apply S. rewrite P. by right.
Qed.

(** C2: However checks of the timelines and ends of claims interleave, a
    payment is claimed or taken back by one job at a time, and never again once
    a job for it ended without an error. *)
Theorem payments_started_once st :
  rtc check_step checker_start st ->
  NoDup ((payment_of <$> inflight st) ++ settled st).
Proof.
  intros R. enough (started_once st) as [? _] by done.
  assert (H : started_once checker_start) by (split; [constructor | done]).
  induction R as [st|st st2 st3 [s roomId|s l1 j l2 b h E] R IH]; [done| |]; apply IH.
  - by apply check_once.
  - by apply end_job_once.
Qed.
End Checker.

Definition wallet : FederationState :=
  mkFederationState [] [[("id", JStr "fed1"); ("init_state", JStr "ready")]] [] [] [] None [] None
    JUndef [] [] [] [] [] [] JUndef None [].
Definition chat_me : obj := [("userId", JStr "@me")].
Definition pushed_payment : obj :=
  [("id", JStr "$1"); ("roomId", JStr "!r"); ("content", JObj [("msgtype", JStr "xyz.fedi.payment");
    ("paymentId", JStr "p1"); ("status", JStr "pushed"); ("recipientId", JStr "@me");
    ("federationId", JStr "fed1"); ("ecash", JStr "notes")])].
Definition chat_state : ChatState :=
  mkChat (matrix_initialState <| auth := Some chat_me |>
            <| roomTimelines := [("!r", [Some pushed_payment; None])] |>) wallet false.

Lemma payments_started_once_witness :
  let once := checkForReceivablePayments chat_state None checker_start in
  let twice := checkForReceivablePayments chat_state (Some "!r") once in
  NoDup ((payment_of <$> inflight twice) ++ settled twice) /\ inflight twice = [claim pushed_payment].
Proof.
  split; [|vm_compute; reflexivity].
  apply (payments_started_once (fun _ => mret JUndef)).
  eapply rtc_l; [apply step_check|]. eapply rtc_l; [apply step_check|]. apply rtc_refl.
Defined.

(** ** Messages about money *)

Section Money.
Context (formatSats : num -> string).
Context (uuidv4 : list call -> string).

(** The call sends a message of the chat with the status [st]. *)
Definition announces (st : string) (c : call) : Prop :=
  rpc_name c = "matrixSendMessage" /\
  match rpc_args c with
  | _ :: JObj data :: _ => opt_prop (get "data" data) "status" = JStr st
  | _ => False
  end.

(** Before the call at [i], the bridge was asked [name] and answered. *)
Definition done_before (b : bridge) (calls : list call) (i : nat) (name : string)
    (P : list jval -> jval -> Prop) : Prop :=
  exists j args v, (j < i)%nat /\ calls !! j = Some (mkCall name args) /\
    b (take j calls) (mkCall name args) = Ok v /\ P args v.

(** Every message of the calls has the status [st] and comes after a call of
    [name] that the bridge answered. *)
Definition only_after (b : bridge) (calls : list call) (st name : string)
    (P : call -> list jval -> jval -> Prop) : Prop :=
  forall i c, calls !! i = Some c -> rpc_name c = "matrixSendMessage" ->
    announces st c /\ done_before b calls i name (P c).

Definition sent_field (k : string) (c : call) : jval :=
  match rpc_args c with
  | _ :: JObj data :: _ => opt_prop (get "data" data) k
  | _ => JUndef
  end.

Lemma get_updated k ev fields :
  get k (updated_content ev fields) =
    match last_prop k fields with Some v => v | None => get k (content ev) end.
Proof.
  unfold updated_content, get at 1. rewrite lookup_spread. by destruct (last_prop k fields).
Qed.

Lemma get_data k c :
  k <> "msgtype" -> k <> "body" -> get k (del_props ["msgtype"; "body"] c) = get k c.
Proof. intros N1 N2. cbn [del_props foldr]. by rewrite !get_del_ne. Qed.

(** The call that sends the message [c]. *)
Definition send_call (roomId : jval) (c : obj) : call :=
  mkCall "matrixSendMessage"
    [roomId; JObj [("msgtype", get "msgtype" c); ("body", get "body" c);
      ("data", JObj (del_props ["msgtype"; "body"] c)); ("mentions", JNull)]].

Lemma sent_field_send k roomId c :
  k <> "msgtype" -> k <> "body" -> sent_field k (send_call roomId c) = get k c.
Proof. intros N1 N2. cbn. change (get k (del_props ["msgtype"; "body"] c) = get k c). by apply get_data. Qed.

Lemma announces_send st roomId c : get "status" c = JStr st -> announces st (send_call roomId c).
Proof.
  intros E. split; [done|]. cbn.
  change (get "status" (del_props ["msgtype"; "body"] c) = JStr st). by rewrite get_data.
Qed.

Lemma only_after_nil b st name P : only_after b [] st name P.
Proof. intros i c H. by rewrite lookup_nil in H. Qed.

(** Calls that send nothing. *)
Definition silent (l : list call) : Prop :=
  Forall (fun c => rpc_name c <> "matrixSendMessage") l.

Lemma only_after_silent b st name P l : silent l -> only_after b l st name P.
Proof.
  intros F i c H N. unfold silent in F. rewrite list.Forall_forall in F.
  destruct (F c); [by apply list_elem_of_lookup_2 in H | done].
Qed.

(** The calls of a thunk that asks for [name] first and, once answered, makes
    the calls [l1], sends one message and makes the calls [l2]. *)
Lemma only_after_send b st name args l1 m l2 v P :
  name <> "matrixSendMessage" -> silent l1 -> silent l2 -> announces st m ->
  b [] (mkCall name args) = Ok v -> P m args v ->
  only_after b (mkCall name args :: l1 ++ m :: l2) st name P.
Proof.
  intros N S1 S2 A B Pm i c H M.
  assert (c = m /\ (0 < i)%nat) as [-> Hi].
  { destruct i as [|i]; [injection H as <-; done|]. split; [|lia].
    cbn in H. apply list_elem_of_lookup_2, elem_of_app in H.
    unfold silent in S1, S2. rewrite list.Forall_forall in S1, S2.
    destruct H as [H|[->|H]%elem_of_cons]; [by destruct (S1 _ H) | done | by destruct (S2 _ H)]. }
  split; [done|]. exists 0%nat, args, v. by split_and!.
Qed.

(** The first call of a thunk is made and answered. *)
Lemma run_send roomId c b h :
  sendMessage roomId c b h = (h ++ [send_call roomId c], b h (send_call roomId c)).
Proof. reflexivity. Qed.

Lemma run_send_bind {A} roomId c (k : jval -> thunk A) b h :
  (x ← sendMessage roomId c; k x) b h =
    match b h (send_call roomId c) with
    | Ok v => k v b (h ++ [send_call roomId c])
    | Throw e => (h ++ [send_call roomId c], Throw e)
    end.
Proof. reflexivity. Qed.

Lemma run_fresh {A} (k : string -> thunk A) b h :
  (x ← fresh_id uuidv4; k x) b h = k (uuidv4 h) b h.
Proof. reflexivity. Qed.

(** Calls listed one by one send nothing. *)
Ltac t_silent := repeat (constructor; [discriminate|]); constructor.

Lemma claim_money s ev b :
  only_after b (run (claimMatrixPayment s ev) b).1 "received" "receiveEcash"
    (fun _ args _ => take 2 args = [get "ecash" (content ev); get "federationId" (content ev)]).
Proof.
  unfold run, claimMatrixPayment, auth_of, require, check.
  destruct (selectMatrixAuth (matrix s)) as [a|]; [|apply only_after_nil]. rewrite run_ret.
  destruct (truthy (get "ecash" (content ev))); [|apply only_after_nil]. rewrite run_ret.
  destruct (truthy (get "federationId" (content ev))); [|apply only_after_nil].
  rewrite run_ret, run_rpc.
  destruct (b [] _) as [v|e] eqn:B; [|apply only_after_silent; t_silent]. cbn [app].
  rewrite run_send_bind. set (c := updated_content _ _).
  assert (S : get "status" c = JStr "received") by (unfold c; by rewrite get_updated).
  destruct (b _ (send_call _ _)).
  - unfold markRoomAsUnread. cbn [rpc fst app].
    apply (only_after_send b _ _ _ [] (send_call (room_of_event ev) c) [_] v); try done;
      [t_silent..|by apply announces_send].
  - apply (only_after_send b _ _ _ [] (send_call (room_of_event ev) c) [] v); try done;
      [t_silent..|by apply announces_send].
Qed.

(** A thunk that asks for [name] and, once answered, ends by sending [m]. *)
Lemma only_after_ask b st name args v m P :
  name <> "matrixSendMessage" -> announces st m ->
  b [] (mkCall name args) = Ok v -> P m args v ->
  only_after b [mkCall name args; m] st name P.
Proof.
  intros N A B Pm. by apply (only_after_send b st name args [] m [] v); [| t_silent.. | | |].
Qed.

Lemma accept_money s ev b :
  only_after b (run (acceptMatrixPaymentRequest formatSats s ev) b).1 "accepted" "generateEcash"
    (fun c args v => head args = Some (get "amount" (content ev)) /\
       sent_field "ecash" c = opt_prop v "ecash").
Proof.
  unfold run, acceptMatrixPaymentRequest, auth_of, require, check.
  destruct (selectMatrixAuth (matrix s)) as [a|]; [|apply only_after_nil]. rewrite run_ret.
  destruct (status_in _ ev); [|apply only_after_nil]. rewrite run_ret.
  destruct (truthy (get "federationId" (content ev))); [|apply only_after_nil]. rewrite run_ret.
  destruct (truthy (get "amount" (content ev))); [|apply only_after_nil]. rewrite run_ret, run_rpc.
  destruct (b [] _) as [v|e] eqn:B; [|apply only_after_silent; t_silent]. cbn [app].
  rewrite run_send. cbn [fst app]. apply (only_after_ask b _ _ _ v); [done| |done|].
  - apply announces_send. by rewrite get_updated.
  - split; [done|]. by rewrite sent_field_send, get_updated by done.
Qed.

Lemma push_money s fed roomId recipient amount notes b :
  only_after b (run (sendMatrixPaymentPush formatSats uuidv4 s fed roomId recipient amount notes) b).1
    "pushed" "generateEcash"
    (fun c args v => head args = Some (JNum (satToMsat amount)) /\
       sent_field "amount" c = JNum (satToMsat amount) /\
       sent_field "ecash" c = opt_prop v "ecash").
Proof.
  unfold run, sendMatrixPaymentPush, auth_of, require.
  destruct (selectMatrixAuth (matrix s)) as [a|]; [|apply only_after_nil]. rewrite run_ret.
  destruct (Federation.selectLoadedFederation _ _) as [f|]; [|apply only_after_nil].
  rewrite run_ret, run_rpc.
  destruct (b [] _) as [v|e] eqn:B; [|apply only_after_silent; t_silent]. cbn [app].
  rewrite run_fresh, run_rpc.
  destruct (b [_] _) as [u|e]; [|apply only_after_silent; t_silent]. cbn [app].
  rewrite run_send_bind. set (c := [("msgtype", _); _; _; _; _; _; _; _; _; _]).
  destruct (b _ (send_call roomId c)); cbn [fst app];
    (apply (only_after_send b _ _ _ [_] (send_call roomId c) [] v);
      [done | t_silent | t_silent | by apply announces_send | done |
       by rewrite !sent_field_send by done]).
Qed.

Lemma cancel_money ev b :
  truthy (get "ecash" (content ev)) = true -> truthy (get "federationId" (content ev)) = true ->
  only_after b (run (cancelMatrixPayment ev) b).1 "canceled" "cancelEcash"
    (fun _ args _ => args = [get "ecash" (content ev); get "federationId" (content ev)]).
Proof.
  intros E F. unfold run, cancelMatrixPayment. rewrite E, F. cbn [andb]. rewrite run_rpc.
  destruct (b [] _) as [v|e] eqn:B; [|apply only_after_silent; t_silent]. cbn [app].
  rewrite run_send. cbn [fst app]. apply (only_after_ask b _ _ _ v); [done| |done|done].
  apply announces_send. by rewrite get_updated.
Qed.

(** Without ecash nothing is asked for: the message is all. *)
Lemma cancel_free ev b :
  truthy (get "ecash" (content ev)) && truthy (get "federationId" (content ev)) = false ->
  (run (cancelMatrixPayment ev) b).1 = [send_call (room_of_event ev)
     (updated_content ev [("body", JStr "Payment canceled."); ("status", JStr "canceled")])].
Proof. intros E. unfold run, cancelMatrixPayment. by rewrite E, run_ret. Qed.

Lemma bolt11_money s ev b :
  only_after b (run (checkBolt11PaymentResult s ev) b).1 "received" "getPrevPayInvoiceResult"
    (fun _ _ v => truthy (opt_prop v "completed") = true).
Proof.
  unfold run, checkBolt11PaymentResult, t_catch, check_bolt11, auth_of, require.
  destruct (selectMatrixAuth (matrix s)) as [a|]; [|apply only_after_nil]. rewrite run_ret.
  destruct (truthy (get "bolt11" (content ev))); [|apply only_after_nil]. cbn [negb].
  destruct (status_in _ ev); [|apply only_after_nil]. cbn [negb].
  destruct (bool_decide _); [|apply only_after_nil]. cbn [negb].
  destruct (Federation.selectLastUsedFederation _) as [f|]; [|apply only_after_nil].
  rewrite run_rpc. destruct (b [] _) as [v|e] eqn:B; [|apply only_after_silent; t_silent].
  destruct (truthy (opt_prop v "completed")) eqn:T; [|apply only_after_silent; t_silent].
  rewrite run_send. set (c := updated_content _ _).
  destruct (b _ (send_call _ _)); cbn [fst app];
    (apply (only_after_ask b _ _ _ v); [done| |done|done];
     apply announces_send; unfold c; by rewrite get_updated).
Qed.

End Money.

(** ** Errors *)

(** Taking back a rejected payment fails only when the bridge cannot find
    the transaction: what becomes of the cancelation of its ecash is never
    known to [checkForReceivablePayments], which then counts the payment as
    settled. *)
Theorem reclaim_ignores_cancelation cancelEcash ev b h :
  is_ok (tryReclaimMatrixPayment cancelEcash ev b h).2 = false ->
  exists c e, rpc_name c = "getTransaction" /\ b h c = Throw e /\
    tryReclaimMatrixPayment cancelEcash ev b h = (h ++ [c], Throw e).
Proof.
  unfold tryReclaimMatrixPayment. destruct (_ || _); [done|]. rewrite run_rpc.
  set (c := mkCall _ _). destruct (b h c) as [v|e] eqn:B.
  - by destruct (_ || _).
  - intros _. by exists c, e.
Qed.

Definition rejected_payment : obj :=
  [("id", JStr "$2"); ("content", JObj [("msgtype", JStr "xyz.fedi.payment");
    ("paymentId", JStr "p2"); ("status", JStr "rejected"); ("ecash", JStr "notes");
    ("federationId", JStr "fed1"); ("senderOperationId", JStr "op")])].

Definition offline : bridge := fun _ _ => Throw "offline".

Lemma reclaim_ignores_cancelation_witness :
  exists c e, rpc_name c = "getTransaction" /\
    offline [] c = Throw e /\
    tryReclaimMatrixPayment (fun _ => mret JUndef) rejected_payment offline [] =
      ([c], Throw e).
Proof.
  apply (reclaim_ignores_cancelation (fun _ => mret JUndef) rejected_payment offline []).
  vm_compute. reflexivity.
Defined.

(** ** Pages of multispend events *)

Section Pages.
Context (orderByCounterDesc : list MultispendListedEvent -> list MultispendListedEvent).
Context (orderBy_perm : forall l, Permutation (orderByCounterDesc l) l).

(** [e] has the lowest counter. *)
Definition lowest (e : MultispendListedEvent) (l : list MultispendListedEvent) : Prop :=
  e ∈ l /\ forall d, d ∈ l -> leb (counter e) (counter d) = true.

Lemma leb_counted_refl e : counted e -> leb (counter e) (counter e) = true.
Proof. intros (n & S & ->). rewrite leb_int by done. apply Z.leb_refl. Qed.

Lemma lowest_fold first l :
  Forall counted (first :: l) ->
  let e := foldl (fun latest current =>
    if ltb (counter latest) (counter current) then latest else current) first l in
  lowest e (first :: l).
Proof.
  revert first. induction l as [|d l IH]; intros first F; cbn [foldl].
  - split; [left|]. intros x ->%list_elem_of_singleton.
    apply list.Forall_cons in F as [C _]. by apply leb_counted_refl.
  - apply list.Forall_cons in F as [Cf F]. pose proof F as [Cd Fl]%list.Forall_cons.
    set (m := if ltb (counter first) (counter d) then first else d).
    assert (Cm : counted m) by (unfold m; by case_if).
    destruct (IH m) as [E M]; [by constructor|]. split.
    + apply elem_of_cons in E as [->|E]; [|by right; right].
      unfold m. case_if; [left | right; left].
    + set (e := foldl _ m l) in *.
      assert (Em : leb (counter e) (counter m) = true) by (apply M; left).
      assert (Ce : counted e).
      { apply elem_of_cons in E as [->|E]; [done|]. rewrite list.Forall_forall in Fl. by apply Fl. }
      assert (T : forall x, counted x -> leb (counter m) (counter x) = true ->
        leb (counter e) (counter x) = true).
      { intros x (k & Sk & Ek). revert Em. destruct Ce as (n & Sn & ->), Cm as (p & Sp & ->).
        rewrite Ek, !leb_int by done. rewrite !Z.leb_le. lia. }
      assert (L : leb (counter m) (counter first) = true /\ leb (counter m) (counter d) = true).
      { unfold m. destruct (ltb (counter first) (counter d)) eqn:L; revert L;
          destruct Cf as (n & Sn & ->), Cd as (p & Sp & ->); rewrite ltb_int by done; intros L;
          bools; rewrite !leb_int by done; rewrite !Z.leb_le; lia. }
      intros x [->|[->|Hx]%elem_of_cons]%elem_of_cons; [by apply T, L..|].
      apply M. by right.
Qed.

Lemma latest_txn_lowest l e : Forall counted l -> latest_txn l = Some e -> lowest e l.
Proof.
  unfold latest_txn. destruct l as [|first l]; [done|]. intros F E. apply (inj Some) in E.
  destruct (lowest_fold first (first :: l)) as [H M].
  { apply list.Forall_cons in F as [C F]. by repeat constructor. }
  rewrite E in H, M. split; [|intros d Hd; apply M; by right].
  by apply elem_of_cons in H as [->|H]; [left|].
Qed.

(** An event that is watched before the events of its room are listed is
    entered with the counter 0; as long as no page brings the event itself,
    asking for more events starts after the counter 0, however many are
    listed. *)
Theorem watched_event_stops_paging s r id u page limit :
  lookup_prop r (roomMultispendEvents (matrix s)) = None ->
  isMultispendFinancialEvent (mkListed (of_Z 0) (of_Z 0) u id) = true ->
  Forall (fun e => exists n, safe n /\ 0 < n /\ counter e = of_Z n)%Z page ->
  id ∉ eventId <$> page ->
  let watched := updateMatrixRoomMultispendEvent r id u (matrix s) in
  let listed := updateMatrixRoomMultispendTxns orderByCounterDesc r page watched in
  let s' := mkChat listed (federation s) (private_room_knocking s) in
  forall b, (run (fetchMultispendEvents s' r false true limit) b).1 =
    [mkCall "matrixMultispendListEvents" [JStr r; JNum (of_Z 0); JNum limit]].
Proof.
  intros N U F I watched listed s' b. set (w := mkListed (of_Z 0) (of_Z 0) u id) in *.
  assert (Ew : selectMatrixRoomMultispendEvents listed r =
    updateMultispendEvents orderByCounterDesc page [w]).
  { unfold selectMatrixRoomMultispendEvents, listed, updateMatrixRoomMultispendTxns. cbn.
    rewrite lookup_set_eq. cbn [default]. by rewrite N, lookup_set_eq. }
  assert (M : forall e, e ∈ selectRoomMultispendFinancialEvents listed r -> e = w \/ e ∈ page).
  { intros e [_ He]%list_elem_of_filter. rewrite Ew in He.
    apply elem_of_updateMultispendEvents in He; [|done]. apply kept_elem in He.
    apply elem_of_app in He as [?|?%list_elem_of_singleton]; auto. }
  assert (W : w ∈ selectRoomMultispendFinancialEvents listed r).
  { apply list_elem_of_filter. split; [by rewrite U|]. rewrite Ew.
    apply elem_of_updateMultispendEvents; [done|]. unfold kept.
    destruct (last _) as [d|] eqn:L; [|by rewrite find_key_cons, decide_True].
    exfalso. apply I. apply last_Some_elem_of, list_elem_of_filter in L as [E L].
    rewrite Is_true_true in E. apply bool_decide_eq_true in E. cbn in E. rewrite <- E.
    by apply list_elem_of_fmap_2. }
  rewrite list.Forall_forall in F.
  assert (Cw : counted w) by (exists 0%Z; by split; [unfold safe; lia|]).
  assert (C : Forall counted (selectRoomMultispendFinancialEvents listed r)).
  { apply list.Forall_forall. intros e [->|He]%M; [done|].
    destruct (F e He) as (n & S & _ & E). by exists n. }
  assert (L : counter <$> selectLatestMultispendTxnInRoom listed r = Some (of_Z 0)).
  { unfold selectLatestMultispendTxnInRoom.
    destruct (latest_txn _) as [e|] eqn:E.
    - apply latest_txn_lowest in E as [He Lo]; [|done]. apply M in He as [->|He]; [done|].
      exfalso. destruct (F e He) as (n & S & P & En). specialize (Lo w W).
      rewrite En in Lo. cbn [counter w] in Lo. rewrite leb_int in Lo by (done || (unfold safe; lia)).
      bools. lia.
    - destruct (selectRoomMultispendFinancialEvents listed r); [by apply elem_of_nil in W|done]. }
  unfold run, fetchMultispendEvents, fetchMultispendTransactions, t_catch, rpc. cbn [matrix s'].
  rewrite L. cbn [from_option app]. by destruct (b [] _).
Qed.
End Pages.

Lemma watched_event_stops_paging_witness :
  let watched := updateMatrixRoomMultispendEvent "!r" "$w" (depositNotification (mkDeposit "@a" (of_Z 5) "tx" ""))
                   (matrix chat_state) in
  let listed := updateMatrixRoomMultispendTxns (sort_stable newer) "!r"
                  [listed 120 "$b"; listed 20 "$a"] watched in
  (run (fetchMultispendEvents (mkChat listed wallet false) "!r" false true (of_Z 100)) offline).1 =
    [mkCall "matrixMultispendListEvents" [JStr "!r"; JNum (of_Z 0); JNum (of_Z 100)]].
Proof.
  apply (watched_event_stops_paging (sort_stable newer) (sort_stable_perm newer) chat_state "!r" "$w"
    (depositNotification (mkDeposit "@a" (of_Z 5) "tx" "")) [Matrix.listed 120 "$b"; Matrix.listed 20 "$a"] (of_Z 100)).
  - reflexivity.
  - reflexivity.
  - constructor; [exists 120%Z|constructor; [exists 20%Z|constructor]]; (split; [unfold safe; lia|]);
      (split; [lia | reflexivity]).
  - apply (bool_decide_unpack _). vm_compute. exact I.
Defined.
