(* ===== verification/MatrixClient.v ===== *)
(** Subscriptions of the chat client: [ui/common/utils/MatrixChatClient.ts].

    The client subscribes to streams of the bridge and keeps, by room or by
    event, the function that ends each subscription.  A room's timeline is
    shared by several features: each is a reason to keep the stream, and the
    stream ends with the last.  A joined room that seems active but has no
    preview is warmed up for a while.

    A subscription is a number; ending it removes it from the live ones.  The
    bridge delivers its callbacks, and the timers fire, at any time, so the
    state is that after any sequence of operations.  Rpcs that only fetch and
    emit are not part of the state. *)
From Stdlib Require Import ZArith Lia.
From stdpp Require Import base tactics strings list option sets.
From S2P Require Import Prelude JsNum Js Stream Upsert MatrixEvents Matrix MatrixSelect.
Local Open Scope string_scope.
Local Open Scope list_scope.

Inductive RoomTimelineObservationReason : Type := dm | room | previewWarmup.

#[export] Instance reason_eq_dec : EqDecision RoomTimelineObservationReason.
Proof. solve_decision. Defined.

Definition ROOM_PREVIEW_WARMUP_MAX_PAGINATION_ATTEMPTS : nat := 2.

(** [RoomPreviewWarmupState]; the timers themselves fire at any time. *)
Record RoomPreviewWarmupState := mkWarmup { paginationAttempts : nat }.

(** What can be subscribed to. *)
Inductive stream : Type :=
  | s_syncIndicator
  | s_roomList
  | s_roomInfo (roomId : string)
  | s_timeline (roomId : string)
  | s_pinned (roomId : string)
  | s_pagination (roomId : string)
  | s_multispendGroup (roomId : string)
  | s_multispendEvent (roomId eventId : string)
  | s_multispendAccount (roomId : string)
  | s_spTransfer (roomId eventId : string).

#[export] Instance stream_eq_dec : EqDecision stream.
Proof. solve_decision. Defined.

(** [refetches] counts the calls of [refetchRoomList] that have ended the old
    subscription and wait to go on. *)
Record MatrixChatClient := mkClient {
  next : nat;
  live : list (nat * stream);
  roomListUnsubscribe : option nat;
  refetches : nat;
  syncStatusUnsubscribe : option nat;
  roomInfoUnsubscribeMap : record nat;
  roomTimelineUnsubscribeMap : record nat;
  roomPinnedTimelineUnsubscribeMap : record nat;
  roomTimelineObservationReasonsMap : record (list RoomTimelineObservationReason);
  roomPaginationStatusUnsubscribeMap : record nat;
  roomPreviewWarmupStateMap : record RoomPreviewWarmupState;
  multispendUnsubscribeMap : record nat;
  multispendEventUnsubscribeMap : record (record (option nat));
  multispendAccountUnsubscribeMap : record nat;
  spTransferStateUnsubscribeMap : record (record (option nat))
}.

#[export] Instance MatrixChatClient_eta : Eta MatrixChatClient := fun c =>
  mkClient (next c) (live c) (roomListUnsubscribe c) (refetches c) (syncStatusUnsubscribe c)
    (roomInfoUnsubscribeMap c) (roomTimelineUnsubscribeMap c)
    (roomPinnedTimelineUnsubscribeMap c) (roomTimelineObservationReasonsMap c)
    (roomPaginationStatusUnsubscribeMap c) (roomPreviewWarmupStateMap c)
    (multispendUnsubscribeMap c) (multispendEventUnsubscribeMap c)
    (multispendAccountUnsubscribeMap c) (spTransferStateUnsubscribeMap c).

Definition new_client : MatrixChatClient :=
  mkClient 0 [] None 0 None [] [] [] [] [] [] [] [] [] [].

(** Subscribing, and calling the function that ends the subscription [id]. *)
Definition subscribe (st : stream) (c : MatrixChatClient) : MatrixChatClient :=
  c <| next := S (next c) |> <| live := live c ++ [(next c, st)] |>.
Definition unsubscribe (id : nat) (c : MatrixChatClient) : MatrixChatClient :=
  c <| live := filter (fun x => x.1 <> id) (live c) |>.

(** ** Operations *)

Definition observeSyncStatus (c : MatrixChatClient) : MatrixChatClient :=
  match syncStatusUnsubscribe c with
  | Some _ => c
  | None => subscribe s_syncIndicator c <| syncStatusUnsubscribe := Some (next c) |>
  end.

Definition unsubscribeSyncStatus (c : MatrixChatClient) : MatrixChatClient :=
  match syncStatusUnsubscribe c with Some id => unsubscribe id c | None => c end.

Definition observeRoomList (c : MatrixChatClient) : MatrixChatClient :=
  match roomListUnsubscribe c with
  | Some _ => c
  | None => subscribe s_roomList c <| roomListUnsubscribe := Some (next c) |>
  end.

(** [refetchRoomList] up to its [await], and the rest of it; other operations may run
    in between. *)
Definition refetchRoomList (c : MatrixChatClient) : MatrixChatClient :=
  match roomListUnsubscribe c with
  | Some id => unsubscribe id c <| refetches := S (refetches c) |>
  | None => observeRoomList c
  end.

Definition refetchRoomList_resumed (c : MatrixChatClient) : MatrixChatClient :=
  match refetches c with
  | S n => observeRoomList (c <| refetches := n |> <| roomListUnsubscribe := None |>)
  | O => c
  end.

Definition observeRoomInfo (r : string) (c : MatrixChatClient) : MatrixChatClient :=
  match lookup_prop r (roomInfoUnsubscribeMap c) with
  | Some _ => c
  | None => subscribe (s_roomInfo r) c
      <| roomInfoUnsubscribeMap := set_prop r (next c) (roomInfoUnsubscribeMap c) |>
  end.

Definition observeMultispendGroup (r : string) (c : MatrixChatClient) : MatrixChatClient :=
  match lookup_prop r (multispendUnsubscribeMap c) with
  | Some _ => c
  | None => subscribe (s_multispendGroup r) c
      <| multispendUnsubscribeMap := set_prop r (next c) (multispendUnsubscribeMap c) |>
  end.

(** The handle kept for an event: [map[roomId]?.[eventId]]. *)
Definition event_handle (r e : string) (m : record (record (option nat))) : option nat :=
  match lookup_prop r m with
  | Some events => match lookup_prop e events with Some h => h | None => None end
  | None => None
  end.

(** The object is built over [multispendUnsubscribeMap[roomId]], a function
    with no properties of its own. *)
Definition observeMultispendEvent (r e : string) (c : MatrixChatClient) : MatrixChatClient :=
  match event_handle r e (multispendEventUnsubscribeMap c) with
  | Some _ => c
  | None => subscribe (s_multispendEvent r e) c
      <| multispendEventUnsubscribeMap :=
           set_prop r (set_prop e (Some (next c)) []) (multispendEventUnsubscribeMap c) |>
  end.

Definition unobserveMultispendEvent (r e : string) (c : MatrixChatClient) : MatrixChatClient :=
  match event_handle r e (multispendEventUnsubscribeMap c) with
  | Some id => unsubscribe id c
      <| multispendEventUnsubscribeMap :=
           set_prop r (set_prop e None
             (default [] (lookup_prop r (multispendEventUnsubscribeMap c))))
             (multispendEventUnsubscribeMap c) |>
  | None => c
  end.

Definition observeSpTransferState (r e : string) (c : MatrixChatClient) : MatrixChatClient :=
  match event_handle r e (spTransferStateUnsubscribeMap c) with
  | Some _ => c
  | None => subscribe (s_spTransfer r e) c
      <| spTransferStateUnsubscribeMap :=
           set_prop r (set_prop e (Some (next c))
             (default [] (lookup_prop r (spTransferStateUnsubscribeMap c))))
             (spTransferStateUnsubscribeMap c) |>
  end.

Definition unobserveSpTransferState (r e : string) (c : MatrixChatClient) : MatrixChatClient :=
  match event_handle r e (spTransferStateUnsubscribeMap c) with
  | Some id => unsubscribe id c
      <| spTransferStateUnsubscribeMap :=
           set_prop r (set_prop e None
             (default [] (lookup_prop r (spTransferStateUnsubscribeMap c))))
             (spTransferStateUnsubscribeMap c) |>
  | None => c
  end.

Definition observeMultispendAccountInfo (r : string) (c : MatrixChatClient) : MatrixChatClient :=
  match lookup_prop r (multispendAccountUnsubscribeMap c) with
  | Some _ => c
  | None => subscribe (s_multispendAccount r) c
      <| multispendAccountUnsubscribeMap :=
           set_prop r (next c) (multispendAccountUnsubscribeMap c) |>
  end.

Definition unobserveMultispendAccount (r : string) (c : MatrixChatClient) : MatrixChatClient :=
  match lookup_prop r (multispendAccountUnsubscribeMap c) with
  | Some id => unsubscribe id c
      <| multispendAccountUnsubscribeMap := remove_key r (multispendAccountUnsubscribeMap c) |>
  | None => c
  end.

Definition observeRoomPaginationStatus (r : string) (c : MatrixChatClient) : MatrixChatClient :=
  match lookup_prop r (roomPaginationStatusUnsubscribeMap c) with
  | Some _ => c
  | None => subscribe (s_pagination r) c
      <| roomPaginationStatusUnsubscribeMap :=
           set_prop r (next c) (roomPaginationStatusUnsubscribeMap c) |>
  end.

Definition observeRoomPinnedTimeline (r : string) (c : MatrixChatClient) : MatrixChatClient :=
  match lookup_prop r (roomPinnedTimelineUnsubscribeMap c) with
  | Some _ => c
  | None => subscribe (s_pinned r) c
      <| roomPinnedTimelineUnsubscribeMap :=
           set_prop r (next c) (roomPinnedTimelineUnsubscribeMap c) |>
  end.

Definition unobserveRoomPinnedTimeline (r : string) (c : MatrixChatClient) : MatrixChatClient :=
  match lookup_prop r (roomPinnedTimelineUnsubscribeMap c) with
  | Some id => unsubscribe id c
      <| roomPinnedTimelineUnsubscribeMap := remove_key r (roomPinnedTimelineUnsubscribeMap c) |>
  | None => c
  end.

Definition reasons_of (r : string) (c : MatrixChatClient) : list RoomTimelineObservationReason :=
  default [] (lookup_prop r (roomTimelineObservationReasonsMap c)).

(** [reasons.add(reason)] *)
Definition add_reason (w : RoomTimelineObservationReason) (l : list RoomTimelineObservationReason)
    : list RoomTimelineObservationReason := if decide (w ∈ l) then l else l ++ [w].

Definition observeRoomTimeline (r : string) (reason : RoomTimelineObservationReason)
    (c : MatrixChatClient) : MatrixChatClient :=
  let c := c <| roomTimelineObservationReasonsMap :=
    set_prop r (add_reason reason (reasons_of r c)) (roomTimelineObservationReasonsMap c) |> in
  match lookup_prop r (roomTimelineUnsubscribeMap c) with
  | Some _ => c
  | None => subscribe (s_timeline r) c
      <| roomTimelineUnsubscribeMap := set_prop r (next c) (roomTimelineUnsubscribeMap c) |>
  end.

Definition unobserveRoomTimeline (r : string) (reason : RoomTimelineObservationReason)
    (c : MatrixChatClient) : MatrixChatClient :=
  match lookup_prop r (roomTimelineObservationReasonsMap c) with
  | None => c
  | Some reasons =>
      let reasons := filter (fun w => w <> reason) reasons in
      if bool_decide (reasons <> []) then
        c <| roomTimelineObservationReasonsMap :=
             set_prop r reasons (roomTimelineObservationReasonsMap c) |>
      else
        let c := c <| roomTimelineObservationReasonsMap :=
          remove_key r (roomTimelineObservationReasonsMap c) |> in
        match lookup_prop r (roomTimelineUnsubscribeMap c) with
        | Some id => unsubscribe id c
            <| roomTimelineUnsubscribeMap := remove_key r (roomTimelineUnsubscribeMap c) |>
        | None => c
        end
  end.

Definition observeRoom (r : string) (c : MatrixChatClient) : MatrixChatClient :=
  observeMultispendGroup r (observeRoomTimeline r room
    (observeRoomPinnedTimeline r (observeRoomPaginationStatus r c))).

Definition unobserveRoom (r : string) (c : MatrixChatClient) : MatrixChatClient :=
  let c := unobserveRoomPinnedTimeline r (unobserveRoomTimeline r room c) in
  let c := match lookup_prop r (roomPaginationStatusUnsubscribeMap c) with
    | Some id => unsubscribe id c <| roomPaginationStatusUnsubscribeMap :=
        remove_key r (roomPaginationStatusUnsubscribeMap c) |>
    | None => c
    end in
  match lookup_prop r (multispendUnsubscribeMap c) with
  | Some id => unsubscribe id c
      <| multispendUnsubscribeMap := remove_key r (multispendUnsubscribeMap c) |>
  | None => c
  end.

(** ** Warming up a preview *)

Definition shouldWarmRoomPreview (info : obj) : bool :=
  let hasLikelyActivity :=
    ltb (of_Z 0) (to_num (get "notificationCount" info)) || truthy (get "isMarkedUnread" info) ||
    negb (bool_decide (get "recencyStamp" info = JNull)) &&
    ltb (of_Z 1) (to_num (get "joinedMemberCount" info)) in
  is_room_state "joined" info && negb (truthy (get "preview" info)) && hasLikelyActivity.

Definition startRoomPreviewWarmup (r : string) (c : MatrixChatClient) : MatrixChatClient :=
  match lookup_prop r (roomPreviewWarmupStateMap c) with
  | Some _ => c
  | None => observeRoomTimeline r previewWarmup (c <| roomPreviewWarmupStateMap :=
      set_prop r (mkWarmup 0) (roomPreviewWarmupStateMap c) |>)
  end.

Definition stopRoomPreviewWarmup (r : string) (c : MatrixChatClient) : MatrixChatClient :=
  match lookup_prop r (roomPreviewWarmupStateMap c) with
  | None => c
  | Some _ => unobserveRoomTimeline r previewWarmup (c <| roomPreviewWarmupStateMap :=
      remove_key r (roomPreviewWarmupStateMap c) |>)
  end.

(** The flag tells whether a page is asked for. *)
Definition runRoomPreviewWarmupPagination (r : string) (c : MatrixChatClient)
    : bool * MatrixChatClient :=
  match lookup_prop r (roomPreviewWarmupStateMap c) with
  | None => (false, c)
  | Some st =>
      if (ROOM_PREVIEW_WARMUP_MAX_PAGINATION_ATTEMPTS <=? paginationAttempts st)%nat then (false, c)
      else (true, c <| roomPreviewWarmupStateMap :=
        set_prop r (mkWarmup (S (paginationAttempts st))) (roomPreviewWarmupStateMap c) |>)
  end.

Definition info_id (info : obj) : string := to_str (id_of info).

Definition reconcileRoomPreviewWarmup (info : obj) (c : MatrixChatClient) : MatrixChatClient :=
  if negb (shouldWarmRoomPreview info) then stopRoomPreviewWarmup (info_id info) c
  else startRoomPreviewWarmup (info_id info) c.

(** The callback of [observeRoomInfo] for the room [r]. *)
Definition on_room_info (r : string) (info : obj) (c : MatrixChatClient) : MatrixChatClient :=
  let c := reconcileRoomPreviewWarmup info c in
  if is_room_state "invited" info then c
  else if truthy (get "isDirect" info) then observeRoomTimeline r dm c else c.

(** The callback of [observeRoomList]. *)
Definition on_room_list (data : list (VectorDiff string)) (c : MatrixChatClient)
    : MatrixChatClient :=
  foldl (fun c r => observeRoomInfo r c) c (getNewStreamIds Some data).

(** [sendDirectMessage], once the room is known. *)
Definition after_direct_message (r : string) (c : MatrixChatClient) : MatrixChatClient :=
  observeRoomTimeline r room (observeRoomInfo r c).

Inductive client_op : Type :=
  | op_started
  | op_observeSyncStatus
  | op_unsubscribeSyncStatus
  | op_refetchRoomList
  | op_refetchResumed
  | op_room_list (data : list (VectorDiff string))
  | op_room_info (r : string) (info : obj)
  | op_observeRoom (r : string)
  | op_unobserveRoom (r : string)
  | op_unobservePinned (r : string)
  | op_directMessage (r : string)
  | op_observeMultispendEvent (r e : string)
  | op_unobserveMultispendEvent (r e : string)
  | op_observeMultispendAccount (r : string)
  | op_unobserveMultispendAccount (r : string)
  | op_observeSpTransferState (r e : string)
  | op_unobserveSpTransferState (r e : string)
  | op_stopWarmup (r : string)
  | op_warmupPagination (r : string).

Definition client_step (c : MatrixChatClient) (o : client_op) : MatrixChatClient :=
  match o with
  | op_started => observeRoomList (observeSyncStatus c)
  | op_observeSyncStatus => observeSyncStatus c
  | op_unsubscribeSyncStatus => unsubscribeSyncStatus c
  | op_refetchRoomList => refetchRoomList c
  | op_refetchResumed => refetchRoomList_resumed c
  | op_room_list data => on_room_list data c
  | op_room_info r info => on_room_info r info c
  | op_observeRoom r => observeRoom r c
  | op_unobserveRoom r => unobserveRoom r c
  | op_unobservePinned r => unobserveRoomPinnedTimeline r c
  | op_directMessage r => after_direct_message r c
  | op_observeMultispendEvent r e => observeMultispendEvent r e c
  | op_unobserveMultispendEvent r e => unobserveMultispendEvent r e c
  | op_observeMultispendAccount r => observeMultispendAccountInfo r c
  | op_unobserveMultispendAccount r => unobserveMultispendAccount r c
  | op_observeSpTransferState r e => observeSpTransferState r e c
  | op_unobserveSpTransferState r e => unobserveSpTransferState r e c
  | op_stopWarmup r => stopRoomPreviewWarmup r c
  | op_warmupPagination r => (runRoomPreviewWarmupPagination r c).2
  end.

Definition client_run (l : list client_op) : MatrixChatClient := foldl client_step new_client l.

(** ** The live subscriptions *)

(** The live subscriptions to a stream. *)
Definition subs (c : MatrixChatClient) (st : stream) : list nat :=
  (filter (fun x => x.2 = st) (live c)).*1.

(** The subscription that the client can end. *)
Definition handle (c : MatrixChatClient) (st : stream) : option nat :=
  match st with
  | s_syncIndicator => syncStatusUnsubscribe c
  | s_roomList => roomListUnsubscribe c
  | s_roomInfo r => lookup_prop r (roomInfoUnsubscribeMap c)
  | s_timeline r => lookup_prop r (roomTimelineUnsubscribeMap c)
  | s_pinned r => lookup_prop r (roomPinnedTimelineUnsubscribeMap c)
  | s_pagination r => lookup_prop r (roomPaginationStatusUnsubscribeMap c)
  | s_multispendGroup r => lookup_prop r (multispendUnsubscribeMap c)
  | s_multispendEvent r e => event_handle r e (multispendEventUnsubscribeMap c)
  | s_multispendAccount r => lookup_prop r (multispendAccountUnsubscribeMap c)
  | s_spTransfer r e => event_handle r e (spTransferStateUnsubscribeMap c)
  end.

(** The handle is that of a subscription that was ended: the room list's, while it is
    fetched anew. *)
Definition ended (c : MatrixChatClient) (st : stream) : bool :=
  match st with s_roomList => (0 <? refetches c)%nat | _ => false end.

Lemma elem_of_subs c st id : id ∈ subs c st <-> (id, st) ∈ live c.
Proof.
  unfold subs. rewrite list_elem_of_fmap. split.
  - intros ([id' st'] & -> & [E H]%list_elem_of_filter). cbn in E. by subst.
  - intros H. exists (id, st). split; [done|]. by apply list_elem_of_filter.
Qed.

#[local] Arguments set_prop : simpl never.
#[local] Arguments remove_key : simpl never.

(** Every stream but those of multispend events; [sync] and [rooms] tell whether that
    of the sync status and that of the room list are counted in. *)
Section Tracked.
Context (sync rooms : bool).

Definition tracked (st : stream) : bool :=
  match st with
  | s_multispendEvent _ _ => false
  | s_syncIndicator => sync
  | s_roomList => rooms
  | _ => true
  end.

Record core (c : MatrixChatClient) : Prop := {
  core_fresh : Forall (fun x => x.1 < next c) (live c);
  core_ids : NoDup (live c).*1;
  core_handles : forall st, tracked st = true ->
    subs c st = if ended c st then [] else option_list (handle c st);
  core_others : forall st id, tracked st = false -> handle c st = Some id ->
    id < next c /\ forall st', (id, st') ∈ live c -> st' = st;
  core_refetch : rooms = true ->
    (refetches c <= 1)%nat /\ (refetches c = 1%nat -> is_Some (roomListUnsubscribe c))
}.

(** What is not held is not a handle that was ended. *)
Lemma not_ended c st : core c -> tracked st = true -> handle c st = None -> ended c st = false.
Proof.
  intros [_ _ _ _ R] T N. destruct st; try done. cbn in *. destruct (R T) as [L K].
  destruct (refetches c) as [|[|n]]; [done| |lia].
  destruct (K eq_refl) as [? E]. congruence.
Qed.

Lemma core_unique c id st st' : core c -> (id, st) ∈ live c -> (id, st') ∈ live c -> st = st'.
Proof.
  intros [_ D _ _ _] H H'. apply list_elem_of_lookup in H as [i Hi], H' as [j Hj].
  assert (i = j) as ->; [|congruence].
  eapply (NoDup_lookup _ _ _ id D); by rewrite list_lookup_fmap, ?Hi, ?Hj.
Qed.

Lemma filter_agree {A} (P Q : A -> Prop) `{forall x, Decision (P x), forall x, Decision (Q x)}
    (l : list A) :
  (forall x, x ∈ l -> P x <-> Q x) -> filter P l = filter Q l.
Proof.
  induction l as [|x l IH]; intros E; [done|]. rewrite !filter_cons, IH by (intros; apply E; by right).
  pose proof (E x ltac:(left)). repeat case_decide; tauto.
Qed.

(** An operation that subscribes to [st], which it did not hold, and keeps the
    handle. *)
Lemma core_subscribe c c' st :
  core c -> handle c st = None -> refetches c' = refetches c ->
  next c' = S (next c) -> live c' = live c ++ [(next c, st)] ->
  handle c' st = Some (next c) ->
  (forall st', tracked st' = true -> st' <> st -> handle c' st' = handle c st') ->
  (forall st' id, tracked st' = false -> st' <> st -> handle c' st' = Some id ->
     handle c st' = Some id) ->
  core c'.
Proof.
  intros C N Er En El Eh O O'. pose proof (fun T => not_ended c st C T N) as NE.
  assert (EE : forall st, ended c' st = ended c st) by (intros []; cbn; by rewrite ?Er).
  destruct C as [F D H E R]. constructor; rewrite ?En, ?El, ?Er.
  - apply list.Forall_app. split; [|constructor; [cbn; lia|constructor]].
    eapply list.Forall_impl; [exact F|]. intros x Hx. cbv beta in *. lia.
  - rewrite fmap_app. apply NoDup_app. split; [done|]. split; [|apply NoDup_singleton].
    intros x Hx Ex%list_elem_of_singleton. cbn in Ex. subst x.
    apply list_elem_of_fmap in Hx as (y & Ey & Hy). rewrite list.Forall_forall in F.
    specialize (F y Hy). cbv beta in F. lia.
  - intros st' T. unfold subs. rewrite El, filter_app, fmap_app. change
      ((filter (fun x : nat * stream => x.2 = st') (live c)).*1) with (subs c st').
    rewrite (H st' T), EE. destruct (decide (st' = st)) as [->|Ns].
    + rewrite N, Eh, (NE T), (filter_cons_True _ _) by done. by rewrite filter_nil.
    + rewrite (O st' T Ns), (filter_cons_False _ _) by (cbn; congruence).
      rewrite filter_nil. by rewrite app_nil_r.
  - intros st' id T Hid. destruct (decide (st' = st)) as [->|Ns].
    + rewrite Eh in Hid. injection Hid as <-. split; [lia|]. intros st' [Hl|Hl]%elem_of_app.
      * rewrite list.Forall_forall in F. specialize (F _ Hl). cbn in F. lia.
      * apply list_elem_of_singleton in Hl. by injection Hl.
    + apply O' in Hid; [|done..]. destruct (E st' id T Hid) as [L U]. split; [lia|].
      intros st2 [Hl|Hl]%elem_of_app; [by apply U|].
      apply list_elem_of_singleton in Hl. injection Hl as -> _. lia.
  - intros T. destruct (R T) as [L S]. split; [done|]. intros E1. apply S in E1.
    change (is_Some (handle c' s_roomList)). destruct (decide (s_roomList = st)) as [<-|Ns].
    + rewrite Eh. by eexists.
    + by rewrite O.
Qed.

(** An operation that ends the subscription it holds to [st]. *)
Lemma core_unsubscribe c c' st id :
  core c -> handle c st = Some id -> (tracked st = true -> ended c st = false) ->
  next c' = next c -> live c' = filter (fun x => x.1 <> id) (live c) ->
  (tracked st = true -> ended c' st = true \/ handle c' st = None) ->
  (forall i, tracked st = false -> handle c' st = Some i -> handle c st = Some i) ->
  (forall st', st' <> st -> handle c' st' = handle c st' /\ ended c' st' = ended c st') ->
  (rooms = true -> (refetches c' <= 1)%nat /\ (refetches c' = 1%nat -> is_Some (roomListUnsubscribe c'))) ->
  core c'.
Proof.
  intros C Hs NE En El Eh Ek O R. pose proof C as [F D H E _].
  assert (U : forall st', (id, st') ∈ live c -> st' = st).
  { intros st' Hl. destruct (tracked st) eqn:T.
    - apply (core_unique c id st' st C Hl). apply elem_of_subs. rewrite (H st T), (NE eq_refl), Hs. left.
    - by apply (E st id T Hs). }
  constructor; rewrite ?En, ?El; [| | | |exact R].
  - rewrite list.Forall_forall in F |- *. intros x [_ Hx]%list_elem_of_filter. by apply F.
  - eapply sublist_NoDup; [exact D | apply sublist_map, sublist_filter].
  - intros st' T. destruct (decide (st' = st)) as [->|Ns].
    + assert (S0 : subs c' st = []).
      { destruct (subs c' st) as [|i l] eqn:S; [done|]. exfalso.
        assert (Hi : (i, st) ∈ live c') by (apply elem_of_subs; rewrite S; left).
        rewrite El in Hi. apply list_elem_of_filter in Hi as [Ni Hi]. cbn in Ni.
        apply elem_of_subs in Hi. rewrite (H st T), (NE T), Hs in Hi.
        by apply list_elem_of_singleton in Hi. }
      rewrite S0. destruct (Eh T) as [->| ->]; [done|]. by case_match.
    + destruct (O st' Ns) as [-> ->]. rewrite <- (H st' T). unfold subs. rewrite El. f_equal.
      rewrite list_filter_filter. apply filter_agree. intros x Hx. split; [tauto|].
      intros Ex. split; [done|]. intros Ei. apply Ns. rewrite <- Ex. apply U. rewrite <- Ei. by destruct x.
  - intros st' id' T Hid.
    assert (Hid' : handle c st' = Some id').
    { destruct (decide (st' = st)) as [->|Ns]; [by apply Ek|]. by destruct (O st' Ns) as [<- _]. }
    destruct (E st' id' T Hid') as [L V]. split; [done|].
    intros st2 [_ Hl]%list_elem_of_filter. by apply V.
Qed.

(** ** Each operation *)

Lemma event_handle_set r e h m r' e' :
  event_handle r' e' (set_prop r (set_prop e h (default [] (lookup_prop r m))) m) =
    if decide (r' = r /\ e' = e) then h else event_handle r' e' m.
Proof.
  unfold event_handle. destruct (decide (r' = r)) as [->|N].
  - rewrite lookup_set_eq. destruct (decide (e' = e)) as [->|Ne].
    + by rewrite lookup_set_eq, decide_True.
    + rewrite lookup_set_ne, decide_False by tauto. by destruct (lookup_prop r m).
  - rewrite lookup_set_ne by done. by rewrite decide_False by tauto.
Qed.

Lemma event_handle_new r e h (m : record (record (option nat))) r' e' :
  event_handle r' e' (set_prop r (set_prop e h []) m) =
    if decide (r' = r) then if decide (e' = e) then h else None else event_handle r' e' m.
Proof.
  unfold event_handle. destruct (decide (r' = r)) as [->|N].
  - rewrite lookup_set_eq. cbv beta iota. destruct (decide (e' = e)) as [->|Ne].
    + by rewrite lookup_set_eq.
    + by rewrite lookup_set_ne.
  - by rewrite lookup_set_ne.
Qed.

(** The handles of the other streams after the handle of one is written. *)
Ltac t_handles :=
  cbn [handle];
  repeat first
    [ rewrite lookup_set_eq | rewrite lookup_set_ne by congruence
    | rewrite lookup_remove_key | rewrite event_handle_set | rewrite event_handle_new ];
  repeat case_decide; try done; try congruence; try naive_solver.

Ltac t_subscribe c st :=
  apply (core_subscribe c _ st);
  [ done | done | done | done | done
  | cbn; t_handles
  | intros [] T N; try discriminate T; cbn; t_handles
  | intros [] i T N; try discriminate T; cbn; t_handles ].

Ltac t_unsubscribe c st id :=
  apply (core_unsubscribe c _ st id);
  [ done | done | done | done | done
  | intros _; right; cbn; t_handles
  | intros i _; cbn; t_handles
  | intros [] N; (split; [cbn; t_handles | done])
  | apply (core_refetch c); done ].

Lemma core_frame c c' :
  core c -> next c' = next c -> live c' = live c -> refetches c' = refetches c ->
  (forall st, handle c' st = handle c st) -> core c'.
Proof.
  intros [F D H E R] En El Er O. constructor; rewrite ?En, ?El, ?Er; try done.
  - intros st T. unfold subs. rewrite El, O. replace (ended c' st) with (ended c st); [by apply H|].
    destruct st; cbn; by rewrite ?Er.
  - intros st id T Hid. rewrite O in Hid. by apply E.
  - intros T. change (roomListUnsubscribe c') with (handle c' s_roomList). rewrite O. by apply R.
Qed.

Lemma core_observe_simple c :
  core c ->
  core (observeSyncStatus c) /\ core (observeRoomList c) /\
  (forall r, core (observeRoomInfo r c)) /\ (forall r, core (observeMultispendGroup r c)) /\
  (forall r, core (observeMultispendAccountInfo r c)) /\
  (forall r, core (observeRoomPaginationStatus r c)) /\
  (forall r, core (observeRoomPinnedTimeline r c)).
Proof.
  intros C. split_and!; try intros r.
  - unfold observeSyncStatus. destruct (syncStatusUnsubscribe c) eqn:E; [done|].
    t_subscribe c s_syncIndicator.
  - unfold observeRoomList. destruct (roomListUnsubscribe c) eqn:E; [done|].
    t_subscribe c s_roomList.
  - unfold observeRoomInfo. destruct (lookup_prop r _) eqn:E; [done|]. t_subscribe c (s_roomInfo r).
  - unfold observeMultispendGroup. destruct (lookup_prop r _) eqn:E; [done|].
    t_subscribe c (s_multispendGroup r).
  - unfold observeMultispendAccountInfo. destruct (lookup_prop r _) eqn:E; [done|].
    t_subscribe c (s_multispendAccount r).
  - unfold observeRoomPaginationStatus. destruct (lookup_prop r _) eqn:E; [done|].
    t_subscribe c (s_pagination r).
  - unfold observeRoomPinnedTimeline. destruct (lookup_prop r _) eqn:E; [done|].
    t_subscribe c (s_pinned r).
Qed.

Lemma core_events_ops c r e :
  core c ->
  core (observeMultispendEvent r e c) /\ core (unobserveMultispendEvent r e c) /\
  core (observeSpTransferState r e c) /\ core (unobserveSpTransferState r e c).
Proof.
  intros C. split_and!.
  - unfold observeMultispendEvent.
    destruct (event_handle r e (multispendEventUnsubscribeMap c)) eqn:E; [done|].
    t_subscribe c (s_multispendEvent r e).
  - unfold unobserveMultispendEvent.
    destruct (event_handle r e (multispendEventUnsubscribeMap c)) as [id|] eqn:E; [|done].
    t_unsubscribe c (s_multispendEvent r e) id.
  - unfold observeSpTransferState.
    destruct (event_handle r e (spTransferStateUnsubscribeMap c)) eqn:E; [done|].
    t_subscribe c (s_spTransfer r e).
  - unfold unobserveSpTransferState.
    destruct (event_handle r e (spTransferStateUnsubscribeMap c)) as [id|] eqn:E; [|done].
    t_unsubscribe c (s_spTransfer r e) id.
Qed.

Lemma core_unobserve_simple c r :
  core c ->
  core (unobserveMultispendAccount r c) /\ core (unobserveRoomPinnedTimeline r c).
Proof.
  intros C. split.
  - unfold unobserveMultispendAccount. destruct (lookup_prop r _) as [id|] eqn:E; [|done].
    t_unsubscribe c (s_multispendAccount r) id.
  - unfold unobserveRoomPinnedTimeline. destruct (lookup_prop r _) as [id|] eqn:E; [|done].
    t_unsubscribe c (s_pinned r) id.
Qed.

(** Room lists are fetched one at a time. *)
Lemma core_refetchRoomList c :
  (rooms = true -> refetches c = 0%nat) -> core c -> core (refetchRoomList c).
Proof.
  intros A C. unfold refetchRoomList. destruct (roomListUnsubscribe c) as [id|] eqn:E;
    [|by apply core_observe_simple].
  apply (core_unsubscribe c _ s_roomList id); try done.
  - intros T. cbn. by rewrite A.
  - by left.
  - intros [] N; done.
  - intros T. cbn. rewrite A by done. split; [done|]. intros _. by eexists.
Qed.

Lemma core_resumed c : core c -> core (refetchRoomList_resumed c).
Proof.
  intros C. unfold refetchRoomList_resumed. destruct (refetches c) as [|n] eqn:E; [done|].
  apply core_observe_simple. destruct C as [F D H O R].
  assert (R1 : rooms = true -> n = 0%nat) by (intros T; destruct (R T); lia).
  constructor; try done.
  - intros st T. specialize (H st T). destruct st; try exact H. cbn in H, T |- *.
    rewrite E in H. rewrite (R1 T). exact H.
  - intros st id T. destruct st; try done; exact (O _ id T).
  - intros T. cbn. rewrite (R1 T). split; [lia|done].
Qed.

Lemma core_unsubscribeSync c : sync = false -> core c -> core (unsubscribeSyncStatus c).
Proof.
  intros S C. unfold unsubscribeSyncStatus. destruct (syncStatusUnsubscribe c) as [id|] eqn:E; [|done].
  apply (core_unsubscribe c _ s_syncIndicator id); try done; [cbn; congruence|].
  by apply (core_refetch c).
Qed.

(** ** Timelines and their reasons *)

(** A room's timeline has a handle exactly when there is a reason to keep it,
    and is warmed up exactly when that is one of the reasons; at most two pages
    are asked for. *)
Record timelines (c : MatrixChatClient) : Prop := {
  t_handle : forall r, is_Some (lookup_prop r (roomTimelineUnsubscribeMap c)) <->
    is_Some (lookup_prop r (roomTimelineObservationReasonsMap c));
  t_reasons : forall r l, lookup_prop r (roomTimelineObservationReasonsMap c) = Some l ->
    l <> [] /\ NoDup l;
  t_warm : forall r, is_Some (lookup_prop r (roomPreviewWarmupStateMap c)) <->
    previewWarmup ∈ reasons_of r c;
  t_attempts : forall r st, lookup_prop r (roomPreviewWarmupStateMap c) = Some st ->
    paginationAttempts st <= ROOM_PREVIEW_WARMUP_MAX_PAGINATION_ATTEMPTS
}.

Definition same_timelines (c c' : MatrixChatClient) : Prop :=
  roomTimelineUnsubscribeMap c' = roomTimelineUnsubscribeMap c /\
  roomTimelineObservationReasonsMap c' = roomTimelineObservationReasonsMap c /\
  roomPreviewWarmupStateMap c' = roomPreviewWarmupStateMap c.

#[export] Instance same_timelines_preorder : PreOrder same_timelines.
Proof.
  split; [by intros c|]. intros c1 c2 c3 (A & B & C) (A' & B' & C'). unfold same_timelines.
  by rewrite A', B', C'.
Qed.

Lemma timelines_frame c c' : same_timelines c c' -> timelines c -> timelines c'.
Proof.
  intros (A & B & W) []. constructor; unfold reasons_of; rewrite ?A, ?B, ?W; done.
Qed.

(** The operations on the other streams. *)
Lemma other_streams c r e :
  Forall (same_timelines c)
    [observeSyncStatus c; observeRoomList c; observeRoomInfo r c;
     observeMultispendGroup r c; observeMultispendAccountInfo r c; unobserveMultispendAccount r c;
     observeRoomPaginationStatus r c; observeRoomPinnedTimeline r c;
     unobserveRoomPinnedTimeline r c; observeMultispendEvent r e c; unobserveMultispendEvent r e c;
     observeSpTransferState r e c; unobserveSpTransferState r e c].
Proof.
  repeat constructor; unfold same_timelines, observeSyncStatus, observeRoomList,
    observeRoomInfo, observeMultispendGroup, observeMultispendAccountInfo,
    unobserveMultispendAccount, observeRoomPaginationStatus, observeRoomPinnedTimeline,
    unobserveRoomPinnedTimeline, observeMultispendEvent, unobserveMultispendEvent,
    observeSpTransferState, unobserveSpTransferState; repeat case_match; done.
Qed.

Lemma elem_of_add_reason w v l : v ∈ add_reason w l <-> v = w \/ v ∈ l.
Proof.
  unfold add_reason. case_decide; [naive_solver|].
  rewrite elem_of_app, list_elem_of_singleton. tauto.
Qed.

Lemma add_reason_ok w l : NoDup l -> add_reason w l <> [] /\ NoDup (add_reason w l).
Proof.
  intros D. split.
  - intros E. assert (H : w ∈ add_reason w l) by (apply elem_of_add_reason; by left).
    rewrite E in H. by apply elem_of_nil in H.
  - unfold add_reason. case_decide; [done|]. apply NoDup_app. split; [done|].
    split; [|apply NoDup_singleton]. by intros x Hx ->%list_elem_of_singleton.
Qed.

Lemma reasons_NoDup r c : timelines c -> NoDup (reasons_of r c).
Proof.
  intros T. unfold reasons_of. destruct (lookup_prop r _) eqn:E; [|constructor].
  by apply (t_reasons c T) in E as [_ ?].
Qed.

Lemma observeRoomTimeline_core r w c : core c -> core (observeRoomTimeline r w c).
Proof.
  intros C. unfold observeRoomTimeline. set (c1 := c <| roomTimelineObservationReasonsMap := _ |>).
  assert (C1 : core c1) by (by apply (core_frame c)).
  destruct (lookup_prop r (roomTimelineUnsubscribeMap c1)) eqn:E; [done|].
  t_subscribe c1 (s_timeline r).
Qed.

Lemma unobserveRoomTimeline_core r w c : core c -> core (unobserveRoomTimeline r w c).
Proof.
  intros C. unfold unobserveRoomTimeline. destruct (lookup_prop r _) as [l|]; [|done].
  case_bool_decide; [by apply (core_frame c)|].
  set (c1 := c <| roomTimelineObservationReasonsMap := _ |>).
  assert (C1 : core c1) by (by apply (core_frame c)).
  destruct (lookup_prop r (roomTimelineUnsubscribeMap c1)) as [id|] eqn:E; [|done].
  t_unsubscribe c1 (s_timeline r) id.
Qed.

Lemma lookup_reasons_add r w c r' :
  lookup_prop r' (roomTimelineObservationReasonsMap (observeRoomTimeline r w c)) =
    if decide (r' = r) then Some (add_reason w (reasons_of r c))
    else lookup_prop r' (roomTimelineObservationReasonsMap c).
Proof.
  unfold observeRoomTimeline. set (c1 := c <| roomTimelineObservationReasonsMap := _ |>).
  assert (E : lookup_prop r' (roomTimelineObservationReasonsMap c1) =
    if decide (r' = r) then Some (add_reason w (reasons_of r c))
    else lookup_prop r' (roomTimelineObservationReasonsMap c)).
  { unfold c1. cbn. case_decide as N; [subst; by rewrite lookup_set_eq | by rewrite lookup_set_ne]. }
  by destruct (lookup_prop r (roomTimelineUnsubscribeMap c1)).
Qed.

Lemma is_Some_timeline_add r w c r' :
  is_Some (lookup_prop r' (roomTimelineUnsubscribeMap (observeRoomTimeline r w c))) <->
    r' = r \/ is_Some (lookup_prop r' (roomTimelineUnsubscribeMap c)).
Proof.
  unfold observeRoomTimeline. set (c1 := c <| roomTimelineObservationReasonsMap := _ |>).
  change (roomTimelineUnsubscribeMap c) with (roomTimelineUnsubscribeMap c1).
  destruct (lookup_prop r (roomTimelineUnsubscribeMap c1)) as [id|] eqn:E.
  - split; [auto|]. intros [->|H]; [by rewrite E | done].
  - cbn. destruct (decide (r' = r)) as [->|N].
    + rewrite lookup_set_eq. split; [by left | by eexists].
    + rewrite lookup_set_ne by done. tauto.
Qed.

Lemma observe_warm r w c :
  roomPreviewWarmupStateMap (observeRoomTimeline r w c) = roomPreviewWarmupStateMap c.
Proof. unfold observeRoomTimeline. by destruct (lookup_prop r _). Qed.

(** Adding a reason, while the warm-up of the room matches the reasons as they
    will be. *)
Lemma observeRoomTimeline_timelines r w c :
  (forall r, is_Some (lookup_prop r (roomTimelineUnsubscribeMap c)) <->
     is_Some (lookup_prop r (roomTimelineObservationReasonsMap c))) ->
  (forall r l, lookup_prop r (roomTimelineObservationReasonsMap c) = Some l -> l <> [] /\ NoDup l) ->
  (forall r', is_Some (lookup_prop r' (roomPreviewWarmupStateMap c)) <->
     previewWarmup ∈ reasons_of r' c \/ (r' = r /\ w = previewWarmup)) ->
  (forall r st, lookup_prop r (roomPreviewWarmupStateMap c) = Some st ->
     paginationAttempts st <= ROOM_PREVIEW_WARMUP_MAX_PAGINATION_ATTEMPTS) ->
  timelines (observeRoomTimeline r w c).
Proof.
  intros H R W A. constructor.
  - intros r'. rewrite is_Some_timeline_add, lookup_reasons_add, H.
    case_decide; [|tauto]. split; [by eexists | by left].
  - intros r' l. rewrite lookup_reasons_add. case_decide; [|apply R]. intros [= <-].
    apply add_reason_ok. unfold reasons_of. destruct (lookup_prop r _) eqn:E; [|constructor].
    by apply R in E as [_ ?].
  - intros r'. rewrite observe_warm, W. unfold reasons_of at 2. rewrite lookup_reasons_add.
    case_decide as D; cbn; [rewrite elem_of_add_reason; subst; naive_solver|].
    unfold reasons_of. naive_solver.
  - intros r' st. rewrite observe_warm. apply A.
Qed.

Lemma lookup_reasons_remove r w c r' :
  lookup_prop r' (roomTimelineObservationReasonsMap (unobserveRoomTimeline r w c)) =
    match lookup_prop r' (roomTimelineObservationReasonsMap c) with
    | Some l =>
        if decide (r' = r) then
          let l := filter (fun v => v <> w) l in if bool_decide (l <> []) then Some l else None
        else Some l
    | None => None
    end.
Proof.
  unfold unobserveRoomTimeline.
  destruct (lookup_prop r (roomTimelineObservationReasonsMap c)) as [l|] eqn:E.
  - case_bool_decide as F; [|set (c1 := c <| roomTimelineObservationReasonsMap := _ |>);
      assert (X : roomTimelineObservationReasonsMap
        match lookup_prop r (roomTimelineUnsubscribeMap c1) with
        | Some id => unsubscribe id c1 <| roomTimelineUnsubscribeMap :=
            remove_key r (roomTimelineUnsubscribeMap c1) |>
        | None => c1
        end = remove_key r (roomTimelineObservationReasonsMap c))
        by (by destruct (lookup_prop r (roomTimelineUnsubscribeMap c1)));
      rewrite X, lookup_remove_key]; cbn.
    + destruct (decide (r' = r)) as [->|N].
      * by rewrite lookup_set_eq, E, bool_decide_true.
      * rewrite lookup_set_ne by done. by destruct (lookup_prop r' _).
    + destruct (decide (r' = r)) as [->|N]; [|by destruct (lookup_prop r' _)].
      rewrite E, bool_decide_false; [done|]. by intros G; apply G.
  - destruct (decide (r' = r)) as [->|N]; [by rewrite E|]. by destruct (lookup_prop r' _).
Qed.

Lemma timeline_removed r w c r' :
  lookup_prop r' (roomTimelineUnsubscribeMap (unobserveRoomTimeline r w c)) =
    if decide (r' = r /\ is_Some (lookup_prop r (roomTimelineObservationReasonsMap c)) /\
               filter (fun v => v <> w) (reasons_of r c) = [])
    then None else lookup_prop r' (roomTimelineUnsubscribeMap c).
Proof.
  unfold unobserveRoomTimeline, reasons_of.
  destruct (lookup_prop r (roomTimelineObservationReasonsMap c)) as [l|] eqn:E; cbn [from_option].
  2:{ rewrite decide_False; [done|]. intros (_ & [? ?] & _). done. }
  case_bool_decide as F.
  { rewrite decide_False; [done|]. tauto. }
  set (c1 := c <| roomTimelineObservationReasonsMap := _ |>).
  change (roomTimelineUnsubscribeMap c) with (roomTimelineUnsubscribeMap c1).
  destruct (lookup_prop r (roomTimelineUnsubscribeMap c1)) as [id|] eqn:E1; cbn.
  - rewrite lookup_remove_key. destruct (decide (r' = r)) as [->|N].
    + rewrite decide_True; [done|]. split; [done|]. split; [by eexists | exact F].
    + rewrite decide_False; [done | tauto].
  - case_decide as D; [|done]. destruct D as [-> _]. done.
Qed.

Lemma unobserve_warm r w c :
  roomPreviewWarmupStateMap (unobserveRoomTimeline r w c) = roomPreviewWarmupStateMap c.
Proof.
  unfold unobserveRoomTimeline. destruct (lookup_prop r _); [|done]. case_bool_decide; [done|].
  by destruct (lookup_prop r _).
Qed.

Lemma unobserveRoomTimeline_timelines r w c :
  (forall r, is_Some (lookup_prop r (roomTimelineUnsubscribeMap c)) <->
     is_Some (lookup_prop r (roomTimelineObservationReasonsMap c))) ->
  (forall r l, lookup_prop r (roomTimelineObservationReasonsMap c) = Some l -> l <> [] /\ NoDup l) ->
  (forall r', is_Some (lookup_prop r' (roomPreviewWarmupStateMap c)) <->
     previewWarmup ∈ reasons_of r' c /\ ~ (r' = r /\ w = previewWarmup)) ->
  (forall r st, lookup_prop r (roomPreviewWarmupStateMap c) = Some st ->
     paginationAttempts st <= ROOM_PREVIEW_WARMUP_MAX_PAGINATION_ATTEMPTS) ->
  timelines (unobserveRoomTimeline r w c).
Proof.
  intros H R W A. constructor.
  - intros r'. rewrite timeline_removed, lookup_reasons_remove. unfold reasons_of.
    destruct (decide (r' = r)) as [->|N].
    + destruct (lookup_prop r (roomTimelineObservationReasonsMap c)) as [l|] eqn:E;
        cbn [from_option]; unfold id.
      * case_bool_decide as F; [rewrite decide_False by tauto | rewrite decide_True by eauto].
        -- rewrite H, E. split; by eexists.
        -- split; by intros [? ?].
      * rewrite decide_False by (intros (_ & [? ?] & _); done). by rewrite H, E.
    + rewrite decide_False by tauto. rewrite H. by destruct (lookup_prop r' _).
  - intros r' l. rewrite lookup_reasons_remove. destruct (lookup_prop r' _) as [l0|] eqn:E; [|done].
    apply R in E as [N D]. case_decide; [|by intros [= <-]]. cbn. case_bool_decide; [|done].
    intros [= <-]. split; [done | by apply list.NoDup_filter].
  - intros r'. rewrite unobserve_warm, W. unfold reasons_of. rewrite lookup_reasons_remove.
    destruct (lookup_prop r' _) as [l|] eqn:E; cbn [from_option];
      [|split; [intros [? ?]|intros ?]; by (exfalso; eapply elem_of_nil)].
    unfold id. case_decide as D; cbn.
    + assert (X : previewWarmup ∈ l /\ w <> previewWarmup <->
        previewWarmup ∈ filter (fun v => v <> w) l) by (rewrite list_elem_of_filter; naive_solver).
      case_bool_decide as F; cbn; [|rewrite F in X]; rewrite <- X; naive_solver.
    + naive_solver.
  - intros r' st. rewrite unobserve_warm. apply A.
Qed.

(** ** Every operation *)

Definition client_ok (c : MatrixChatClient) : Prop := core c /\ timelines c.

Lemma observeRoomTimeline_ok r w c :
  w <> previewWarmup -> client_ok c -> client_ok (observeRoomTimeline r w c).
Proof.
  intros N [C []]. split; [by apply observeRoomTimeline_core|].
  apply observeRoomTimeline_timelines; [done..| |done]. intros r'. rewrite t_warm0. naive_solver.
Qed.

Lemma unobserveRoomTimeline_ok r w c :
  w <> previewWarmup -> client_ok c -> client_ok (unobserveRoomTimeline r w c).
Proof.
  intros N [C []]. split; [by apply unobserveRoomTimeline_core|].
  apply unobserveRoomTimeline_timelines; [done..| |done]. intros r'. rewrite t_warm0. naive_solver.
Qed.

Lemma startRoomPreviewWarmup_ok r c : client_ok c -> client_ok (startRoomPreviewWarmup r c).
Proof.
  intros [C T]. unfold startRoomPreviewWarmup. destruct (lookup_prop r _) eqn:E; [done|].
  set (c1 := c <| roomPreviewWarmupStateMap := _ |>).
  split; [apply observeRoomTimeline_core; by apply (core_frame c)|].
  destruct T. apply observeRoomTimeline_timelines; [done..| |]; intros r'.
  - change (reasons_of r' c1) with (reasons_of r' c). rewrite <- t_warm0. unfold c1. cbn.
    destruct (decide (r' = r)) as [->|N].
    + rewrite lookup_set_eq. split; [by right | by eexists].
    + rewrite lookup_set_ne by done. naive_solver.
  - intros st. unfold c1. cbn. destruct (decide (r' = r)) as [->|N].
    + rewrite lookup_set_eq. intros [= <-]. unfold ROOM_PREVIEW_WARMUP_MAX_PAGINATION_ATTEMPTS.
      cbn. lia.
    + rewrite lookup_set_ne by done. apply t_attempts0.
Qed.

Lemma stopRoomPreviewWarmup_ok r c : client_ok c -> client_ok (stopRoomPreviewWarmup r c).
Proof.
  intros [C T]. unfold stopRoomPreviewWarmup. destruct (lookup_prop r _) eqn:E; [|done].
  set (c1 := c <| roomPreviewWarmupStateMap := _ |>).
  split; [apply unobserveRoomTimeline_core; by apply (core_frame c)|].
  destruct T. apply unobserveRoomTimeline_timelines; [done..| |]; intros r'.
  - change (reasons_of r' c1) with (reasons_of r' c). rewrite <- t_warm0.
    unfold c1. cbn. rewrite lookup_remove_key. case_decide; [split; [by intros [? ?] | tauto] | tauto].
  - intros st. unfold c1. cbn. rewrite lookup_remove_key. case_decide; [done | apply t_attempts0].
Qed.

Lemma warmupPagination_ok r c : client_ok c -> client_ok (runRoomPreviewWarmupPagination r c).2.
Proof.
  intros [C T]. unfold runRoomPreviewWarmupPagination. destruct (lookup_prop r _) as [st|] eqn:E; [|done].
  destruct (Nat.leb _ _) eqn:L; [done|]. cbn [snd]. apply Nat.leb_gt in L.
  split; [by apply (core_frame c)|]. destruct T.
  constructor; [done..|intros r'|intros r' st']; cbn [roomPreviewWarmupStateMap setter].
  - etrans; [|apply t_warm0]. cbn. destruct (decide (r' = r)) as [->|N].
    + rewrite lookup_set_eq, E. by split; eexists.
    + by rewrite lookup_set_ne.
  - cbn. destruct (decide (r' = r)) as [->|N].
    + rewrite lookup_set_eq. intros [= <-]. cbn. lia.
    + rewrite lookup_set_ne by done. apply t_attempts0.
Qed.

(** The operations that leave the timelines alone. *)
Lemma other_ok c c' : core c' -> same_timelines c c' -> client_ok c -> client_ok c'.
Proof. intros C S [_ T]. split; [done|]. by apply (timelines_frame c). Qed.

Lemma simple_ops_ok c r e :
  client_ok c ->
  Forall client_ok
    [observeSyncStatus c; observeRoomList c; observeRoomInfo r c;
     observeMultispendGroup r c; observeMultispendAccountInfo r c; unobserveMultispendAccount r c;
     observeRoomPaginationStatus r c; observeRoomPinnedTimeline r c;
     unobserveRoomPinnedTimeline r c; observeMultispendEvent r e c; unobserveMultispendEvent r e c;
     observeSpTransferState r e c; unobserveSpTransferState r e c].
Proof.
  intros [C T]. pose proof (other_streams c r e) as O.
  pose proof (core_observe_simple c C) as (? & ? & ? & ? & ? & ? & ?).
  pose proof (core_unobserve_simple c r C) as [? ?].
  pose proof (core_events_ops c r e C) as (? & ? & ? & ?).
  rewrite !list.Forall_cons in O. destruct_and! O.
  repeat (constructor; [by apply (other_ok c)|]). constructor.
Qed.

Lemma unobserve_rest_ok r c :
  client_ok c ->
  client_ok match lookup_prop r (roomPaginationStatusUnsubscribeMap c) with
    | Some id => unsubscribe id c <| roomPaginationStatusUnsubscribeMap :=
        remove_key r (roomPaginationStatusUnsubscribeMap c) |>
    | None => c
    end /\
  client_ok match lookup_prop r (multispendUnsubscribeMap c) with
    | Some id => unsubscribe id c
        <| multispendUnsubscribeMap := remove_key r (multispendUnsubscribeMap c) |>
    | None => c
    end.
Proof.
  intros [C T]. split.
  - destruct (lookup_prop r _) as [id|] eqn:E; [|done]. apply (other_ok c); [|done..].
    t_unsubscribe c (s_pagination r) id.
  - destruct (lookup_prop r _) as [id|] eqn:E; [|done]. apply (other_ok c); [|done..].
    t_unsubscribe c (s_multispendGroup r) id.
Qed.

Lemma foldl_ok {A} (f : MatrixChatClient -> A -> MatrixChatClient) l c :
  (forall c x, client_ok c -> client_ok (f c x)) -> client_ok c -> client_ok (foldl f c l).
Proof. intros H. revert c. induction l as [|x l IH]; intros c K; [done|]. by apply IH, H. Qed.

Lemma simple_ok c (f : MatrixChatClient -> MatrixChatClient) r e :
  client_ok c ->
  f c ∈ [observeSyncStatus c; observeRoomList c; observeRoomInfo r c;
     observeMultispendGroup r c; observeMultispendAccountInfo r c; unobserveMultispendAccount r c;
     observeRoomPaginationStatus r c; observeRoomPinnedTimeline r c;
     unobserveRoomPinnedTimeline r c; observeMultispendEvent r e c; unobserveMultispendEvent r e c;
     observeSpTransferState r e c; unobserveSpTransferState r e c] ->
  client_ok (f c).
Proof.
  intros K. pose proof (simple_ops_ok c r e K) as F. rewrite list.Forall_forall in F. apply F.
Qed.

(** Applies [simple_ok] to one of its operations. *)
Ltac t_simple f r e :=
  apply (simple_ok _ f r e); [|rewrite !elem_of_cons; tauto].

Lemma observeRoom_ok r c : client_ok c -> client_ok (observeRoom r c).
Proof.
  intros K. unfold observeRoom. t_simple (observeMultispendGroup r) r "".
  apply observeRoomTimeline_ok; [done|].
  t_simple (observeRoomPinnedTimeline r) r "". by t_simple (observeRoomPaginationStatus r) r "".
Qed.

Lemma unobserveRoom_ok r c : client_ok c -> client_ok (unobserveRoom r c).
Proof.
  intros K. unfold unobserveRoom. apply unobserve_rest_ok, unobserve_rest_ok.
  t_simple (unobserveRoomPinnedTimeline r) r "". by apply unobserveRoomTimeline_ok.
Qed.

Lemma on_room_info_ok r info c : client_ok c -> client_ok (on_room_info r info c).
Proof.
  intros K. unfold on_room_info, reconcileRoomPreviewWarmup.
  assert (W : client_ok (if negb (shouldWarmRoomPreview info)
    then stopRoomPreviewWarmup (info_id info) c else startRoomPreviewWarmup (info_id info) c))
    by (case_if; [by apply stopRoomPreviewWarmup_ok | by apply startRoomPreviewWarmup_ok]).
  destruct (is_room_state _ _); [done|].
  destruct (truthy (get "isDirect" info)); [by apply observeRoomTimeline_ok | done].
Qed.

(** The operations on the room list and on the sync status that wait or end. *)
Lemma waiting_ops_timelines c :
  same_timelines c (refetchRoomList c) /\ same_timelines c (refetchRoomList_resumed c) /\
  same_timelines c (unsubscribeSyncStatus c).
Proof.
  unfold refetchRoomList, refetchRoomList_resumed, unsubscribeSyncStatus, observeRoomList.
  split_and!; repeat case_match; done.
Qed.

Lemma new_client_ok : client_ok new_client.
Proof.
  split; constructor; cbn.
  - constructor.
  - constructor.
  - by intros [] _.
  - by intros [] id.
  - intros _. split; [lia|done].
  - intros r. split; by intros [? ?].
  - done.
  - intros r. split; [by intros [? ?] | intros H; by apply elem_of_nil in H].
  - done.
Qed.

Lemma client_step_ok c o :
  (rooms = true -> o = op_refetchRoomList -> refetches c = 0%nat) ->
  (sync = true -> o <> op_unsubscribeSyncStatus) ->
  client_ok c -> client_ok (client_step c o).
Proof.
  intros A B K. pose proof (waiting_ops_timelines c) as (W1 & W2 & W3).
  destruct o; cbn [client_step].
  - t_simple observeRoomList "" "". by t_simple observeSyncStatus "" "".
  - by t_simple observeSyncStatus "" "".
  - apply (other_ok c); [|done..]. apply core_unsubscribeSync; [|apply K].
    destruct sync; [by destruct B|done].
  - apply (other_ok c); [|done..]. apply core_refetchRoomList; [auto|apply K].
  - apply (other_ok c); [|done..]. apply core_resumed, K.
  - unfold on_room_list. apply foldl_ok; [|done]. intros c' r K'. by t_simple (observeRoomInfo r) r "".
  - by apply on_room_info_ok.
  - by apply observeRoom_ok.
  - by apply unobserveRoom_ok.
  - by t_simple (unobserveRoomPinnedTimeline r) r "".
  - unfold after_direct_message. apply observeRoomTimeline_ok; [done|].
    by t_simple (observeRoomInfo r) r "".
  - by t_simple (observeMultispendEvent r e) r e.
  - by t_simple (unobserveMultispendEvent r e) r e.
  - by t_simple (observeMultispendAccountInfo r) r "".
  - by t_simple (unobserveMultispendAccount r) r "".
  - by t_simple (observeSpTransferState r e) r e.
  - by t_simple (unobserveSpTransferState r e) r e.
  - by apply stopRoomPreviewWarmup_ok.
  - by apply warmupPagination_ok.
Qed.

Lemma client_run_ok l :
  (rooms = true -> forall l1 l2, l = l1 ++ op_refetchRoomList :: l2 -> refetches (client_run l1) = 0%nat) ->
  (sync = true -> op_unsubscribeSyncStatus ∉ l) ->
  client_ok (client_run l).
Proof.
  induction l as [|o l IH] using rev_ind; intros A B; [apply new_client_ok|].
  unfold client_run. rewrite foldl_app. apply client_step_ok.
  - intros T ->. by apply (A T l []).
  - intros T ->. apply (B T), elem_of_app. right. left.
  - apply IH.
    + intros T l1 l2 ->. apply (A T l1 (l2 ++ [o])). by rewrite <- (assoc_L (++)).
    + intros T H. apply (B T), elem_of_app. by left.
Qed.
End Tracked.

(** Streams that nothing but their own screen or room opens and ends. *)
Definition ordinary (st : stream) : bool := tracked false false st.

(** The room list is never fetched anew while it is being fetched anew. *)
Definition refetched_alone (l : list client_op) : Prop := forall l1 l2,
  l = l1 ++ op_refetchRoomList :: l2 -> refetches (client_run l1) = 0%nat.


(** Two calls that fetch the room list anew at the same time leave a subscription that
    nothing can end. *)
Example refetches_overlap :
  let c := client_run [op_started; op_refetchRoomList; op_refetchRoomList; op_refetchResumed;
                       op_refetchResumed] in
  subs c s_roomList = [2; 3]%nat /\ roomListUnsubscribe c = Some 3%nat.
Proof. split; reflexivity. Qed.

(** After it was unsubscribed the sync status is never observed again. *)
Example sync_status_lost :
  let c := client_run [op_started; op_unsubscribeSyncStatus; op_observeSyncStatus] in
  subs c s_syncIndicator = [] /\ syncStatusUnsubscribe c = Some 0%nat.
Proof. split; reflexivity. Qed.

(** Watching a second multispend event of a room loses the handle of the
    first: its subscription stays live after it is unwatched, and watching the
    event again adds another one. *)
Theorem second_event_loses_first c r e1 e2 :
  e1 <> e2 ->
  handle c (s_multispendEvent r e1) = None -> handle c (s_multispendEvent r e2) = None ->
  let c' := unobserveMultispendEvent r e1 (observeMultispendEvent r e2
              (observeMultispendEvent r e1 c)) in
  next c ∈ subs c' (s_multispendEvent r e1) /\
  [next c; next c'] ⊆ subs (observeMultispendEvent r e1 c') (s_multispendEvent r e1) /\
  next c <> next c'.
Proof.
  intros N H1 H2 c'. cbn [handle] in H1, H2.
  set (c1 := observeMultispendEvent r e1 c).
  assert (E1 : c1 = subscribe (s_multispendEvent r e1) c <| multispendEventUnsubscribeMap :=
    set_prop r (set_prop e1 (Some (next c)) []) (multispendEventUnsubscribeMap c) |>)
    by (unfold c1, observeMultispendEvent; by rewrite H1).
  assert (H12 : event_handle r e2 (multispendEventUnsubscribeMap c1) = None).
  { rewrite E1. cbn. by rewrite event_handle_new, decide_True, decide_False by done. }
  set (c2 := observeMultispendEvent r e2 c1).
  assert (E2 : c2 = subscribe (s_multispendEvent r e2) c1 <| multispendEventUnsubscribeMap :=
    set_prop r (set_prop e2 (Some (next c1)) []) (multispendEventUnsubscribeMap c1) |>)
    by (unfold c2, observeMultispendEvent; by rewrite H12).
  assert (H21 : event_handle r e1 (multispendEventUnsubscribeMap c2) = None).
  { rewrite E2. cbn. by rewrite event_handle_new, decide_True, decide_False by done. }
  assert (Ec : c' = c2) by (unfold c', unobserveMultispendEvent; fold c1 c2; by rewrite H21).
  assert (L : (next c, s_multispendEvent r e1) ∈ live c2).
  { rewrite E2. cbn. apply elem_of_app. left. rewrite E1. cbn. apply elem_of_app. right. left. }
  rewrite Ec, elem_of_subs. split; [done|].
  assert (E3 : live (observeMultispendEvent r e1 c2) = live c2 ++ [(next c2, s_multispendEvent r e1)])
    by (unfold observeMultispendEvent; by rewrite H21).
  split.
  - intros i Hi. apply elem_of_subs. rewrite E3. apply elem_of_app.
    apply elem_of_cons in Hi as [->|Hi]; [by left|]. apply list_elem_of_singleton in Hi as ->.
    right. left.
  - rewrite E2. cbn. rewrite E1. cbn. lia.
Qed.

Lemma second_event_loses_first_witness :
  let c' := unobserveMultispendEvent "!r" "$1" (observeMultispendEvent "!r" "$2"
              (observeMultispendEvent "!r" "$1" new_client)) in
  0%nat ∈ subs c' (s_multispendEvent "!r" "$1").
Proof.
  apply (second_event_loses_first new_client "!r" "$1" "$2"); done.
Defined.
