(* ===== verification/Transactions.v ===== *)
(** Transactions: [ui/common/utils/transaction.ts] and
    [ui/common/redux/transactions.ts].

    How the history and the details of a transaction show its state: direction,
    icon, texts, badge, amount, fees, whether it can be canceled or help is
    offered; and the slice that lists the transactions of each federation, page
    by page.  A transaction is the object the bridge sends.  The translation
    function [t] takes a key and its arguments; amounts are formatted by the
    functions the screens pass in. *)
From Stdlib Require Import ZArith Lia Sorted Ascii.
From stdpp Require Import base tactics strings list option sets sorting.
From S2P Require Import Prelude JsNum Js Upsert KeyedMap Amount Currency MatrixEvents.
Local Open Scope string_scope.
Local Open Scope list_scope.
Local Open Scope Z_scope.

(** [v === l] for one of the strings [l] *)
Definition is_label (v : jval) (labels : list string) : bool :=
  match v with JStr s => existsb (String.eqb s) labels | _ => false end.

(** [switch (v) { case l: ...; default: ... }] on string labels *)
Fixpoint switch {A} (v : jval) (cases : list (list string * A)) (otherwise : A) : A :=
  match cases with
  | [] => otherwise
  | (labels, a) :: cases =>
      if is_label v labels then a else switch v cases otherwise
  end.

Definition one_of (labels : list string) (v : jval) : bool := is_label v labels.
Definition is_undefined (v : jval) : bool := match v with JUndef => true | _ => false end.

Definition txn_kind (txn : obj) : jval := get "kind" txn.
Definition txn_state (txn : obj) : jval := get "state" txn.
(** [txn.state?.type] and [txn.state?.kind] *)
Definition state_type (txn : obj) : jval := opt_prop (txn_state txn) "type".
Definition state_kind (txn : obj) : jval := opt_prop (txn_state txn) "kind".
Definition txn_num (k : string) (txn : obj) : num := to_num (get k txn).

(** ** Kinds *)

Inductive TransactionDirection : Type := send | receive.
Inductive TransactionStatusBadge : Type := incoming | outgoing | pending | expired | failed.
Inductive TransactionAmountState : Type := amount_settled | amount_pending | amount_failed.
Record TxnIconDisplay := mkIcon { icon : string; color : string }.

#[export] Instance badge_eq_dec : EqDecision TransactionStatusBadge.
Proof. solve_decision. Defined.
#[export] Instance direction_eq_dec : EqDecision TransactionDirection.
Proof. solve_decision. Defined.

Definition getTxnDirection (txn : obj) : TransactionDirection :=
  switch (txn_kind txn)
    [(["lnPay"; "onchainWithdraw"; "oobSend"; "spDeposit"; "sPV2Deposit"; "sPV2TransferOut";
       "multispendWithdrawal"; "fiFormationPayment"], send)]
    receive.

Definition isGuardianRemittanceWithdrawal (txn : obj) : bool :=
  one_of ["sPV2Withdrawal"] (txn_kind txn) && truthy (get "guardian_remittance" txn).

Definition isMultispendTransfer (txn : obj) : bool :=
  one_of ["sPV2TransferOut"; "sPV2TransferIn"] (txn_kind txn) &&
  one_of ["completedTransfer"] (state_type txn) &&
  one_of ["multispend"] (state_kind txn).

Definition makeTxnIconDisplay (txn : obj) : TxnIconDisplay :=
  let kind := txn_kind txn in
  if one_of ["onchainDeposit"; "onchainWithdraw"] kind then mkIcon "OnChainCircle" "bitcoin"
  else if isMultispendTransfer txn then mkIcon "MultispendGroupCircle" "stable"
  else if isGuardianRemittanceWithdrawal txn then mkIcon "BitcoinCircle" "bitcoin"
  else if one_of ["spDeposit"; "spWithdraw"; "sPV2Deposit"; "sPV2Withdrawal"; "sPV2TransferIn";
                  "sPV2TransferOut"] kind then mkIcon "DollarCircle" "stable"
  else if one_of ["oobSend"; "oobReceive"; "oobCancel"] kind
  then mkIcon "ChatPaymentCircle" "bitcoin"
  else if one_of ["lnPay"; "lnReceive"; "lnRecurringdReceive"] kind
  then mkIcon "LightningCircle" "bitcoin"
  else mkIcon "BitcoinCircle" "bitcoin".

(** ** Texts *)

Section Texts.
(** i18next's [t(key, args)]. *)
Context (t : string -> list (string * string) -> string).

Definition tr (key : string) : string := t key [].

Definition makeTxnTypeText (txn : obj) : string :=
  switch (txn_kind txn)
    [(["onchainDeposit"; "onchainWithdraw"], tr "words.onchain");
     (["lnPay"; "lnReceive"], tr "words.lightning");
     (["lnRecurringdReceive"], tr "words.lnurl");
     (["spDeposit"; "spWithdraw"; "sPV2Deposit"], tr "feature.stabilitypool.stable-balance");
     (["sPV2Withdrawal"],
       if isGuardianRemittanceWithdrawal txn then tr "phrases.guardian-fee"
       else tr "feature.stabilitypool.stable-balance");
     (["sPV2TransferIn"; "sPV2TransferOut"],
       if isMultispendTransfer txn then tr "words.multispend"
       else tr "feature.stabilitypool.stable-balance");
     (["oobSend"; "oobReceive"], tr "words.ecash");
     (["oobCancel"], tr "phrases.canceled-ecash-send");
     (["multispendDeposit"], tr "words.deposit");
     (["multispendWithdrawal"], tr "words.withdrawal");
     (["fiFormationPayment"], tr "words.federation")]
    (tr "words.unknown").

Definition makeTxnDetailTitleText (txn : obj) : string :=
  let stateless := negb (truthy (txn_state txn)) in
  switch (txn_kind txn)
    [(["lnPay"; "oobSend"; "onchainWithdraw"], tr "feature.send.you-sent");
     (["spDeposit"; "sPV2Deposit"], tr "feature.stabilitypool.you-deposited");
     (["spWithdraw"], tr "feature.stabilitypool.you-withdrew");
     (["sPV2Withdrawal"],
       if isGuardianRemittanceWithdrawal txn then tr "feature.guardian-fees.transfer-success"
       else tr "feature.stabilitypool.you-withdrew");
     (["oobReceive"], tr "feature.receive.you-received");
     (["oobCancel"], tr "phrases.canceled-ecash-send");
     (["lnReceive"; "lnRecurringdReceive"],
       if stateless then tr "phrases.receive-pending" else
       switch (state_type txn)
         [(["claimed"], tr "feature.receive.you-received");
          (["canceled"], tr "words.expired")]
         (tr "phrases.receive-pending"));
     (["onchainDeposit"],
       if stateless then tr "phrases.receive-pending" else
       switch (state_type txn)
         [(["waitingForTransaction"], tr "phrases.address-created");
          (["claimed"], tr "feature.receive.you-received");
          (["failed"], tr "words.failed")]
         (tr "phrases.receive-pending"));
     (["sPV2TransferIn"],
       switch (state_type txn)
         [(["completedTransfer"],
           switch (state_kind txn)
             [(["multispend"], tr "feature.stabilitypool.you-withdrew")]
             (tr "feature.receive.you-received"))]
         (tr "feature.receive.you-received"));
     (["sPV2TransferOut"],
       switch (state_type txn)
         [(["completedTransfer"],
           switch (state_kind txn)
             [(["multispend"], tr "feature.stabilitypool.you-deposited")]
             (tr "feature.send.you-sent"))]
         (tr "feature.send.you-sent"));
     (["multispendDeposit"], tr "feature.stabilitypool.you-deposited");
     (["multispendWithdrawal"], tr "feature.stabilitypool.you-withdrew");
     (["fiFormationPayment"], tr "feature.send.you-sent")]
    (tr "words.unknown").

(** [txn.state.event.withdrawalRequest.txSubmissionStatus] *)
Definition submission_status (txn : obj) : jval :=
  opt_prop (opt_prop (opt_prop (txn_state txn) "event") "withdrawalRequest") "txSubmissionStatus".
(** [k in v] of the objects the status can be *)
Definition in_status (k : string) (v : jval) : bool :=
  match v with JObj o => has k o | _ => false end.

(** [txn.seats_paid === txn.seats_total] *)
Definition all_seats_paid (txn : obj) : bool :=
  eqb (txn_num "seats_paid" txn) (txn_num "seats_total" txn).

Definition makeTxnStatusText (txn : obj) : string :=
  if one_of ["fiFormationPayment"] (txn_kind txn) then
    if all_seats_paid txn then tr "words.complete" else tr "words.pending"
  else if negb (truthy (txn_state txn)) then tr "words.pending" else
  switch (txn_kind txn)
    [(["lnPay"], switch (state_type txn)
       [(["created"; "funded"; "awaitingChange"], tr "words.pending");
        (["waitingForRefund"], tr "phrases.refund-pending");
        (["canceled"; "failed"], tr "words.failed");
        (["refunded"], tr "words.refunded")] (tr "words.sent"));
     (["onchainWithdraw"], switch (state_type txn)
       [(["succeeded"], tr "words.sent"); (["failed"], tr "words.failed")] (tr "words.pending"));
     (["oobSend"], switch (state_type txn)
       [(["refunded"], tr "words.refunded");
        (["userCanceledSuccess"], tr "words.canceled");
        (["userCanceledProcessing"], tr "words.pending")] (tr "words.sent"));
     (["spDeposit"; "sPV2Deposit"], switch (state_type txn)
       [(["completeDeposit"; "completedDeposit"], tr "words.deposit");
        (["failedDeposit"], tr "words.failed")] (tr "words.pending"));
     (["sPV2TransferOut"], switch (state_type txn)
       [(["completedTransfer"], switch (state_kind txn)
         [(["multispend"], tr "words.deposit")] (tr "words.sent"))] (tr "words.pending"));
     (["lnReceive"], switch (state_type txn)
       [(["canceled"], tr "words.expired"); (["claimed"], tr "words.received")]
       (tr "words.pending"));
     (["lnRecurringdReceive"], switch (state_type txn)
       [(["waitingForPayment"; "funded"; "awaitingFunds"], tr "words.pending");
        (["canceled"], tr "words.expired");
        (["created"; "claimed"], tr "words.received")] (tr "words.pending"));
     (["onchainDeposit"], switch (state_type txn)
       [(["waitingForTransaction"], tr "phrases.address-created");
        (["claimed"], tr "words.received");
        (["failed"], tr "words.failed")] (tr "words.pending"));
     (["spWithdraw"; "sPV2Withdrawal"], switch (state_type txn)
       [(["dataNotInCache"; "pendingWithdrawal"], tr "words.pending");
        (["failedWithdrawal"], tr "words.failed")] (tr "words.withdrawal"));
     (["oobReceive"], switch (state_type txn)
       [(["created"; "issuing"], tr "words.pending");
        (["done"], tr "words.complete");
        (["failed"], tr "words.failed")] "");
     (["oobCancel"],
       if is_undefined (state_type txn) then tr "words.pending" else
       switch (state_type txn)
       [(["created"; "issuing"], tr "words.pending");
        (["done"], tr "words.canceled");
        (["failed"], tr "words.failed")] "");
     (["sPV2TransferIn"], switch (state_type txn)
       [(["completedTransfer"], switch (state_kind txn)
         [(["multispend"], tr "words.withdrawal")] (tr "words.received"))] (tr "words.pending"));
     (["multispendDeposit"], tr "words.deposit");
     (["multispendWithdrawal"],
       if one_of ["unknown"] (submission_status txn) then tr "words.pending"
       else if in_status "accepted" (submission_status txn) then tr "words.withdrawal"
       else tr "words.failed")]
    (tr "words.unknown").
End Texts.

(** ** Badge and help *)

Definition makeTxnStatusBadge (txn : obj) : TransactionStatusBadge :=
  if one_of ["fiFormationPayment"] (txn_kind txn) then
    if all_seats_paid txn then outgoing else pending
  else if negb (truthy (txn_state txn)) then pending else
  switch (txn_kind txn)
    [(["lnPay"], switch (state_type txn)
       [(["created"; "funded"; "awaitingChange"; "waitingForRefund"], pending);
        (["canceled"], expired);
        (["refunded"; "failed"], failed)] outgoing);
     (["onchainWithdraw"], switch (state_type txn)
       [(["created"], pending); (["failed"], failed)] outgoing);
     (["oobSend"], switch (state_type txn)
       [(["created"; "userCanceledFailure"; "success"], outgoing);
        (["userCanceledSuccess"; "refunded"], failed)] pending);
     (["spDeposit"; "sPV2Deposit"], switch (state_type txn)
       [(["pendingDeposit"; "dataNotInCache"], pending);
        (["completeDeposit"; "completedDeposit"], outgoing)] failed);
     (["sPV2TransferOut"], switch (state_type txn) [(["completedTransfer"], outgoing)] pending);
     (["lnReceive"], switch (state_type txn)
       [(["claimed"], incoming); (["canceled"], expired)] pending);
     (["lnRecurringdReceive"], switch (state_type txn)
       [(["claimed"; "created"], incoming); (["canceled"], expired)] pending);
     (["onchainDeposit"], switch (state_type txn)
       [(["claimed"], incoming); (["failed"], failed)] pending);
     (["spWithdraw"; "sPV2Withdrawal"], switch (state_type txn)
       [(["completeWithdrawal"; "completedWithdrawal"], incoming);
        (["failedWithdrawal"], failed)] pending);
     (["sPV2TransferIn"], switch (state_type txn) [(["completedTransfer"], incoming)] pending);
     (["oobReceive"; "oobCancel"], switch (state_type txn)
       [(["done"], incoming); (["failed"], failed)] pending);
     (["multispendDeposit"], incoming);
     (["multispendWithdrawal"],
       if one_of ["unknown"] (submission_status txn) then pending
       else if in_status "accepted" (submission_status txn) then outgoing
       else if in_status "rejected" (submission_status txn) then failed
       else pending)]
    failed.

Definition TransactionAmountStateMap (badge : TransactionStatusBadge) : TransactionAmountState :=
  match badge with
  | incoming | outgoing => amount_settled
  | pending => amount_pending
  | expired | failed => amount_failed
  end.

Definition makeTransactionAmountState (txn : obj) : TransactionAmountState :=
  TransactionAmountStateMap (makeTxnStatusBadge txn).

Definition getCancellableEcash (txn : obj) : option jval :=
  if negb (one_of ["oobSend"] (txn_kind txn)) || negb (truthy (get "oob_notes" txn)) then None
  else if truthy (opt_prop (get "frontendMetadata" txn) "recipientMatrixId") then None
  else if is_undefined (state_type txn) || one_of ["created"; "success"] (state_type txn)
  then Some (get "oob_notes" txn) else None.

(** A settled state of the kind hides the help. *)
Definition unless_in (labels : list string) (txn : obj) : bool :=
  negb (one_of labels (state_type txn)).

Definition shouldShowAskFedi (txn : obj) : bool :=
  if one_of ["fiFormationPayment"] (txn_kind txn) then false
  else if negb (truthy (txn_state txn)) then true else
  switch (txn_kind txn)
    [(["lnPay"], unless_in ["success"] txn);
     (["lnReceive"; "lnRecurringdReceive"], unless_in ["claimed"] txn);
     (["onchainWithdraw"], unless_in ["succeeded"] txn);
     (["onchainDeposit"], unless_in ["claimed"] txn);
     (["oobSend"], unless_in ["success"; "userCanceledFailure"; "created"] txn);
     (["oobReceive"; "oobCancel"], unless_in ["done"] txn);
     (["spDeposit"], unless_in ["completeDeposit"] txn);
     (["sPV2Deposit"], unless_in ["completedDeposit"] txn);
     (["spWithdraw"], unless_in ["completeWithdrawal"] txn);
     (["sPV2Withdrawal"], unless_in ["completedWithdrawal"] txn);
     (["sPV2TransferIn"; "sPV2TransferOut"], unless_in ["completedTransfer"] txn);
     (["multispendDeposit"], false);
     (["multispendWithdrawal"],
       if one_of ["unknown"] (submission_status txn) then true
       else negb (in_status "accepted" (submission_status txn)))]
    true.

(** ** Amounts and fees *)

Record FormattedAmounts := mkAmounts {
  formattedFiat : string;
  formattedSats : string;
  formattedPrimaryAmount : string;
  formattedSecondaryAmount : string
}.
Record FeeItem := mkFee { fee_label : string; formattedAmount : string }.
Record DetailItem := mkDetail {
  label : string;
  value : jval;
  truncated : bool;
  copyable : bool;
  copiedMessage : option string
}.

(** [status.fedi_fee ?? 0] of a fee that was or will be sent. *)
Definition fee_of (status : jval) : option num :=
  if truthy status && one_of ["success"; "pendingSend"] (opt_prop status "type")
  then Some (to_num (nullish (opt_prop status "fedi_fee") (JNum (of_Z 0)))) else None.
(** [txn[k] ?? 0] *)
Definition fee_field (k : string) (txn : obj) : num :=
  to_num (nullish (get k txn) (JNum (of_Z 0))).
Definition kind_fee (kind k : string) (txn : obj) : option num :=
  if one_of [kind] (txn_kind txn) then Some (fee_field k txn) else None.

(** [total += fee] *)
Definition add_fee (total : num) (fee : option num) : num :=
  match fee with Some f => add total f | None => total end.

Definition getTxnTotalFee (txn : obj) : num :=
  let totalFee := of_Z 0 in
  let totalFee := add_fee totalFee (fee_of (get "fediAppFeeStatus" txn)) in
  let totalFee := add_fee totalFee (fee_of (get "fediGuardianFeeStatus" txn)) in
  let totalFee := add_fee totalFee (kind_fee "lnPay" "lightning_fees" txn) in
  let totalFee := add_fee totalFee (kind_fee "onchainWithdraw" "onchain_fees" txn) in
  add_fee totalFee (kind_fee "onchainDeposit" "peg_in_fees" txn).

Definition getTxnDisplayAmount (txn : obj) : num :=
  if negb (one_of ["onchainWithdraw"] (txn_kind txn)) then txn_num "amount" txn
  else add (txn_num "amount" txn) (getTxnTotalFee txn).

Definition waiting_deposit (txn : obj) : bool :=
  one_of ["onchainDeposit"] (txn_kind txn) && one_of ["waitingForTransaction"] (state_type txn).

Definition makeTxnSign (txn : obj) (flipSign : bool) : string :=
  let direction := getTxnDirection txn in
  let isTransfer := one_of ["sPV2TransferIn"; "sPV2TransferOut"] (txn_kind txn) in
  let isPlus := if negb (flipSign && negb isTransfer) then bool_decide (direction = receive)
                else bool_decide (direction = send) in
  let s := if isPlus then "+" else "-" in
  let s := if waiting_deposit txn then "~" else s in
  if one_of ["lnPay"; "lnReceive"; "lnRecurringdReceive"] (txn_kind txn) &&
     one_of ["canceled"] (state_type txn) then "" else s.

(** [str.split(' ')]: the first two parts. *)
Fixpoint split_space (s : string) : string * option string :=
  match s with
  | EmptyString => (EmptyString, None)
  | String c s =>
      if decide (c = " "%char) then (EmptyString, Some (split_space s).1)
      else let '(w, rest) := split_space s in (String c w, rest)
  end.

(** The value in cents a stable balance transaction keeps of its own. *)
Definition fiat_cents (txn : obj) : option num :=
  let cents k := Some (to_num (opt_prop (txn_state txn) k)) in
  let kind := txn_kind txn in
  if one_of ["spWithdraw"] kind && truthy (txn_state txn) then cents "estimated_withdrawal_cents"
  else if one_of ["sPV2Withdrawal"] kind &&
          one_of ["pendingWithdrawal"; "completedWithdrawal"] (state_type txn)
  then cents "fiat_amount"
  else if one_of ["spDeposit"] kind && one_of ["completeDeposit"] (state_type txn)
  then cents "initial_amount_cents"
  else if one_of ["sPV2Deposit"] kind &&
          one_of ["pendingDeposit"; "completedDeposit"] (state_type txn)
  then cents "fiat_amount"
  else if one_of ["sPV2TransferIn"; "sPV2TransferOut"] kind &&
          one_of ["completedTransfer"] (state_type txn)
  then cents "fiat_amount"
  else None.

(** [fiat]: whether the display shows fiat rather than sats.  A formatter takes
    the position of the symbol. *)
Definition makeTxnAmountText (txn : obj) (fiat flipSign includeCurrency : bool)
    (preferredCurrency : string)
    (makeFormattedAmountsFromMSats : num -> string -> FormattedAmounts)
    (convertCentsToFormattedFiat : num -> string -> string)
    (convertSatsToFormattedFiat : num -> string -> jval -> string) : string :=
  let amount := getTxnDisplayAmount txn in
  let '(amt, satsSymbol) :=
    split_space (formattedSats (makeFormattedAmountsFromMSats amount "end")) in
  let sign := makeTxnSign txn flipSign in
  let currency := if fiat then preferredCurrency else default "undefined" satsSymbol in
  let '(formattedAmount, currency) :=
    if fiat then
      if truthy (get "txDateFiatInfo" txn) then
        (convertSatsToFormattedFiat (msatToSat amount) "none" (get "txDateFiatInfo" txn),
         to_str (opt_prop (get "txDateFiatInfo" txn) "fiatCode"))
      else
        (match fiat_cents txn with
         | Some cents => convertCentsToFormattedFiat cents "none"
         | None => formattedFiat (makeFormattedAmountsFromMSats amount "none")
         end, currency)
    else (amt, currency) in
  let formattedAmount := if waiting_deposit txn then "" else formattedAmount in
  sign +:+ formattedAmount +:+ (if includeCurrency then " " +:+ currency else "").

Section Details.
Context (t : string -> list (string * string) -> string).
Context (makeFormattedAmountsFromMSats : num -> FormattedAmounts).

(** A row of fees. *)
Definition fee_item (key : string) (fee : num) : FeeItem :=
  let a := makeFormattedAmountsFromMSats fee in
  mkFee (tr t key) (formattedPrimaryAmount a +:+ " (" +:+ formattedSecondaryAmount a +:+ ")").

(** [if (...) items.push(...)] *)
Definition push_fee (key : string) (fee : option num) : list FeeItem :=
  match fee with Some f => [fee_item key f] | None => [] end.

Definition makeTxnFeeDetails (txn : obj) : list FeeItem :=
  push_fee "phrases.fedi-fee" (fee_of (get "fediAppFeeStatus" txn)) ++
  push_fee "phrases.federation-fee" (fee_of (get "fediGuardianFeeStatus" txn)) ++
  push_fee "phrases.lightning-network" (kind_fee "lnPay" "lightning_fees" txn) ++
  push_fee "phrases.network-fee" (kind_fee "onchainWithdraw" "onchain_fees" txn) ++
  push_fee "phrases.peg-in-fee" (kind_fee "onchainDeposit" "peg_in_fees" txn) ++
  [fee_item "phrases.total-fees" (getTxnTotalFee txn)].

(** [txn.state.fees_paid_so_far ?? 0] of a completed deposit that has it. *)
Definition fees_paid (txn : obj) : option num :=
  if one_of ["spDeposit"; "sPV2Deposit"] (txn_kind txn) &&
     one_of ["completeDeposit"; "completedDeposit"] (state_type txn) &&
     in_status "fees_paid_so_far" (txn_state txn)
  then Some (to_num (nullish (opt_prop (txn_state txn) "fees_paid_so_far") (JNum (of_Z 0))))
  else None.

Definition makeStabilityTxnFeeDetails (txn : obj) : list FeeItem :=
  let app := fee_of (get "fediAppFeeStatus" txn) in
  let guardian := fee_of (get "fediGuardianFeeStatus" txn) in
  let paid := fees_paid txn in
  push_fee "phrases.fedi-fee" app ++
  push_fee "phrases.federation-fee" guardian ++
  push_fee "feature.stabilitypool.fees-paid" paid ++
  [fee_item "phrases.total-fees" (add_fee (add_fee (add_fee (of_Z 0) app) guardian) paid)].

(** dateUtils.formatTimestamp *)
Context (formatTimestamp : num -> string -> string).
Context (convertCentsToFormattedFiat : num -> string).

Definition plain (key : string) (v : string) : DetailItem :=
  mkDetail (tr t key) (JStr v) false false None.
Definition copied (key : string) (v : jval) (message : string) : DetailItem :=
  mkDetail (tr t key) v true true (Some (tr t message)).
Definition timeFormat : string := "MMM dd yyyy, h:mmaaa".

(** [if (b) items.push(item)] *)
Definition push_if (b : bool) (item : DetailItem) : list DetailItem := if b then [item] else [].

(** The value in fiat at the time, of a state that has it. *)
Definition historical_value (txn : obj) : list DetailItem :=
  let row k := [plain "feature.stabilitypool.withdrawal-value"
    (convertCentsToFormattedFiat (to_num (opt_prop (txn_state txn) k)))] in
  if in_status "estimated_withdrawal_cents" (txn_state txn) then row "estimated_withdrawal_cents"
  else if in_status "initial_amount_cents" (txn_state txn) then row "initial_amount_cents"
  else [].

Definition currency_balance (currency : string) : string :=
  t "feature.stabilitypool.currency-balance" [("currency", getCurrencyCode currency)].

(** [currency] is the default USD when the screen passes none. *)
Definition makeTxnDetailItems (txn : obj) (currency : string) (sats : bool) : list DetailItem :=
  let kind := txn_kind txn in
  [plain "words.type" (makeTxnTypeText t txn);
   plain "words.status" (makeTxnStatusText t txn);
   plain "words.time" (formatTimestamp (txn_num "createdAt" txn) timeFormat)] ++
  (if negb (isGuardianRemittanceWithdrawal txn) &&
      one_of ["spWithdraw"; "spDeposit"; "sPV2Withdrawal"; "sPV2Deposit"] kind
   then plain "feature.stabilitypool.current-value"
          (formattedFiat (makeFormattedAmountsFromMSats (txn_num "amount" txn))) ::
        (if sats && truthy (txn_state txn) then historical_value txn else [])
   else []) ++
  push_if (one_of ["lnReceive"; "lnPay"; "lnRecurringdReceive"] kind && has "ln_invoice" txn)
    (copied "phrases.lightning-request" (get "ln_invoice" txn)
      "phrases.copied-lightning-request") ++
  push_if (one_of ["lnPay"] kind && one_of ["success"] (state_type txn) &&
           in_status "preimage" (txn_state txn))
    (copied "words.preimage" (opt_prop (txn_state txn) "preimage")
      "phrases.copied-to-clipboard") ++
  (if one_of ["onchainDeposit"; "onchainWithdraw"] kind then
     push_if (has "onchain_address" txn)
       (copied (if one_of ["waitingForTransaction"] (state_type txn) then "words.address"
                else "words.to")
         (get "onchain_address" txn) "phrases.copied-bitcoin-address") ++
     push_if (in_status "txid" (txn_state txn))
       (copied "phrases.transaction-id" (opt_prop (txn_state txn) "txid")
         "phrases.copied-transaction-id") ++
     push_if (in_status "error" (txn_state txn))
       (mkDetail (tr t "words.reason") (opt_prop (txn_state txn) "error") false false None)
   else []) ++
  (if one_of ["spDeposit"; "sPV2Deposit"] kind
   then [plain "feature.stabilitypool.deposit-to" (currency_balance currency)]
   else push_if (one_of ["spWithdraw"] kind ||
                 one_of ["sPV2Withdrawal"] kind && negb (isGuardianRemittanceWithdrawal txn))
     (plain "feature.stabilitypool.withdrawal-from" (currency_balance currency))).

Definition makeStabilityTxnDetailTitleText (txn : obj) : string :=
  let kind := txn_kind txn in
  if one_of ["spDeposit"; "sPV2Deposit"] kind then tr t "feature.stabilitypool.you-deposited"
  else if one_of ["sPV2TransferOut"] kind then
    if isMultispendTransfer txn then tr t "feature.stabilitypool.you-deposited"
    else tr t "feature.send.you-sent"
  else if one_of ["spWithdraw"; "sPV2Withdrawal"] kind
  then tr t "feature.stabilitypool.you-withdrew"
  else if one_of ["sPV2TransferIn"] kind then
    if isMultispendTransfer txn then tr t "feature.stabilitypool.you-withdrew"
    else tr t "feature.receive.you-received"
  else tr t "words.unknown".

Definition makeStabilityTxnDetailItems (txn : obj) : list DetailItem :=
  let kind := txn_kind txn in
  let row key := [plain key (formattedSats (makeFormattedAmountsFromMSats (txn_num "amount" txn)))] in
  (if bool_decide (get "amount" txn = JNum (of_Z 0)) then []
   else if one_of ["spDeposit"; "sPV2Deposit"] kind
   then row "feature.stabilitypool.deposit-amount"
   else if one_of ["sPV2TransferIn"] kind then
     if isMultispendTransfer txn then row "feature.stabilitypool.deposit-amount"
     else row "feature.stabilitypool.transfer-amount"
   else if one_of ["spWithdraw"; "sPV2Withdrawal"] kind
   then row "feature.stabilitypool.withdrawal-amount"
   else if one_of ["sPV2TransferOut"] kind then
     if isMultispendTransfer txn then row "feature.stabilitypool.withdrawal-amount"
     else row "feature.stabilitypool.transfer-amount"
   else []) ++
  [plain "words.status" (makeTxnStatusText t txn);
   plain "words.time" (formatTimestamp (txn_num "createdAt" txn) timeFormat)].
End Details.

Definition coerceTxn (txn : obj) : obj :=
  set_prop "createdAt" (jor (get "outcomeTime" txn) (JNum (of_Z 0))) txn.

(** ** Transactions of a multispend group *)

(** The common fields, with the event of the group as the state. *)
Record MultispendTransactionListEntry := mkMultispendTxn {
  ms_createdAt : num;
  ms_id : string;
  ms_counter : num;
  ms_time : num;
  ms_state : MultispendListedEvent;
  ms_kind : string
}.

(** The fields that are the same for every event are left out. *)
Definition coerceMultispendTxn (ev : MultispendListedEvent) : MultispendTransactionListEntry :=
  mkMultispendTxn (MatrixEvents.time ev) (eventId ev) (MatrixEvents.counter ev)
    (MatrixEvents.time ev) ev
    (if isMultispendDepositEvent ev then "multispendDeposit" else "multispendWithdrawal").

(** The three submission statuses are all there are, so what the code does
    after them, asking whether the votes reject the withdrawal, is never
    reached. *)
Definition makeMultispendTxnStatusText (t : string -> list (string * string) -> string)
    (txn : MultispendTransactionListEntry) (multispendStatus : option RpcMultispendGroupStatus)
    (csvExport : bool) : string :=
  match multispendStatus with
  | Some (finalized _ _ _ as status) =>
      match event (ms_state txn) with
      | depositNotification _ => if csvExport then tr t "words.complete" else tr t "words.deposit"
      | withdrawalRequest w =>
          match txSubmissionStatus w with
          | tx_unknown => tr t "words.pending"
          | tx_accepted _ =>
              if csvExport then tr t "words.complete" else tr t "words.withdrawal"
          | tx_rejected _ => tr t "words.failed"
          end
      | _ => tr t "words.unknown"
      end
  | _ => tr t "words.unknown"
  end.

Section Members.
(** The hash the display names are told apart with. *)
Context (toSha256EncHex : string -> string).

Definition SUFFIX_LENGTH : nat := 4.

Definition getUserSuffix (id : string) : string :=
  let hash := toSha256EncHex id in
  "#" +:+ String.substring (String.length hash - SUFFIX_LENGTH) (String.length hash) hash.

Definition makeNameWithSuffix (user : obj) : string :=
  to_str (get "displayName" user) +:+ " " +:+ getUserSuffix (to_str (id_of user)).

Definition find_member (userId : string) (roomMembers : list obj) : option obj :=
  head (filter (fun m => id_of m = JStr userId) roomMembers).

Definition findUserDisplayName (userId : string) (roomMembers : list obj) : string :=
  match find_member userId roomMembers with
  | Some user => makeNameWithSuffix user
  | None => userId
  end.

Definition makeMultispendTxnDetailItems (t : string -> list (string * string) -> string)
    (formatTimestamp : num -> string -> string) (convertCentsToFormattedFiat : num -> string)
    (txn : MultispendTransactionListEntry) (roomMembers : list obj) : list DetailItem :=
  let person key user :=
    match find_member user roomMembers with
    | Some m => push_if (truthy (get "displayName" m)) (plain t key (makeNameWithSuffix m))
    | None => []
    end in
  let amount cents :=
    push_if (num_truthy cents) (plain t "words.amount" (convertCentsToFormattedFiat cents)) in
  [plain t "words.type" (tr t "words.multispend");
   plain t "words.time"
     (formatTimestamp (to_fixed_num (div (ms_time txn) (of_Z 1000)) 0) timeFormat)] ++
  match event (ms_state txn) with
  | depositNotification d => person "words.depositor" (d_user d) ++ amount (d_fiatAmount d)
  | withdrawalRequest w => person "words.withdrawer" (w_sender w) ++ amount (transfer_amount w)
  | _ => []
  end.
End Members.

(** ** The slice *)

Record FederationTransactionsState := mkTxs { transactions : list obj }.
Definition initialTransactionsState : FederationTransactionsState := mkTxs [].
(** Keyed by federation. *)
Definition TransactionsState : Type := list (string * FederationTransactionsState).
Definition transactions_initialState : TransactionsState := [].

Definition getFederationTxsState (s : TransactionsState) (federationId : string)
    : FederationTransactionsState :=
  default initialTransactionsState (lookup_prop federationId s).

Definition updateSingleTransaction (transaction : obj) (oldTransactions : list obj) : list obj :=
  (fun t => if bool_decide (id_of t = id_of transaction) then spread t transaction else t)
    <$> oldTransactions.

(** What a call of the bridge to list transactions asks for. *)
Record list_request := mkListRequest { startTime : option num; limit : option num }.

Section Slice.
(** lodash's [orderBy(transactions, 'createdAt', 'desc')]. *)
Context (orderByCreatedAt : list obj -> list obj).

Definition updateTransactions (newTransactions oldTransactions : list obj) : list obj :=
  let transactionMap := foldl (fun m tx => map_set id_of tx m) [] newTransactions in
  let transactionMap := foldl (map_add id_of) transactionMap oldTransactions in
  orderByCreatedAt transactionMap.

Definition set_transactions (federationId : string) (txs : list obj) (s : TransactionsState)
    : TransactionsState := set_prop federationId (mkTxs txs) s.

Definition updateTransaction (federationId : string) (transaction : obj) (s : TransactionsState)
    : TransactionsState :=
  let fedTxState := getFederationTxsState s federationId in
  set_transactions federationId
    (updateSingleTransaction transaction (transactions fedTxState)) s.

Definition fetchTransactions_fulfilled (federationId : string) (refresh : bool)
    (payload : list obj) (s : TransactionsState) : TransactionsState :=
  let fedTxState := getFederationTxsState s federationId in
  set_transactions federationId
    (updateTransactions payload (if refresh then [] else transactions fedTxState)) s.

Definition updateTransactionNotes_fulfilled (federationId : string) (transactionId notes : string)
    (s : TransactionsState) : TransactionsState :=
  let fedTxState := getFederationTxsState s federationId in
  match find_key id_of (JStr transactionId) (transactions fedTxState) with
  | None => s
  | Some existingTransaction =>
      set_transactions federationId
        (updateTransactions [set_prop "txnNotes" (JStr notes) existingTransaction]
          (transactions fedTxState)) s
  end.

Inductive txs_action : Type :=
  | UpdateTransaction (federationId : string) (transaction : obj)
  | FetchTransactions (federationId : string) (refresh : bool) (payload : list obj)
  | UpdateTransactionNotes (federationId transactionId notes : string).

Definition txs_reduce (s : TransactionsState) (a : txs_action) : TransactionsState :=
  match a with
  | UpdateTransaction f tx => updateTransaction f tx s
  | FetchTransactions f r p => fetchTransactions_fulfilled f r p s
  | UpdateTransactionNotes f id n => updateTransactionNotes_fulfilled f id n s
  end.

(** *** The thunk *)

(** The request: [more] continues after the oldest transaction listed; a
    timestamp or a limit of 0 counts as none. *)
Definition truthy_num (n : num) : option num := if num_truthy n then Some n else None.
Definition fetch_request (s : TransactionsState) (federationId : string) (limit : num)
    (more : bool) : list_request :=
  let cachedTransactions := transactions (getFederationTxsState s federationId) in
  let paginationTimestamp :=
    if more then txn ← last cachedTransactions; truthy_num (txn_num "createdAt" txn) else None in
  mkListRequest (paginationTimestamp ≫= truthy_num) (truthy_num limit).

(** A recurring payment that nobody has paid yet. *)
Definition unclaimed_recurring (txn : obj) : bool :=
  one_of ["lnRecurringdReceive"] (txn_kind txn) && negb (one_of ["claimed"] (state_type txn)).

(** The transactions of an answer: [{ Ok: txn }] or [{ Err: message }] each. *)
Definition fetched (answer : list obj) : list obj :=
  let txns := omap (fun entry =>
    match lookup_prop "Ok" entry with Some (JObj txn) => Some txn | _ => None end) answer in
  filter (fun txn => negb (unclaimed_recurring txn)) txns.

(** The thunk with its completion; the bridge is asked once. *)
Definition fetchTransactions (listTransactions : list_request -> list obj) (federationId : string)
    (limit : num) (more refresh : bool) (s : TransactionsState) : TransactionsState :=
  txs_reduce s (FetchTransactions federationId refresh
    (fetched (listTransactions (fetch_request s federationId limit more)))).
End Slice.

Definition selectTransactions (s : TransactionsState) (federationId : string) : list obj :=
  transactions (getFederationTxsState s federationId).

Definition isStabilityTransactionHistoryEntry (txn : obj) : bool :=
  if one_of ["sPV2Withdrawal"] (txn_kind txn) && truthy (get "guardian_remittance" txn) then false
  else one_of ["spDeposit"; "spWithdraw"; "sPV2Deposit"; "sPV2Withdrawal"; "sPV2TransferOut";
               "sPV2TransferIn"] (txn_kind txn).

Definition selectStabilityTransactionHistory (s : TransactionsState) (federationId : string)
    : list obj :=
  filter (fun txn => isStabilityTransactionHistoryEntry txn) (selectTransactions s federationId).

(** ** What the screens of one transaction agree on *)

(** The kinds whose state the bridge may leave out, and the states of each
    kind, as the types it generates list them. *)
Definition stateless_kinds : list string :=
  ["lnPay"; "lnReceive"; "lnRecurringdReceive"; "onchainWithdraw"; "onchainDeposit"; "oobSend";
   "oobReceive"; "oobCancel"; "spWithdraw"].

Definition kind_states : list (string * list string) :=
  let receives := ["created"; "waitingForPayment"; "canceled"; "funded"; "awaitingFunds"; "claimed"] in
  let reissues := ["created"; "issuing"; "done"; "failed"] in
  let transfers := ["completedTransfer"; "dataNotInCache"] in
  [("lnPay", ["created"; "canceled"; "funded"; "waitingForRefund"; "awaitingChange"; "success";
              "refunded"; "failed"]);
   ("lnReceive", receives); ("lnRecurringdReceive", receives);
   ("onchainWithdraw", ["created"; "succeeded"; "failed"]);
   ("onchainDeposit", ["waitingForTransaction"; "waitingForConfirmation"; "confirmed"; "claimed";
                       "failed"]);
   ("oobSend", ["created"; "userCanceledProcessing"; "userCanceledSuccess"; "userCanceledFailure";
                "refunded"; "success"]);
   ("oobReceive", reissues); ("oobCancel", reissues);
   ("spDeposit", ["pendingDeposit"; "completeDeposit"; "dataNotInCache"]);
   ("spWithdraw", ["pendingWithdrawal"; "completeWithdrawal"]);
   ("sPV2Deposit", ["pendingDeposit"; "completedDeposit"; "failedDeposit"; "dataNotInCache"]);
   ("sPV2Withdrawal", ["pendingWithdrawal"; "completedWithdrawal"; "failedWithdrawal";
                       "dataNotInCache"]);
   ("sPV2TransferOut", transfers); ("sPV2TransferIn", transfers)].

(** Exactly one of the two objects a submission can end in. *)
Definition submitted (v : jval) : Prop := in_status "accepted" v = negb (in_status "rejected" v).

Inductive typed_txn (txn : obj) : Prop :=
  | typed_formation : txn_kind txn = JStr "fiFormationPayment" -> typed_txn txn
  | typed_stateless k : k ∈ stateless_kinds -> txn_kind txn = JStr k ->
      txn_state txn = JNull -> typed_txn txn
  | typed_state k tys ty o : (k, tys) ∈ kind_states -> ty ∈ tys -> txn_kind txn = JStr k ->
      txn_state txn = JObj o -> get "type" o = JStr ty -> typed_txn txn
  | typed_deposit o : txn_kind txn = JStr "multispendDeposit" -> txn_state txn = JObj o ->
      typed_txn txn
  | typed_withdrawal o : txn_kind txn = JStr "multispendWithdrawal" -> txn_state txn = JObj o ->
      (submission_status txn = JStr "unknown" \/ submitted (submission_status txn)) ->
      typed_txn txn.

(** The texts of a transaction whose outcome is open. *)
Definition pending_texts : list string :=
  ["words.pending"; "phrases.refund-pending"; "phrases.address-created"].

Definition settled (txn : obj) : bool :=
  match makeTxnStatusBadge txn with incoming | outgoing => true | _ => false end.

(** The recurring payments that the badge and the status count as received
    although their state is only [created]. *)
Definition stuck_recurring (txn : obj) : bool :=
  one_of ["lnRecurringdReceive"] (txn_kind txn) && one_of ["created"] (state_type txn).

(** The status text as a key. *)
Definition status_key (txn : obj) : string := makeTxnStatusText (fun key _ => key) txn.

Record screens_agree_on (txn : obj) : Prop := {
  agree_in : makeTxnStatusBadge txn = incoming -> getTxnDirection txn = receive;
  agree_out : makeTxnStatusBadge txn = outgoing -> getTxnDirection txn = send;
  agree_text : makeTxnStatusBadge txn = pending <-> status_key txn ∈ pending_texts;
  agree_help : one_of ["fiFormationPayment"] (txn_kind txn) = false ->
    shouldShowAskFedi txn = negb (settled txn) || stuck_recurring txn;
  agree_cancel : is_Some (getCancellableEcash txn) ->
    getTxnDirection txn = send /\ (settled txn || negb (truthy (txn_state txn))) = true
}.

(** The same as a decision. *)
Definition is_badge (txn : obj) (b : TransactionStatusBadge) : bool :=
  bool_decide (makeTxnStatusBadge txn = b).

Definition screens_agreeb (txn : obj) : bool :=
  implb (is_badge txn incoming) (bool_decide (getTxnDirection txn = receive)) &&
  implb (is_badge txn outgoing) (bool_decide (getTxnDirection txn = send)) &&
  Bool.eqb (is_badge txn pending) (existsb (String.eqb (status_key txn)) pending_texts) &&
  implb (negb (one_of ["fiFormationPayment"] (txn_kind txn)))
    (Bool.eqb (shouldShowAskFedi txn) (negb (settled txn) || stuck_recurring txn)) &&
  match getCancellableEcash txn with
  | Some _ => bool_decide (getTxnDirection txn = send) &&
              (settled txn || negb (truthy (txn_state txn)))
  | None => true
  end.

Lemma screens_agreeb_spec txn : screens_agreeb txn = true -> screens_agree_on txn.
Proof.
  unfold screens_agreeb, is_badge. rewrite !andb_true_iff, !implb_true_iff, !Bool.eqb_true_iff.
  rewrite !bool_decide_eq_true. intros [[[[I O] T] H] C]. constructor.
  - exact I.
  - exact O.
  - rewrite <- (bool_decide_eq_true (makeTxnStatusBadge txn = pending)), T, existsb_exists.
    split; [intros (x & Hx & ->%String.eqb_eq) | intros Hx; eexists; split].
    + by apply list_elem_of_In.
    + by apply list_elem_of_In.
    + apply String.eqb_refl.
  - intros F. rewrite F in H. by apply H.
  - intros [e E]. rewrite E in C. apply andb_true_iff in C as [D S].
    split; [by apply bool_decide_eq_true in D | done].
Qed.

(** Case analysis on the labels of the tables. *)
Ltac each_label :=
  repeat match goal with
  | H : _ ∈ [] |- _ => by apply not_elem_of_nil in H
  | H : _ ∈ _ :: _ |- _ => apply elem_of_cons in H as [H|H]; [subst|]
  | H : (_, _) = (_, _) |- _ => injection H as -> ->
  end.

(** Forget what is read of a transaction besides its kind and its state. *)
Ltac forget txn :=
  generalize (all_seats_paid txn) (get "oob_notes" txn) (truthy (get "oob_notes" txn))
    (truthy (opt_prop (get "frontendMetadata" txn) "recipientMatrixId")) (submission_status txn).
Ltac screens :=
  unfold screens_agreeb, is_badge, settled, status_key, stuck_recurring, makeTxnStatusBadge,
    makeTxnStatusText, shouldShowAskFedi, getCancellableEcash, getTxnDirection, unless_in,
    state_type, state_kind.
Ltac decide_screen :=
  intros; vm_compute;
  repeat match goal with |- context [match ?b with _ => _ end] => is_var b; destruct b end;
  reflexivity.

Lemma screens_decided txn : typed_txn txn -> screens_agreeb txn = true.
Proof.
  intros [K | k L K S | k tys ty o L T K S Y | o K S | o K S P]; screens; rewrite ?K, ?S.
  - forget txn. decide_screen.
  - forget txn. intros. unfold stateless_kinds in L. each_label; decide_screen.
  - forget txn. cbn [opt_prop switch]. rewrite ?Y.
    generalize (is_label (get "kind" o) ["multispend"]). intros. clear Y K S.
    unfold kind_states in L. each_label; decide_screen.
  - forget txn. cbn [opt_prop]. generalize (get "type" o). decide_screen.
  - destruct P as [-> | P]; [forget txn; decide_screen|]. unfold submitted, in_status in P.
    unfold in_status. destruct (submission_status txn); try done.
    revert P. generalize (has "accepted" o0) (has "rejected" o0). intros ? ? ->.
    forget txn. decide_screen.
Qed.

(** The screens agree on what became of a transaction, for every kind and
    state the bridge sends: a badge for money in or out is only on a
    transaction of that direction; the badge is pending exactly when the
    status text is that of an open outcome; help is offered exactly while
    nothing was settled, the recurring payments that count as received in the
    state [created] excepted; and ecash that can be canceled was sent, and is
    either shown as sent or has no state yet. *)
Theorem screens_agree txn : typed_txn txn -> screens_agree_on txn.
Proof. intros T. by apply screens_agreeb_spec, screens_decided. Qed.

(** A payment received over Lightning. *)
Lemma screens_agree_witness :
  let txn := [("kind", JStr "lnReceive"); ("state", JObj [("type", JStr "claimed")])] in
  screens_agree_on txn /\ makeTxnStatusBadge txn = incoming.
Proof.
  split; [|reflexivity]. apply screens_agree. eapply (typed_state _ "lnReceive" _ "claimed").
  - right. left.
  - do 5 right. left.
  - reflexivity.
  - reflexivity.
  - reflexivity.
Defined.

(** ** Fees *)

(** The fees of a transaction, in the order of the rows that show them. *)
Definition fees_of (fees : list (string * option num)) : list (string * num) :=
  omap (fun kf => f ← kf.2; Some (kf.1, f)) fees.
Definition total (fees : list (string * num)) : num := foldl add (of_Z 0) fees.*2.

Section Fees.
Context (t : string -> list (string * string) -> string).
Context (makeFormattedAmountsFromMSats : num -> FormattedAmounts).
Let item (kf : string * num) : FeeItem := fee_item t makeFormattedAmountsFromMSats kf.1 kf.2.
Let push (kf : string * option num) := push_fee t makeFormattedAmountsFromMSats kf.1 kf.2.

Lemma push_fees fees : fees ≫= push = item <$> fees_of fees.
Proof.
  induction fees as [|[k [f|]] fees IH]; [done | |]; cbn; by rewrite IH.
Qed.

Lemma total_fees fees n : foldl add_fee n fees.*2 = foldl add n (fees_of fees).*2.
Proof. revert n. induction fees as [|[k [f|]] fees IH]; intros n; [done | |]; cbn; apply IH. Qed.

(** The rows of fees add up: in the details of any transaction, and in
    those of a transaction of the stable balance, every row but the last is one
    of its fees, and the last row is their sum, in the arithmetic of doubles;
    the amount shown of an on-chain payment has the same sum on top. *)
Theorem fees_add_up txn :
  let rows fees := (item <$> fees) ++ [item ("phrases.total-fees", total fees)] in
  (exists fees, makeTxnFeeDetails t makeFormattedAmountsFromMSats txn = rows fees /\
     (one_of ["onchainWithdraw"] (txn_kind txn) = true ->
      getTxnDisplayAmount txn = add (txn_num "amount" txn) (total fees))) /\
  (exists fees, makeStabilityTxnFeeDetails t makeFormattedAmountsFromMSats txn = rows fees).
Proof.
  intros rows.
  pose (app := ("phrases.fedi-fee", fee_of (get "fediAppFeeStatus" txn))).
  pose (guardian := ("phrases.federation-fee", fee_of (get "fediGuardianFeeStatus" txn))).
  pose (lightning := ("phrases.lightning-network", kind_fee "lnPay" "lightning_fees" txn)).
  pose (network := ("phrases.network-fee", kind_fee "onchainWithdraw" "onchain_fees" txn)).
  pose (peg := ("phrases.peg-in-fee", kind_fee "onchainDeposit" "peg_in_fees" txn)).
  pose (paid := ("feature.stabilitypool.fees-paid", fees_paid txn)).
  set (fees := [app; guardian; lightning; network; peg]). set (stable := [app; guardian; paid]).
  assert (T : getTxnTotalFee txn = total (fees_of fees)).
  { unfold total. by rewrite <- total_fees. }
  split; [exists (fees_of fees); split | exists (fees_of stable)]; unfold rows.
  - rewrite <- push_fees, <- T. cbn [mbind list_bind fees push]. unfold makeTxnFeeDetails.
    by rewrite app_nil_r, <- !(assoc_L (++)).
  - intros K. unfold getTxnDisplayAmount. by rewrite K, T.
  - rewrite <- push_fees. unfold total. rewrite <- total_fees.
    cbn [mbind list_bind stable push]. unfold makeStabilityTxnFeeDetails.
    by rewrite app_nil_r, <- !(assoc_L (++)).
Qed.
End Fees.

(** A withdrawal that the votes rejected is shown as pending: while its
    submission status is unknown the code does not ask for the votes. *)
Theorem voted_down_shows_pending t ev w id i proposer csvExport :
  event ev = withdrawalRequest w -> txSubmissionStatus w = tx_unknown ->
  isMultispendWithdrawalRejected w (finalized id i proposer) = true ->
  makeMultispendTxnStatusText t (coerceMultispendTxn ev) (Some (finalized id i proposer)) csvExport
    = tr t "words.pending".
Proof. intros E S _. unfold makeMultispendTxnStatusText. cbn. by rewrite E, S. Qed.

(** The withdrawal of [example_withdrawal], which two of three signers
    rejected. *)
Lemma voted_down_shows_pending_witness :
  let ev := mkListed (of_Z 1) (of_Z 0) (withdrawalRequest example_withdrawal) "$w" in
  isMultispendWithdrawalRejected example_withdrawal example_group = true /\
  makeMultispendTxnStatusText (fun key _ => key) (coerceMultispendTxn ev) (Some example_group) false
    = "words.pending".
Proof.
  split; [reflexivity|].
  by apply (voted_down_shows_pending (fun key _ => key) (mkListed (of_Z 1) (of_Z 0)
    (withdrawalRequest example_withdrawal) "$w") example_withdrawal).
Defined.
