(* ===== verification/TransactionHistory.v ===== *)
(** The history of transactions: theorems on the slice of Transactions.v.

    In every reachable state a history lists each transaction once, newest
    first.  The bridge pages its log of operations; paging through it reaches every
    transaction exactly when the log never has as many operations in a row that are
    not listed as a page is long, if no two operations are of the same second. *)
From Stdlib Require Import ZArith Lia Sorted.
From stdpp Require Import base tactics strings list option sets sorting relations.
From S2P Require Import Prelude JsNum Js Upsert KeyedMap Transactions.
Local Open Scope string_scope.
Local Open Scope list_scope.
Local Open Scope Z_scope.

(** A transaction with a time of creation, in seconds. *)
Definition created_at (n : Z) (txn : obj) : Prop :=
  0 < n /\ safe n /\ get "createdAt" txn = JNum (of_Z n).
Definition dated (txn : obj) : Prop := exists n, created_at n txn.

(** [a] may be listed before [b]. *)
Definition newer (a b : obj) : bool := leb (txn_num "createdAt" b) (txn_num "createdAt" a).
Definition newest_first : list obj -> Prop := StronglySorted (fun a b => newer a b = true).

Lemma created_num n txn : created_at n txn -> txn_num "createdAt" txn = of_Z n.
Proof. intros (_ & _ & E). unfold txn_num. by rewrite E. Qed.

Lemma newer_created n m a b : created_at n a -> created_at m b -> newer a b = true <-> m <= n.
Proof.
  intros A B. unfold newer. rewrite (created_num n a A), (created_num m b B).
  destruct A as (_ & Sn & _), B as (_ & Sm & _). rewrite leb_int by done. apply Z.leb_le.
Qed.

(** ** Well-formed histories *)

Record history_ok (l : list obj) : Prop := {
  history_once : NoDup (id_of <$> l);
  history_dated : Forall dated l;
  history_sorted : newest_first l
}.

Definition txs_ok (s : TransactionsState) : Prop :=
  forall f, history_ok (selectTransactions s f).

(** What the payload of an action satisfies: the bridge dates the entries of a
    list, and the update of a transaction is an object with an id but no date. *)
Definition action_ok (a : txs_action) : Prop :=
  match a with
  | UpdateTransaction _ txn =>
      wf_obj txn /\ lookup_prop "id" txn <> None /\ lookup_prop "createdAt" txn = None
  | FetchTransactions _ _ payload => Forall dated payload
  | UpdateTransactionNotes _ _ _ => True
  end.

Lemma history_nil : history_ok [].
Proof. repeat constructor. Qed.

Lemma selectTransactions_set s f f' txs :
  selectTransactions (set_transactions f txs s) f' =
    if decide (f' = f) then txs else selectTransactions s f'.
Proof.
  unfold selectTransactions, getFederationTxsState, set_transactions. case_decide as E.
  - by rewrite E, lookup_set_eq.
  - by rewrite lookup_set_ne.
Qed.

Lemma set_transactions_ok s f txs : txs_ok s -> history_ok txs -> txs_ok (set_transactions f txs s).
Proof. intros S T f'. rewrite selectTransactions_set. case_decide; [done | apply S]. Qed.

(** An update of the fields other than the id and the date. *)
Lemma history_map g l :
  (forall x, x ∈ l -> id_of (g x) = id_of x /\ get "createdAt" (g x) = get "createdAt" x) ->
  history_ok l -> history_ok (g <$> l).
Proof.
  intros G [N D S]. rewrite list.Forall_forall in D. constructor.
  - replace (id_of <$> (g <$> l)) with (id_of <$> l); [done|]. rewrite <- list_fmap_compose.
    apply list_fmap_ext. intros i x Hx. symmetry. apply G, list_elem_of_lookup. by eexists.
  - apply list.Forall_fmap, list.Forall_forall. intros x Hx. destruct (D x Hx) as (n & P & B & E).
    exists n. split_and!; try done. by rewrite (proj2 (G x Hx)).
  - unfold newest_first in *. clear N D. induction S as [|x l S IH F]; [constructor|].
    cbn. constructor; [apply IH; intros; apply G; by right|].
    apply list.Forall_fmap. rewrite list.Forall_forall in F |- *. intros y Hy. cbn.
    unfold newer, txn_num. rewrite !(fun z Hz => proj2 (G z Hz)) by (by left || by right).
    by apply F.
Qed.

Lemma updateSingleTransaction_ok txn l :
  wf_obj txn -> lookup_prop "id" txn <> None -> lookup_prop "createdAt" txn = None ->
  history_ok l -> history_ok (updateSingleTransaction txn l).
Proof.
  intros W I C. apply history_map. intros x _. case_bool_decide as E; [|done]. split.
  - by rewrite spread_id_of.
  - unfold get. by rewrite lookup_spread_wf, C.
Qed.

Section Slice.
(** lodash's [orderBy(transactions, 'createdAt', 'desc')]: a permutation, the
    newest first when all have a date. *)
Context (orderByCreatedAt : list obj -> list obj).
Context (orderBy_perm : forall l, Permutation (orderByCreatedAt l) l).
Context (orderBy_sorted : forall l, Forall dated l -> newest_first (orderByCreatedAt l)).

Lemma updateTransactions_ok new old :
  Forall dated new -> Forall dated old -> history_ok (updateTransactions orderByCreatedAt new old).
Proof.
  intros A B. assert (D : Forall dated (merged id_of new old)).
  { apply list.Forall_forall. intros x Hx%elem_of_merged%kept_elem.
    assert (F : Forall dated (new ++ old)) by (by apply list.Forall_app).
    rewrite list.Forall_forall in F. by apply F. }
  constructor.
  - unfold updateTransactions. rewrite orderBy_perm. apply NoDup_merged.
  - unfold updateTransactions. rewrite orderBy_perm. exact D.
  - by apply orderBy_sorted.
Qed.

Lemma txs_reduce_ok s a : txs_ok s -> action_ok a -> txs_ok (txs_reduce orderByCreatedAt s a).
Proof.
  intros S A. destruct a as [f txn | f refresh payload | f id notes]; cbn in A |- *.
  - apply set_transactions_ok; [done|]. destruct A as (W & I & C).
    by apply updateSingleTransaction_ok, S.
  - apply set_transactions_ok; [done|]. apply updateTransactions_ok; [done|].
    destruct refresh; [constructor | apply S].
  - unfold updateTransactionNotes_fulfilled.
    destruct (find_key id_of _ _) as [txn|] eqn:E; [|done].
    apply find_key_elem in E as [E _]. destruct (S f) as [_ D _].
    apply set_transactions_ok; [done|]. apply updateTransactions_ok; [|done].
    apply list.Forall_cons. split; [|constructor]. rewrite list.Forall_forall in D.
    destruct (D txn E) as (n & P & B & C). exists n. split_and!; try done. by rewrite get_set_ne.
Qed.

Definition txs_step (s s' : TransactionsState) : Prop :=
  exists a, action_ok a /\ s' = txs_reduce orderByCreatedAt s a.

(** C39: In every state the slice can reach by its actions, the history of a
    federation lists each transaction once, each with its date, newest first;
    pages, refreshes, updates of single transactions and of notes keep it so. *)
Theorem history_reachable_ok s f :
  rtc txs_step transactions_initialState s -> history_ok (selectTransactions s f).
Proof.
  intros R. cut (txs_ok s); [by intros H|].
  assert (I : txs_ok transactions_initialState) by (intros g; apply history_nil).
  revert I. induction R as [|s s1 s2 (a & A & ->) _ IH]; [done|].
  intros I. by apply IH, txs_reduce_ok.
Qed.
End Slice.

(** ** Paging *)

(** An operation in the log of the bridge ([list_transactions] in
    [src/crates/federations/src/federation_v2/mod.rs]): when it was created, in
    nanoseconds, and what it renders as. *)
Inductive Rendering : Type :=
  | RTransaction (txn : obj)
  | RError (message : string)
  | RNothing.
Record Operation := mkOperation { op_time : Z; rendering : Rendering }.

(** Transactions carry the time of their operation in whole seconds. *)
Definition nanos : Z := 1000000000.
Definition op_second (op : Operation) : Z := op_time op / nanos.

(** What the bridge answers for an operation. *)
Definition op_entry (op : Operation) : option obj :=
  match rendering op with
  | RTransaction txn => Some [("Ok", JObj txn)]
  | RError message => Some [("Err", JStr message)]
  | RNothing => None
  end.

(** Operations older than the time a page starts after, given in whole seconds.  (Of
    an operation at exactly that nanosecond the order is left to a random id.) *)
Definition before (start : option Z) (op : Operation) : bool :=
  match start with Some n => op_time op <? n * nanos | None => true end.

(** A page is one of operations: those that render as nothing shorten it. *)
Definition page (log : list Operation) (size : nat) (start : option Z) : list obj :=
  omap op_entry (take size (filter (fun op => before start op) log)).

(** What the screens list of the operations. *)
Definition listed_as (op : Operation) : option obj :=
  match rendering op with
  | RTransaction txn => if unclaimed_recurring txn then None else Some txn
  | _ => None
  end.
Definition visible (l : list Operation) : list obj := omap listed_as l.

Lemma visible_app l1 l2 : visible (l1 ++ l2) = visible l1 ++ visible l2.
Proof. apply omap_app. Qed.

Lemma elem_of_visible txn l : txn ∈ visible l <-> exists op, op ∈ l /\ listed_as op = Some txn.
Proof. apply list_elem_of_omap. Qed.

(** A page ends with its last visible entry. *)
Definition ends_visible (l : list Operation) : Prop :=
  l = [] \/ exists l' x txn, l = l' ++ [x] /\ listed_as x = Some txn.

Lemma split_hidden l : exists a b, l = a ++ b /\ visible b = [] /\ ends_visible a.
Proof.
  induction l as [|x l (a & b & -> & B & L)] using rev_ind; [exists [], []; split_and!; by try left|].
  destruct (listed_as x) as [txn|] eqn:S.
  - exists ((a ++ b) ++ [x]), []. rewrite app_nil_r. split_and!; try done. right. eauto.
  - exists a, (b ++ [x]). rewrite (assoc_L (++)), visible_app, B. split_and!; try done.
    unfold visible. cbn. by rewrite S.
Qed.

Lemma visible_last l x txn : listed_as x = Some txn -> visible (l ++ [x]) = visible l ++ [txn].
Proof. intros E. rewrite visible_app. unfold visible at 2. cbn. by rewrite E. Qed.

Lemma ends_visible_nil a : ends_visible a -> visible a = [] -> a = [].
Proof.
  intros [->|(a' & x & txn & -> & X)]; [done|]. rewrite (visible_last _ _ _ X).
  by intros [_ ?]%app_nil.
Qed.

(** [b] is older than [a]. *)
Definition older (a b : obj) : Prop :=
  exists n m, created_at n a /\ created_at m b /\ m < n.

Lemma created_inj n m x : created_at n x -> created_at m x -> n = m.
Proof.
  intros (_ & Sn & A) (_ & Sm & B). rewrite A in B. injection B as B. by apply of_Z_inj.
Qed.

Lemma older_created n m a b : created_at n a -> created_at m b -> older a b <-> m < n.
Proof.
  intros A B. split; [|by exists n, m]. intros (p & q & P & Q & L).
  by rewrite (created_inj n p a), (created_inj m q b).
Qed.

Lemma same_date n a b l :
  StronglySorted older l -> a ∈ l -> b ∈ l -> created_at n a -> created_at n b -> a = b.
Proof.
  intros S A B Ca Cb. induction S as [|x l S IH F]; [by apply elem_of_nil in A|].
  rewrite list.Forall_forall in F.
  apply elem_of_cons in A as [->|A]; apply elem_of_cons in B as [->|B]; [done | | |by apply IH].
  - apply F in B. apply (older_created n n) in B; [lia|done|done].
  - apply F in A. apply (older_created n n) in A; [lia|done|done].
Qed.

Lemma newer_antisym l a b : StronglySorted older l -> Forall dated l ->
  a ∈ l -> b ∈ l -> newer a b = true -> newer b a = true -> a = b.
Proof.
  intros S D A B N M. rewrite list.Forall_forall in D.
  destruct (D a A) as [n Ca], (D b B) as [m Cb].
  apply (newer_created n m) in N; [|done|done]. apply (newer_created m n) in M; [|done|done].
  assert (n = m) as <- by lia. by eapply same_date.
Qed.

Lemma older_newest_first l : StronglySorted older l -> Forall dated l -> newest_first l.
Proof.
  intros S D. unfold newest_first. induction S as [|x l S IH F]; [constructor|].
  apply list.Forall_cons in D as [[n Cx] D]. constructor; [by apply IH|].
  rewrite list.Forall_forall in F, D |- *. intros y Hy. destruct (D y Hy) as [m Cy].
  apply F, (older_created n m) in Hy; [|done|done]. apply (newer_created n m); [done | done | lia].
Qed.

(** The operations, newest first, no two in the same second: transactions have the
    second of their operation, which fits 32 bits, and each its own id. *)
Definition newer_op (a b : Operation) : Prop := op_second b < op_second a.
Definition second_ok (n : Z) : Prop := 0 < n < 2 ^ 32.
Definition op_ok (op : Operation) : Prop :=
  second_ok (op_second op) /\
  match rendering op with RTransaction txn => created_at (op_second op) txn | _ => True end.
Record log_ok (log : list Operation) : Prop := {
  log_once : NoDup (id_of <$> visible log);
  log_sorted : StronglySorted newer_op log;
  log_dated : Forall op_ok log
}.

Lemma listed_created op txn : op_ok op -> listed_as op = Some txn -> created_at (op_second op) txn.
Proof.
  intros [_ C]. unfold listed_as. destruct (rendering op); try done.
  case_match; [done|]. by intros [= ->].
Qed.

Lemma dated_visible l : Forall op_ok l -> Forall dated (visible l).
Proof.
  rewrite !list.Forall_forall. intros D txn (op & H & E)%elem_of_visible.
  exists (op_second op). by apply listed_created; [apply D|].
Qed.

Lemma older_visible l : StronglySorted newer_op l -> Forall op_ok l -> StronglySorted older (visible l).
Proof.
  intros S D. unfold visible. induction S as [|x l S IH F]; [constructor|].
  apply list.Forall_cons in D as [Dx D]. cbn. destruct (listed_as x) as [txn|] eqn:E; [|by apply IH].
  constructor; [by apply IH|]. rewrite list.Forall_forall in F. rewrite list.Forall_forall in D.
  apply list.Forall_forall. intros y (op & H & Ey)%elem_of_visible.
  exists (op_second x), (op_second op).
  split_and!; [by apply listed_created | by apply listed_created; [apply D|] | by apply F].
Qed.

Lemma before_second n op : before (Some n) op = true <-> op_second op < n.
Proof.
  unfold before, op_second, nanos. rewrite Z.ltb_lt. pose proof (Z.div_mod (op_time op) 1000000000 ltac:(lia)).
  pose proof (Z.mod_pos_bound (op_time op) 1000000000 ltac:(lia)). nia.
Qed.

Section Paging.
Context (orderByCreatedAt : list obj -> list obj).
Context (orderBy_perm : forall l, Permutation (orderByCreatedAt l) l).
Context (orderBy_sorted : forall l, Forall dated l -> newest_first (orderByCreatedAt l)).

Context (f : string) (log : list Operation).
Context (Hlog : log_ok log).

(** The bridge answers with a page of the log, and merges nothing else into the first:
    no deposit is awaited and no formation was paid. *)
Context (size : nat) (size_pos : (0 < size)%nat) (size_safe : safe (Z.of_nat size)).
Context (listTransactions : list_request -> list obj).
Context (list_spec : forall start, (forall n, start = Some n -> second_ok n) ->
  listTransactions (mkListRequest (of_Z <$> start) (Some (of_Z (Z.of_nat size)))) = page log size start).

(** The history after a refresh and [k] further pages. *)
Definition fetch (more refresh : bool) : TransactionsState -> TransactionsState :=
  fetchTransactions orderByCreatedAt listTransactions f (of_Z (Z.of_nat size)) more refresh.
Definition pages (k : nat) (s : TransactionsState) : list obj :=
  selectTransactions (Nat.iter k (fetch true false) (fetch false true s)) f.

Lemma fetched_entries l : fetched (omap op_entry l) = visible l.
Proof.
  unfold fetched, visible. induction l as [|[t [txn|e|]] l IH]; [done| | |exact IH].
  - cbn. rewrite decide_True, filter_cons by done.
    destruct (unclaimed_recurring txn); cbn; [exact IH|]. f_equal. exact IH.
  - exact IH.
Qed.

Lemma log_prefix l1 l2 : log = l1 ++ l2 -> log_ok l1.
Proof.
  destruct Hlog as [N S D]. intros ->. rewrite visible_app, fmap_app in N.
  apply list.NoDup_app in N as [N _]. apply list.Forall_app in D as [D _].
  apply StronglySorted_app in S as (_ & ? & _). by constructor.
Qed.

(** A page that continues the list is appended to it. *)
Lemma page_appended l1 a l3 : log = (l1 ++ a) ++ l3 ->
  updateTransactions orderByCreatedAt (visible a) (visible l1) = visible (l1 ++ a).
Proof.
  intros E. destruct (log_prefix _ _ E) as [N S D].
  assert (P : visible a ++ visible l1 ≡ₚ visible (l1 ++ a)).
  { rewrite visible_app. apply Permutation_app_comm. }
  change (orderByCreatedAt (merged id_of (visible a) (visible l1)) = visible (l1 ++ a)).
  rewrite merged_fresh by (by rewrite P). rewrite <- (orderBy_perm (_ ++ _)) in P.
  pose proof (dated_visible _ D) as V. pose proof (older_visible _ S D) as O.
  apply StronglySorted_unique_strong with (R := fun x y => newer x y = true).
  - intros x y Hx Hy. rewrite P in Hx. by apply (newer_antisym (visible (l1 ++ a))).
  - apply orderBy_sorted. rewrite <- (orderBy_perm (_ ++ _)), P. done.
  - by apply older_newest_first.
  - done.
Qed.

(** The history is what is visible of [l1], the log up to a visible entry. *)
Definition listed (s : TransactionsState) (l1 l2 : list Operation) : Prop :=
  log = l1 ++ l2 /\ selectTransactions s f = visible l1 /\ ends_visible l1.

Definition start_of (l1 : list Operation) : option Z := op_second <$> last l1.

Lemma truthy_date n x : created_at n x -> truthy_num (txn_num "createdAt" x) = Some (of_Z n).
Proof.
  intros C. rewrite (created_num n x C). destruct C as (P & S & _). unfold truthy_num.
  rewrite truthy_int by done. by rewrite (proj2 (Z.eqb_neq n 0)) by lia.
Qed.

Lemma request_of s l1 l2 : listed s l1 l2 ->
  fetch_request s f (of_Z (Z.of_nat size)) true =
    mkListRequest (of_Z <$> start_of l1) (Some (of_Z (Z.of_nat size))).
Proof.
  intros (E & V & L). unfold fetch_request. change (transactions _) with (selectTransactions s f).
  f_equal.
  - rewrite V. destruct L as [->|(l' & x & txn & -> & X)]; [done|]. unfold start_of.
    rewrite last_snoc, (visible_last _ _ _ X), last_snoc. cbn.
    destruct (log_prefix _ _ E) as [_ _ D]. apply list.Forall_app in D as [_ D].
    apply list.Forall_cons in D as [D _]. pose proof (listed_created _ _ D X) as C.
    pose proof (truthy_date _ _ C) as Tr. rewrite (created_num _ _ C) in Tr |- *.
    rewrite Tr. exact Tr.
  - unfold truthy_num. rewrite truthy_int by done. by rewrite (proj2 (Z.eqb_neq _ 0)) by lia.
Qed.

Lemma start_in_range l1 l2 n : log = l1 ++ l2 -> start_of l1 = Some n -> second_ok n.
Proof.
  intros E S. destruct (log_prefix _ _ E) as [_ _ D]. rewrite list.Forall_forall in D.
  unfold start_of in S. destruct (last l1) as [x|] eqn:L; [|done]. injection S as <-.
  apply last_Some in L as [l' ->]. apply D, elem_of_app. right. left.
Qed.

Lemma before_last l1 l2 : log = l1 ++ l2 ->
  filter (fun op => before (start_of l1) op) log = l2.
Proof.
  intros E. destruct Hlog as [_ S _]. rewrite E in S |- *. clear E.
  destruct l1 as [|x l1 _] using rev_ind; [by apply filter_all, list.Forall_true|].
  unfold start_of. rewrite last_snoc. cbn [fmap option_fmap option_map]. rewrite filter_app.
  apply StronglySorted_app in S as (B & S & _). apply StronglySorted_app in S as (A & _ & _).
  rewrite (filter_none _ (l1 ++ [x])), (filter_all _ l2); [done | |]; apply list.Forall_forall.
  - intros y Hy. apply Is_true_true, before_second. apply B; [|done]. apply elem_of_app. right. left.
  - intros y Hy. rewrite Is_true_true, before_second. intros O.
    apply elem_of_app in Hy as [Hy| ->%list_elem_of_singleton]; [|lia].
    assert (newer_op y x) by (apply A; [done|left]). unfold newer_op in *. lia.
Qed.

(** One more page. *)
Lemma fetch_listed s l1 l2 a b : listed s l1 l2 -> take size l2 = a ++ b -> visible b = [] ->
  ends_visible a -> listed (fetch true false s) (l1 ++ a) (b ++ drop size l2).
Proof.
  intros (E & V & L) T B A. assert (E' : log = (l1 ++ a) ++ b ++ drop size l2).
  { rewrite E, <- (take_drop size l2) at 1. by rewrite T, <- !(assoc_L (++)). }
  split_and!; [done | |].
  - unfold fetch, fetchTransactions. cbn. unfold fetchTransactions_fulfilled.
    rewrite (request_of _ l1 l2) by done. rewrite list_spec by (intros n; by eapply start_in_range). unfold page.
    rewrite (before_last l1 l2), T by done.
    rewrite fetched_entries, visible_app, B, app_nil_r, selectTransactions_set, decide_True by done.
    change (transactions _) with (selectTransactions s f). rewrite V. by eapply page_appended.
  - destruct A as [->|(a' & x & txn & -> & X)]; [by rewrite app_nil_r|].
    right. exists (l1 ++ a'), x, txn. by rewrite (assoc_L (++)).
Qed.

(** The refresh that comes first. *)
Lemma refresh_listed s a b : take size log = a ++ b -> visible b = [] -> ends_visible a ->
  listed (fetch false true s) a (b ++ drop size log).
Proof.
  intros T B A. assert (E : log = ([] ++ a) ++ b ++ drop size log).
  { rewrite <- (take_drop size log) at 1. by rewrite T, <- (assoc_L (++)). }
  split_and!; [exact E | | done].
  unfold fetch, fetchTransactions. cbn. unfold fetchTransactions_fulfilled.
  replace (fetch_request s f (of_Z (Z.of_nat size)) false)
    with (mkListRequest (of_Z <$> start_of []) (Some (of_Z (Z.of_nat size)))).
  - rewrite list_spec by done. unfold page. rewrite (before_last [] log), T by done.
    rewrite fetched_entries, visible_app, B, app_nil_r, selectTransactions_set, decide_True by done.
    exact (page_appended [] a _ E).
  - unfold fetch_request, truthy_num. cbn. rewrite truthy_int by done.
    by rewrite (proj2 (Z.eqb_neq _ 0)) by lia.
Qed.

(** The log never has [size] operations in a row that are not listed before one that is. *)
Definition no_hidden_page : Prop := forall l1 l2,
  log = l1 ++ l2 -> visible l2 <> [] -> visible (take size l2) <> [].

Lemma pages_progress k s : no_hidden_page ->
  exists l1 l2, listed (Nat.iter k (fetch true false) (fetch false true s)) l1 l2 /\
    ((k <= length l1)%nat \/ visible l2 = []).
Proof.
  intros G. induction k as [|k (l1 & l2 & L & P)].
  - destruct (split_hidden (take size log)) as (a & b & T & B & A).
    exists a, (b ++ drop size log). split; [by apply refresh_listed | left; lia].
  - destruct (split_hidden (take size l2)) as (a & b & T & B & A).
    exists (l1 ++ a), (b ++ drop size l2). cbn. split; [by eapply fetch_listed|].
    destruct (decide (visible l2 = [])) as [V|V].
    + right. rewrite <- (take_drop size l2), T, <- (assoc_L (++)) in V.
      rewrite visible_app in V. by apply app_nil in V as [_ V].
    + left. destruct P as [P|]; [|done]. rewrite length_app.
      assert (a <> []); [|destruct a; [done|]; cbn; lia]. intros ->.
      destruct (G l1 l2); [apply L | done |]. by rewrite T, visible_app, B.
Qed.

(** A page does not get past [size] operations that are not listed. *)
Lemma page_stuck g1 g2 l1 l2 a b :
  log = g1 ++ g2 -> visible (take size g2) = [] ->
  log = l1 ++ l2 -> take size l2 = a ++ b -> ends_visible a ->
  (length l1 <= length g1)%nat -> (length (l1 ++ a) <= length g1)%nat.
Proof.
  intros G V E T [->|(a' & x & txn & -> & X)] L; [by rewrite app_nil_r|].
  rewrite !length_app. cbn. destruct (decide (length l1 + length a' < length g1)%nat); [lia|].
  assert (K : take size l2 !! length a' = Some x).
  { rewrite T, <- (assoc_L (++)). by apply list_lookup_middle. }
  apply lookup_take_Some in K as [K S]. exfalso.
  assert (H : log !! (length l1 + length a')%nat = Some x).
  { rewrite E, lookup_app_r by lia. rewrite <- K. f_equal. lia. }
  rewrite G, lookup_app_r in H by lia.
  assert (M : txn ∈ visible (take size g2)).
  { apply elem_of_visible. exists x. split; [|done]. apply list_elem_of_lookup. eexists.
    apply lookup_take_Some. split; [exact H | lia]. }
  rewrite V in M. by apply elem_of_nil in M.
Qed.

Lemma pages_stuck g1 g2 k s : log = g1 ++ g2 -> visible (take size g2) = [] ->
  exists l1 l2, listed (Nat.iter k (fetch true false) (fetch false true s)) l1 l2 /\
    (length l1 <= length g1)%nat.
Proof.
  intros G V. induction k as [|k (l1 & l2 & L & P)].
  - destruct (split_hidden (take size log)) as (a & b & T & B & A).
    exists a, (b ++ drop size log). split; [by apply refresh_listed|].
    eapply (page_stuck g1 g2 [] log); [done..|cbn; lia].
  - destruct (split_hidden (take size l2)) as (a & b & T & B & A).
    exists (l1 ++ a), (b ++ drop size l2). cbn. split; [by eapply fetch_listed|].
    eapply page_stuck; [done | done | apply L | done..].
Qed.

(** C14: paging reaches the history, or not.  For a bridge that pages its log of
    operations, no two of them in the same second, and merges nothing into the first
    page: a refresh followed by as many further pages as the log has operations lists
    exactly the visible transactions of the log, if and only if the log never has a
    whole page of operations that are not listed (they render as nothing or as an
    error, or are recurring payments nobody paid) before one that is: behind such a
    page the history always ends. *)
Theorem paging_reaches_everything s :
  (forall k, (length log <= k)%nat -> pages k s = visible log) <-> no_hidden_page.
Proof.
  split.
  - intros P g1 g2 G N V. destruct (pages_stuck g1 g2 (length log) s G V) as (l1 & l2 & (E & L & _) & S).
    specialize (P (length log) ltac:(lia)). unfold pages in P. rewrite P, E, visible_app in L.
    assert (V2 : visible l2 = []).
    { apply (f_equal length) in L. rewrite length_app in L. apply length_zero_iff_nil. lia. }
    apply N. assert (l2 = drop (length l1) g1 ++ g2) as H.
    { rewrite <- drop_app_le, <- G, E by done. by rewrite drop_app_length. }
    rewrite H, visible_app in V2. by apply app_nil in V2 as [_ ?].
  - intros G k K. destruct (pages_progress k s G) as (l1 & l2 & (E & L & _) & S).
    unfold pages. rewrite L, E, visible_app. destruct S as [S|S]; [|by rewrite S, app_nil_r].
    rewrite E, length_app in K. assert (l2 = []) as ->; [|by rewrite app_nil_r].
    apply length_zero_iff_nil. lia.
Qed.
End Paging.

(** ** Concrete histories *)

Lemma history_sort_newest_first l : Forall dated l -> newest_first (sort_stable newer l).
Proof.
  apply sort_stable_sorted.
  - intros x y [n X] [m Y]. rewrite (newer_created n m x y X Y), (newer_created m n y x Y X). lia.
  - intros x y z [n X] [m Y] [k Z].
    rewrite (newer_created n m x y X Y), (newer_created m k y z Y Z), (newer_created n k x z X Z). lia.
Qed.

(** A recurring payment created at [n]. *)
Definition recurring (n : Z) (state : string) : obj :=
  [("id", JStr (int_string n)); ("createdAt", JNum (of_Z n)); ("kind", JStr "lnRecurringdReceive");
   ("state", JObj [("type", JStr state)])].

Lemma recurring_created n state : 0 < n <= 1000 -> created_at n (recurring n state).
Proof. intros H. split_and!; [lia | unfold safe; lia | reflexivity]. Qed.

Lemma history_reachable_ok_witness :
  let orderBy := sort_stable newer in
  let s := updateTransactionNotes_fulfilled orderBy "fed" "1" "rent"
    (fetchTransactions_fulfilled orderBy "fed" true [recurring 1 "claimed"; recurring 2 "claimed"] []) in
  history_ok (selectTransactions s "fed") /\ id_of <$> selectTransactions s "fed" = [JStr "2"; JStr "1"].
Proof.
  split; [|vm_compute; reflexivity].
  eapply (history_reachable_ok (sort_stable newer)).
  - apply sort_stable_perm.
  - exact history_sort_newest_first.
  - eapply rtc_l.
    + exists (FetchTransactions "fed" true [recurring 1 "claimed"; recurring 2 "claimed"]). split.
      * repeat (apply list.Forall_cons; split; [eexists; apply recurring_created; lia|]).
        apply list.Forall_nil. done.
      * reflexivity.
    + apply rtc_once. exists (UpdateTransactionNotes "fed" "1" "rent"). split; [exact I | reflexivity].
Defined.

(** The operation of a recurring payment. *)
Definition recurring_op (n : Z) (state : string) : Operation :=
  mkOperation (n * nanos + 5) (RTransaction (recurring n state)).

Lemma recurring_op_ok n state : 0 < n <= 1000 -> op_ok (recurring_op n state).
Proof.
  intros H. assert (E : op_second (recurring_op n state) = n).
  { unfold op_second, recurring_op, nanos. cbn [op_time].
    rewrite Z.div_add_l by lia. by rewrite Z.div_small, Z.add_0_r by lia. }
  unfold op_ok. rewrite E. cbn [rendering recurring_op].
  split; [unfold second_ok; lia | by apply recurring_created].
Qed.

(** Pages of one operation, and one that is not listed in the middle of the log: the
    history ends before it. *)
Definition hidden_log : list Operation :=
  [recurring_op 3 "claimed"; recurring_op 2 "created"; recurring_op 1 "claimed"].

(** A bridge that answers with pages of [log], one operation each. *)
Definition paging_bridge (log : list Operation) (r : list_request) : list obj :=
  page log 1 (match startTime r with Some (Fin m) => Some (m / unit1) | _ => None end).

Lemma paging_bridge_spec log start : (forall n, start = Some n -> second_ok n) ->
  paging_bridge log (mkListRequest (of_Z <$> start) (Some (of_Z 1))) = page log 1 start.
Proof.
  intros H. destruct start as [n|]; [|done]. specialize (H n eq_refl). unfold second_ok in H.
  unfold paging_bridge. cbn [startTime fmap option_fmap option_map].
  rewrite of_Z_safe by (unfold safe; lia). rewrite Z.div_mul; [done|]. pose proof unit1_pos. lia.
Qed.

Lemma hidden_log_ok : log_ok hidden_log.
Proof.
  constructor.
  - apply (bool_decide_unpack _). vm_compute. exact I.
  - repeat (apply SSorted_cons || apply SSorted_nil || apply list.Forall_nil || done ||
      (apply list.Forall_cons; split)); reflexivity.
  - repeat (apply list.Forall_cons; split; [apply recurring_op_ok; lia|]). by apply list.Forall_nil.
Qed.

Lemma paging_reaches_everything_witness :
  ~ (forall k, (3 <= k)%nat ->
       pages (sort_stable newer) "fed" 1 (paging_bridge hidden_log) k [] = visible hidden_log) /\
  id_of <$> pages (sort_stable newer) "fed" 1 (paging_bridge hidden_log) 5 [] = [JStr "3"].
Proof.
  split; [|vm_compute; reflexivity]. intros P.
  assert (G : no_hidden_page hidden_log 1).
  { apply (paging_reaches_everything (sort_stable newer)) with (f := "fed")
      (listTransactions := paging_bridge hidden_log) (s := []).
    - apply sort_stable_perm.
    - exact history_sort_newest_first.
    - exact hidden_log_ok.
    - lia.
    - unfold safe. lia.
    - exact (paging_bridge_spec hidden_log).
    - exact P. }
  by apply (G [recurring_op 3 "claimed"] [recurring_op 2 "created"; recurring_op 1 "claimed"]).
Defined.

(** Times are cut to seconds: of two operations of the same second, the older is not
    listed when a page ends between them. *)
Definition same_second_log : list Operation :=
  [mkOperation (2 * nanos + 7) (RTransaction (recurring 2 "claimed"));
   mkOperation (2 * nanos + 3) (RTransaction (set_prop "id" (JStr "older") (recurring 2 "claimed")));
   recurring_op 1 "claimed"].

Example same_second_lost :
  id_of <$> visible same_second_log = [JStr "2"; JStr "older"; JStr "1"] /\
  forall k, (k <= 4)%nat ->
    JStr "older" ∉ id_of <$> pages (sort_stable newer) "fed" 1 (paging_bridge same_second_log) k [].
Proof.
  split; [vm_compute; reflexivity|]. intros k K.
  do 5 (destruct k as [|k]; [apply (bool_decide_unpack _); vm_compute; exact I|]). lia.
Qed.
