(* ===== verification/Csv.v ===== *)
(** Export of transactions: [ui/common/utils/csv.ts].

    A history is written as comma-separated values, quoted so that a reader of
    RFC 4180 gets every value back whatever it contains.  Dates are those of
    [Date.prototype.toISOString], which throws beyond its range; the base64 of
    the data uri is the host's and is not modelled. *)
From Stdlib Require Import ZArith Lia Ascii Sorted.
From stdpp Require Import base tactics strings list option.
From S2P Require Import Prelude JsNum Js JsStr Upsert Amount MatrixEvents Transactions.
Local Open Scope string_scope.
Local Open Scope list_scope.
Local Open Scope Z_scope.

(** ** Dates *)

(** [k] decimal digits of [n]. *)
Definition digits_of (k : nat) (n : Z) : string := pad_left k (int_string n).

(** Year, month and day of a day counted from 1970-01-01, in the proleptic
    Gregorian calendar: years that begin in March are counted in eras of 400. *)
Definition civil (day : Z) : Z * Z * Z :=
  let z := day + 719468 in
  let era := z / 146097 in
  let doe := z mod 146097 in
  let yoe := (doe - doe / 1460 + doe / 36524 - doe / 146096) / 365 in
  let doy := doe - (365 * yoe + yoe / 4 - yoe / 100) in
  let mp := (5 * doy + 2) / 153 in
  let d := doy - (153 * mp + 2) / 5 + 1 in
  let m := if mp <? 10 then mp + 3 else mp - 9 in
  ((if m <=? 2 then yoe + era * 400 + 1 else yoe + era * 400), m, d).

Definition iso_year (y : Z) : string :=
  if (0 <=? y) && (y <=? 9999) then digits_of 4 y
  else (if y <? 0 then "-" else "+") +:+ digits_of 6 (Z.abs y).

Definition iso_string (t : Z) : string :=
  let '(y, m, d) := civil (t / 86400000) in
  let ms := t mod 86400000 in
  iso_year y +:+ "-" +:+ digits_of 2 m +:+ "-" +:+ digits_of 2 d +:+ "T" +:+
  digits_of 2 (ms / 3600000) +:+ ":" +:+ digits_of 2 (ms / 60000 mod 60) +:+ ":" +:+
  digits_of 2 (ms / 1000 mod 60) +:+ "." +:+ digits_of 3 (ms mod 1000) +:+ "Z".

(** [new Date(x).toISOString()] *)
Definition toISOString (x : num) : result string :=
  match x with
  | Fin m =>
      let t := Z.quot m unit1 in
      if Z.abs t <=? 8640000000000000 then Ok (iso_string t) else Throw "RangeError"
  | _ => Throw "RangeError"
  end.

(** ** The writer *)

Definition quote : ascii := "034"%char.
Definition comma : ascii := ","%char.
Definition CR : ascii := "013"%char.
Definition LF : ascii := "010"%char.

(** [s.replace(/DQUOTE/g, two of them)] *)
Fixpoint escape (s : string) : string :=
  match s with
  | EmptyString => EmptyString
  | String c s =>
      if decide (c = quote) then String quote (String quote (escape s)) else String c (escape s)
  end.

Definition quoted (s : string) : string := String quote (escape s +:+ String quote EmptyString).

Definition join_commas (l : list string) : string :=
  match l with
  | [] => EmptyString
  | x :: l => x +:+ foldr (fun y acc => String comma y +:+ acc) EmptyString l
  end.

Record CSVColumn (T : Type) := mkColumn { column_name : string; getValue : T -> result string }.
Arguments mkColumn {T} _ _.
Arguments column_name {T} _.
Arguments getValue {T} _ _.

Definition csv_row (values : list string) : string :=
  String CR (String LF (join_commas (quoted <$> values))).

Definition makeCSV {T} (items : list T) (columns : list (CSVColumn T)) : result string :=
  rows ← mapM_res (fun item => mapM_res (fun column => getValue column item) columns) items;
  Ok (join_commas (column_name <$> columns) +:+ foldr (fun r acc => csv_row r +:+ acc) "" rows).

(** ** Histories *)

(** A refunded payment of ecash becomes the payment and its refund. *)
Definition extractDepositsFromRefunds (txs : list obj) : list obj :=
  txs ≫= fun tx =>
    if one_of ["oobSend"] (txn_kind tx) &&
       one_of ["refunded"; "userCanceledSuccess"] (state_type tx)
    then
      [set_prop "state" (JObj [("type", JStr "success")]) (set_prop "kind" (JStr "oobSend") tx);
       set_prop "state" (JObj [("type", JStr "refunded")])
         (set_prop "createdAt" (nullish (get "outcomeTime" tx) (get "createdAt" tx))
           (set_prop "kind" (JStr "oobSend") tx))]
    else [tx].

(** [(a, b) => a.createdAt - b.createdAt] as an order. *)
Definition by_date {T} (date : T -> num) (a b : T) : bool := leb (date a) (date b).

Section Columns.
Context (t : string -> list (string * string) -> string).
Context (makeFormattedAmountsFromMSats : num -> string -> FormattedAmounts).

Definition direction_string (d : TransactionDirection) : string :=
  match d with send => "send" | receive => "receive" end.

Definition fiat_column (tx : obj) : string :=
  match get "txDateFiatInfo" tx with
  | JObj info =>
      let historicalRate := getRateFromFiatFxInfo (txn_num "btcToFiatHundredths" info) in
      let btc := msatToBtc (txn_num "amount" tx) in
      to_fixed (btcToFiat btc historicalRate) FIAT_MAX_DECIMAL_PLACES +:+ " " +:+
      to_str (get "fiatCode" info)
  | _ => formattedFiat (makeFormattedAmountsFromMSats (txn_num "amount" tx) "end")
  end.

Definition history_columns : list (CSVColumn obj) :=
  [mkColumn "ID" (fun tx => Ok (to_str (id_of tx)));
   mkColumn "Created at" (fun tx => toISOString (mul (txn_num "createdAt" tx) (of_Z 1000)));
   mkColumn "Direction" (fun tx => Ok (direction_string (getTxnDirection tx)));
   mkColumn "Type" (fun tx => Ok (makeTxnTypeText t tx));
   mkColumn "Amount (fiat)" (fun tx => Ok (fiat_column tx));
   mkColumn "Amount (sats)"
     (fun tx => Ok (num_string (round (div (txn_num "amount" tx) (of_Z 1000)))));
   mkColumn "Notes" (fun tx => Ok (to_str (nullish (get "txnNotes" tx) (JStr ""))));
   mkColumn "Status" (fun tx => Ok (makeTxnStatusText t tx))].

Definition history_rows (txs : list obj) : list obj :=
  sort_stable (by_date (txn_num "createdAt")) (extractDepositsFromRefunds txs).

Definition makeTransactionHistoryCSV (txs : list obj) : result string :=
  makeCSV (history_rows txs) history_columns.

(** [amountUtils.formatFiat(amount, 'USD', { symbolPosition: 'none' })] and the
    hash of user ids. *)
Context (formatUsd : num -> string) (toSha256EncHex : string -> string).
Context (convertCentsToFormattedFiat : num -> string).

(** What the event of a group is about. *)
Definition event_cents (tx : MultispendTransactionListEntry) : option num :=
  match event (ms_state tx) with
  | depositNotification d => Some (d_fiatAmount d)
  | withdrawalRequest w => Some (transfer_amount w)
  | _ => None
  end.
Definition event_description (tx : MultispendTransactionListEntry) : string :=
  match event (ms_state tx) with
  | depositNotification d => d_description d
  | withdrawalRequest w => description w
  | _ => ""
  end.
Definition event_user (tx : MultispendTransactionListEntry) : option string :=
  match event (ms_state tx) with
  | depositNotification d => Some (d_user d)
  | withdrawalRequest w => Some (w_sender w)
  | _ => None
  end.

(** An amount that is missing or 0 is left empty. *)
Definition cents_column (format : num -> string) (tx : MultispendTransactionListEntry) : string :=
  match event_cents tx with
  | Some cents => if num_truthy cents then format cents else ""
  | None => ""
  end.

Definition multispend_columns (preferredCurrency : option string)
    (multispendStatus : option RpcMultispendGroupStatus) (roomMembers : list obj)
    : list (CSVColumn MultispendTransactionListEntry) :=
  [mkColumn "ID" (fun tx => Ok (ms_id tx));
   mkColumn "Created at" (fun tx => toISOString (ms_createdAt tx));
   mkColumn "Type" (fun tx =>
     Ok (if isMultispendWithdrawalEvent (ms_state tx) then tr t "phrases.multispend-withdrawal"
         else if isMultispendDepositEvent (ms_state tx) then tr t "phrases.multispend-deposit"
         else tr t "words.unknown"));
   mkColumn "Status" (fun tx => Ok (makeMultispendTxnStatusText t tx multispendStatus true));
   mkColumn "Amount (USD)" (fun tx =>
     Ok (cents_column (fun cents => formatUsd (div cents (of_Z 100))) tx))] ++
  (match preferredCurrency with
   | Some c =>
       if bool_decide (c = "") || bool_decide (c = "USD") then []
       else [mkColumn ("Amount (" +:+ c +:+ ")") (fun tx =>
               Ok (cents_column convertCentsToFormattedFiat tx))]
   | None => []
   end) ++
  [mkColumn "Description" (fun tx => Ok (event_description tx));
   mkColumn "Depositor / Withdrawer" (fun tx =>
     Ok (match event_user tx with
         | Some userId =>
             if bool_decide (userId = "") then ""
             else findUserDisplayName toSha256EncHex userId roomMembers
         | None => ""
         end))].

Definition makeMultispendTransactionHistoryCSV (txs : list MultispendTransactionListEntry)
    (preferredCurrency : option string) (multispendStatus : option RpcMultispendGroupStatus)
    (roomMembers : list obj) : result string :=
  makeCSV (sort_stable (by_date ms_createdAt) txs)
    (multispend_columns preferredCurrency multispendStatus roomMembers).
End Columns.

(** [name.toLowerCase().replace(/\s/g, '-').replace(/[^a-zA-Z0-9-]/g, '')] *)
Definition in_range (a b : ascii) (c : ascii) : bool := (code a <=? code c) && (code c <=? code b).
Definition filename_char (c : ascii) : bool :=
  in_range "a" "z" c || in_range "A" "Z" c || in_range "0" "9" c || bool_decide (c = "-"%char).

Definition makeCSVFilename (name : string) : string :=
  let dashed := (fun c => if is_space c then "-"%char else c) <$> chars (toLowerCase name) in
  String.string_of_list_ascii (filter (fun c => filename_char c) dashed) +:+ ".csv".

Example iso_of_epoch : iso_string 0 = "1970-01-01T00:00:00.000Z".
Proof. vm_compute. reflexivity. Qed.
Example iso_of_leap_day : iso_string 1709210096789 = "2024-02-29T12:34:56.789Z".
Proof. vm_compute. reflexivity. Qed.

(** ** The reader of RFC 4180 *)

(** Where the reader is: at the start of a field, inside one, inside quotes,
    behind a quote inside quotes, behind a carriage return. *)
Inductive csv_mode : Type := at_start | in_plain | in_quotes | behind_quote | behind_cr.

(** [field], [row] and [rows] are what was read of the current field, record
    and file. *)
Fixpoint csv_go (s : string) (m : csv_mode) (field : string) (row : list string)
    (rows : list (list string)) : option (list (list string)) :=
  match s with
  | EmptyString =>
      match m with
      | in_quotes | behind_cr => None
      | _ => Some (rows ++ [row ++ [field]])
      end
  | String c s =>
      let separator (otherwise : option (list (list string))) :=
        if decide (c = comma) then csv_go s at_start "" (row ++ [field]) rows
        else if decide (c = CR) then csv_go s behind_cr field row rows
        else otherwise in
      let plain := csv_go s in_plain (field +:+ String c "") row rows in
      match m with
      | at_start => if decide (c = quote) then csv_go s in_quotes field row rows else separator plain
      | in_plain => if decide (c = quote) then None else separator plain
      | in_quotes =>
          if decide (c = quote) then csv_go s behind_quote field row rows
          else csv_go s in_quotes (field +:+ String c "") row rows
      | behind_quote =>
          if decide (c = quote) then csv_go s in_quotes (field +:+ String c "") row rows
          else separator None
      | behind_cr => if decide (c = LF) then csv_go s at_start "" [] (rows ++ [row ++ [field]]) else None
      end
  end.

Definition csv_read (s : string) : option (list (list string)) := csv_go s at_start "" [] [].

(** ** What is written is read back *)

#[local] Arguments String.append !_ _ / : simpl nomatch.

Lemma str_snoc f c v : (f +:+ String c "") +:+ v = f +:+ String c v.
Proof. by rewrite str_app_assoc. Qed.

(** The rest of a quoted field. *)
Lemma read_escaped v rest f row rows :
  csv_go (escape v +:+ String quote rest) in_quotes f row rows =
    csv_go rest behind_quote (f +:+ v) row rows.
Proof.
  revert f. induction v as [|c v IH]; intros f; cbn [escape].
  - cbn [String.append csv_go]. rewrite decide_True by done. by rewrite str_app_nil_r.
  - case_decide as E.
    + rewrite E. cbn [String.append csv_go]. rewrite !decide_True by done.
      by rewrite IH, str_snoc.
    + cbn [String.append csv_go]. rewrite decide_False by done. by rewrite IH, str_snoc.
Qed.

Lemma read_quoted v rest row rows :
  csv_go (quoted v +:+ rest) at_start "" row rows = csv_go rest behind_quote v row rows.
Proof.
  unfold quoted. cbn [String.append csv_go]. rewrite decide_True by done.
  rewrite str_app_assoc. apply (read_escaped v rest "").
Qed.

(** The modes in which a field may end. *)
Definition may_end (m : csv_mode) : bool :=
  match m with at_start | in_plain | behind_quote => true | _ => false end.

(** What follows a record: reading it there is reading on with the record
    added. *)
Definition ends (rest : string) (k : list (list string) -> option (list (list string))) : Prop :=
  forall m f row rows, may_end m = true ->
    csv_go rest m f row rows = k (rows ++ [row ++ [f]]).

Lemma ends_file : ends "" Some.
Proof. by intros [] f row rows. Qed.

Lemma ends_line rest :
  ends (String CR (String LF rest)) (fun rows => csv_go rest at_start "" [] rows).
Proof. by intros [] f row rows. Qed.

(** The values of a record behind the first. *)
Lemma read_fields vs v row rows rest k : ends rest k ->
  csv_go (foldr (fun y acc => String comma y +:+ acc) EmptyString (quoted <$> vs) +:+ rest)
    behind_quote v row rows = k (rows ++ [row ++ v :: vs]).
Proof.
  intros E. revert v row. induction vs as [|w vs IH]; intros v row; [by apply E|].
  cbn [fmap list_fmap foldr]. rewrite str_app_assoc. cbn [String.append csv_go].
  rewrite decide_False, decide_True by done. rewrite read_quoted, IH.
  by rewrite <- (assoc_L (++)).
Qed.

Lemma read_values vs rows rest k : vs <> [] -> ends rest k ->
  csv_go (join_commas (quoted <$> vs) +:+ rest) at_start "" [] rows = k (rows ++ [vs]).
Proof.
  intros N E. destruct vs as [|v vs]; [done|]. cbn [fmap list_fmap join_commas].
  rewrite str_app_assoc, read_quoted. by apply read_fields.
Qed.

(** The records behind the header, or behind any record. *)
Lemma read_rows vss : Forall (fun vs => vs <> []) vss ->
  ends (foldr (fun r acc => csv_row r +:+ acc) "" vss) (fun rows => Some (rows ++ vss)).
Proof.
  induction 1 as [|vs vss N F IH]; intros m f row rows M.
  { rewrite app_nil_r. by apply ends_file. }
  cbn [foldr]. unfold csv_row at 1. cbn [String.append]. rewrite ends_line by done.
  rewrite (read_values vs _ _ _ N IH). by rewrite <- (assoc_L (++)).
Qed.

(** A name that needs no quotes. *)
Definition plain_char (c : ascii) : Prop := c <> quote /\ c <> comma /\ c <> CR.
Definition plain_name (s : string) : Prop := Forall plain_char (String.list_ascii_of_string s).

Definition starts (m : csv_mode) : bool :=
  match m with at_start | in_plain => true | _ => false end.

Lemma read_name s rest k m f row rows : plain_name s -> starts m = true ->
  (forall m', starts m' = true -> csv_go rest m' (f +:+ s) row rows = k) ->
  csv_go (s +:+ rest) m f row rows = k.
Proof.
  intros P. revert m f. induction s as [|c s IH]; intros m f M K.
  - rewrite str_app_nil_r in K. by apply K.
  - apply list.Forall_cons in P as [(Q & C & R) P]. cbn [String.append].
    assert (S : csv_go (s +:+ rest) in_plain (f +:+ String c "") row rows = k).
    { apply IH; [done..|]. intros m'. rewrite str_snoc. apply K. }
    destruct m; try done; cbn [csv_go]; by rewrite !decide_False.
Qed.

Lemma read_names vs v row rows rest k : Forall plain_name (v :: vs) -> ends rest k ->
  csv_go (v +:+ (foldr (fun y acc => String comma y +:+ acc) EmptyString vs +:+ rest))
    at_start "" row rows = k (rows ++ [row ++ v :: vs]).
Proof.
  intros P E. revert v row P. induction vs as [|w vs IH]; intros v row [Pv P]%list.Forall_cons.
  - apply read_name; [done..|]. intros m' M. apply E. by destruct m'.
  - apply read_name; [done..|]. intros m' M. cbn [foldr]. rewrite str_app_assoc.
    cbn [String.append].
    transitivity (csv_go (w +:+ (foldr (fun y acc => String comma y +:+ acc) EmptyString vs +:+ rest))
      at_start "" (row ++ [v]) rows); [by destruct m'|].
    rewrite IH by done. by rewrite <- (assoc_L (++)).
Qed.

Lemma read_csv names vss : names <> [] -> Forall plain_name names ->
  Forall (fun vs => vs <> []) vss ->
  csv_read (join_commas names +:+ foldr (fun r acc => csv_row r +:+ acc) "" vss) =
    Some (names :: vss).
Proof.
  intros N P F. destruct names as [|v vs]; [done|]. unfold csv_read. cbn [join_commas].
  rewrite str_app_assoc. by rewrite (read_names _ _ _ _ _ _ P (read_rows vss F)).
Qed.

(** ** Exports *)

Lemma mapM_res_length {A B} (f : A -> result B) l r : mapM_res f l = Ok r -> length r = length l.
Proof.
  revert r. induction l as [|x l IH]; intros r; cbn.
  - by intros [= <-].
  - intros (y & _ & (r' & E & [= <-])%bind_Ok_inv)%bind_Ok_inv. cbn. by rewrite (IH r').
Qed.

Lemma makeCSV_read {T} (items : list T) columns csv :
  columns <> [] -> Forall plain_name (column_name <$> columns) ->
  makeCSV items columns = Ok csv ->
  exists rows, mapM_res (fun item => mapM_res (fun c => getValue c item) columns) items = Ok rows /\
    csv_read csv = Some ((column_name <$> columns) :: rows).
Proof.
  intros N P (rows & R & [= <-])%bind_Ok_inv. exists rows. split; [done|].
  apply read_csv; [by destruct columns | done |].
  revert rows R. induction items as [|x items IH]; intros rows; cbn.
  - intros [= <-]. constructor.
  - intros (row & E & (rows' & R & [= <-])%bind_Ok_inv)%bind_Ok_inv. constructor; [|by apply IH].
    apply mapM_res_length in E. destruct columns, row; try done.
Qed.

Lemma mapM_res_Forall2 {A B} (f : A -> result B) l :
  Forall (fun x => is_ok (f x) = true) l ->
  exists r, mapM_res f l = Ok r /\ Forall2 (fun x y => f x = Ok y) l r.
Proof.
  induction 1 as [|x l H F (r & R & F2)]; [exists []; by split|]. cbn.
  destruct (f x) as [y|] eqn:E; [|done]. exists (y :: r). rewrite bind_ok, R. by split; [|constructor].
Qed.

(** A date the language can write. *)
Definition exportable (tx : obj) : Prop :=
  exists n, Z.abs n <= 8640000000000 /\ get "createdAt" tx = JNum (of_Z n).

Lemma exportable_num tx : exportable tx ->
  exists n, Z.abs n <= 8640000000000 /\ txn_num "createdAt" tx = of_Z n.
Proof. intros (n & B & E). exists n. split; [done|]. unfold txn_num. by rewrite E. Qed.

Lemma exportable_date tx : exportable tx ->
  is_ok (toISOString (mul (txn_num "createdAt" tx) (of_Z 1000))) = true.
Proof.
  intros (n & B & ->)%exportable_num. rewrite mul_int by (unfold safe; lia).
  rewrite of_Z_safe by (unfold safe; lia). cbn [toISOString]. pose proof unit1_pos.
  rewrite Z.quot_mul by lia. by rewrite (proj2 (Z.leb_le _ _)) by lia.
Qed.

Lemma history_rows_sorted txs : Forall exportable (extractDepositsFromRefunds txs) ->
  StronglySorted (fun a b => by_date (txn_num "createdAt") a b = true) (history_rows txs).
Proof.
  apply sort_stable_sorted; unfold by_date.
  - intros x y (n & Bn & ->)%exportable_num (m & Bm & ->)%exportable_num.
    rewrite !leb_int by (unfold safe; lia). rewrite !Z.leb_le. lia.
  - intros x y z (n & Bn & ->)%exportable_num (m & Bm & ->)%exportable_num (k & Bk & ->)%exportable_num.
    rewrite !leb_int by (unfold safe; lia). rewrite !Z.leb_le. lia.
Qed.

(** The export of a history always succeeds when its dates are in the range
    of the language, and a reader of RFC 4180 gets back the header and a record
    per row, with exactly the values of the columns, whatever quotes, commas
    and line breaks the notes contain; the rows are the transactions in order of
    their dates, with a refunded payment of ecash as two. *)
Theorem history_export t makeFormattedAmountsFromMSats txs :
  Forall exportable (extractDepositsFromRefunds txs) ->
  exists csv rows,
    makeTransactionHistoryCSV t makeFormattedAmountsFromMSats txs = Ok csv /\
    csv_read csv = Some (["ID"; "Created at"; "Direction"; "Type"; "Amount (fiat)";
                          "Amount (sats)"; "Notes"; "Status"] :: rows) /\
    Forall2 (fun tx row => mapM_res (fun column => getValue column tx)
        (history_columns t makeFormattedAmountsFromMSats) = Ok row) (history_rows txs) rows /\
    Permutation (history_rows txs) (extractDepositsFromRefunds txs) /\
    StronglySorted (fun a b => by_date (txn_num "createdAt") a b = true) (history_rows txs).
Proof.
  intros X. set (columns := history_columns t makeFormattedAmountsFromMSats).
  pose proof (sort_stable_perm (by_date (txn_num "createdAt")) (extractDepositsFromRefunds txs)) as P.
  destruct (mapM_res_Forall2 (fun tx => mapM_res (fun c => getValue c tx) columns) (history_rows txs))
    as (rows & R & F2).
  { unfold history_rows. rewrite P. eapply list.Forall_impl; [exact X|]. intros tx D%exportable_date.
    cbn. by destruct (toISOString _). }
  assert (E : makeTransactionHistoryCSV t makeFormattedAmountsFromMSats txs =
    Ok (join_commas (column_name <$> columns) +:+ foldr (fun r acc => csv_row r +:+ acc) "" rows)).
  { unfold makeTransactionHistoryCSV, makeCSV. fold columns. by rewrite R. }
  eexists _, rows. split_and!; [exact E | | done | done | by apply history_rows_sorted].
  destruct (makeCSV_read (history_rows txs) columns _ ltac:(done)
    ltac:(repeat constructor; done) E) as (rows' & R' & C).
  rewrite R in R'. injection R' as <-. exact C.
Qed.

(** A refunded payment whose note has a quote and a comma in it. *)
Definition refunded_txn : obj :=
  [("id", JStr "a"); ("createdAt", JNum (of_Z 60)); ("amount", JNum (of_Z 5000));
   ("kind", JStr "oobSend"); ("state", JObj [("type", JStr "refunded")]);
   ("outcomeTime", JNum (of_Z 90)); ("txnNotes", JStr (String quote "x,y"))].
Definition plain_amounts (msats : num) (position : string) : FormattedAmounts :=
  mkAmounts (num_string msats) (num_string msats) (num_string msats) (num_string msats).

Lemma history_export_witness :
  let key := fun (k : string) (_ : list (string * string)) => k in
  exists csv rows,
    makeTransactionHistoryCSV key plain_amounts [refunded_txn] = Ok csv /\
    csv_read csv = Some (["ID"; "Created at"; "Direction"; "Type"; "Amount (fiat)";
                          "Amount (sats)"; "Notes"; "Status"] :: rows) /\
    rows = [["a"; "1970-01-01T00:01:00.000Z"; "send"; "words.ecash"; "5000"; "5";
             String quote "x,y"; "words.sent"];
            ["a"; "1970-01-01T00:01:30.000Z"; "send"; "words.ecash"; "5000"; "5";
             String quote "x,y"; "words.refunded"]].
Proof.
  intros key.
  destruct (history_export key plain_amounts [refunded_txn]) as (csv & rows & E & R & F & _).
  - apply list.Forall_cons. split; [by exists 60; split; [lia|]|].
    apply list.Forall_cons. split; [by exists 90; split; [lia|] | by apply list.Forall_nil].
  - exists csv, rows. split_and!; [done | done |].
    assert (H : history_rows [refunded_txn] = extractDepositsFromRefunds [refunded_txn])
      by (vm_compute; reflexivity).
    rewrite H in F. clear E R H.
    inversion F as [|x1 r1 l1 l2 H1 F1]; subst. inversion F1 as [|x2 r2 l3 l4 H2 F2]; subst.
    inversion F2. subst. f_equal; [|f_equal]; symmetry; apply Ok_inj.
    + rewrite <- H1. vm_compute. reflexivity.
    + rewrite <- H2. vm_compute. reflexivity.
Defined.
