(* ===== verification/Cashu.v ===== *)
(** Cashu ecash: [ui/common/utils/cashu.ts].

    A token of another mint is decoded, and melted into the wallet: the mint
    quotes an invoice of the wallet, and pays it with the proofs of the token.
    Tokens come from outside, so decoding fails on what it does not know.  The
    host's [Buffer] and [JSON] are parameters; a request to a mint is a call
    like those of the bridge, its url as the name and its body as the argument. *)
From Stdlib Require Import ZArith Lia Ascii.
From stdpp Require Import base tactics strings list option.
From S2P Require Import Prelude JsNum Js JsStr Amount Cbor Effects.
Local Open Scope string_scope.
Local Open Scope list_scope.
Local Open Scope Z_scope.

(** ** Strings *)

(** [s.slice(n)] *)
Definition slice_from (n : nat) (s : string) : string := String.substring n (String.length s - n) s.

(** [s.replace(p, r)] of a string [p]: the first occurrence. *)
Fixpoint replace_first (p r s : string) : string :=
  if String.prefix p s then r +:+ slice_from (String.length p) s
  else match s with
       | EmptyString => EmptyString
       | String c s => String c (replace_first p r s)
       end.

(** ** Tokens *)

(** The proofs of each token of a mint. *)
Record Payload := mkPayload { p_mint : jval; p_token : list jval }.

Definition invalid_token : string := "Invalid cashu token".

Definition validateCashuTokens (raw : string) : result string :=
  let token := foldl (fun token prefix =>
      if startsWith token prefix then slice_from (String.length prefix) token else token)
    raw ["web+cashu://"; "cashu://"; "cashu:"] in
  if negb (startsWith token "cashuA") && negb (startsWith token "cashuB")
  then Throw invalid_token else Ok token.

(** [v[0]] *)
Definition index_0 (v : jval) : result jval :=
  match v with
  | JUndef | JNull => Throw type_error
  | JArr (x :: _) => Ok x
  | JStr (String c _) => Ok (JStr (String c EmptyString))
  | JObj o => Ok (get "0" o)
  | _ => Ok JUndef
  end.

(** [k in v], for a name that is no array index *)
Definition prop_in (k : string) (v : jval) : result bool :=
  match v with
  | JObj o => Ok (has k o)
  | JArr _ => Ok (bool_decide (k = "length"))
  | _ => Throw type_error
  end.

Definition is_array (v : jval) : bool := match v with JArr _ => true | _ => false end.

(** [v.length > 0] *)
Definition nonempty (v : jval) : result bool :=
  match v with
  | JUndef | JNull => Throw type_error
  | JArr l => Ok (negb (bool_decide (l = [])))
  | JStr s => Ok (negb (bool_decide (s = "")))
  | JObj o => Ok (ltb (of_Z 0) (to_num (get "length" o)))
  | _ => Ok false
  end.

Section Decoding.
(** [Buffer.from(s, 'base64')], [buffer.toString()] and
    [buffer.toString('hex')]. *)
Context (fromBase64 : string -> list Z) (toUtf8 : list Z -> string) (toHex : list Z -> string).
(** [JSON.parse] and [new TextDecoder().decode]. *)
Context (parse : string -> result jval) (decodeText : list Z -> string).

Definition bufferFromBase64Url (str : string) : list Z :=
  fromBase64 (replace_first "_" "/" (replace_first "-" "+" str)).

(** [{ mint: v.token[0].mint, token: [{ proofs: v.token[0].proofs }] }] *)
Definition first_token (v : jval) : result Payload :=
  tokens ← prop v "token"; token ← index_0 tokens;
  mint ← prop token "mint"; proofs ← prop token "proofs";
  Ok (mkPayload mint [proofs]).

(** The tests of the second format, each asked only if the ones before hold. *)
Definition is_v2 (v : jval) : result bool :=
  has_proofs ← prop_in "proofs" v;
  if negb has_proofs then Ok false else
  has_mints ← prop_in "mints" v;
  if negb has_mints then Ok false else
  mints ← prop v "mints"; some ← nonempty mints;
  if negb some then Ok false else
  mint ← index_0 mints; url ← prop mint "url"; Ok (truthy url).

Definition decodeCashuTokenLegacy (token : string) : result Payload :=
  let rawToken := replace_first "cashuA" "" token in
  parsedTokenBuffer ← parse (toUtf8 (bufferFromBase64Url rawToken));
  has_token ← prop_in "token" parsedTokenBuffer;
  if has_token && is_array (opt_prop parsedTokenBuffer "token") then first_token parsedTokenBuffer
  else
    v2 ← is_v2 parsedTokenBuffer;
    if v2 : bool then first_token parsedTokenBuffer
    else if is_array parsedTokenBuffer then Throw "v1 cashu tokens are not supported"
    else Throw "No valid ecash proofs found".

(** [typeof value === 'object'] *)
Definition isValidResultType (v : cval) : bool :=
  match v with VNull | VBytes _ | VArr _ | VObj _ => true | _ => false end.

(** [v.k], of a name that arrays and byte strings do not have *)
Definition field (v : cval) (k : string) : result cval :=
  match v with
  | VUndef | VNull => Throw type_error
  | VObj o => Ok (default VUndef (lookup_prop k o))
  | _ => Ok VUndef
  end.
Definition field_in (k : string) (v : cval) : result bool :=
  match v with
  | VObj o => Ok (bool_decide (is_Some (lookup_prop k o)))
  | VArr _ | VBytes _ => Ok false
  | _ => Throw type_error
  end.

Definition is_str (v : cval) : bool := match v with VStr _ => true | _ => false end.
Definition is_num (v : cval) : bool := match v with VNum _ => true | _ => false end.
Definition is_bytes (v : cval) : bool := match v with VBytes _ => true | _ => false end.
Definition is_undef (v : cval) : bool := match v with VUndef => true | _ => false end.

(** [for (const x of l) if (!ok(x)) return false] *)
Fixpoint all_ok {A} (ok : A -> result bool) (l : list A) : result bool :=
  match l with
  | [] => Ok true
  | x :: l => b ← ok x; if b : bool then all_ok ok l else Ok false
  end.

Definition valid_proof (proof : cval) : result bool :=
  if negb (isValidResultType proof) then Ok false else
  a ← field proof "a"; s ← field proof "s"; c ← field proof "c";
  d ← field proof "d"; w ← field proof "w";
  Ok (is_num a && is_str s && is_bytes c && (is_undef d || isValidResultType d) &&
      (is_undef w || is_str w)).

Definition valid_token (token : cval) : result bool :=
  if negb (isValidResultType token) then Ok false else
  has_i ← field_in "i" token; has_p ← field_in "p" token;
  if negb has_i || negb has_p then Ok false else
  i ← field token "i"; p ← field token "p";
  match i, p with
  | VBytes _, VArr proofs => all_ok valid_proof proofs
  | _, _ => Ok false
  end.

Definition isValidCashuV4Token (decodedToken : cval) : result bool :=
  if negb (isValidResultType decodedToken) then Ok false else
  m ← field decodedToken "m"; u ← field decodedToken "u"; d ← field decodedToken "d";
  t ← field decodedToken "t";
  if negb (is_str m && is_str u && (is_str d || is_undef d)) then Ok false else
  match t with VArr tokens => all_ok valid_token tokens | _ => Ok false end.

(** Of a value of the validated shape. *)
Definition str_of (v : result cval) : string := match v with Ok (VStr s) => s | _ => "" end.
Definition num_of (v : result cval) : num := match v with Ok (VNum n) => n | _ => NaN end.
Definition bytes_of (v : result cval) : list Z := match v with Ok (VBytes l) => l | _ => [] end.
Definition array_of (v : result cval) : list cval := match v with Ok (VArr l) => l | _ => [] end.

Definition parseSingleCashuV4Token (token : cval) : jval :=
  JArr ((fun proof =>
    JObj [("id", JStr (toHex (bytes_of (field token "i"))));
          ("amount", JNum (num_of (field proof "a")));
          ("secret", JStr (str_of (field proof "s")));
          ("C", JStr (toHex (bytes_of (field proof "c"))))]) <$> array_of (field token "p")).

Definition coerceCashuV4TokensArray (tokens : list cval) : list jval :=
  parseSingleCashuV4Token <$> tokens.

(** The decoder never runs out of fuel ([decodeCBOR_terminates]). *)
Definition decode_bytes (bytes : list Z) : result cval :=
  default (Throw range_error) (decodeCBOR decodeText bytes).

Definition decodeCashuTokenV4 (token : string) : result Payload :=
  let rawToken := replace_first "cashuB" "" token in
  parsedToken ← decode_bytes (bufferFromBase64Url rawToken);
  if negb (isValidResultType parsedToken) then Throw invalid_token else
  valid ← isValidCashuV4Token parsedToken;
  if negb valid then Throw invalid_token else
  Ok (mkPayload (JStr (str_of (field parsedToken "m")))
    (coerceCashuV4TokensArray (array_of (field parsedToken "t")))).

Definition decodeCashuTokens (raw : string) : result Payload :=
  token ← validateCashuTokens raw;
  if startsWith token "cashuA" then decodeCashuTokenLegacy token else decodeCashuTokenV4 token.
End Decoding.

(** ** Melting *)

(** [`${mint}`] before a path *)
Definition mint_url (mint : jval) (path : string) : string := to_str mint +:+ path.

Definition getMeltQuote (mintHost invoice : jval) : thunk jval :=
  rpc (mint_url mintHost "/v1/melt/quote/bolt11")
    [JObj [("request", invoice); ("unit", JStr "sat")]].

Definition meltTokens (mintHost : jval) (payload : jval) : thunk jval :=
  rpc (mint_url mintHost "/v1/melt/bolt11") [payload].

Definition buildMeltPayload (meltQuoteId proofs : jval) : jval :=
  JObj [("quote", meltQuoteId); ("inputs", proofs)].

Definition generateInvoice (amount : num) (description federationId : string) : thunk jval :=
  rpc "generateInvoice" [JNum amount; JStr description; JStr federationId].

(** [amountUtils.satToMsat(json[k])]; reading a field of [null] throws. *)
Definition msats_field (json : jval) (k : string) : thunk num :=
  v ← t_ret (prop json k); mret (satToMsat (to_num v)).

Definition getInvoiceFee (amountMsats : num) (federationId : string) (mintHost : jval)
    : thunk num :=
  invoice ← generateInvoice amountMsats "cashu melt" federationId;
  meltQuote ← getMeltQuote mintHost invoice;
  msats_field meltQuote "fee_reserve".

Record UpdatedQuote := mkUpdated {
  u_amountMsats : num;
  u_meltQuoteId : jval;
  u_quoteFeeReserveMsats : num
}.

Definition getUpdatedMeltQuote (totalTokensSats : num) (federationId : string) (mintHost : jval)
    : thunk UpdatedQuote :=
  let amountMsats := satToMsat totalTokensSats in
  targetFee ← getInvoiceFee amountMsats federationId mintHost;
  let candidateAmount := sub amountMsats targetFee in
  candidateInvoice ← generateInvoice candidateAmount "cashu melt" federationId;
  quote ← getMeltQuote mintHost candidateInvoice;
  quotedAmount ← msats_field quote "amount";
  quotedFees ← msats_field quote "fee_reserve";
  id ← t_ret (prop quote "quote");
  mret (mkUpdated quotedAmount id quotedFees).

Record MeltQuote := mkMeltQuote {
  mintHost : jval;
  meltPayload : jval;
  amountMsats : num;
  feesMsats : num
}.
Record MeltSummary := mkSummary {
  quotes : list MeltQuote;
  totalFees : num;
  totalAmount : num
}.

(** The sum of the amounts of the proofs, which are numbers. *)
Definition total_sats (proofs : list jval) : result num :=
  foldM (fun sum proof => amount ← prop proof "amount"; Ok (add sum (to_num amount)))
    (of_Z 0) proofs.

Definition melt_quote (mint : jval) (federationId : string) (proofs : jval) : thunk MeltQuote :=
  l ← t_ret (as_array proofs);
  total ← t_ret (total_sats l);
  u ← getUpdatedMeltQuote total federationId mint;
  mret (mkMeltQuote mint (buildMeltPayload (u_meltQuoteId u) proofs) (u_amountMsats u)
    (u_quoteFeeReserveMsats u)).

(** A [for] loop that awaits its body and collects. *)
Fixpoint t_map {A B} (f : A -> thunk B) (l : list A) : thunk (list B) :=
  match l with
  | [] => mret []
  | x :: l => y ← f x; ys ← t_map f l; mret (y :: ys)
  end.

Definition sum_of (f : MeltQuote -> num) (l : list MeltQuote) : num :=
  foldl (fun sum quote => add sum (f quote)) (of_Z 0) l.

Definition getMeltQuotes (tokens : Payload) (federationId : option string) : thunk MeltSummary :=
  match federationId with
  | Some ((String _ _) as federationId) =>
      quotes ← t_map (melt_quote (p_mint tokens) federationId) (p_token tokens);
      mret (mkSummary quotes (sum_of feesMsats quotes) (sum_of amountMsats quotes))
  | _ => t_throw "No federation id"
  end.

Fixpoint executeMelts_from (totalMelted : num) (l : list MeltQuote) : thunk num :=
  match l with
  | [] => mret totalMelted
  | quote :: l =>
      meltData ← meltTokens (mintHost quote) (meltPayload quote);
      paid ← t_ret (prop meltData "paid");
      if negb (truthy paid) then t_throw "Payment failed"
      else executeMelts_from (add totalMelted (amountMsats quote)) l
  end.

Definition executeMelts (meltSummary : MeltSummary) : thunk num :=
  executeMelts_from (of_Z 0) (quotes meltSummary).

(** ** Strings and prefixes *)

#[local] Arguments String.append !_ _ / : simpl nomatch.
#[local] Transparent String.prefix.

Lemma prefix_app p s : String.prefix p (p +:+ s) = true.
Proof. induction p as [|c p IH]; [by destruct s|]. cbn. by destruct (Ascii.ascii_dec c c). Qed.

Lemma substring_all s : String.substring 0 (String.length s) s = s.
Proof. induction s as [|c s IH]; [done|]. cbn. by rewrite IH. Qed.

Lemma slice_app p s : slice_from (String.length p) (p +:+ s) = s.
Proof.
  unfold slice_from. induction p as [|c p IH]; cbn [String.length String.append].
  - rewrite Nat.sub_0_r. apply substring_all.
  - exact IH.
Qed.

Lemma replace_prefix p s : p <> "" -> replace_first p "" (p +:+ s) = s.
Proof.
  intros N. assert (E : replace_first p "" (p +:+ s) = slice_from (String.length p) (p +:+ s)).
  { pose proof (prefix_app p s) as H. destruct (p +:+ s) as [|c u] eqn:U; cbn [replace_first];
      by rewrite H. }
  rewrite E. apply slice_app.
Qed.

(** The two alphabets of base64, told together. *)
Definition std_char (c : ascii) : ascii :=
  if decide (c = "-"%char) then "+"%char else if decide (c = "_"%char) then "/"%char else c.
Fixpoint std (s : string) : string :=
  match s with EmptyString => EmptyString | String c s => String (std_char c) (std s) end.

Lemma std_replace a b s : std_char a = std_char b ->
  std (replace_first (String a "") (String b "") s) = std s.
Proof.
  intros E. induction s as [|c s IH]; [done|]. cbn [replace_first String.prefix].
  destruct (Ascii.ascii_dec a c) as [->|N].
  - destruct s; cbn; by rewrite E, ?substring_all.
  - cbn. by rewrite IH.
Qed.

(** ** Tokens of the fourth format *)

Record V4Proof := mkProof { v4_amount : Z; v4_secret : string; v4_C : list Z }.
(** The proofs of each keyset. *)
Definition V4Tokens : Type := list (list Z * list V4Proof).

Definition proof_item (p : V4Proof) : item :=
  IMap [("a", IInt (v4_amount p)); ("s", IStr (v4_secret p)); ("c", IBytes (v4_C p))].
Definition token_item (t : list Z * list V4Proof) : item :=
  IMap [("i", IBytes t.1); ("p", IArr (map proof_item t.2))].
Definition v4_item (mint unit : string) (tokens : V4Tokens) : item :=
  IMap [("m", IStr mint); ("u", IStr unit); ("t", IArr (map token_item tokens))].

Definition payload_of (toHex : list Z -> string) (mint : string) (tokens : V4Tokens) : Payload :=
  mkPayload (JStr mint) ((fun t : list Z * list V4Proof =>
    JArr ((fun p => JObj [("id", JStr (toHex t.1)); ("amount", JNum (of_Z (v4_amount p)));
                          ("secret", JStr (v4_secret p)); ("C", JStr (toHex (v4_C p)))]) <$> t.2))
    <$> tokens).

Lemma all_ok_map {A B} (f : A -> B) ok l :
  (forall x, ok (f x) = Ok true) -> all_ok ok (map f l) = Ok true.
Proof. intros H. induction l as [|x l IH]; [done|]. cbn. by rewrite H. Qed.

Lemma v4_valid mint unit tokens :
  isValidCashuV4Token (value_of (v4_item mint unit tokens)) = Ok true.
Proof.
  cbn. rewrite map_map. apply all_ok_map. intros [i ps]. cbn. rewrite map_map.
  by apply all_ok_map.
Qed.

Lemma v4_proofs toHex i ps :
  parseSingleCashuV4Token toHex (value_of (token_item (i, ps))) =
    JArr ((fun p => JObj [("id", JStr (toHex i)); ("amount", JNum (of_Z (v4_amount p)));
                          ("secret", JStr (v4_secret p)); ("C", JStr (toHex (v4_C p)))]) <$> ps).
Proof.
  unfold parseSingleCashuV4Token. f_equal.
  replace (bytes_of (field (value_of (token_item (i, ps))) "i")) with i by reflexivity.
  replace (array_of (field (value_of (token_item (i, ps))) "p"))
    with (map value_of (map proof_item ps)) by reflexivity.
  induction ps as [|p ps IH]; [done|]. cbn [map fmap list_fmap]. f_equal. exact IH.
Qed.

Lemma v4_payload toHex mint unit tokens :
  coerceCashuV4TokensArray toHex (array_of (field (value_of (v4_item mint unit tokens)) "t")) =
    p_token (payload_of toHex mint tokens).
Proof.
  replace (array_of (field (value_of (v4_item mint unit tokens)) "t"))
    with (map value_of (map token_item tokens)) by reflexivity.
  unfold coerceCashuV4TokensArray. cbn [p_token payload_of]. induction tokens as [|[i ps] tokens IH]; [done|]. cbn [map fmap list_fmap].
  rewrite v4_proofs. f_equal. exact IH.
Qed.

Definition uri_prefixes : list string := [""; "cashu:"; "cashu://"; "web+cashu://"].

Lemma strip_step p s :
  (if startsWith (p +:+ s) p then slice_from (String.length p) (p +:+ s) else p +:+ s) = s.
Proof. unfold startsWith. by rewrite prefix_app, slice_app. Qed.

(** A token does not start like an uri, and one uri not like another. *)
Lemma not_uri s :
  let t := "cashuB" +:+ s in
  startsWith t "web+cashu://" = false /\ startsWith t "cashu://" = false /\
  startsWith t "cashu:" = false /\ startsWith t "cashuA" = false /\
  startsWith ("cashu:" +:+ t) "web+cashu://" = false /\
  startsWith ("cashu:" +:+ t) "cashu://" = false /\
  startsWith ("cashu://" +:+ t) "web+cashu://" = false.
Proof. by repeat split. Qed.

Lemma validate_prefix p s : p ∈ uri_prefixes ->
  validateCashuTokens (p +:+ ("cashuB" +:+ s)) = Ok ("cashuB" +:+ s).
Proof.
  intros P. destruct (not_uri s) as (W & D & C & A & W1 & D1 & W2). cbv zeta in *.
  assert (B : startsWith ("cashuB" +:+ s) "cashuB" = true) by apply prefix_app.
  unfold uri_prefixes in P.
  repeat (apply elem_of_cons in P as [->|P]); [| | | |by apply elem_of_nil in P];
    unfold validateCashuTokens; cbn [foldl].
  - change ("" +:+ ("cashuB" +:+ s)) with ("cashuB" +:+ s). by rewrite W, D, C, A, B.
  - rewrite W1, D1, strip_step. by rewrite A, B.
  - rewrite W2, strip_step, C. by rewrite A, B.
  - rewrite strip_step, D, C. by rewrite A, B.
Qed.

Section V4.
Context (fromBase64 : string -> list Z) (toUtf8 : list Z -> string) (toHex : list Z -> string).
Context (parse : string -> result jval).
(** [Buffer] reads both alphabets of base64, and a text that mixes them. *)
Context (both_alphabets : forall s s', std s = std s' -> fromBase64 s = fromBase64 s').
(** The codec of texts. *)
Context (encodeText : string -> list Z) (decodeText : list Z -> string).
Context (text_roundtrip : forall s, decodeText (encodeText s) = s).

(** A token of the fourth format is decoded to exactly the proofs it was made
    of: for any text that is a base64 of its encoding, in either alphabet, behind
    any of the prefixes of an uri, the mint, and for each keyset its proofs with
    their amount, secret and point, come back in order. *)
Theorem v4_token_decodes prefix text mint unit tokens :
  prefix ∈ uri_prefixes -> valid (v4_item mint unit tokens) ->
  Z.of_nat (length (encode encodeText (v4_item mint unit tokens))) <= 2 ^ 52 ->
  fromBase64 text = encode encodeText (v4_item mint unit tokens) ->
  decodeCashuTokens fromBase64 toUtf8 toHex parse decodeText (prefix +:+ ("cashuB" +:+ text)) =
    Ok (payload_of toHex mint tokens).
Proof.
  intros P V L T. unfold decodeCashuTokens. rewrite validate_prefix by done. cbn [mbind result_bind].
  destruct (not_uri text) as (_ & _ & _ & A & _). cbv zeta in A. rewrite A.
  unfold decodeCashuTokenV4. rewrite replace_prefix by done.
  assert (E : decode_bytes decodeText (bufferFromBase64Url fromBase64 text) =
    Ok (value_of (v4_item mint unit tokens))).
  { unfold bufferFromBase64Url.
    rewrite (both_alphabets _ text) by (by rewrite !std_replace). rewrite T.
    destruct (decodeItem_encode encodeText decodeText text_roundtrip _ V L) as [o D].
    unfold decode_bytes, decodeCBOR. by rewrite D. }
  rewrite E. cbn [mbind result_bind].
  change (negb (isValidResultType (value_of (v4_item mint unit tokens)))) with false. cbn iota.
  rewrite v4_valid. cbn [mbind result_bind negb]. by rewrite v4_payload.
Qed.
End V4.

(** A token of the second format: [proofs], some [mints] with a url, and no
    [token]. *)
Definition v2_document (o : obj) : Prop :=
  is_v2 (JObj o) = Ok true /\ lookup_prop "token" o = None.

(** A token of the second format is recognised, and then read as if it were one
    of the third: every such token is refused with a TypeError. *)
Theorem v2_token_rejected fromBase64 toUtf8 parse token o :
  v2_document o ->
  parse (toUtf8 (bufferFromBase64Url fromBase64 (replace_first "cashuA" "" token))) = Ok (JObj o) ->
  decodeCashuTokenLegacy fromBase64 toUtf8 parse token = Throw type_error.
Proof.
  intros [V T] P. unfold decodeCashuTokenLegacy. rewrite P. cbn [mbind result_bind prop_in].
  unfold has. rewrite T, bool_decide_eq_false_2 by (intros [? ?]; done). cbn [andb].
  rewrite V. cbn [mbind result_bind]. unfold first_token. cbn [prop]. unfold get. by rewrite T.
Qed.

Lemma v2_token_rejected_witness :
  let o := [("proofs", JArr []); ("mints", JArr [JObj [("url", JStr "https://mint")]])] in
  decodeCashuTokenLegacy (fun _ => []) (fun _ => "") (fun _ => Ok (JObj o)) "cashuAe30" =
    Throw type_error.
Proof. intros o. by apply (v2_token_rejected _ _ _ _ o). Defined.

(** ** Melting *)

(** The call that melts a quote, and whether the mint answers that it paid. *)
Definition melt_call (quote : MeltQuote) : call :=
  mkCall (mint_url (mintHost quote) "/v1/melt/bolt11") [meltPayload quote].
Definition paid (b : bridge) (h : list call) (quote : MeltQuote) : bool :=
  match b h (melt_call quote) with
  | Ok v => match prop v "paid" with Ok p => truthy p | Throw _ => false end
  | Throw _ => false
  end.

(** The quotes that are paid, one after the other, before the first that is not. *)
Fixpoint paid_quotes (b : bridge) (h : list call) (l : list MeltQuote) : list MeltQuote :=
  match l with
  | quote :: l =>
      if paid b h quote then quote :: paid_quotes b (h ++ [melt_call quote]) l else []
  | [] => []
  end.

Lemma paid_prefix b h l : exists rest, l = paid_quotes b h l ++ rest.
Proof.
  revert h. induction l as [|q l IH]; intros h; cbn; [by exists []|].
  destruct (paid b h q); [|by exists (q :: l)].
  destruct (IH (h ++ [melt_call q])) as [rest E]. exists rest. cbn. by rewrite <- E.
Qed.

Lemma executeMelts_run b h n l :
  let ps := paid_quotes b h l in
  let r := executeMelts_from n l b h in
  r.1 = h ++ (melt_call <$> take (S (length ps)) l) /\
  (length ps = length l -> r.2 = Ok (foldl (fun sum quote => add sum (amountMsats quote)) n l)) /\
  ((length ps < length l)%nat -> exists e, r.2 = Throw e).
Proof.
  revert h n. induction l as [|q l IH]; intros h n; cbn zeta.
  { cbn. rewrite app_nil_r. split_and!; [done | done | lia]. }
  cbn [executeMelts_from paid_quotes]. unfold meltTokens, paid. rewrite run_rpc. fold (melt_call q).
  assert (F : forall e, (h ++ [melt_call q], @Throw num e).1 =
      h ++ (melt_call <$> take (S (@length MeltQuote [])) (q :: l)) /\
    (length (@nil MeltQuote) = length (q :: l) ->
     (h ++ [melt_call q], @Throw num e).2 =
       Ok (foldl (fun sum quote => add sum (amountMsats quote)) n (q :: l))) /\
    ((length (@nil MeltQuote) < length (q :: l))%nat ->
     exists e', (h ++ [melt_call q], @Throw num e).2 = Throw e'))
    by (intros e; split_and!; [done | done | eauto]).
  destruct (b h (melt_call q)) as [v|e]; [|apply F].
  destruct (prop v "paid") as [p|e] eqn:P; [|apply F].
  change ((x ← t_ret (Ok p);
    if negb (truthy x) then t_throw "Payment failed"
    else executeMelts_from (add n (amountMsats q)) l) b (h ++ [melt_call q]))
    with ((if negb (truthy p) then t_throw "Payment failed"
    else executeMelts_from (add n (amountMsats q)) l) b (h ++ [melt_call q])).
  destruct (truthy p); cbn [negb]; [|apply F].
  destruct (IH (h ++ [melt_call q]) (add n (amountMsats q))) as (C & A & N). split_and!.
  - rewrite C. cbn [length take fmap list_fmap]. by rewrite <- (assoc_L (++)).
  - intros L. apply A. cbn in L. lia.
  - intros L. apply N. cbn in L. lia.
Qed.

(** C13: Melting pays the quotes one after the other, each at most once, and asks
    no mint for anything after the first that does not answer that it paid; the
    outcome is the sum of the amounts if every quote was paid, and an error
    otherwise, also when some had been paid by then. *)
Theorem melts_stop_at_failure summary b :
  let l := quotes summary in
  let ps := paid_quotes b [] l in
  let r := run (executeMelts summary) b in
  (exists rest, l = ps ++ rest) /\
  r.1 = melt_call <$> take (S (length ps)) l /\
  (ps = l -> r.2 = Ok (sum_of amountMsats l)) /\
  (ps <> l -> exists e, r.2 = Throw e).
Proof.
  intros l ps r. destruct (paid_prefix b [] l) as [rest E].
  destruct (executeMelts_run b [] (of_Z 0) l) as (C & A & N). split_and!.
  - by exists rest.
  - exact C.
  - intros P. apply A. by rewrite <- P at 2.
  - intros P. apply N. destruct rest as [|q rest].
    + rewrite app_nil_r in E. by destruct P.
    + rewrite E at 2. rewrite length_app. cbn. lia.
Qed.

(** ** A concrete token *)

(** The value of a digit of base64. *)
Definition base64_digit (c : ascii) : option Z :=
  let n := code c in
  if (65 <=? n) && (n <=? 90) then Some (n - 65)
  else if (97 <=? n) && (n <=? 122) then Some (n - 71)
  else if (48 <=? n) && (n <=? 57) then Some (n + 4)
  else if n =? 43 then Some 62 else if n =? 47 then Some 63 else None.

(** [acc] has the [bits] bits read and not yet returned. *)
Fixpoint base64_bytes (acc bits : Z) (s : string) : list Z :=
  match s with
  | EmptyString => []
  | String c s =>
      match base64_digit c with
      | None => base64_bytes acc bits s
      | Some v =>
          let acc := acc * 64 + v in
          if 2 <=? bits
          then acc / 2 ^ (bits - 2) :: base64_bytes (acc mod 2 ^ (bits - 2)) (bits - 2) s
          else base64_bytes acc (bits + 6) s
      end
  end.
Definition base64_decode (s : string) : list Z := base64_bytes 0 0 (std s).

Definition demo_tokens : V4Tokens :=
  [([0; 173; 38], [mkProof 2 "s1" [2; 255]; mkProof 64 "s2" [3; 254]])].
Definition demo_text : string :=
  "o2FtbGh0dHBzOi8vbWludGF1Y3NhdGF0gaJhaUMArSZhcIKjYWECYXNiczFhY0IC_6NhYRhAYXNiczJhY0ID_g==".

Lemma v4_token_decodes_witness :
  decodeCashuTokens base64_decode (fun _ => "") (fun l => int_string (foldl Z.add 0 l))
    (fun _ => Throw "SyntaxError") latin1_decode ("cashu:" +:+ ("cashuB" +:+ demo_text)) =
  Ok (payload_of (fun l => int_string (foldl Z.add 0 l)) "https://mint" demo_tokens).
Proof.
  apply (v4_token_decodes base64_decode (fun _ => "") _ (fun _ => Throw "SyntaxError")) with
    (encodeText := latin1_encode) (unit := "sat").
  - intros s s' E. unfold base64_decode. by rewrite E.
  - apply latin1_roundtrip.
  - right. left.
  - cbn [valid v4_item token_item proof_item demo_tokens map foldr fst snd v4_amount v4_secret v4_C].
    repeat split; try lia; repeat (apply list.Forall_cons; split; [lia|]); by apply list.Forall_nil.
  - vm_compute. discriminate.
  - vm_compute. reflexivity.
Defined.
