(* ===== verification/Mods.v ===== *)
(** Mini apps: [ui/common/redux/mod.ts], [utils/fedimods.ts], and the order of
    the screen [ui/native/screens/Mods.tsx].

    Which mini apps a user sees, in which order, and what each of them may do.
    A permission of an origin is what was decided last about it; the apps a user
    added can be removed in every reachable state; the list shown is the list
    that can be configured without what is hidden. *)
From Stdlib Require Import ZArith Lia Sorted.
From stdpp Require Import base tactics strings list option sets.
From S2P Require Import Prelude JsNum Js Upsert Meta.
Local Open Scope string_scope.
Local Open Scope list_scope.

(** ** Permissions every user starts with *)

Definition CATALOG_URL_PROD := "https://catalog.fedi.xyz".
Definition CATALOG_URL_PROD_LEGACY := "https://fedi-catalog.vercel.app".
Definition CATALOG_URL_STAGING := "https://fedi-catalog-staging.vercel.app".
Definition COMMUNITY_TOOL_URL_PROD := "https://community-generator.fedi.xyz".
Definition COMMUNITY_TOOL_URL_STAGING := "https://community-tool-two.vercel.app".

Definition miniAppPermissionTypes : list string :=
  ["manageCommunities"; "manageInstalledMiniApps"; "navigation"; "viewFederations"].

Definition allowed : jval := JBool true.

Definition NIGHTLY_PERMISSIONS : obj :=
  [(CATALOG_URL_STAGING, JObj [("manageInstalledMiniApps", allowed)]);
   (COMMUNITY_TOOL_URL_STAGING, JObj [("manageCommunities", allowed); ("navigation", allowed)])].

Definition ALL_MINI_APP_PERMISSIONS_ENABLED : obj :=
  foldl (fun acc permissionType => set_prop permissionType allowed acc) [] miniAppPermissionTypes.

Definition DEV_PERMISSIONS : obj :=
  spread
    [("http://localhost", JObj ALL_MINI_APP_PERMISSIONS_ENABLED);
     ("http://localhost:3022", JObj ALL_MINI_APP_PERMISSIONS_ENABLED);
     ("http://127.0.0.1", JObj ALL_MINI_APP_PERMISSIONS_ENABLED);
     ("http://10.0.2.2:3022", JObj ALL_MINI_APP_PERMISSIONS_ENABLED)]
    NIGHTLY_PERMISSIONS.

Definition FIRST_PARTY_PERMISSIONS (isExperimental isDev : bool) : obj :=
  let o := [(CATALOG_URL_PROD, JObj [("manageInstalledMiniApps", allowed)]);
            (COMMUNITY_TOOL_URL_PROD,
              JObj [("manageCommunities", allowed); ("navigation", allowed)])] in
  let o := spread o (if isExperimental then NIGHTLY_PERMISSIONS else []) in
  let o := spread o (if isDev then DEV_PERMISSIONS else []) in
  set_prop CATALOG_URL_PROD_LEGACY (JObj [("manageInstalledMiniApps", allowed)]) o.

(** ** The state *)

Record ModState := mkMods {
  customGlobalMods : obj;
  modVisibility : obj;
  miniAppPermissions : obj;
  newMods : list string;
  miniAppOrder : list string
}.

#[export] Instance ModState_eta : Eta ModState := fun s =>
  mkMods (customGlobalMods s) (modVisibility s) (miniAppPermissions s) (newMods s)
    (miniAppOrder s).

(** The fields of a stored document the slice reads; absent ones are [None]. *)
Record StoredMods := mkStoredMods {
  st_customGlobalMods : option obj;
  st_modVisibility : option obj;
  st_newMods : option (list string);
  st_miniAppPermissions : option obj;
  st_miniAppOrder : option (list string)
}.

Inductive mod_action : Type :=
  | AddCustomMod (fediMod : obj) (now : num)
  | AllowMiniAppPermissions (miniAppUrl : string) (permissions : list string)
  | ClearMiniAppPermissions (miniAppUrl : string) (permissions : list string)
  | DenyMiniAppPermissions (miniAppUrl : string) (permissions : list string)
  | ClearAllMiniAppPermissions
  | RemoveCustomMod (modId : string)
  | UpdateLastSeenModDate (modId : string)
  | SetMiniAppOrder (order : list string)
  | SetModVisibility (modId : string) (isHidden isHiddenCommunity : option bool)
      (federationId : option string)
  | LoadFromStorage (payload : option StoredMods)
  | SetCommunityCustomFediMods (mods : option (list obj)).

(** [id] and [url] of a mini app are strings. *)
Definition mod_id (m : obj) : string := to_str (get "id" m).
Definition mod_url (m : obj) : string := to_str (get "url" m).

(** lodash's [without(l, x)] *)
Definition without (l : list string) (x : string) : list string := filter (fun y => y <> x) l.

Section Slice.
(** lodash's [isEqual]; [new URL(url)], of which the origin and the host name
    are read. *)
Context (isEqual : jval -> jval -> bool).
Context (origin hostname : string -> result string).
Context (isExperimental isDev : bool).

Definition mod_initialState : ModState :=
  mkMods [] [] (FIRST_PARTY_PERMISSIONS isExperimental isDev) [] [].

Definition set_visibility (id : string) (visibility : obj) (s : ModState) : ModState :=
  s <| modVisibility := (upsertRecordEntityId isEqual (Some (modVisibility s)) (JObj visibility) id).2 |>.

Definition addCustomMod (fediMod : obj) (now : num) (s : ModState) : ModState :=
  let id := mod_id fediMod in
  let s := s <| customGlobalMods :=
    set_prop id (JObj (set_prop "dateAdded" (JNum now) fediMod)) (customGlobalMods s) |> in
  let visibility := set_prop "isCustom" (JBool true) (set_prop "isHidden" (JBool false)
    (own_props (nullish (get id (modVisibility s)) (JObj [])))) in
  let s := set_visibility id visibility s in
  let s := s <| newMods := newMods s ++ [id] |> in
  s <| miniAppOrder := mod_url fediMod :: miniAppOrder s |>.

(** The three reducers that remember or forget a decision differ in what they
    do to each permission. *)
Definition update_permissions (update : obj -> string -> obj) (miniAppUrl : string)
    (permissions : list string) (s : ModState) : result ModState :=
  url ← origin miniAppUrl;
  let currentPermissions := own_props (jor (get url (miniAppPermissions s)) (JObj [])) in
  let updatedPermissions := foldl update currentPermissions permissions in
  Ok (s <| miniAppPermissions :=
    set_prop url (JObj updatedPermissions) (miniAppPermissions s) |>).

Definition allowMiniAppPermissions :=
  update_permissions (fun o permission => set_prop permission (JBool true) o).
Definition clearMiniAppPermissions :=
  update_permissions (fun o permission => del_prop permission o).
Definition denyMiniAppPermissions :=
  update_permissions (fun o permission => set_prop permission (JBool false) o).

Definition clearAllMiniAppPermissions (s : ModState) : ModState :=
  s <| miniAppPermissions := [] |>.

Definition removeCustomMod (modId : string) (s : ModState) : result ModState :=
  let s := if truthy (get modId (customGlobalMods s))
           then s <| customGlobalMods := del_prop modId (customGlobalMods s) |> else s in
  let s := if bool_decide (modId ∈ newMods s)
           then s <| newMods := without (newMods s) modId |> else s in
  isCommunity ← prop (get modId (modVisibility s)) "isCommunity";
  let s := if truthy isCommunity
           then s <| modVisibility :=
             set_prop modId
               (JObj (set_prop "isCustom" (JBool false) (own_props (get modId (modVisibility s)))))
               (del_prop modId (modVisibility s)) |> else s in
  Ok (if bool_decide (modId ∈ miniAppOrder s)
      then s <| miniAppOrder := without (miniAppOrder s) modId |> else s).

Definition updateLastSeenModDate (modId : string) (s : ModState) : ModState :=
  s <| newMods := without (newMods s) modId |>.

Definition setMiniAppOrder (order : list string) (s : ModState) : ModState :=
  s <| miniAppOrder := order |>.

Definition new_visibility (current : obj) (isHidden isHiddenCommunity : option bool)
    (federationId : option string) : obj :=
  match isHiddenCommunity, isHidden with
  | Some b, _ =>
      let o := set_prop "isHiddenCommunity" (JBool b) current in
      match federationId with Some f => set_prop "federationId" (JStr f) o | None => o end
  | None, Some b =>
      set_prop "isHidden" (JBool b) (del_props ["federationId"; "isHiddenCommunity"] current)
  | None, None => current
  end.

Definition setModVisibility (modId : string) (isHidden isHiddenCommunity : option bool)
    (federationId : option string) (s : ModState) : ModState :=
  let currentVisibility := own_props (nullish (get modId (modVisibility s)) (JObj [])) in
  let s := s <| modVisibility :=
    set_prop modId (JObj (new_visibility currentVisibility isHidden isHiddenCommunity federationId))
      (modVisibility s) |> in
  if default false isHidden || default false isHiddenCommunity
  then s <| miniAppOrder := without (miniAppOrder s) modId ++ [modId] |> else s.

Definition mods_loadFromStorage (payload : option StoredMods) (s : ModState) : ModState :=
  match payload with
  | None => s
  | Some p =>
      mkMods (default [] (st_customGlobalMods p)) (default [] (st_modVisibility p))
        (spread (FIRST_PARTY_PERMISSIONS isExperimental isDev)
           (default [] (st_miniAppPermissions p)))
        (default [] (st_newMods p)) (default [] (st_miniAppOrder p))
  end.

(** The body of the loop over the mini apps of a community. *)
Definition track_community_mod (s : ModState) (m : obj) : ModState :=
  let current := get (mod_id m) (modVisibility s) in
  if truthy (opt_prop current "isCommunity") then s
  else set_visibility (mod_id m)
    (set_prop "isCommunity" (JBool true) (set_prop "isHidden" (JBool false) (own_props current))) s.

Definition mods_setCommunityCustomFediMods (mods : option (list obj)) (s : ModState) : ModState :=
  match mods with None => s | Some mods => foldl track_community_mod s mods end.

Definition mods_reduce (s : ModState) (a : mod_action) : result ModState :=
  match a with
  | AddCustomMod m now => Ok (addCustomMod m now s)
  | AllowMiniAppPermissions u ps => allowMiniAppPermissions u ps s
  | ClearMiniAppPermissions u ps => clearMiniAppPermissions u ps s
  | DenyMiniAppPermissions u ps => denyMiniAppPermissions u ps s
  | ClearAllMiniAppPermissions => Ok (clearAllMiniAppPermissions s)
  | RemoveCustomMod id => removeCustomMod id s
  | UpdateLastSeenModDate id => Ok (updateLastSeenModDate id s)
  | SetMiniAppOrder l => Ok (setMiniAppOrder l s)
  | SetModVisibility id h hc f => Ok (setModVisibility id h hc f s)
  | LoadFromStorage p => Ok (mods_loadFromStorage p s)
  | SetCommunityCustomFediMods l => Ok (mods_setCommunityCustomFediMods l s)
  end.

(** A reducer that throws leaves the state as it was. *)
Definition mods_step (s : ModState) (a : mod_action) : ModState :=
  match mods_reduce s a with Ok s' => s' | Throw _ => s end.
Definition mods_run : ModState -> list mod_action -> ModState := foldl mods_step.

(** ** Selectors *)

Definition selectCustomMods (s : ModState) : list obj := (fun kv => own_props kv.2) <$> customGlobalMods s.

(** The predicate of both filters on the mini apps of the user. *)
Definition visible (s : ModState) (m : obj) : bool :=
  let visibility := get (mod_id m) (modVisibility s) in
  if negb (truthy visibility) then true else negb (truthy (opt_prop visibility "isHidden")).

Definition selectVisibleGlobalMods (s : ModState) (globalMods : list obj) : list obj :=
  filter (fun m => visible s m) globalMods.
Definition selectVisibleCustomMods (s : ModState) : list obj :=
  filter (fun m => visible s m) (selectCustomMods s).

(** Hidden only for the community for which it was hidden. *)
Definition visible_in (communityId : string) (s : ModState) (m : obj) : bool :=
  let visibility := get (mod_id m) (modVisibility s) in
  if negb (truthy visibility) then true
  else if truthy (opt_prop visibility "isHiddenCommunity") &&
          bool_decide (opt_prop visibility "federationId" = JStr communityId) then false
  else true.

Definition selectVisibleCommunityMods (lastSelectedCommunityId : option string)
    (customFediMods : string -> option (list obj)) (s : ModState) : list obj :=
  match lastSelectedCommunityId with
  | None => []
  | Some c =>
      if decide (c = "") then []
      else filter (fun m => visible_in c s m) (default [] (customFediMods c))
  end.

(** [deduplicate] of utils/fedimods.ts *)
Definition deduplicate_step (acc : list obj) (curr : obj) : list obj :=
  if existsb (fun item => bool_decide (get "id" item = get "id" curr)) acc then acc
  else acc ++ [curr].
Definition deduplicate (arr : list obj) : list obj := foldl deduplicate_step [] arr.

Definition selectConfigurableMods (s : ModState) (globalMods : list obj) : list obj :=
  deduplicate (globalMods ++ selectCustomMods s).
Definition selectAllVisibleMods (s : ModState) (globalMods : list obj) : list obj :=
  deduplicate (selectVisibleGlobalMods s globalMods ++ selectVisibleCustomMods s).

Definition selectMiniAppPermissions (s : ModState) (miniAppUrl : option string) : result obj :=
  match miniAppUrl with
  | None => Ok []
  | Some u =>
      if decide (u = "") then Ok [] else
      url ← origin u; Ok (own_props (nullish (get url (miniAppPermissions s)) (JObj [])))
  end.

Fixpoint find_by_hostname (current : string) (l : list obj) : result (option obj) :=
  match l with
  | [] => Ok None
  | m :: l =>
      miniAppUrl ← hostname (mod_url m);
      if decide (miniAppUrl = current) then Ok (Some m) else find_by_hostname current l
  end.
Definition selectMiniAppByUrl (s : ModState) (globalMods : list obj) (url : string)
    : result (option obj) :=
  currentUrl ← hostname url;
  find_by_hostname currentUrl (selectConfigurableMods s globalMods).

(** One week, in milliseconds. *)
Definition NEW_MOD_EXPIRATION_THRESHOLD_MS : num := of_Z 604800000.
Definition isModNew (now : num) (m : obj) : bool :=
  let dateAdded := to_num (jor (get "dateAdded" m) (JNum (of_Z 0))) in
  ltb (sub now dateAdded) NEW_MOD_EXPIRATION_THRESHOLD_MS.

Definition includes_id (ids : list string) (m : obj) : bool :=
  existsb (fun k => bool_decide (get "id" m = JStr k)) ids.
Definition selectNewModIds (now : num) (s : ModState) (globalMods : list obj) : list jval :=
  get "id" <$> filter (fun m => includes_id (newMods s) m && isModNew now m)
    (selectAllVisibleMods s globalMods).
Definition selectIsNewMod (now : num) (s : ModState) (globalMods : list obj) (target : obj) : bool :=
  bool_decide (get "id" target ∈ selectNewModIds now s globalMods).
End Slice.

(** ** The mini apps of a community: [getCommunityFediMods] *)

Section CommunityMods.
(** [JSON.parse], and the zod schema of a mini app. *)
Context (parse : string -> result jval) (valid : obj -> bool).

Definition add_valid_mod (l : list obj) (v : jval) : result (list obj) :=
  o ← entries v;
  let imageUrl := get "imageUrl" o in
  let rest := del_prop "imageUrl" o in
  Ok (if negb (valid rest) then l
      else if negb (truthy imageUrl) then l ++ [rest]
      else l ++ [set_prop "imageUrl" imageUrl rest]).

Definition getCommunityFediMods (metadata : obj) : list obj :=
  let sites := getMetaField "sites" metadata in
  if negb (truthy sites) then [] else
  match (fediMods ← parse (to_str sites);
         match fediMods with
         | JArr l => foldM add_valid_mod [] l
         | _ => Throw "Expected array of fedi mods"
         end)
  with Ok l => l | Throw _ => [] end.

Definition selectGlobalMods (globalCommunityMeta : option obj) : list obj :=
  match globalCommunityMeta with None => [] | Some meta => getCommunityFediMods meta end.

Definition selectCoreMods (globalCommunityMeta : option obj) : list obj :=
  match globalCommunityMeta with
  | None => []
  | Some meta => filter (fun m => includes_id ["lngpt"; "catalog"; "swap"] m) (getCommunityFediMods meta)
  end.
End CommunityMods.

Definition selectCommunityMods (customFediMods : list (string * option (list obj))) : list obj :=
  mjoin ((fun kv => default [] kv.2) <$> customFediMods).

(** ** The order of the screen *)

(** [order.indexOf(id)], [None] for -1. *)
Definition index_of (order : list string) (m : obj) : option nat :=
  fst <$> list_find (fun k => get "id" m = JStr k) order.

(** The comparator returns a number that is not positive. *)
Definition by_order (order : list string) (a b : obj) : bool :=
  match index_of order a, index_of order b with
  | Some i, Some j => (i <=? j)%nat
  | Some _, None => true
  | None, Some _ => false
  | None, None => true
  end.

Definition sortedMiniApps (order : list string) (mods : list obj) : list obj :=
  sort_stable (by_order order) mods.

(** ** Permissions *)

(** What the app remembers of permission [p] of [origin]: [true], [false], or
    [undefined], which asks the user. *)
Definition permission (s : ModState) (o p : string) : jval :=
  get p (own_props (get o (miniAppPermissions s))).

Lemma own_props_or v : own_props (jor v (JObj [])) = own_props v.
Proof.
  destruct v as [| |[]|n|s| |]; cbn; try done; unfold jor; cbn; [by destruct (num_truthy n)|].
  case_bool_decide; by subst.
Qed.

Lemma own_props_nullish v : own_props (nullish v (JObj [])) = own_props v.
Proof. by destruct v. Qed.

Lemma get_set_all v ps (o : obj) p :
  get p (foldl (fun o k => set_prop k v o) o ps) = if decide (p ∈ ps) then v else get p o.
Proof.
  revert o. induction ps as [|k ps IH]; intros o; cbn [foldl]; [by rewrite decide_False by apply not_elem_of_nil|].
  rewrite IH. destruct (decide (p ∈ ps)) as [H|H]; [by rewrite decide_True by (by right)|].
  destruct (decide (p = k)) as [->|N].
  - by rewrite get_set_eq, decide_True by left.
  - rewrite get_set_ne, decide_False; [done| |done]. by intros [|]%elem_of_cons.
Qed.

Lemma get_del_all ps (o : obj) p :
  get p (foldl (fun o k => del_prop k o) o ps) = if decide (p ∈ ps) then JUndef else get p o.
Proof.
  revert o. induction ps as [|k ps IH]; intros o; cbn [foldl]; [by rewrite decide_False by apply not_elem_of_nil|].
  rewrite IH. destruct (decide (p ∈ ps)) as [H|H]; [by rewrite decide_True by (by right)|].
  destruct (decide (p = k)) as [->|N].
  - unfold get. by rewrite lookup_del_eq, decide_True by left.
  - rewrite get_del_ne, decide_False; [done| |done]. by intros [|]%elem_of_cons.
Qed.

Definition objects (o : obj) : Prop := forall k v, lookup_prop k o = Some v -> exists p, v = JObj p.

(** Every mini app the user added has an entry that says whether it shows. *)
Definition mods_ok (custom visibility : obj) : Prop :=
  objects custom /\ objects visibility /\
  forall k, is_Some (lookup_prop k custom) -> is_Some (lookup_prop k visibility).

(** A stored document was written by the app, or by a migration. *)
Definition mods_action_ok (a : mod_action) : Prop :=
  match a with
  | LoadFromStorage (Some p) =>
      wf_obj (default [] (st_miniAppPermissions p)) /\
      mods_ok (default [] (st_customGlobalMods p)) (default [] (st_modVisibility p))
  | _ => True
  end.

Section ModsSpec.
Context (isEqual : jval -> jval -> bool).
Context (origin : string -> result string).
Context (isExperimental isDev : bool).

Abbreviation step := (mods_step isEqual origin isExperimental isDev).
Abbreviation run := (mods_run isEqual origin isExperimental isDev).
Abbreviation init := (mod_initialState isExperimental isDev).

(** What an action decides about permission [p] of the origin [o], if it does. *)
Definition decides (o p : string) (a : mod_action) : option jval :=
  let named u ps := match origin u with
                    | Ok o' => bool_decide (o' = o) && bool_decide (p ∈ ps)
                    | Throw _ => false
                    end in
  match a with
  | AllowMiniAppPermissions u ps => if named u ps then Some (JBool true) else None
  | DenyMiniAppPermissions u ps => if named u ps then Some (JBool false) else None
  | ClearMiniAppPermissions u ps => if named u ps then Some JUndef else None
  | ClearAllMiniAppPermissions => Some JUndef
  | LoadFromStorage (Some doc) =>
      Some (get p (own_props
        match lookup_prop o (default [] (st_miniAppPermissions doc)) with
        | Some v => v
        | None => get o (FIRST_PARTY_PERMISSIONS isExperimental isDev)
        end))
  | _ => None
  end.

Lemma update_permissions_spec update v u ps s o p :
  (forall perms, get p (foldl update perms ps) = if decide (p ∈ ps) then v else get p perms) ->
  permission (match update_permissions origin update u ps s with Ok s' => s' | Throw _ => s end) o p
  = default (permission s o p)
      (if match origin u with
          | Ok o' => bool_decide (o' = o) && bool_decide (p ∈ ps) | Throw _ => false end
       then Some v else None).
Proof.
  intros U. unfold update_permissions. destruct (origin u) as [o'|e]; [|done]. cbn [mbind result_bind].
  unfold permission. cbn [miniAppPermissions setter eta].
  destruct (decide (o' = o)) as [->|N].
  - rewrite get_set_eq, bool_decide_true by done. cbn [own_props andb].
    rewrite U, own_props_or. case_decide; [by rewrite bool_decide_true | by rewrite bool_decide_false].
  - by rewrite get_set_ne, bool_decide_false by congruence.
Qed.

Lemma track_permissions l s :
  miniAppPermissions (foldl (track_community_mod isEqual) s l) = miniAppPermissions s.
Proof.
  revert s. induction l as [|m l IH]; intros s; cbn [foldl]; [done|]. rewrite IH.
  unfold track_community_mod. by case_match.
Qed.

Lemma remove_permissions id s s' :
  removeCustomMod id s = Ok s' -> miniAppPermissions s' = miniAppPermissions s.
Proof.
  unfold removeCustomMod. intros H. apply bind_Ok_inv in H as (c & _ & H). injection H as <-.
  by repeat case_match.
Qed.

Lemma step_permission s a o p :
  mods_action_ok a -> permission (step s a) o p = default (permission s o p) (decides o p a).
Proof.
  intros A. destruct a as [m now|u ps|u ps|u ps| |id|id|l|id h hc f|[doc|]|[l|]];
    unfold mods_step; cbn [mods_reduce decides]; try done.
  - apply update_permissions_spec. intros. apply get_set_all.
  - apply update_permissions_spec. intros. apply get_del_all.
  - apply update_permissions_spec. intros. apply get_set_all.
  - destruct (removeCustomMod id s) eqn:E; [|done]. unfold permission.
    by rewrite (remove_permissions _ _ _ E).
  - unfold setModVisibility. by case_match.
  - destruct A as [W _]. unfold permission. cbn [mods_loadFromStorage miniAppPermissions default].
    unfold get at 2. rewrite lookup_spread_wf by done. by case_match.
  - unfold permission. cbn [mods_setCommunityCustomFediMods]. by rewrite track_permissions.
Qed.

(** After any sequence of actions, what the app remembers of a permission of
    an origin is what the last action decided that was about it (granted it,
    denied it, forgot it, forgot everything, or loaded a stored document, in
    which an origin has its stored permissions, or else those of a first
    party); and what it was before if no action was about it. *)
Theorem permissions_follow_decisions s l o p :
  Forall mods_action_ok l ->
  permission (run s l) o p = default (permission s o p) (last (omap (decides o p) l)).
Proof.
  induction l as [|a l IH] using rev_ind; intros F; [done|].
  apply list.Forall_app in F as [Fl Fa]. apply list.Forall_cons in Fa as [A _].
  unfold mods_run. rewrite foldl_app. cbn [foldl]. rewrite step_permission, omap_app by done.
  fold (run s l). rewrite IH by done. cbn [omap list_omap].
  destruct (decides o p a) as [v|]; [by rewrite last_snoc|]. by rewrite app_nil_r.
Qed.

(** ** Removing a mini app *)

Lemma objects_set k p o : objects o -> objects (set_prop k (JObj p) o).
Proof.
  intros O k' v. destruct (decide (k' = k)) as [->|N].
  - rewrite lookup_set_eq. intros [= <-]. eauto.
  - rewrite lookup_set_ne by done. apply O.
Qed.

Lemma set_defined {V} k (v : V) o k' :
  is_Some (lookup_prop k' o) -> is_Some (lookup_prop k' (set_prop k v o)).
Proof.
  destruct (decide (k' = k)) as [->|N]; [rewrite lookup_set_eq; eauto|].
  by rewrite lookup_set_ne.
Qed.

Lemma upsert_objects r p k :
  objects r ->
  let r' := (upsertRecordEntityId isEqual (Some r) (JObj p) k).2 in
  objects r' /\ is_Some (lookup_prop k r') /\
  forall k', is_Some (lookup_prop k' r) -> is_Some (lookup_prop k' r').
Proof.
  intros O. unfold upsertRecordEntityId, holds_equal.
  change (default [] (Some r)) with r.
  destruct (truthy (get k r) && isEqual (get k r) (JObj p)) eqn:E; cbn [snd].
  - bools. split_and!; [done| |by intros].
    unfold get in *. destruct (lookup_prop k r); [eauto|done].
  - split_and!; [by apply objects_set|rewrite lookup_set_eq; eauto|].
    intros. by apply set_defined.
Qed.

Lemma track_ok l s :
  mods_ok (customGlobalMods s) (modVisibility s) ->
  let s' := foldl (track_community_mod isEqual) s l in
  mods_ok (customGlobalMods s') (modVisibility s').
Proof.
  revert s. induction l as [|m l IH]; intros s H; cbn [foldl]; [done|]. apply IH.
  unfold track_community_mod. case_match; [done|]. destruct H as (C & V & D).
  destruct (upsert_objects (modVisibility s)
    (set_prop "isCommunity" (JBool true) (set_prop "isHidden" (JBool false)
       (own_props (get (mod_id m) (modVisibility s))))) (mod_id m) V) as (V' & _ & D').
  split_and!; [done|exact V'|]. intros k K. by apply D', D.
Qed.

Lemma add_ok m now s :
  mods_ok (customGlobalMods s) (modVisibility s) ->
  let s' := addCustomMod isEqual m now s in
  mods_ok (customGlobalMods s') (modVisibility s').
Proof.
  intros (C & V & D). cbn.
  destruct (upsert_objects (modVisibility s)
    (set_prop "isCustom" (JBool true) (set_prop "isHidden" (JBool false)
      (own_props (nullish (get (mod_id m) (modVisibility s)) (JObj []))))) (mod_id m) V)
    as (V' & K & D').
  split_and!; [by apply objects_set|exact V'|]. intros k H.
  destruct (decide (k = mod_id m)) as [->|N]; [exact K|].
  rewrite lookup_set_ne in H by done. by apply D', D.
Qed.

Lemma objects_del k o : objects o -> objects (del_prop k o).
Proof.
  intros O k' v H. destruct (decide (k' = k)) as [->|N]; [by rewrite lookup_del_eq in H|].
  rewrite lookup_del_ne in H by done. by apply (O k').
Qed.

(** Removing a mini app that has an entry. *)
Lemma remove_spec id s :
  mods_ok (customGlobalMods s) (modVisibility s) -> is_Some (lookup_prop id (modVisibility s)) ->
  exists s', removeCustomMod id s = Ok s' /\
    lookup_prop id (customGlobalMods s') = None /\
    id ∉ newMods s' /\ id ∉ miniAppOrder s' /\
    is_Some (lookup_prop id (modVisibility s')) /\
    objects (modVisibility s') /\ objects (customGlobalMods s') /\
    forall k, k <> id ->
      lookup_prop k (customGlobalMods s') = lookup_prop k (customGlobalMods s) /\
      lookup_prop k (modVisibility s') = lookup_prop k (modVisibility s).
Proof.
  intros (C & V & D) [v E]. destruct (V _ _ E) as [e ->]. unfold removeCustomMod.
  assert (G : forall s1, modVisibility s1 = modVisibility s ->
    prop (get id (modVisibility s1)) "isCommunity" = Ok (get "isCommunity" e)).
  { intros s1 ->. unfold get at 1. by rewrite E. }
  assert (K : truthy (get id (customGlobalMods s)) = false -> lookup_prop id (customGlobalMods s) = None).
  { unfold get. destruct (lookup_prop id (customGlobalMods s)) eqn:L; [|done].
    by destruct (C _ _ L) as [q ->]. }
  set (s1 := if truthy (get id (customGlobalMods s)) then _ else s).
  assert (C1 : lookup_prop id (customGlobalMods s1) = None /\ objects (customGlobalMods s1) /\
    (forall k, k <> id -> lookup_prop k (customGlobalMods s1) = lookup_prop k (customGlobalMods s)) /\
    modVisibility s1 = modVisibility s).
  { subst s1. destruct (truthy _); cbn; [|by auto].
    split_and!; [apply lookup_del_eq|by apply objects_del|intros; by apply lookup_del_ne|done]. }
  clearbody s1. destruct C1 as (C1 & O1 & C2 & V1).
  set (s2 := if bool_decide (id ∈ newMods s1) then _ else s1).
  assert (S2 : customGlobalMods s2 = customGlobalMods s1 /\ modVisibility s2 = modVisibility s1 /\
    id ∉ newMods s2).
  { subst s2. case_bool_decide; cbn; split_and!; try done.
    unfold without. rewrite list_elem_of_filter. by intros [? _]. }
  clearbody s2. destruct S2 as (Ec & Ev & N2). rewrite G by congruence. cbn [mbind result_bind].
  set (s3 := if truthy _ then _ else s2).
  assert (S3 : customGlobalMods s3 = customGlobalMods s1 /\ newMods s3 = newMods s2 /\
    is_Some (lookup_prop id (modVisibility s3)) /\ objects (modVisibility s3) /\
    forall k, k <> id -> lookup_prop k (modVisibility s3) = lookup_prop k (modVisibility s)).
  { subst s3. destruct (truthy (get "isCommunity" e)); cbn; rewrite ?Ev, ?V1, ?Ec; split_and!; try done; eauto.
    - rewrite lookup_set_eq. eauto.
    - by apply objects_set, objects_del.
    - intros k N. by rewrite lookup_set_ne, lookup_del_ne. }
  clearbody s3. destruct S3 as (E3 & N3 & I3 & O3 & V3).
  eexists. split; [reflexivity|].
  case_bool_decide; cbn; rewrite ?E3, ?N3; split_and!; auto.
  unfold without. rewrite list_elem_of_filter. by intros [? _].
Qed.

Lemma step_ok s a :
  mods_action_ok a -> mods_ok (customGlobalMods s) (modVisibility s) ->
  mods_ok (customGlobalMods (step s a)) (modVisibility (step s a)).
Proof.
  intros A H. destruct a as [m now|u ps|u ps|u ps| |id|id|l|id h hc f|[doc|]|[l|]];
    unfold mods_step; cbn [mods_reduce]; try done.
  - by apply add_ok.
  - by destruct (origin u) eqn:E; unfold allowMiniAppPermissions, update_permissions; rewrite E.
  - by destruct (origin u) eqn:E; unfold clearMiniAppPermissions, update_permissions; rewrite E.
  - by destruct (origin u) eqn:E; unfold denyMiniAppPermissions, update_permissions; rewrite E.
  - destruct (removeCustomMod id s) as [s'|e] eqn:E; [|done].
    assert (I : is_Some (lookup_prop id (modVisibility s))).
    { unfold removeCustomMod in E. destruct (lookup_prop id (modVisibility s)) eqn:L; [eauto|].
      apply bind_Ok_inv in E as (c & E & _).
      repeat case_match; unfold get in E; cbn in E; by rewrite L in E. }
    destruct (remove_spec id s H I) as (s1 & E1 & N1 & _ & _ & I1 & O1 & C1 & U).
    rewrite E in E1. injection E1 as ->. split_and!; [done..|]. intros k K.
    destruct (decide (k = id)) as [->|N]; [done|]. destruct (U k N) as [Uc Uv].
    rewrite Uv. apply H. by rewrite <- Uc.
  - destruct H as (C & V & D).
    assert (mods_ok (customGlobalMods s) (set_prop id (JObj (new_visibility
      (own_props (nullish (get id (modVisibility s)) (JObj []))) h hc f)) (modVisibility s))).
    { split_and!; [done|by apply objects_set|]. intros k K. by apply set_defined, D. }
    unfold setModVisibility. by case_match.
  - apply A.
  - by apply track_ok.
Qed.

Lemma run_ok l : Forall mods_action_ok l ->
  mods_ok (customGlobalMods (run init l)) (modVisibility (run init l)).
Proof.
  induction l as [|a l IH] using rev_ind; intros F.
  - split_and!; intros ?; [done..|]. by intros [? [=]].
  - apply list.Forall_app in F as [Fl Fa]. apply list.Forall_cons in Fa as [A _].
    unfold mods_run. rewrite foldl_app. apply step_ok; [done|]. by apply IH.
Qed.

(** In every reachable state each mini app the user added can be removed:
    the reducer does not throw, the app is gone from the apps of the user, from
    the new ones and from the order, its entry of visibility stays, and no
    other app changes. *)
Theorem custom_mods_removable l id :
  let s := run init l in
  Forall mods_action_ok l -> id ∈ keys (customGlobalMods s) ->
  exists s', removeCustomMod id s = Ok s' /\
    id ∉ keys (customGlobalMods s') /\ id ∉ newMods s' /\ id ∉ miniAppOrder s' /\
    id ∈ keys (modVisibility s') /\
    (forall k, k <> id ->
      lookup_prop k (customGlobalMods s') = lookup_prop k (customGlobalMods s) /\
      lookup_prop k (modVisibility s') = lookup_prop k (modVisibility s)) /\
    miniAppPermissions s' = miniAppPermissions s.
Proof.
  intros s F K. pose proof (run_ok l F) as M. fold s in M.
  apply lookup_elem_keys in K.
  destruct (remove_spec id s M) as (s' & E & C & N & O & V & _ & _ & U); [by apply M|].
  exists s'. split_and!; try done.
  - rewrite <- lookup_elem_keys, C. by intros [? [=]].
  - by apply lookup_elem_keys.
  - by apply (remove_permissions id).
Qed.
End ModsSpec.

(** ** The list of mini apps *)

Lemma deduplicate_NoDup acc l :
  NoDup (get "id" <$> acc) -> NoDup (get "id" <$> foldl deduplicate_step acc l).
Proof.
  revert acc. induction l as [|x l IH]; intros acc N; cbn [foldl]; [done|]. apply IH.
  unfold deduplicate_step. destruct (existsb _ acc) eqn:E; [done|].
  rewrite fmap_app. apply list.NoDup_app. split_and!; [done| |apply list.NoDup_singleton].
  intros i Hi Hx. apply list_elem_of_singleton in Hx as ->. apply list_elem_of_fmap in Hi as (y & Hy & Hin).
  enough (T : existsb (fun item => bool_decide (get "id" item = get "id" x)) acc = true) by congruence.
  apply existsb_exists. exists y. split; [by apply list_elem_of_In|by apply bool_decide_true].
Qed.

(** Dropping apps by a predicate of their id commutes with dropping duplicates. *)
Lemma deduplicate_filter (P : obj -> bool) acc l :
  (forall a b, get "id" a = get "id" b -> P a = P b) ->
  filter (fun m => P m) (foldl deduplicate_step acc l) =
  foldl deduplicate_step (filter (fun m => P m) acc) (filter (fun m => P m) l).
Proof.
  intros R. revert acc. induction l as [|x l IH]; intros acc; cbn [foldl]; [done|].
  rewrite IH. destruct (P x) eqn:Px.
  - rewrite (filter_cons_True _ x l) by (rewrite Px; exact I). cbn [foldl]. f_equal.
    unfold deduplicate_step.
    enough (E : existsb (fun item => bool_decide (get "id" item = get "id" x))
                  (filter (fun m => P m) acc) =
                existsb (fun item => bool_decide (get "id" item = get "id" x)) acc).
    { rewrite E. case_match; [done|]. rewrite filter_app. by rewrite (filter_cons_True _ x []) by (rewrite Px; exact I). }
    clear IH. induction acc as [|a acc IH]; [done|]. cbn [existsb]. rewrite <- IH.
    destruct (P a) eqn:Pa; [by rewrite filter_cons_True by (rewrite Pa; exact I)|].
    rewrite filter_cons_False by (rewrite Pa; intros []). case_bool_decide as E; [|done].
    apply R in E. congruence.
  - rewrite (filter_cons_False _ x l) by (rewrite Px; intros []). f_equal.
    unfold deduplicate_step. case_match; [done|].
    rewrite filter_app. rewrite (filter_cons_False _ x []) by (rewrite Px; intros []). by rewrite app_nil_r.
Qed.

Lemma visible_by_id s a b : get "id" a = get "id" b -> visible s a = visible s b.
Proof. unfold visible, mod_id. by intros ->. Qed.

(** The apps shown are the apps that can be configured without those hidden, in
    the same order; each id is shown once, and every visible app of the
    community and of the user has its id in the list. *)
Theorem visible_mods s globalMods :
  selectAllVisibleMods s globalMods =
    filter (fun m => visible s m) (selectConfigurableMods s globalMods) /\
  NoDup (get "id" <$> selectAllVisibleMods s globalMods).
Proof.
  split.
  - unfold selectConfigurableMods, deduplicate.
    rewrite deduplicate_filter by apply visible_by_id. by rewrite filter_app.
  - apply deduplicate_NoDup. constructor.
Qed.

(** ** The order of the screen *)

Lemma by_order_total order a b : by_order order a b = true \/ by_order order b a = true.
Proof.
  unfold by_order. destruct (index_of order a), (index_of order b); auto.
  rewrite !Nat.leb_le. lia.
Qed.

Lemma by_order_trans order a b c :
  by_order order a b = true -> by_order order b c = true -> by_order order a c = true.
Proof.
  unfold by_order. destruct (index_of order a), (index_of order b), (index_of order c);
    rewrite ?Nat.leb_le; try done. lia.
Qed.

Lemma sorted_by_order order mods :
  StronglySorted (fun a b => by_order order a b = true) (sortedMiniApps order mods).
Proof.
  apply (sort_stable_sorted (by_order order) (fun _ => True)).
  - intros a b _ _. apply by_order_total.
  - intros a b c _ _ _. apply by_order_trans.
  - by apply list.Forall_forall.
Qed.

Lemma index_of_None order m : index_of order m = None <-> get "id" m ∉ (JStr <$> order).
Proof.
  unfold index_of. destruct (list_find _ order) as [[i k]|] eqn:E; cbn.
  - split; [done|]. apply list_find_Some in E as (L & M & _). intros [].
    rewrite M. apply list_elem_of_fmap_2, (list_elem_of_lookup_2 _ _ _ L).
  - split; [|done]. intros _. apply list_find_None in E.
    intros H. apply list_elem_of_fmap in H as (k & M & Hk). rewrite list.Forall_forall in E.
    by apply (E k).
Qed.

(** Adding an app puts its url, not its id, at the head of the order: an app
    whose id is not its url is unknown to the order, and the screen shows it
    behind every app that the order lists. *)
Theorem added_mod_listed_last isEqual m now s mods l1 l2 :
  get "id" m = JStr (mod_id m) -> mod_id m <> mod_url m -> mod_id m ∉ miniAppOrder s ->
  sortedMiniApps (miniAppOrder (addCustomMod isEqual m now s)) mods = l1 ++ m :: l2 ->
  forall m', m' ∈ l2 -> index_of (miniAppOrder (addCustomMod isEqual m now s)) m' = None.
Proof.
  intros I N U S m' H. cbn [addCustomMod miniAppOrder setter eta set_visibility] in *.
  set (order := mod_url m :: miniAppOrder s) in *.
  pose proof (sorted_by_order order mods) as O. rewrite S in O.
  assert (by_order order m m' = true) as B.
  { clear -O H. induction l1 as [|x l1 IH]; cbn in O; apply StronglySorted_inv in O as [O F].
    - rewrite list.Forall_forall in F. by apply F.
    - by apply IH. }
  assert (X : index_of order m = None).
  { apply index_of_None. rewrite I. intros K. apply list_elem_of_fmap in K as (k & E & K).
    injection E as <-. by apply elem_of_cons in K as [?|K]. }
  unfold by_order in B. rewrite X in B. by destruct (index_of order m').
Qed.

(** ** Witnesses *)

Definition demo_origin (u : string) : result string :=
  if String.prefix "https://shop.example" u then Ok "https://shop.example" else Throw type_error.
Definition no_isEqual (_ _ : jval) : bool := false.
Definition demo_mod : obj :=
  [("id", JStr "custom-1"); ("title", JStr "Shop"); ("url", JStr "https://shop.example/")].
Definition other_mod : obj :=
  [("id", JStr "catalog"); ("title", JStr "Catalog"); ("url", JStr CATALOG_URL_PROD)].
Definition demo_actions : list mod_action :=
  [LoadFromStorage (Some (mkStoredMods None None None None None));
   AddCustomMod demo_mod (of_Z 1);
   AllowMiniAppPermissions "https://shop.example/cart" ["navigation"; "viewFederations"];
   DenyMiniAppPermissions "https://shop.example/" ["navigation"];
   ClearMiniAppPermissions "not a url" ["viewFederations"]].

Lemma demo_actions_ok : Forall mods_action_ok demo_actions.
Proof.
  repeat constructor; try done; try (by intros ? ? [=]); by intros ? [? [=]].
Qed.

Lemma permissions_follow_decisions_witness :
  let s := mods_run no_isEqual demo_origin false false (mod_initialState false false) demo_actions in
  permission s "https://shop.example" "navigation" = JBool false /\
  permission s "https://shop.example" "viewFederations" = JBool true /\
  permission s CATALOG_URL_PROD "manageInstalledMiniApps" = JBool true.
Proof.
  intros s. subst s.
  split_and!; rewrite (permissions_follow_decisions no_isEqual demo_origin false false _ demo_actions)
    by exact demo_actions_ok; vm_compute; reflexivity.
Defined.

Lemma custom_mods_removable_witness :
  exists s', removeCustomMod "custom-1"
    (mods_run no_isEqual demo_origin false false (mod_initialState false false) demo_actions) = Ok s' /\
    "custom-1" ∉ keys (customGlobalMods s').
Proof.
  destruct (custom_mods_removable no_isEqual demo_origin false false demo_actions "custom-1")
    as (s' & E & K & _).
  - exact demo_actions_ok.
  - vm_compute. left.
  - exists s'. by split.
Defined.

Lemma added_mod_listed_last_witness :
  sortedMiniApps (miniAppOrder (addCustomMod no_isEqual demo_mod (of_Z 1)
    (mkMods [] [] [] [] ["catalog"]))) [demo_mod; other_mod] = [other_mod; demo_mod] /\
  forall m', m' ∈ ([] : list obj) ->
    index_of (miniAppOrder (addCustomMod no_isEqual demo_mod (of_Z 1)
      (mkMods [] [] [] [] ["catalog"]))) m' = None.
Proof.
  split; [vm_compute; reflexivity|].
  apply (added_mod_listed_last no_isEqual demo_mod (of_Z 1) (mkMods [] [] [] [] ["catalog"])
    [demo_mod; other_mod] [other_mod] []); vm_compute; try done; try (by intros [=]).
  intros H. by inversion H as [|? ? ? H']; inversion H'.
Defined.
