(* ===== verification/ChatRows.v ===== *)
(** Rows of a conversation: [ui/common/utils/chatConversationRows.ts].

    The screen of a conversation lists its events newest first; what each row
    shows beside its event follows from runs of messages that one sender sent
    within a minute of each other.  The code computes it in passes that number
    time groups and sender runs; the theorem says what a row shows in terms of
    the rows around it. *)
From Stdlib Require Import ZArith Lia.
From stdpp Require Import base tactics strings list option sets gmap.
From S2P Require Import Prelude JsNum Js Upsert MatrixEvents.
Local Open Scope string_scope.
Local Open Scope list_scope.

Inductive ChatType : Type := direct | group.
#[export] Instance ChatType_eq_dec : EqDecision ChatType.
Proof. solve_decision. Defined.

Inductive ChatConversationRowLayout : Type := l_message | l_systemNotice.

Record ChatConversationRow := mkRow {
  row_event : obj;
  row_layout : ChatConversationRowLayout;
  showTimestamp : bool;
  showUsername : bool;
  showAvatar : bool;
  showUsernames : bool;
  isLastBubbleInRun : bool
}.

Record DerivedEvent := mkDerived {
  de_event : obj;
  de_layout : ChatConversationRowLayout;
  timeGroupId : nat;
  senderRunId : option nat
}.

Definition num_abs (d : num) : num := if ltb d (of_Z 0) then neg d else d.

Definition isWithinChatGroupWindow (first second : option obj) : bool :=
  match first, second with
  | Some first, Some second =>
      truthy (get "timestamp" first) && truthy (get "timestamp" second) &&
      leb (num_abs (sub (to_num (get "timestamp" first)) (to_num (get "timestamp" second))))
        (of_Z 60000)
  | _, _ => false
  end.

Definition getRowLayout (event : obj) : ChatConversationRowLayout :=
  if isJoinedRoomMemberEvent event then l_systemNotice else l_message.

Definition is_message (event : obj) : bool :=
  match getRowLayout event with l_message => true | l_systemNotice => false end.
Definition de_message (d : DerivedEvent) : bool :=
  match de_layout d with l_message => true | l_systemNotice => false end.

(** The variables of the first pass, and the event before the current one. *)
Record RowState := mkRowState {
  derivedEvents : list DerivedEvent;
  usernamesByTimeGroup : gmap nat bool;
  currentTimeGroupId : nat;
  currentSenderRunId : nat;
  previousMessageSender : jval;
  previousMessageTimeGroupId : option nat;
  previousEvent : option obj
}.

Definition derive_step (type : ChatType) (s : RowState) (event : obj) : RowState :=
  let layout := getRowLayout event in
  let isSameTimeGroup :=
    bool_decide (is_Some (previousEvent s)) && isWithinChatGroupWindow (previousEvent s) (Some event) in
  let timeGroup := match previousEvent s with
                   | Some _ => if negb isSameTimeGroup then S (currentTimeGroupId s)
                               else currentTimeGroupId s
                   | None => currentTimeGroupId s
                   end in
  match layout with
  | l_message =>
      let senderRun :=
        if bool_decide (previousMessageSender s <> JUndef) &&
           (bool_decide (previousMessageTimeGroupId s <> Some timeGroup) ||
            bool_decide (previousMessageSender s <> get "sender" event))
        then S (currentSenderRunId s) else currentSenderRunId s in
      let showUsernamesInGroup :=
        default (bool_decide (type = group)) (usernamesByTimeGroup s !! timeGroup) in
      mkRowState (derivedEvents s ++ [mkDerived event layout timeGroup (Some senderRun)])
        (<[timeGroup := showUsernamesInGroup && negb (isMultispendEvent event)]> (usernamesByTimeGroup s))
        timeGroup senderRun (get "sender" event) (Some timeGroup) (Some event)
  | l_systemNotice =>
      mkRowState (derivedEvents s ++ [mkDerived event layout timeGroup None])
        (usernamesByTimeGroup s) timeGroup (currentSenderRunId s) (previousMessageSender s)
        (previousMessageTimeGroupId s) (Some event)
  end.

Definition row_initial : RowState := mkRowState [] ∅ 0 0 JUndef None None.

(** [previousMessageRows] and [nextMessageRows]: of each row, the nearest
    message before and after it. *)
Fixpoint previous_rows (previousMessageRow : option DerivedEvent) (l : list DerivedEvent)
    : list (option DerivedEvent) :=
  match l with
  | [] => []
  | d :: l =>
      previousMessageRow :: previous_rows (if de_message d then Some d else previousMessageRow) l
  end.

Fixpoint next_rows (l : list DerivedEvent) : list (option DerivedEvent) * option DerivedEvent :=
  match l with
  | [] => ([], None)
  | d :: l =>
      let '(rows, nextMessageRow) := next_rows l in
      (nextMessageRow :: rows, if de_message d then Some d else nextMessageRow)
  end.

Definition make_row (usernames : gmap nat bool) (previous : option DerivedEvent) (d : DerivedEvent)
    (nextEvent nextMessage : option DerivedEvent) : ChatConversationRow :=
  let isNewestInSenderRun := de_message d &&
    match previous with None => true | Some p => bool_decide (senderRunId p <> senderRunId d) end in
  let isOldestInSenderRun := de_message d &&
    match nextMessage with None => true | Some n => bool_decide (senderRunId n <> senderRunId d) end in
  let isOldestInTimeGroup :=
    match nextEvent with None => true | Some n => bool_decide (timeGroupId n <> timeGroupId d) end in
  mkRow (de_event d) (de_layout d) isOldestInTimeGroup isOldestInSenderRun isNewestInSenderRun
    (de_message d && default false (usernames !! timeGroupId d)) isNewestInSenderRun.

Section Rows.
(** lodash's [orderBy(events, 'timestamp', 'desc')]. *)
Context (orderByTimestampDesc : list obj -> list obj).

Definition makeChatConversationRows (events : list obj) (type : ChatType)
    : list ChatConversationRow :=
  let sortedEvents := orderByTimestampDesc events in
  let s := foldl (derive_step type) row_initial sortedEvents in
  let derived := derivedEvents s in
  let previousMessageRows := previous_rows None derived in
  let nextMessageRows := (next_rows derived).1 in
  imap (fun i d =>
    make_row (usernamesByTimeGroup s) (mjoin (previousMessageRows !! i)) d (derived !! S i)
      (mjoin (nextMessageRows !! i))) derived.
End Rows.

Definition getChatConversationRowIndex (rows : list ChatConversationRow) (eventId : string)
    : option nat :=
  fst <$> list_find (fun row => get "id" (row_event row) = JStr eventId) rows.

(** ** What a row shows, in terms of its neighbours *)

(** Neighbouring events at most a minute apart. *)
Definition joined (a b : obj) : bool := isWithinChatGroupWindow (Some a) (Some b).

#[local] Arguments joined : simpl never.
#[local] Arguments is_message : simpl never.
#[local] Arguments isMultispendEvent : simpl never.

(** Going from [e] through [l], every step is between joined events. *)
Fixpoint chain (R : obj -> obj -> bool) (e : obj) (l : list obj) : bool :=
  match l with [] => true | x :: l => R e x && chain R x l end.

(** The events from [e] on, up to the first step between events apart. *)
Fixpoint block (R : obj -> obj -> bool) (e : obj) (l : list obj) : list obj :=
  match l with [] => [] | x :: l => if R e x then x :: block R x l else [] end.

(** The first message of a list, with the notices before it. *)
Fixpoint next_message (l : list obj) : option (list obj * obj) :=
  match l with
  | [] => None
  | x :: l =>
      if is_message x then Some ([], x)
      else match next_message l with Some (ns, m) => Some (x :: ns, m) | None => None end
  end.

(** The run of [e] ends: the next message is another sender's, or apart, or
    there is none. *)
Definition run_ends (R : obj -> obj -> bool) (e : obj) (l : list obj) : bool :=
  match next_message l with
  | None => true
  | Some (ns, m) => negb (chain R e (ns ++ [m]) && same_sender e m)
  end.

Definition apart_from_next (e : obj) (l : list obj) : bool :=
  match l with [] => true | x :: _ => negb (joined e x) end.

Definition no_multispend (l : list obj) : bool :=
  forallb (fun x => negb (is_message x && isMultispendEvent x)) l.

(** The row of [e] between the newer events [l1] and the older ones [l2]. *)
Definition row_between (type : ChatType) (l1 : list obj) (e : obj) (l2 : list obj)
    : ChatConversationRow :=
  let back := fun a b => joined b a in
  let newest := is_message e && run_ends back e (rev l1) in
  let oldest := is_message e && run_ends joined e l2 in
  mkRow e (getRowLayout e) (apart_from_next e l2) oldest newest
    (is_message e && bool_decide (type = group) &&
     no_multispend (block back e (rev l1) ++ e :: block joined e l2))
    newest.

(** ** The numbers of the first pass *)

Definition group_after (prev : option DerivedEvent) (e : obj) : nat :=
  match prev with
  | None => 0
  | Some p => if joined (de_event p) e then timeGroupId p else S (timeGroupId p)
  end.

Definition run_of (d : DerivedEvent) : nat := default 0 (senderRunId d).
Definition same_run (q d : DerivedEvent) : bool :=
  bool_decide (timeGroupId q = timeGroupId d) && same_sender (de_event q) (de_event d).
Definition run_after (pm : option DerivedEvent) (d : DerivedEvent) : nat :=
  match pm with
  | None => 0
  | Some q => if same_run q d then run_of q else S (run_of q)
  end.

Definition latest_message (pm : option DerivedEvent) (d : DerivedEvent) : option DerivedEvent :=
  if de_message d then Some d else pm.

(** The numbers of [l] when [prev] is the event before it, and [pm] the last
    message before it. *)
Fixpoint numbered (prev pm : option DerivedEvent) (l : list DerivedEvent) : Prop :=
  match l with
  | [] => True
  | d :: l =>
      de_layout d = getRowLayout (de_event d) /\
      timeGroupId d = group_after prev (de_event d) /\
      senderRunId d = (if de_message d then Some (run_after pm d) else None) /\
      numbered (Some d) (latest_message pm d) l
  end.

Definition add_names (type : ChatType) (m : gmap nat bool) (d : DerivedEvent) : gmap nat bool :=
  if de_message d
  then <[timeGroupId d := default (bool_decide (type = group)) (m !! timeGroupId d) &&
                          negb (isMultispendEvent (de_event d))]> m
  else m.

(** The variables of the pass say the same as the last event and message. *)
Record tracks (s : RowState) (prev pm : option DerivedEvent) : Prop := {
  tr_event : previousEvent s = de_event <$> prev;
  tr_group : currentTimeGroupId s = default 0 (timeGroupId <$> prev);
  tr_run : currentSenderRunId s = default 0 (run_of <$> pm);
  tr_sender : previousMessageSender s = default JUndef ((fun q => get "sender" (de_event q)) <$> pm);
  tr_message_group : previousMessageTimeGroupId s = timeGroupId <$> pm
}.

Definition has_sender (e : obj) : Prop := get "sender" e <> JUndef.

Lemma derive_step_tracks type s prev pm e :
  tracks s prev pm -> (forall q, pm = Some q -> has_sender (de_event q)) ->
  exists d, derivedEvents (derive_step type s e) = derivedEvents s ++ [d] /\ de_event d = e /\
    numbered prev pm [d] /\
    usernamesByTimeGroup (derive_step type s e) = add_names type (usernamesByTimeGroup s) d /\
    tracks (derive_step type s e) (Some d) (latest_message pm d).
Proof.
  intros [E G R S M] Q.
  assert (T : (match previousEvent s with
               | Some _ => if negb (bool_decide (is_Some (previousEvent s)) &&
                                    isWithinChatGroupWindow (previousEvent s) (Some e))
                           then Datatypes.S (currentTimeGroupId s) else currentTimeGroupId s
               | None => currentTimeGroupId s
               end) = group_after prev e).
  { rewrite E, G. destruct prev as [p|]; [|done]. unfold group_after, joined.
    change (de_event <$> Some p) with (Some (de_event p)).
    rewrite bool_decide_true by eauto.
    by destruct (isWithinChatGroupWindow (Some (de_event p)) (Some e)). }
  unfold derive_step. rewrite T. destruct (getRowLayout e) eqn:L.
  - set (r := if bool_decide (previousMessageSender s <> JUndef) && _ then _ else _).
    exists (mkDerived e l_message (group_after prev e) (Some r)).
    assert (r = run_after pm (mkDerived e l_message (group_after prev e) (Some r))) as Hr.
    { generalize r at 2. intros r'. subst r. rewrite S, M, R. destruct pm as [q|]; cbn [default fmap option_fmap option_map run_after]; [|done].
      change (default JUndef (Some (get "sender" (de_event q)))) with (get "sender" (de_event q)).
      rewrite bool_decide_true by (by apply (Q q)). unfold same_run, same_sender. cbn.
      repeat case_bool_decide; cbn; try done; congruence. }
    split_and!; try done. split_and!; try done. cbn [senderRunId de_message de_layout]. by rewrite <- Hr.
  - exists (mkDerived e l_systemNotice (group_after prev e) None). split_and!; done.
Qed.

Lemma derive_numbered type l s prev pm :
  tracks s prev pm -> (forall q, pm = Some q -> has_sender (de_event q)) -> Forall has_sender l ->
  exists ds, derivedEvents (foldl (derive_step type) s l) = derivedEvents s ++ ds /\
    de_event <$> ds = l /\ numbered prev pm ds /\
    usernamesByTimeGroup (foldl (derive_step type) s l) =
      foldl (add_names type) (usernamesByTimeGroup s) ds.
Proof.
  revert s prev pm. induction l as [|e l IH]; intros s prev pm T Q F; cbn [foldl].
  - exists []. by rewrite app_nil_r.
  - apply list.Forall_cons in F as [Fe F].
    destruct (derive_step_tracks type s prev pm e T Q) as (d & D & Ee & N & U & T').
    destruct (IH _ _ _ T') as (ds & D' & E' & N' & U'); [|done|].
    { unfold latest_message. destruct (de_message d); [|done]. intros q [= <-]. by rewrite Ee. }
    exists (d :: ds). rewrite D', D, U', U, <- (assoc_L (++)). csimpl. rewrite Ee, E'.
    destruct N as (? & ? & ? & _). split_and!; try done; by rewrite <- Ee.
Qed.

(** ** Time groups *)

Lemma de_message_event d : de_layout d = getRowLayout (de_event d) -> de_message d = is_message (de_event d).
Proof. unfold de_message, is_message. by intros ->. Qed.

Lemma numbered_app prev pm l1 d l2 :
  numbered prev pm (l1 ++ d :: l2) ->
  exists prev' pm', numbered prev' pm' (d :: l2) /\
    prev' = match last l1 with Some p => Some p | None => prev end /\
    pm' = foldl latest_message pm l1.
Proof.
  revert prev pm. induction l1 as [|p l1 IH]; intros prev pm; cbn [app].
  - intros H. by exists prev, pm.
  - intros (_ & _ & _ & N). destruct (IH _ _ N) as (prev' & pm' & N' & -> & ->).
    eexists _, _. split; [exact N'|]. split; [|done].
    rewrite last_cons. by destruct (last l1).
Qed.

Lemma group_mono p pm l d : numbered (Some p) pm l -> d ∈ l -> timeGroupId p <= timeGroupId d.
Proof.
  revert p pm. induction l as [|x l IH]; intros p pm; [by intros _ H; inversion H|].
  intros (_ & G & _ & N). cbn in G. intros [->|H]%elem_of_cons.
  - destruct (joined (de_event p) _); lia.
  - pose proof (IH _ _ N H). destruct (joined (de_event p) _); lia.
Qed.

(** Two events are in one time group when every step between them is. *)
Lemma same_group_chain p pm ns x rest :
  numbered (Some p) pm (ns ++ x :: rest) ->
  bool_decide (timeGroupId p = timeGroupId x) =
    chain joined (de_event p) ((de_event <$> ns) ++ [de_event x]).
Proof.
  revert p pm. induction ns as [|n ns IH]; intros p pm; csimpl.
  - intros (_ & G & _). cbn in G. rewrite andb_true_r.
    destruct (joined (de_event p) _); [by apply bool_decide_true|apply bool_decide_false; lia].
  - intros (_ & G & _ & N). cbn in G. rewrite <- (IH _ _ N).
    destruct (joined (de_event p) _); cbn; [by rewrite G|].
    apply bool_decide_false.
    assert (timeGroupId n <= timeGroupId x) by (apply (group_mono _ _ _ x N), elem_of_app; right; left).
    lia.
Qed.

Definition in_group (g : nat) (d : DerivedEvent) : Prop := timeGroupId d = g.
#[export] Instance in_group_dec g d : Decision (in_group g d).
Proof. unfold in_group. apply _. Defined.

Lemma group_block_after p pm l :
  numbered (Some p) pm l ->
  de_event <$> filter (in_group (timeGroupId p)) l = block joined (de_event p) (de_event <$> l).
Proof.
  revert p pm. induction l as [|x l IH]; intros p pm; [done|].
  intros (_ & G & _ & N). cbn in G. csimpl. destruct (joined (de_event p) _).
  - rewrite filter_cons_True by exact G. csimpl. by rewrite <- (IH _ _ N), G.
  - rewrite filter_none; [done|]. apply list.Forall_forall. intros d Hd E. unfold in_group in E.
    apply elem_of_cons in Hd as [->|Hd]; [lia|].
    pose proof (group_mono _ _ _ d N Hd). lia.
Qed.

(** The same going back. *)
Lemma group_block_before l1 prev pm d l2 :
  numbered prev pm (l1 ++ d :: l2) ->
  de_event <$> rev (filter (in_group (timeGroupId d)) l1) =
    block (fun a b => joined b a) (de_event d) (rev (de_event <$> l1)).
Proof.
  revert d l2. induction l1 as [|p l1 IH] using rev_ind; intros d l2 N; [done|].
  rewrite <- (assoc_L (++)) in N. cbn [app] in N.
  destruct (numbered_app _ _ _ _ _ N) as (prev' & pm' & N' & _ & _).
  destruct N' as (_ & _ & _ & _ & G & _). cbn in G.
  rewrite filter_app, rev_app_distr, !fmap_app, rev_app_distr. csimpl. cbn [rev app].
  destruct (joined (de_event p) (de_event d)).
  - rewrite filter_cons_True, filter_nil by (unfold in_group; congruence). csimpl.
    by rewrite <- (IH p (d :: l2) N), G.
  - rewrite filter_cons_False, filter_nil by (unfold in_group; lia). csimpl.
    rewrite filter_none; [done|]. apply list.Forall_forall. intros x Hx E. unfold in_group in E.
    apply list_elem_of_split in Hx as (a & b & ->). rewrite <- (assoc_L (++)) in N. cbn [app] in N.
    destruct (numbered_app _ _ _ _ _ N) as (? & ? & (_ & _ & _ & Nx) & _ & _).
    assert (timeGroupId x <= timeGroupId p) by (apply (group_mono _ _ _ p Nx), elem_of_app; right; left).
    lia.
Qed.

(** ** The neighbouring messages of a row *)

Definition de_ok (d : DerivedEvent) : Prop := de_layout d = getRowLayout (de_event d).
Definition notices (l : list DerivedEvent) : Prop := Forall (fun d => de_message d = false) l.

Lemma numbered_ok prev pm l : numbered prev pm l -> Forall de_ok l.
Proof.
  revert prev pm. induction l as [|d l IH]; intros prev pm; [constructor|].
  intros (L & _ & _ & N). constructor; [done|]. by eapply IH.
Qed.

Lemma ok_message d : de_ok d -> is_message (de_event d) = de_message d.
Proof. intros. symmetry. by apply de_message_event. Qed.

Lemma previous_lookup p d1 d d2 :
  previous_rows p (d1 ++ d :: d2) !! length d1 = Some (foldl latest_message p d1).
Proof. revert p. induction d1 as [|x d1 IH]; intros p; [done|]. apply IH. Qed.

Lemma next_lookup d1 d d2 : (next_rows (d1 ++ d :: d2)).1 !! length d1 = Some (next_rows d2).2.
Proof.
  induction d1 as [|x d1 IH]; cbn [app next_rows].
  - by destruct (next_rows d2).
  - revert IH. by destruct (next_rows (d1 ++ d :: d2)).
Qed.

Lemma next_split l : Forall de_ok l ->
  match (next_rows l).2 with
  | None => next_message (de_event <$> l) = None
  | Some m => exists ns rest, l = ns ++ m :: rest /\ notices ns /\ de_message m = true /\
      next_message (de_event <$> l) = Some (de_event <$> ns, de_event m)
  end.
Proof.
  induction 1 as [|d l K F IH]; [done|]. csimpl. rewrite ok_message by done.
  destruct (next_rows l) as [rows m]. cbn [snd] in *. destruct (de_message d) eqn:M.
  - exists [], l. split_and!; try done. constructor.
  - destruct m as [m|]; [|by rewrite IH]. destruct IH as (ns & rest & -> & N & Mm & ->).
    exists (d :: ns), rest. split_and!; try done. by constructor.
Qed.

Lemma next_message_rev_snoc l x :
  next_message (rev (l ++ [x])) =
    if is_message x then Some ([], x)
    else match next_message (rev l) with Some (ns, m) => Some (x :: ns, m) | None => None end.
Proof. by rewrite rev_app_distr. Qed.

Lemma latest_split l : Forall de_ok l ->
  match foldl latest_message None l with
  | None => next_message (rev (de_event <$> l)) = None
  | Some q => exists a ns, l = a ++ q :: ns /\ notices ns /\ de_message q = true /\
      next_message (rev (de_event <$> l)) = Some (rev (de_event <$> ns), de_event q)
  end.
Proof.
  induction l as [|d l IH] using rev_ind; intros F; [done|].
  apply list.Forall_app in F as [F Fd]. apply list.Forall_cons in Fd as [K _].
  rewrite foldl_app, fmap_app. csimpl. rewrite next_message_rev_snoc, ok_message by done.
  unfold latest_message at 1. destruct (de_message d) eqn:M.
  - exists l, []. split_and!; try done. constructor.
  - specialize (IH F). destruct (foldl _ None l) as [q|]; [|by rewrite IH].
    destruct IH as (a & ns & -> & N & Mq & ->). exists a, (ns ++ [d]).
    split_and!; [by rewrite <- (assoc_L (++))| |done|].
    + apply list.Forall_app. split; [done|by constructor].
    + by rewrite fmap_app, rev_app_distr.
Qed.

Lemma latest_notices pm ns : notices ns -> foldl latest_message pm ns = pm.
Proof. induction 1 as [|d ns E F IH]; [done|]. cbn. unfold latest_message at 2. by rewrite E. Qed.

(** Two messages with only notices between them are in one run when no step
    between them is apart and they are of one sender. *)
Lemma run_boundary prev pm p ns m rest :
  numbered prev pm (p :: ns ++ m :: rest) ->
  de_message p = true -> notices ns -> de_message m = true ->
  bool_decide (senderRunId m <> senderRunId p) =
    negb (chain joined (de_event p) ((de_event <$> ns) ++ [de_event m]) &&
          same_sender (de_event p) (de_event m)).
Proof.
  intros (_ & _ & R & N) Mp Hn Mm. rewrite Mp in R. unfold latest_message in N. rewrite Mp in N.
  rewrite <- (same_group_chain p _ ns m rest N). fold (same_run p m).
  destruct (numbered_app _ _ _ _ _ N) as (prev' & pm' & (_ & _ & Rm & _) & _ & ->).
  rewrite latest_notices in Rm by done. rewrite Mm in Rm. rewrite Rm, R.
  assert (run_of p = run_after pm p) as E by (unfold run_of; by rewrite R).
  cbn [run_after]. destruct (same_run p m); cbn [negb].
  - apply bool_decide_false. intros []. by rewrite E.
  - apply bool_decide_true. rewrite E. intros [=]. lia.
Qed.

Lemma chain_app R e l x r : chain R e (l ++ x :: r) = chain R e (l ++ [x]) && chain R x r.
Proof.
  revert e. induction l as [|y l IH]; intros e; cbn; [by rewrite andb_true_r|].
  by rewrite IH, andb_assoc.
Qed.

Lemma chain_rev R e l x :
  chain R e (l ++ [x]) = chain (fun a b => R b a) x (rev l ++ [e]).
Proof.
  revert e. induction l as [|y l IH]; intros e; cbn; [done|].
  rewrite <- (assoc_L (++)). cbn [app].
  rewrite (chain_app _ x (rev l) y [e]), IH. cbn [chain]. by rewrite andb_true_r, andb_comm.
Qed.

Lemma same_sender_comm a b : same_sender a b = same_sender b a.
Proof. unfold same_sender. by apply bool_decide_ext. Qed.

(** ** Names in a time group *)

Definition plain (l : list DerivedEvent) : bool :=
  forallb (fun d => negb (de_message d && isMultispendEvent (de_event d))) l.
Definition has_message (g : nat) (l : list DerivedEvent) : bool :=
  existsb (fun d => de_message d && bool_decide (timeGroupId d = g)) l.

Lemma plain_app l1 l2 : plain (l1 ++ l2) = plain l1 && plain l2.
Proof. apply forallb_app. Qed.

Lemma plain_without_message g l : has_message g l = false -> plain (filter (in_group g) l) = true.
Proof.
  induction l as [|d l IH]; [done|]. cbn [has_message existsb]. intros [H Hl]%orb_false_iff.
  unfold filter. cbn [list_filter]. fold (filter (in_group g) l). case_decide as E; [|by apply IH].
  cbn [plain forallb]. unfold in_group in E. rewrite bool_decide_true, andb_true_r in H by done.
  rewrite H. by apply IH.
Qed.

Lemma names_lookup type l g :
  foldl (add_names type) ∅ l !! g =
    if has_message g l then Some (bool_decide (type = group) && plain (filter (in_group g) l))
    else None.
Proof.
  induction l as [|d l IH] using rev_ind; [apply lookup_empty|].
  rewrite foldl_app, filter_app, plain_app. cbn [foldl]. unfold has_message.
  rewrite existsb_app. cbn [existsb]. rewrite orb_false_r. fold (has_message g l).
  unfold add_names at 1. destruct (de_message d) eqn:M; cbn [andb].
  - destruct (decide (timeGroupId d = g)) as [E|E].
    + rewrite (bool_decide_true (timeGroupId d = g)) by done. rewrite E, lookup_insert_eq, IH, orb_true_r. f_equal.
      rewrite (filter_cons_True _ d []) by exact E. rewrite filter_nil. cbn [plain forallb].
      rewrite M. cbn [andb]. rewrite andb_true_r.
      destruct (has_message g l) eqn:H.
      * change (default ?a (Some ?b)) with b. by rewrite andb_assoc.
      * change (default ?a (@None bool)) with a. by rewrite plain_without_message.
    + rewrite (bool_decide_false (timeGroupId d = g)), lookup_insert_ne, IH, orb_false_r by done.
      rewrite (filter_cons_False _ d []) by exact E. rewrite filter_nil. cbn [plain forallb].
      by rewrite andb_true_r.
  - rewrite IH, orb_false_r. destruct (has_message g l); [|done].
    rewrite filter_cons. destruct (decide (in_group g d)); rewrite filter_nil;
      cbn [plain forallb]; rewrite ?M; cbn [andb negb]; by rewrite andb_true_r.
Qed.

Lemma plain_events l : Forall de_ok l -> plain l = no_multispend (de_event <$> l).
Proof.
  induction 1 as [|d l K F IH]; [done|]. unfold plain, no_multispend in *. csimpl.
  by rewrite IH, ok_message.
Qed.

Lemma no_multispend_rev l : no_multispend (rev l) = no_multispend l.
Proof.
  induction l as [|x l IH]; [done|]. unfold no_multispend in *. cbn [rev].
  rewrite forallb_app, IH. cbn [forallb]. by rewrite andb_true_r, andb_comm.
Qed.

(** ** The flags of a row *)

Lemma timestamp_of_row d d2 pm :
  numbered (Some d) pm d2 ->
  match head d2 with None => true | Some n => bool_decide (timeGroupId n <> timeGroupId d) end
  = apart_from_next (de_event d) (de_event <$> d2).
Proof.
  destruct d2 as [|n d2]; [done|]. intros (_ & G & _). csimpl. cbn in G.
  destruct (joined (de_event d) (de_event n)); cbn.
  - apply bool_decide_false. intros []. by rewrite G.
  - apply bool_decide_true. lia.
Qed.

Lemma oldest_of_run prev pm d d2 :
  numbered prev pm (d :: d2) -> de_message d = true ->
  match (next_rows d2).2 with
  | None => true | Some n => bool_decide (senderRunId n <> senderRunId d) end
  = run_ends joined (de_event d) (de_event <$> d2).
Proof.
  intros N M. unfold run_ends. pose proof (numbered_ok _ _ _ N) as K.
  apply list.Forall_cons in K as [_ K]. pose proof (next_split d2 K) as S.
  destruct (next_rows d2).2 as [m|]; [|by rewrite S].
  destruct S as (ns & rest & -> & Hn & Mm & ->). by apply (run_boundary prev pm d ns m rest).
Qed.

Lemma newest_of_run d1 d d2 :
  numbered None None (d1 ++ d :: d2) -> de_message d = true ->
  match foldl latest_message None d1 with
  | None => true | Some p => bool_decide (senderRunId p <> senderRunId d) end
  = run_ends (fun a b => joined b a) (de_event d) (rev (de_event <$> d1)).
Proof.
  intros N M. unfold run_ends. pose proof (numbered_ok _ _ _ N) as K.
  apply list.Forall_app in K as [K _]. pose proof (latest_split d1 K) as S.
  destruct (foldl latest_message None d1) as [q|]; [|by rewrite S].
  destruct S as (a & ns & -> & Hn & Mq & ->). rewrite <- (assoc_L (++)) in N. cbn [app] in N.
  destruct (numbered_app _ _ _ _ _ N) as (prev & pm & Nq & _ & _).
  rewrite (bool_decide_ext (senderRunId q <> senderRunId d) (senderRunId d <> senderRunId q))
    by (split; apply not_eq_sym).
  rewrite (run_boundary prev pm q ns d d2), chain_rev by done.
  by rewrite same_sender_comm.
Qed.

Lemma filter_ok g l : Forall de_ok l -> Forall de_ok (filter (in_group g) l).
Proof.
  rewrite !list.Forall_forall. intros K x Hx. apply list_elem_of_filter in Hx as [_ Hx]. by apply K.
Qed.

Lemma names_of_row type d1 d d2 :
  numbered None None (d1 ++ d :: d2) -> de_message d = true ->
  default false (foldl (add_names type) ∅ (d1 ++ d :: d2) !! timeGroupId d) =
  bool_decide (type = group) &&
  no_multispend (block (fun a b => joined b a) (de_event d) (rev (de_event <$> d1)) ++
                 de_event d :: block joined (de_event d) (de_event <$> d2)).
Proof.
  intros N M. rewrite names_lookup.
  assert (has_message (timeGroupId d) (d1 ++ d :: d2) = true) as ->.
  { unfold has_message. rewrite existsb_app. cbn [existsb].
    by rewrite M, bool_decide_true, orb_true_r. }
  change (default false (Some ?b)) with b. f_equal.
  rewrite plain_events by (apply filter_ok, (numbered_ok _ _ _ N)).
  destruct (numbered_app _ _ _ _ _ N) as (prev & pm & (_ & _ & _ & Nn) & _ & _).
  rewrite <- (group_block_before d1 None None d d2 N), <- (group_block_after d _ d2 Nn).
  rewrite filter_app, filter_cons_True by done. rewrite fmap_app. csimpl.
  unfold no_multispend. rewrite !forallb_app. f_equal.
  assert (forall (l : list DerivedEvent), de_event <$> rev l = rev (de_event <$> l)) as ->
    by (intros l; apply map_rev).
  symmetry. apply no_multispend_rev.
Qed.

Lemma rows_at d1 d d2 type :
  numbered None None (d1 ++ d :: d2) ->
  make_row (foldl (add_names type) ∅ (d1 ++ d :: d2)) (foldl latest_message None d1) d (head d2)
    (next_rows d2).2 =
  row_between type (de_event <$> d1) (de_event d) (de_event <$> d2).
Proof.
  intros N. destruct (numbered_app _ _ _ _ _ N) as (prev & pm & Nd & _ & _).
  pose proof Nd as (L & _ & _ & Nn). unfold make_row, row_between.
  rewrite ok_message by done. pose proof (timestamp_of_row d d2 _ Nn) as T.
  destruct (de_message d) eqn:M; cbn [andb]; [|by f_equal].
  pose proof (newest_of_run d1 d d2 N M). pose proof (oldest_of_run _ _ _ _ Nd M).
  f_equal; try done. by apply names_of_row.
Qed.

(** C37: The rows of a conversation are its events, newest first, one row each.
    Beside a message a name shows when the next older message is another
    sender's or a step of more than a minute lies between, an avatar when the
    same holds of the next newer one; names show in groups only, and in no time
    group with a multispend message; the time shows on the oldest row of a time
    group. *)
Theorem conversation_rows orderByTimestampDesc events type :
  (forall l, orderByTimestampDesc l ≡ₚ l) -> Forall has_sender events ->
  let rows := makeChatConversationRows orderByTimestampDesc events type in
  row_event <$> rows = orderByTimestampDesc events /\
  forall l1 e l2, orderByTimestampDesc events = l1 ++ e :: l2 ->
    rows !! length l1 = Some (row_between type l1 e l2).
Proof.
  intros P F rows. rewrite <- (P events) in F. unfold makeChatConversationRows in rows.
  destruct (derive_numbered type (orderByTimestampDesc events) row_initial None None)
    as (ds & D & E & N & U); [done|done|done|].
  subst rows. rewrite D, U. cbn [derivedEvents row_initial usernamesByTimeGroup app]. split.
  - rewrite <- E. clear. apply list_eq. intros i. rewrite !list_lookup_fmap, list_lookup_imap.
    by destruct (ds !! i).
  - intros l1 e l2 S. rewrite <- E in S. apply fmap_app_inv in S as (d1 & d' & S1 & S2 & ->).
    symmetry in S2. apply fmap_cons_inv in S2 as (d & d2 & -> & -> & ->). subst l1.
    rewrite length_fmap, list_lookup_imap, (list_lookup_middle d1 d2 d (length d1)) by done.
    cbn [fmap option_fmap option_map].
    rewrite previous_lookup, next_lookup. cbn [mjoin option_join].
    f_equal. rewrite <- rows_at by done. f_equal.
    rewrite lookup_app_r by lia. replace (S (length d1) - length d1) with 1 by lia.
    by destruct d2.
Qed.

(** ** Witness *)

Definition demo_event (id sender : string) (timestamp : Z) (content : obj) : obj :=
  [("id", JStr id); ("sender", JStr sender); ("timestamp", JNum (of_Z timestamp));
   ("content", JObj content)].
Definition demo_text : obj := [("msgtype", JStr "m.text"); ("body", JStr "hi")].
Definition demo_joined : obj := [("msgtype", JStr "m.room.member"); ("change", JStr "joined")].

(** Ann, a notice, Ann again within a minute, and Bob two minutes before. *)
Definition demo_conversation : list obj :=
  [demo_event "1" "bob" 1000 demo_text; demo_event "2" "ann" 121000 demo_text;
   demo_event "3" "eve" 130000 demo_joined; demo_event "4" "ann" 140000 demo_text].

Definition by_timestamp : list obj -> list obj :=
  sort_stable (fun a b => leb (to_num (get "timestamp" b)) (to_num (get "timestamp" a))).

Lemma conversation_rows_witness :
  let rows := makeChatConversationRows by_timestamp demo_conversation group in
  (get "id" ∘ row_event <$> rows) = JStr <$> ["4"; "3"; "2"; "1"] /\
  (showAvatar <$> rows) = [true; false; false; true] /\
  (showUsername <$> rows) = [false; false; true; true] /\
  rows !! 2 = Some (row_between group
    [demo_event "4" "ann" 140000 demo_text; demo_event "3" "eve" 130000 demo_joined]
    (demo_event "2" "ann" 121000 demo_text) [demo_event "1" "bob" 1000 demo_text]).
Proof.
  split_and!; [vm_compute; reflexivity..|].
  destruct (conversation_rows by_timestamp demo_conversation group) as [_ R].
  - intros l. apply sort_stable_perm.
  - repeat constructor; done.
  - apply (R [_; _]). vm_compute. reflexivity.
Defined.
