(* ===== verification/Parser.v ===== *)
(** User input: [ui/common/utils/parser.ts], and what it uses of
    [utils/linking.ts], [utils/xmpp.ts], [utils/validation.ts] and
    [utils/matrix.ts].

    Whatever is scanned, pasted or opened goes through [parseUserInput]: parsers
    are tried in turn, those that need the network last and only when it can be
    reached, and whatever a parser does, the outcome is a value.  Calls to the
    bridge and requests to servers are calls of Effects.v; the host's [URL] and
    [JSON], the [query-string] package and the validation of addresses are
    parameters.  Regular expressions are written out as functions. *)
From Stdlib Require Import ZArith Lia Ascii.
From stdpp Require Import base tactics strings list option sets.
From S2P Require Import Prelude JsNum Js JsStr Effects Cashu.
Local Open Scope string_scope.
Local Open Scope list_scope.

(** ** Strings *)

(** What stands before and after the first occurrence of [p]. *)
Fixpoint cut (p s : string) : option (string * string) :=
  if String.prefix p s then Some ("", slice_from (String.length p) s)
  else match s with
       | EmptyString => None
       | String c s =>
           match cut p s with Some (before, after) => Some (String c before, after) | None => None end
       end.

(** [s.includes(p)] *)
Definition contains (p s : string) : bool := bool_decide (is_Some (cut p s)).
(** [s.split(p)[0]] and [s.split(p)[1]] *)
Definition split_0 (p s : string) : string :=
  match cut p s with Some (before, _) => before | None => s end.
Definition split_1 (p s : string) : option string :=
  match cut p s with Some (_, after) => Some (split_0 p after) | None => None end.

(** [s.slice(0, -n)] and [s.slice(-n)] *)
Definition drop_last (n : nat) (s : string) : string := String.substring 0 (String.length s - n) s.
Definition take_last (n : nat) (s : string) : string :=
  let n := Nat.min n (String.length s) in String.substring (String.length s - n) n s.

Definition trimmed (s : string) : string := String.string_of_list_ascii (trim (chars s)).

(** The rest of [s] behind [p], compared without regard to case. *)
Definition after_ci (p s : string) : option string :=
  if startsWith (toLowerCase s) p then Some (slice_from (String.length p) s) else None.

Definition is_newline (c : ascii) : bool := bool_decide (c = "010"%char) || bool_decide (c = "013"%char).
Definition one_line (s : string) : bool := forallb (fun c => negb (is_newline c)) (chars s).
Definition is_alnum (c : ascii) : bool :=
  let n := code c in
  ((48 <=? n) && (n <=? 57) || (65 <=? n) && (n <=? 90) || (97 <=? n) && (n <=? 122))%Z.

(** [s.replace(/https?:\/\//g, '')]; [skip] characters of a match are left. *)
Fixpoint without_http_from (skip : nat) (s : string) : string :=
  match s with
  | EmptyString => EmptyString
  | String c s' =>
      match skip with
      | S skip => without_http_from skip s'
      | O => if String.prefix "http://" s then without_http_from 6 s'
             else if String.prefix "https://" s then without_http_from 7 s'
             else String c (without_http_from 0 s')
      end
  end.
Definition without_http : string -> string := without_http_from 0.

(** ** Ids and uris of the chat *)

(** [/^@[^:]+:.+$/] and [/^![^:]+:.+$/]: after the sigil, a part without colon
    and a part of one line. *)
Definition valid_matrix_id (sigil : ascii) (id : string) : bool :=
  match id with
  | String c rest =>
      bool_decide (c = sigil) &&
      match cut ":" rest with
      | Some (localpart, server) =>
          negb (bool_decide (localpart = "")) && negb (bool_decide (server = "")) && one_line server
      | None => false
      end
  | EmptyString => false
  end.
Definition isValidMatrixUserId : string -> bool := valid_matrix_id "@"%char.
Definition isValidMatrixRoomId : string -> bool := valid_matrix_id "!"%char.

Definition encodeFediMatrixUserUri (encodeURIComponent : string -> string) (id : string)
    (deep : bool) : string :=
  if deep then "fedi://user/" +:+ encodeURIComponent id else "fedi:user:" +:+ id.
Definition encodeFediMatrixRoomUri (encodeURIComponent : string -> string) (id : string)
    (deep : bool) : string :=
  if deep then "fedi://room/" +:+ encodeURIComponent id else "fedi:room:" +:+ id +:+ ":::".

(** What follows [fedi:kind:], with [//] after the first colon or a slash for
    the second one, in any case. *)
Definition after_kind (kind uri : string) : option string :=
  rest ← after_ci "fedi:" uri;
  let rest := default rest (after_ci "//" rest) in
  rest ← after_ci kind rest;
  match rest with
  | String c rest =>
      if bool_decide (c = ":"%char) || bool_decide (c = "/"%char) then Some rest else None
  | EmptyString => None
  end.

(** [/^(.+?)(?:::|$)/]: at least one character, up to the first [::] after it
    or the end, on one line. *)
Fixpoint until_colons (s : string) : option string :=
  match s with
  | EmptyString => None
  | String c s =>
      if is_newline c then None
      else if bool_decide (s = "") || String.prefix "::" s then Some (String c "")
      else match until_colons s with Some r => Some (String c r) | None => None end
  end.

Definition decodeFediMatrixRoomUri (uri : string) : result string :=
  match after_kind "room" (without_http uri) ≫= until_colons with
  | Some decodedId =>
      if negb (isValidMatrixRoomId decodedId) then Throw "feature.chat.invalid-room"
      else Ok decodedId
  | None => Throw "feature.chat.invalid-room"
  end.

Definition decodeFediMatrixUserUri (uri : string) : result string :=
  match after_kind "user" (without_http uri) with
  | Some id =>
      if bool_decide (id = "") || negb (one_line id) then Throw "feature.chat.invalid-member"
      else if negb (isValidMatrixUserId id) then Throw "feature.chat.invalid-member"
      else Ok id
  | None => Throw "feature.chat.invalid-member"
  end.

(** ** Legacy chat links: utils/xmpp.ts *)

Definition decodeLegacyGroupInvitationLink (link : string) : result string :=
  match split_1 "fedi:group:" link with
  | None | Some EmptyString => Throw "feature.chat.invalid-group"
  | Some afterPrefix =>
      let groupId := if bool_decide (take_last 3 afterPrefix <> ":::") then afterPrefix
                     else drop_last 3 afterPrefix in
      if decide (groupId = "") then Throw "feature.chat.invalid-group" else Ok groupId
  end.

Definition decodeLegacyDirectChatLink (link : string) : result string :=
  match split_1 "fedi:member:" link with
  | None | Some EmptyString => Throw "feature.chat.invalid-member"
  | Some afterPrefix =>
      let memberId := drop_last 3 afterPrefix in
      if decide (memberId = "") then Throw "feature.chat.invalid-member" else Ok memberId
  end.

(** [/^[^@\s]+@[^@\s]+\.[^@\s]+$/]: the dot has characters on both sides. *)
Fixpoint inner_dot (s : string) : bool :=
  match s with
  | EmptyString => false
  | String _ s' =>
      match s' with
      | String c s'' => bool_decide (c = "."%char) && negb (bool_decide (s'' = "")) || inner_dot s'
      | EmptyString => false
      end
  end.
Definition isValidInternetIdentifier (s : string) : bool :=
  forallb (fun c => negb (is_space c)) (chars s) &&
  match cut "@" s with
  | Some (user, domain) =>
      negb (bool_decide (user = "")) && negb (contains "@" domain) && inner_dot domain
  | None => false
  end.

(** [/^p:\/?\/?/i] removed, for the first of the protocols that matches. *)
Definition strip_slashes (s : string) : string :=
  match s with
  | String "/" (String "/" s') => s'
  | String "/" s' => s'
  | _ => s
  end.
Fixpoint stripProtocol (raw : string) (protocol : list string) : string :=
  match protocol with
  | [] => raw
  | p :: protocol =>
      match after_ci (p +:+ ":") raw with
      | Some rest => strip_slashes rest
      | None => stripProtocol raw protocol
      end
  end.

(** [/^(?:ln(?:bc|tb|tbs|bcrt))[0-9a-zA-Z]{30,}$/] *)
Definition bolt11Regex (raw : string) : bool :=
  existsb (fun p =>
      startsWith raw p &&
      let rest := slice_from (String.length p) raw in
      (30 <=? String.length rest)%nat && forallb is_alnum (chars rest))
    ["lnbc"; "lntb"; "lntbs"; "lnbcrt"].

Definition isBolt11 (raw : string) : bool :=
  if negb (startsWith raw "ln") || startsWith raw "lno" || startsWith raw "lnurl" then false
  else bolt11Regex raw.

(** ** Deep links: utils/linking.ts *)

(** The parts of a [URL] that are read. *)
Record URL := mkURL {
  u_hostname : string; u_origin : string; u_pathname : string; u_search : string; u_hash : string
}.

Record NormalizedDeepLink := mkLink {
  fediUri : string; screen : string; params : list (string * string)
}.

Definition FEDI_PREFIX := "fedi://".
Definition LINK_PATH := "/link".
Definition DEEPLINK_HOSTS (isDev : bool) : list string :=
  ["app.fedi.xyz"; "link.fedi.xyz"; "fedi-ashen.vercel.app"] ++ (if isDev then ["localhost"] else []).

Inductive ParserDataType : Type :=
  | Bolt11 | Bolt12 | LnurlPay | LnurlWithdraw | LnurlAuth | BitcoinAddress | Bip21 | CashuEcash
  | DeepLink | FedimintEcash | FedimintGuardian | FedimintInvite | FedimintRecovery
  | LegacyFediChatMember | LegacyFediChatGroup | CommunityInvite | FediChatUser | FediChatRoom
  | StabilityAddress | Website | Unknown | OfflineError.
#[export] Instance ParserDataType_eq_dec : EqDecision ParserDataType.
Proof. solve_decision. Defined.

Record ParsedData := mkParsed { p_type : ParserDataType; p_data : jval }.

(** What a parser that recognises nothing returns. *)
Definition undefined : thunk (option ParsedData) := t_ret (Ok None).
Definition parsed (type : ParserDataType) (data : obj) : thunk (option ParsedData) :=
  t_ret (Ok (Some (mkParsed type (JObj data)))).
(** [try { m } catch {}], which goes on with [k]. *)
Definition try_else (m k : thunk (option ParsedData)) : thunk (option ParsedData) :=
  t_catch m (fun _ => k).

Section Parser.
(** [new URL(s)]; [new URLSearchParams(s)], and its [toString]. *)
Context (parseURL : string -> result URL).
Context (searchParams : string -> list (string * string)).
Context (queryString : list (string * string) -> string).
(** [JSON.parse]; [qs.parse]; [parseFloat]; [validateBitcoinAddress]; [t]. *)
Context (parseJSON : string -> result jval).
Context (qsParse : string -> obj).
Context (parseFloat : string -> num).
Context (validateBitcoinAddress : string -> bool).
Context (t : string -> jval).
Context (t_type : jval -> jval).
(** [new URL(callback)] with its [amount] set, as a string. *)
Context (withAmount : string -> string -> result string).
Context (isDev : bool).

Definition link_params (url : URL) : list (string * string) :=
  let paramsSource := u_search url in
  let paramsSource :=
    if bool_decide (paramsSource = "") && negb (bool_decide (u_hash url = ""))
    then (if startsWith (u_hash url) "#" then slice_from 1 (u_hash url) else u_hash url)
    else paramsSource in
  searchParams paramsSource.

Definition screen_of (l : list (string * string)) : option string :=
  match lookup_prop "screen" l with
  | Some screen => if decide (screen = "") then None else Some screen
  | None => None
  end.

Definition normalizeDeepLink (urlString : string) : option NormalizedDeepLink :=
  match parseURL urlString with
  | Throw _ => None
  | Ok url =>
      let searchParams := link_params url in
      screen ← screen_of searchParams;
      let params := filter (fun kv => kv.1 <> "screen") searchParams in
      let queryString := queryString params in
      Some (mkLink (if decide (queryString = "") then FEDI_PREFIX +:+ screen
                    else FEDI_PREFIX +:+ screen +:+ "?" +:+ queryString) screen params)
  end.

Definition isDeepLink (url : string) : bool :=
  match parseURL url with
  | Throw _ => false
  | Ok u =>
      bool_decide (u_hostname u ∈ DEEPLINK_HOSTS isDev) && bool_decide (u_pathname u = LINK_PATH) &&
      bool_decide (is_Some (screen_of (link_params u)))
  end.

Definition isFediInternalLink (url : string) : bool :=
  if decide (url = "") then false else startsWith (toLowerCase url) "fedi:".

Definition getNavigationLink (url : string) : option string :=
  if isDeepLink url then fediUri <$> normalizeDeepLink url
  else if isFediInternalLink url then Some url else None.

Definition isFediDeeplinkType (url : string) : bool :=
  contains "t.me" url || contains "wa.me" url || isDeepLink url.

Definition normalizeBrowserUrl (raw : string) : string :=
  if startsWith raw "http://" || startsWith raw "https://" then raw else "https://" +:+ raw.

Definition normalizeCommunityInviteCode (code : string) : string :=
  if startsWith (toLowerCase code) "fedi:" then code
  else if startsWith (toLowerCase code) "community" then "fedi:" +:+ code else code.

Definition stripFediPrefix (code : string) : string :=
  if startsWith (toLowerCase code) "fedi:" then slice_from 5 code else code.

(** ** The parsers *)

Definition parseBitcoinAddress (raw : string) : thunk (option ParsedData) :=
  if validateBitcoinAddress raw then parsed BitcoinAddress [("address", JStr raw)] else undefined.

(** A query parameter, the first if it is repeated; [null] counts as absent. *)
Definition param (queryParams : obj) (key : string) : jval :=
  let qp := get key queryParams in
  let value := if truthy qp
               then match qp with JArr (v :: _) => v | JArr [] => JUndef | v => v end
               else JNull in
  match value with JNull => JUndef | v => v end.

Definition parseInvoice (invoice : string) : thunk jval :=
  rpc "parseInvoice" [JObj [("invoice", JStr invoice)]].

Definition parseBip21 (raw federationId : string) : thunk (option ParsedData) :=
  if negb (startsWith (toLowerCase raw) "bitcoin:") then undefined else
  let btcRaw := stripProtocol raw ["bitcoin"] in
  let btcAddress := split_0 "?" btcRaw in
  if negb (validateBitcoinAddress btcAddress) then undefined else
  let queryParams := qsParse (default "" (split_1 "?" btcRaw)) in
  let amount := param queryParams "amount" in
  let bip21 := parsed Bip21
    [("address", JStr btcAddress);
     ("amount", if truthy amount then JNum (parseFloat (to_str amount)) else JUndef);
     ("label", param queryParams "label"); ("message", param queryParams "message")] in
  let bolt11 := param queryParams "lightning" in
  if truthy bolt11 then
    try_else
      (if decide (federationId = "") then undefined else
       invoice ← parseInvoice (to_str bolt11);
       parsed Bolt11 (spread [("fallbackAddress", JStr btcAddress)] (own_props invoice)))
      bip21
  else bip21.

Definition parseFedimintEcash (raw : string) : thunk (option ParsedData) :=
  try_else
    (if startsWith raw "cashu" then t_throw "" else
     ecash ← rpc "parseEcash" [JObj [("ecash", JStr raw)]];
     parsed FedimintEcash [("token", JStr raw); ("parsed", ecash)])
    undefined.

Definition parseCashuEcash (raw : string) : thunk (option ParsedData) :=
  try_else (_ ← t_ret (validateCashuTokens raw); parsed CashuEcash [("token", JStr raw)]) undefined.

Definition parseStabilityAddress (raw : string) : thunk (option ParsedData) :=
  try_else
    (data ← rpc "spv2ParsePaymentAddress" [JObj [("address", JStr raw)]];
     parsed StabilityAddress (set_prop "address" (JStr raw) (own_props data)))
    undefined.

(** The profile of a user names the chat it opens; a profile that is no object
    goes on to the legacy links, and so does one without a name. *)
Definition parseFediUser (raw : string) (k : thunk (option ParsedData)) : thunk (option ParsedData) :=
  r ← t_catch
    (id ← t_ret (decodeFediMatrixUserUri raw);
     answer ← rpc "matrixUserProfile" [JObj [("userId", JStr id)]];
     data ← t_ret (prop answer "data");
     match data with
     | JObj profile =>
         match get "displayname" profile with
         | JStr displayName =>
             parsed FediChatUser [("id", JStr id); ("displayName", JStr displayName)]
         | _ => t_throw ""
         end
     | _ => undefined
     end) (fun _ => undefined);
  match r with Some _ => t_ret (Ok r) | None => k end.

Definition parseFediUri (raw : string) : thunk (option ParsedData) :=
  if negb (startsWith (toLowerCase raw) "fedi:") then undefined else
  try_else (id ← t_ret (decodeFediMatrixRoomUri raw); parsed FediChatRoom [("id", JStr id)])
  (parseFediUser raw
  (try_else
    (id ← t_ret (decodeLegacyDirectChatLink raw); parsed LegacyFediChatMember [("id", JStr id)])
  (try_else
    (id ← t_ret (decodeLegacyGroupInvitationLink raw); parsed LegacyFediChatGroup [("id", JStr id)])
    undefined))).

(** The id of a deep link to a user. *)
Definition user_of_link (raw : string) : option string :=
  match normalizeDeepLink raw with
  | Some result =>
      if decide (screen result = "user") then
        match lookup_prop "id" (params result) with
        | Some id => if decide (id = "") then None else Some id
        | None => None
        end
      else None
  | None => None
  end.

Definition parseFediUniversalLink (raw : string) : thunk (option ParsedData) :=
  if isDeepLink raw then
    match user_of_link raw with
    | Some id => parseFediUri (FEDI_PREFIX +:+ "user/" +:+ id)
    | None => parsed DeepLink [("url", JStr raw)]
    end
  else undefined.

Definition parseBolt12 (raw : string) : thunk (option ParsedData) :=
  let lnRaw := toLowerCase (stripProtocol raw ["lightning"]) in
  if startsWith lnRaw "lno1" then t_ret (Ok (Some (mkParsed Bolt12 JNull))) else undefined.

Definition parseFedimintInvite (raw : string) : thunk (option ParsedData) :=
  if startsWith (toLowerCase raw) "fed1" then parsed FedimintInvite [("invite", JStr raw)] else undefined.

Definition parseCommunityInvite (raw : string) : thunk (option ParsedData) :=
  if startsWith (toLowerCase raw) "fedi:community"
  then parsed CommunityInvite [("invite", JStr raw)] else undefined.

Definition parseBolt11 (raw : string) : thunk (option ParsedData) :=
  let lnRaw := toLowerCase (stripProtocol raw ["lightning"]) in
  if negb (isBolt11 lnRaw) then undefined else
  t_catch
    (decoded ← parseInvoice lnRaw; t_ret (Ok (Some (mkParsed Bolt11 decoded))))
    (fun message =>
       if contains "Invoice missing amount" message
       then parsed Unknown [("message", t "feature.parser.unsupported-bolt11-zero-amount")]
       else undefined).

(** A guardian's or a recovery's code: a prefix and JSON. *)
Definition parsePrefixedJSON (prefix : string) (type : ParserDataType) (raw : string)
    : thunk (option ParsedData) :=
  if startsWith (toLowerCase raw) prefix then
    try_else
      (data ← t_ret (parseJSON (slice_from (String.length prefix) raw));
       t_ret (Ok (Some (mkParsed type data))))
      undefined
  else undefined.
Definition parseFedimintGuardian : string -> thunk (option ParsedData) :=
  parsePrefixedJSON "fedimint:guardian:" FedimintGuardian.
Definition parseFedimintRecovery : string -> thunk (option ParsedData) :=
  parsePrefixedJSON "fedimint:recovery:" FedimintRecovery.

Definition validateWebsiteUrl (url : string) : bool :=
  if isDeepLink url then false
  else if negb (startsWith (toLowerCase url) "http://") &&
          negb (startsWith (toLowerCase url) "https://") then false
  else is_ok (parseURL url).

(** ** LNURL *)

Definition getLnurlParams (url : string) : thunk jval := rpc "getLnurlParams" [JStr url].

(** [new URL(raw)] with its origin in lower case, or [raw]. *)
Definition normalizedUrl (raw : string) : string :=
  match parseURL raw with
  | Ok url => toLowerCase (u_origin url) +:+ u_pathname url +:+ u_search url +:+ u_hash url
  | Throw _ => raw
  end.

(** The request that is made for an input, if one is. *)
Definition lnurl_request (raw lnRaw : string) (isWebsiteUrl isValidIdentifier : bool)
    : option string :=
  if startsWith lnRaw "lnurl" || startsWith lnRaw "keyauth" then Some lnRaw
  else if isValidIdentifier then
    let username := split_0 "@" lnRaw in
    let domain := default "" (split_1 "@" lnRaw) in
    if bool_decide (username = "") || bool_decide (domain = "") then None
    else Some ("https://" +:+ domain +:+ "/.well-known/lnurlp/" +:+ username)
  else if isWebsiteUrl then Some (normalizedUrl raw)
  else None.

(** [s.includes(p)] of a value that should be a string *)
Definition includes_method (v : jval) (p : string) : result bool :=
  match v with
  | JStr s => Ok (contains p s)
  | JArr l => Ok (bool_decide (JStr p ∈ l))
  | _ => Throw type_error
  end.

(** An [||] of [includes] stops at the first that holds. *)
Fixpoint includes_any (v : jval) (l : list string) : result bool :=
  match l with
  | [] => Ok false
  | p :: l => b ← includes_method v p; if (b : bool) then Ok true else includes_any v l
  end.

Definition no_lnurl_reasons : list string :=
  ["Invalid URL"; "invalid lnurl"; "invalid JSON"; "Network request failed"; "<!DOCTYPE html>"].

Definition website (raw : string) : thunk (option ParsedData) := parsed Website [("url", JStr raw)].

(** An answer without a tag. *)
Definition lnurl_untagged (raw : string) (isWebsiteUrl isValidIdentifier : bool) (answer : jval)
    : thunk (option ParsedData) :=
  status ← t_ret (prop answer "status");
  if negb (bool_decide (status = JStr "ERROR")) then undefined else
  reason ← t_ret (prop answer "reason");
  no_lnurl ← t_ret (includes_any reason no_lnurl_reasons);
  if (no_lnurl : bool) then
    if isWebsiteUrl then website raw
    else if isValidIdentifier then parsed Unknown [("message", t "errors.no-address-lnurlp")]
    else undefined
  else parsed Unknown [("message", reason)].

(** The content of the first metadata entry whose type satisfies [p]. *)
Fixpoint metadata_entry (p : jval -> result bool) (l : list jval) : result jval :=
  match l with
  | [] => Ok JUndef
  | m :: l =>
      type ← index_0 m; b ← p type;
      if (b : bool) then Ok match m with JArr (_ :: v :: _) => v | _ => JUndef end
      else metadata_entry p l
  end.
Definition of_type (type v : jval) : result bool := Ok (bool_decide (v = type)).
Definition is_image (v : jval) : result bool :=
  match v with JStr s => Ok (startsWith s "image/") | _ => Throw type_error end.

(** [v.toString()] of a number or string *)
Definition to_string (v : jval) : result string :=
  match v with JUndef | JNull => Throw type_error | _ => Ok (to_str v) end.

Definition lnurl_pay (o : obj) : thunk (option ParsedData) :=
  metadata ← t_ret (as_array (get "decodedMetadata" o));
  description ← t_ret (metadata_entry (of_type (JStr "text/plain")) metadata);
  longDescription ← t_ret (metadata_entry (of_type (JStr "text/long-desc")) metadata);
  thumbnail ← t_ret (metadata_entry is_image metadata);
  if decide (get "minSendable" o = get "maxSendable" o) then
    amount ← t_ret (to_string (get "minSendable" o));
    callbackUrl ← t_ret (withAmount (to_str (get "callback" o)) amount);
    res ← t_catch (rpc "fetch" [JStr callbackUrl])
            (fun _ => t_ret (Ok (JObj [("status", JStr "ERROR")])));
    pr ← t_ret (prop res "pr");
    match pr with
    | JStr invoice =>
        if bool_decide (invoice = "") || bool_decide (opt_prop res "status" = JStr "ERROR")
        then t_throw "errors.unknown-error" else parseBolt11 invoice
    | _ => t_throw "errors.unknown-error"
    end
  else parsed LnurlPay
    [("domain", get "domain" o); ("callback", get "callback" o); ("metadata", JArr metadata);
     ("minSendable", get "minSendable" o); ("maxSendable", get "maxSendable" o);
     ("description", description); ("longDescription", longDescription); ("thumbnail", thumbnail)].

Definition lnurl_tagged (o : obj) : thunk (option ParsedData) :=
  let tag := get "tag" o in
  if decide (tag = JStr "payRequest") then lnurl_pay o
  else if decide (tag = JStr "withdrawRequest") then
    parsed LnurlWithdraw
      [("domain", get "domain" o); ("callback", get "callback" o); ("k1", get "k1" o);
       ("defaultDescription", get "defaultDescription" o);
       ("minWithdrawable", get "minWithdrawable" o); ("maxWithdrawable", get "maxWithdrawable" o)]
  else if decide (tag = JStr "login") then
    parsed LnurlAuth [("domain", get "domain" o); ("callback", get "callback" o); ("k1", get "k1" o)]
  else parsed Unknown [("message", t_type tag)].

Definition lnurl_answer (raw : string) (isWebsiteUrl isValidIdentifier : bool) (answer : jval)
    : thunk (option ParsedData) :=
  tagged ← t_ret (prop_in "tag" answer);
  match answer with
  | JObj o => if (tagged : bool) then lnurl_tagged o
              else lnurl_untagged raw isWebsiteUrl isValidIdentifier answer
  | _ => lnurl_untagged raw isWebsiteUrl isValidIdentifier answer
  end.

Definition parseLnurl (raw : string) : thunk (option ParsedData) :=
  let lowerCaseRaw := toLowerCase raw in
  if startsWith lowerCaseRaw "fedi:" || isDeepLink raw then undefined else
  let lnRaw := stripProtocol lowerCaseRaw ["lnurl"; "lightning"] in
  let isWebsiteUrl := validateWebsiteUrl raw in
  let isValidIdentifier := isValidInternetIdentifier lnRaw in
  match lnurl_request raw lnRaw isWebsiteUrl isValidIdentifier with
  | None => if isWebsiteUrl then website raw else undefined
  | Some url =>
      try_else
        (params ← getLnurlParams url; lnurl_answer raw isWebsiteUrl isValidIdentifier params)
        undefined
  end.

(** ** Trying the parsers *)

Definition offlineParsers (federationId : string) : list (string -> thunk (option ParsedData)) :=
  [parseBitcoinAddress; (fun raw => parseBip21 raw federationId); parseFedimintEcash;
   parseCashuEcash; parseStabilityAddress; parseFediUniversalLink; parseBolt12;
   parseFedimintInvite; parseCommunityInvite].

Definition onlineParsers : list (string -> thunk (option ParsedData)) :=
  [parseBolt11; parseLnurl; parseFediUri; parseFedimintGuardian; parseFedimintRecovery].

Fixpoint tryParsers (parsers : list (string -> thunk (option ParsedData))) (raw : string)
    : thunk (option ParsedData) :=
  match parsers with
  | [] => undefined
  | parser :: parsers =>
      result ← t_catch (parser raw) (fun _ => undefined);
      match result with Some _ => t_ret (Ok result) | None => tryParsers parsers raw end
  end.

Definition parseUserInput (raw federationId : string) (isInternetUnreachable : bool)
    : thunk ParsedData :=
  let raw := trimmed raw in
  offlineResult ← tryParsers (offlineParsers federationId) raw;
  match offlineResult with
  | Some d => t_ret (Ok d)
  | None =>
      if negb isInternetUnreachable then
        onlineResult ← tryParsers onlineParsers raw;
        match onlineResult with
        | Some d => t_ret (Ok d)
        | None => t_ret (Ok (mkParsed Unknown (JObj [])))
        end
      else t_ret (Ok (mkParsed OfflineError
        (JObj [("title", t "feature.omni.error-network-offline-title");
               ("message", t "feature.omni.error-network-offline-message")])))
  end.

(** ** What parsing may ask, and that it always answers *)

(** The calls of the parsers that run without network. *)
Definition bridge_call (raw : string) (c : call) : Prop :=
  rpc_name c ∈ ["parseInvoice"; "parseEcash"; "spv2ParsePaymentAddress"] \/
  rpc_name c = "matrixUserProfile" /\ is_Some (user_of_link raw).

(** No parser reports that the network is missing. *)
Definition not_offline (r : option ParsedData) : Prop :=
  forall d, r = Some d -> p_type d <> OfflineError.

Abbreviation may N := (obeys N not_offline (fun _ => True)).

Lemma may_undefined N : may N undefined.
Proof. by apply obeys_ret. Qed.

Lemma may_parsed N type data : type <> OfflineError -> may N (parsed type data).
Proof. intros H. apply obeys_ret. by intros d [= <-]. Qed.

Lemma may_try N m k : may N m -> may N k -> may N (try_else m k).
Proof. intros M K. by apply (obeys_catch _ _ _ (fun _ => True)). Qed.

Lemma may_throw N e : may N (t_throw e).
Proof. by apply obeys_throw. Qed.

Lemma may_value N (r : option ParsedData) : not_offline r -> may N (t_ret (Ok r)).
Proof. intros H. by apply obeys_ret. Qed.

Lemma may_bind_ret {A} N (r : result A) (f : A -> thunk (option ParsedData)) :
  (forall a, may N (f a)) -> may N (a ← t_ret r; f a).
Proof.
  intros F. apply (obeys_bind _ (fun _ => True)); [|done]. apply obeys_ret. by destruct r.
Qed.

Lemma may_bind_rpc N name args (f : jval -> thunk (option ParsedData)) :
  N (mkCall name args) -> (forall a, may N (f a)) -> may N (a ← rpc name args; f a).
Proof. intros H F. apply (obeys_bind _ (fun _ => True)); [by apply obeys_rpc|done]. Qed.

Lemma not_offline_none : not_offline None.
Proof. by intros d [=]. Qed.
Lemma not_offline_some type data : type <> OfflineError -> not_offline (Some (mkParsed type data)).
Proof. by intros H d [= <-]. Qed.

(** Walks through a parser, one step at a time. *)
Ltac walk_step :=
  first
    [ apply may_undefined | apply may_throw | apply may_parsed; discriminate
    | apply may_try | apply may_value; first [apply not_offline_none | apply not_offline_some; discriminate]
    | apply may_bind_ret; intros ? | apply may_bind_rpc; [|intros ?]
    | apply (obeys_catch _ _ _ (fun _ => True)); [|intros ? _] | case_match ].
Ltac walk := repeat walk_step.

Definition any_call (_ : call) : Prop := True.

Lemma may_parseFediUri (N : call -> Prop) raw :
  (forall args, N (mkCall "matrixUserProfile" args)) -> may N (parseFediUri raw).
Proof.
  intros H. unfold parseFediUri. case_match; [walk|]. apply may_try; [walk|].
  unfold parseFediUser. apply (obeys_bind _ not_offline).
  - walk. apply H.
  - intros [r|] Hr; [by apply may_value|walk].
Qed.

Lemma may_parseBolt11 (N : call -> Prop) raw :
  (forall args, N (mkCall "parseInvoice" args)) -> may N (parseBolt11 raw).
Proof. intros H. unfold parseBolt11, parseInvoice. walk. apply H. Qed.

Lemma may_offline raw fed parser :
  parser ∈ offlineParsers fed -> may (bridge_call raw) (parser raw).
Proof.
  assert (B : forall name args, name ∈ ["parseInvoice"; "parseEcash"; "spv2ParsePaymentAddress"] ->
    bridge_call raw (mkCall name args)) by (intros; by left).
  unfold offlineParsers. intros H. repeat (apply elem_of_cons in H as [->|H]); [..|by apply elem_of_nil in H].
  - unfold parseBitcoinAddress. walk.
  - unfold parseBip21, parseInvoice. walk; apply B; set_solver.
  - unfold parseFedimintEcash. walk; apply B; set_solver.
  - unfold parseCashuEcash. walk.
  - unfold parseStabilityAddress. walk; apply B; set_solver.
  - unfold parseFediUniversalLink. case_match; [|walk].
    destruct (user_of_link raw) eqn:U; [|walk].
    apply may_parseFediUri. intros args. right. by rewrite U.
  - unfold parseBolt12. walk.
  - unfold parseFedimintInvite. walk.
  - unfold parseCommunityInvite. walk.
Qed.

Lemma may_lnurl_pay o : may any_call (lnurl_pay o).
Proof.
  unfold lnurl_pay. do 4 (apply may_bind_ret; intros ?). case_match; [|walk].
  do 2 (apply may_bind_ret; intros ?). apply (obeys_bind _ (fun _ => True)).
  - apply (obeys_catch _ _ _ (fun _ => True)); [by apply obeys_rpc|]. intros. by apply obeys_ret.
  - intros res _. apply may_bind_ret. intros pr. case_match; walk. by apply may_parseBolt11.
Qed.

Lemma may_online raw parser : parser ∈ onlineParsers -> may any_call (parser raw).
Proof.
  unfold onlineParsers. intros H. repeat (apply elem_of_cons in H as [->|H]); [..|by apply elem_of_nil in H].
  - by apply may_parseBolt11.
  - unfold parseLnurl, website, getLnurlParams, lnurl_answer, lnurl_tagged, lnurl_untagged, website.
    repeat first [apply may_lnurl_pay | walk_step]; done.
  - by apply may_parseFediUri.
  - unfold parseFedimintGuardian, parsePrefixedJSON. walk.
  - unfold parseFedimintRecovery, parsePrefixedJSON. walk.
Qed.

(** [tryParsers] turns errors into answers. *)
Lemma tryParsers_obeys N parsers raw :
  (forall parser, parser ∈ parsers -> may N (parser raw)) ->
  obeys N not_offline (fun _ => False) (tryParsers parsers raw).
Proof.
  induction parsers as [|parser l IH]; intros H; cbn [tryParsers].
  - apply obeys_ret, not_offline_none.
  - apply (obeys_bind _ not_offline).
    + apply (obeys_catch _ _ _ (fun _ => True)); [apply H; left|].
      intros. apply obeys_ret, not_offline_none.
    + intros [r|] Hr; [by apply obeys_ret|]. apply IH. intros p Hp. apply H. by right.
Qed.

Lemma offline_obeys raw fed :
  obeys (bridge_call raw) not_offline (fun _ => False) (tryParsers (offlineParsers fed) raw).
Proof. apply tryParsers_obeys. intros. by apply (may_offline raw fed). Qed.

Lemma online_obeys raw : obeys any_call not_offline (fun _ => False) (tryParsers onlineParsers raw).
Proof. apply tryParsers_obeys. intros. by apply may_online. Qed.

(** C28: Parsing user input always ends in a value, whatever the bridge and the
    servers answer and whatever a parser throws.  Without network, only the
    bridge is called: to read ecash, an invoice or a payment address, and, for a deep
    link to a user, for the profile of that user, which it asks a server for.  The
    outcome says that the network is missing exactly when it is and no offline
    parser recognised the input. *)
Theorem parse_user_input_total raw fed unreachable b :
  exists h d,
    run (parseUserInput raw fed unreachable) b = (h, Ok d) /\
    (unreachable = true -> Forall (bridge_call (trimmed raw)) h) /\
    (p_type d = OfflineError <->
       unreachable = true /\ (run (tryParsers (offlineParsers fed) (trimmed raw)) b).2 = Ok None).
Proof.
  unfold run, parseUserInput, mbind, thunk_bind.
  destruct (offline_obeys (trimmed raw) fed b []) as (l & E & F & R). cbn [app] in E.
  destruct (tryParsers (offlineParsers fed) (trimmed raw) b []) as [h [[d|]|e]]; cbn [fst snd] in *;
    subst h; [| |done].
  - exists l, d. split_and!; [done|by intros _|]. split; [by intros H%R|by intros []].
  - destruct unreachable; cbn [negb].
    + eexists l, _. split_and!; [done|by intros _|done].
    + destruct (online_obeys (trimmed raw) b l) as (l' & E & _ & R').
      destruct (tryParsers onlineParsers (trimmed raw) b l) as [h [[d|]|e]]; cbn [fst snd] in *;
        subst h; [| |done].
      * exists (l ++ l'), d. split_and!; [done..|]. split; [by intros H%R'|by intros []].
      * eexists (l ++ l'), _. split_and!; [done..|]. by split; [|intros []].
Qed.
End Parser.

(** ** Strings and their prefixes *)

#[local] Arguments String.append !_ _ / : simpl nomatch.
#[local] Transparent String.prefix.

Lemma toLowerCase_app u s : toLowerCase (u +:+ s) = toLowerCase u +:+ toLowerCase s.
Proof. induction u as [|c u IH]; cbn; [done|by rewrite IH]. Qed.

Lemma toLowerCase_length u : String.length (toLowerCase u) = String.length u.
Proof. induction u as [|c u IH]; cbn; [done|by rewrite IH]. Qed.

Lemma after_ci_app u s : after_ci (toLowerCase u) (u +:+ s) = Some s.
Proof.
  unfold after_ci, startsWith.
  by rewrite toLowerCase_app, prefix_app, toLowerCase_length, slice_app.
Qed.

(** No occurrence of [p] reaches into [q]. *)
Fixpoint no_overlap (p q : string) : bool :=
  match p with
  | EmptyString => true
  | String _ p' => negb (String.prefix p q) && no_overlap p' q
  end.

Lemma prefix_app_l p s q : no_overlap p q = true -> String.prefix p (s +:+ q) = String.prefix p s.
Proof.
  revert s. induction p as [|c p IH]; intros s H; [by destruct s, q|].
  apply andb_true_iff in H as [H1 H2]. apply negb_true_iff in H1.
  destruct s as [|d s]; [exact H1|]. cbn. destruct (Ascii.ascii_dec c d); [by apply IH|done].
Qed.

Lemma contains_cons p c s :
  contains p (String c s) = false -> String.prefix p (String c s) = false /\ contains p s = false.
Proof.
  unfold contains. rewrite !bool_decide_eq_false. cbn [cut].
  destruct (String.prefix p (String c s)); [intros []; eauto|].
  destruct (cut p s) as [[? ?]|] eqn:E; [intros []; eauto|]. intros _. split; [done|by intros [? [=]]].
Qed.

Lemma without_http_id s :
  contains "http://" s = false -> contains "https://" s = false -> without_http s = s.
Proof.
  unfold without_http. induction s as [|c s IH]; [done|].
  intros [P1 H1]%contains_cons [P2 H2]%contains_cons.
  cbn [without_http_from]. rewrite P1, P2. by rewrite IH.
Qed.

Lemma without_http_app s q :
  no_overlap "http://" q = true -> no_overlap "https://" q = true ->
  contains "http://" s = false -> contains "https://" s = false -> without_http q = q ->
  without_http (s +:+ q) = s +:+ q.
Proof.
  intros O1 O2 H1 H2 Q. unfold without_http in *. revert H1 H2.
  induction s as [|c s IH]; [done|].
  intros [P1 H1]%contains_cons [P2 H2]%contains_cons.
  change (String c s +:+ q) with (String c (s +:+ q)). cbn [without_http_from].
  change (String c (s +:+ q)) with (String c s +:+ q).
  rewrite !prefix_app_l, P1, P2 by done. by rewrite IH.
Qed.

(** Without white space there is one line. *)
Definition no_space (s : string) : bool := forallb (fun c => negb (is_space c)) (chars s).

Lemma newline_space c : is_space c = false -> is_newline c = false.
Proof.
  intros H. unfold is_newline. destruct (bool_decide (c = "010"%char)) eqn:E1.
  - apply bool_decide_eq_true in E1. by subst.
  - cbn. apply bool_decide_eq_false. by intros ->.
Qed.

Lemma no_space_one_line s : no_space s = true -> one_line s = true.
Proof.
  unfold no_space, one_line. rewrite !forallb_forall. intros H c Hc. apply H in Hc.
  apply negb_true_iff in Hc. by rewrite newline_space.
Qed.

Lemma no_space_cons c s : no_space (String c s) = true -> is_space c = false /\ no_space s = true.
Proof. unfold no_space. cbn. rewrite andb_true_iff, negb_true_iff. done. Qed.

Lemma no_space_app s u : no_space (s +:+ u) = no_space s && no_space u.
Proof. unfold no_space, chars. induction s as [|c s IH]; [done|]. cbn. by rewrite IH, andb_assoc. Qed.

Lemma trim_start_id l : forallb (fun c => negb (is_space c)) l = true -> trim_start l = l.
Proof.
  destruct l as [|c l]; [done|]. cbn. rewrite andb_true_iff, negb_true_iff. by intros [-> _].
Qed.

Lemma forallb_rev {A} (p : A -> bool) l : forallb p (rev l) = forallb p l.
Proof.
  induction l as [|x l IH]; [done|]. cbn [rev forallb]. rewrite forallb_app, IH. cbn.
  by rewrite andb_true_r, andb_comm.
Qed.

Lemma trimmed_no_space s : no_space s = true -> trimmed s = s.
Proof.
  intros H. unfold trimmed, trim. unfold no_space in H.
  rewrite (trim_start_id (chars s)), trim_start_id by (rewrite ?forallb_rev; done).
  rewrite rev_involutive. apply String.string_of_list_ascii_of_string.
Qed.

(** ** Links of the chat *)

(** Ids that can be shared: of the form of an id, without white space or the
    scheme of a url inside, which decoding removes. *)
Definition plain_id (id : string) : Prop :=
  no_space id = true /\ contains "http://" id = false /\ contains "https://" id = false.
Definition room_id (id : string) : Prop :=
  isValidMatrixRoomId id = true /\ plain_id id /\ contains "::" (id +:+ ":") = false.
Definition user_id (id : string) : Prop := isValidMatrixUserId id = true /\ plain_id id.

(** The forms a link comes in: [fedi:kind:id] and [fedi://kind/id], and mixed. *)
Definition chat_link (sl kind sep id tail : string) : string :=
  "fedi:" +:+ sl +:+ kind +:+ sep +:+ id +:+ tail.

Lemma until_colons_id id tail :
  tail ∈ [":::"; ""] -> id <> "" -> no_space id = true -> contains "::" (id +:+ ":") = false ->
  until_colons (id +:+ tail) = Some id.
Proof.
  intros T. induction id as [|c id IH]; [done|]. intros _ [Hc Hs]%no_space_cons H.
  change (String c id +:+ ":") with (String c (id +:+ ":")) in H.
  apply contains_cons in H as [_ H].
  change (String c id +:+ tail) with (String c (id +:+ tail)). cbn [until_colons].
  rewrite newline_space by done. destruct id as [|d id].
  - by repeat (apply elem_of_cons in T as [->|T]); [..|apply elem_of_nil in T].
  - assert (P : String.prefix "::" (String d id +:+ tail) = false).
    { change (String d id +:+ ":") with (String d (id +:+ ":")) in H.
      apply contains_cons in H as [P _]. change (String d id +:+ tail) with (String d (id +:+ tail)).
      cbn [String.prefix String.append] in P |- *. destruct (Ascii.ascii_dec ":" d); [|done].
      destruct id as [|f id]; cbn [String.prefix String.append] in P |- *; [done|].
      destruct (Ascii.ascii_dec ":" f); [|done]. by destruct id. }
    rewrite P, bool_decide_false, IH by done. done.
Qed.

Lemma link_without_http sl kind sep id tail :
  sl ∈ [""; "//"] -> kind ∈ ["room"; "user"] -> sep ∈ [":"; "/"] -> tail ∈ [":::"; ""] ->
  plain_id id -> without_http (chat_link sl kind sep id tail) = chat_link sl kind sep id tail.
Proof.
  intros Hs Hk Hp Ht (_ & H1 & H2).
  assert (E : without_http (id +:+ tail) = id +:+ tail).
  { repeat (apply elem_of_cons in Ht as [->|Ht]); [..|by apply elem_of_nil in Ht];
      by apply without_http_app. }
  unfold without_http in E. unfold chat_link.
  repeat (apply elem_of_cons in Hs as [->|Hs]); [..|by apply elem_of_nil in Hs];
  repeat (apply elem_of_cons in Hk as [->|Hk]); try (by apply elem_of_nil in Hk);
  repeat (apply elem_of_cons in Hp as [->|Hp]); try (by apply elem_of_nil in Hp);
  unfold without_http; cbn -[is_space]; by rewrite E.
Qed.

Lemma link_after_kind sl kind sep id tail :
  sl ∈ [""; "//"] -> kind ∈ ["room"; "user"] -> sep ∈ [":"; "/"] ->
  after_kind kind (chat_link sl kind sep id tail) = Some (id +:+ tail).
Proof.
  intros Hs Hk Hp. unfold chat_link, after_kind. rewrite (after_ci_app "fedi:").
  cbn [mbind option_bind].
  assert (D : default (sl +:+ kind +:+ sep +:+ id +:+ tail) (after_ci "//" (sl +:+ kind +:+ sep +:+ id +:+ tail))
    = kind +:+ sep +:+ id +:+ tail).
  { repeat (apply elem_of_cons in Hs as [->|Hs]); [| |by apply elem_of_nil in Hs].
    - by repeat (apply elem_of_cons in Hk as [->|Hk]); [..|apply elem_of_nil in Hk].
    - by rewrite (after_ci_app "//"). }
  rewrite D.
  assert (K : after_ci kind (kind +:+ sep +:+ id +:+ tail) = Some (sep +:+ id +:+ tail)).
  { repeat (apply elem_of_cons in Hk as [->|Hk]); [..|by apply elem_of_nil in Hk];
      [apply (after_ci_app "room")|apply (after_ci_app "user")]. }
  rewrite K. cbn [mbind option_bind].
  by repeat (apply elem_of_cons in Hp as [->|Hp]); [..|apply elem_of_nil in Hp].
Qed.

Lemma valid_nonempty c id : valid_matrix_id c id = true -> id <> "".
Proof. by intros H ->. Qed.

Lemma decode_room sl sep id tail :
  sl ∈ [""; "//"] -> sep ∈ [":"; "/"] -> tail ∈ [":::"; ""] -> room_id id ->
  decodeFediMatrixRoomUri (chat_link sl "room" sep id tail) = Ok id.
Proof.
  intros Hs Hp Ht (V & P & C). unfold decodeFediMatrixRoomUri.
  rewrite link_without_http, link_after_kind by (done || set_solver).
  cbn [mbind option_bind]. rewrite until_colons_id by (done || apply P || by eapply valid_nonempty).
  by rewrite V.
Qed.

Lemma decode_user sl sep id :
  sl ∈ [""; "//"] -> sep ∈ [":"; "/"] -> user_id id ->
  decodeFediMatrixUserUri (chat_link sl "user" sep id "") = Ok id /\
  exists e, decodeFediMatrixRoomUri (chat_link sl "user" sep id "") = Throw e.
Proof.
  intros Hs Hp (V & P). unfold decodeFediMatrixUserUri, decodeFediMatrixRoomUri.
  rewrite link_without_http, link_after_kind by (done || set_solver). rewrite str_app_nil_r. split.
  - rewrite bool_decide_false by (by eapply valid_nonempty).
    rewrite no_space_one_line by apply P. by rewrite V.
  - exists "feature.chat.invalid-room". unfold chat_link.
    repeat (apply elem_of_cons in Hs as [->|Hs]); [..|by apply elem_of_nil in Hs]; done.
Qed.

Section Scan.
Context (parseURL : string -> result URL).
Context (searchParams : string -> list (string * string)).
Context (queryString : list (string * string) -> string).
Context (parseJSON : string -> result jval).
Context (qsParse : string -> obj).
Context (parseFloat : string -> num).
Context (validateBitcoinAddress : string -> bool).
Context (t : string -> jval) (t_type : jval -> jval).
Context (withAmount : string -> string -> result string).
Context (isDev : bool).

Abbreviation parse_input := (parseUserInput parseURL searchParams queryString parseJSON qsParse
  parseFloat validateBitcoinAddress t t_type withAmount isDev).
Abbreviation online := (onlineParsers parseURL searchParams parseJSON t t_type withAmount isDev).
Abbreviation offline := (offlineParsers parseURL searchParams queryString qsParse parseFloat
  validateBitcoinAddress isDev).

(** No other party claims the text: it is no address, no deep link, and the
    bridge reads neither ecash nor a payment address in it. *)
Definition unclaimed (uri : string) (b : bridge) : Prop :=
  validateBitcoinAddress uri = false /\ isDeepLink parseURL searchParams isDev uri = false /\
  forall h, (exists e, b h (mkCall "parseEcash" [JObj [("ecash", JStr uri)]]) = Throw e) /\
            (exists e, b h (mkCall "spv2ParsePaymentAddress" [JObj [("address", JStr uri)]]) = Throw e).

Lemma try_none parser l raw b h h' :
  parser raw b h = (h', Ok None) -> tryParsers (parser :: l) raw b h = tryParsers l raw b h'.
Proof. intros E. cbn [tryParsers]. unfold mbind, thunk_bind, t_catch. by rewrite E. Qed.

Lemma try_throw parser l raw b h h' e :
  parser raw b h = (h', Throw e) -> tryParsers (parser :: l) raw b h = tryParsers l raw b h'.
Proof. intros E. cbn [tryParsers]. unfold mbind, thunk_bind, t_catch. by rewrite E. Qed.

Lemma try_some parser l raw b h h' d :
  parser raw b h = (h', Ok (Some d)) -> tryParsers (parser :: l) raw b h = (h', Ok (Some d)).
Proof. intros E. cbn [tryParsers]. unfold mbind, thunk_bind, t_catch. by rewrite E. Qed.

(** The parsers before [parseFediUri] leave a [fedi:] link alone, except the
    one of community invites. *)
Lemma offline_skips s b h fed :
  startsWith (toLowerCase s) "community" = false -> unclaimed ("fedi:" +:+ s) b ->
  exists h', tryParsers (offline fed) ("fedi:" +:+ s) b h = (h', Ok None).
Proof.
  intros C (V & D & B). unfold offlineParsers. eexists.
  erewrite try_none; [|unfold parseBitcoinAddress; rewrite V; reflexivity].
  erewrite try_none; [|reflexivity].
  erewrite try_none.
  2:{ destruct (B h) as [(e & E) _]. unfold parseFedimintEcash, try_else, t_catch.
      change (startsWith ("fedi:" +:+ s) "cashu") with false. cbv iota.
      rewrite run_rpc, E. reflexivity. }
  erewrite try_none; [|reflexivity].
  erewrite try_none.
  2:{ match goal with |- _ _ _ ?h' = _ => destruct (B h') as [_ (e & E)] end.
      unfold parseStabilityAddress, try_else, t_catch. rewrite run_rpc, E. reflexivity. }
  erewrite try_none; [|unfold parseFediUniversalLink; rewrite D; reflexivity].
  erewrite try_none; [|reflexivity].
  erewrite try_none; [|reflexivity].
  erewrite try_none; [reflexivity|].
  unfold parseCommunityInvite. rewrite toLowerCase_app.
  change (toLowerCase "fedi:") with "fedi:".
  assert (E : startsWith ("fedi:" +:+ toLowerCase s) "fedi:community" = startsWith (toLowerCase s) "community")
    by reflexivity.
  by rewrite E, C.
Qed.

Lemma online_reaches s b h :
  exists l, tryParsers online ("fedi:" +:+ s) b h =
    tryParsers (parseFediUri :: l) ("fedi:" +:+ s) b h.
Proof.
  unfold onlineParsers. eexists. erewrite try_none; [|reflexivity].
  erewrite try_none; [reflexivity|]. unfold parseLnurl. rewrite toLowerCase_app.
  unfold startsWith. change (toLowerCase "fedi:") with "fedi:". by rewrite prefix_app.
Qed.

Lemma fedi_prefix s : startsWith (toLowerCase ("fedi:" +:+ s)) "fedi:" = true.
Proof. rewrite toLowerCase_app. apply (prefix_app "fedi:"). Qed.

Lemma scan_link s b fed d :
  no_space s = true -> startsWith (toLowerCase s) "community" = false ->
  unclaimed ("fedi:" +:+ s) b ->
  (forall h, exists h', parseFediUri ("fedi:" +:+ s) b h = (h', Ok (Some d))) ->
  (run (parse_input ("fedi:" +:+ s) fed false) b).2 = Ok d.
Proof.
  intros S C U P. unfold run, parseUserInput.
  rewrite trimmed_no_space by (rewrite no_space_app; by rewrite S).
  destruct (offline_skips s b [] fed C U) as [h E]. unfold mbind, thunk_bind. rewrite E.
  cbn [negb]. destruct (online_reaches s b h) as [l El]. rewrite El.
  destruct (P h) as [h' Ef]. by rewrite (try_some _ _ _ _ _ _ _ Ef).
Qed.

Definition profile_call (id : string) : call :=
  mkCall "matrixUserProfile" [JObj [("userId", JStr id)]].


(** ** Payment uris *)

Lemma cut_char c s q :
  contains (String c "") s = false -> cut (String c "") (s +:+ String c q) = Some (s, q).
Proof.
  induction s as [|d s IH]; intros H.
  - change ("" +:+ String c q) with (String c "" +:+ q).
    pose proof (prefix_app (String c "") q) as P. pose proof (slice_app (String c "") q) as L.
    change (String c "" +:+ q) with (String c q) in *. cbn [cut]. by rewrite P, L.
  - apply contains_cons in H as [P H]. change (String d s +:+ String c q) with (String d (s +:+ String c q)).
    cbn [cut]. assert (String.prefix (String c "") (String d (s +:+ String c q)) = false) as ->.
    { cbn [String.prefix] in P |- *. destruct (Ascii.ascii_dec c d); [by destruct s|done]. }
    by rewrite IH.
Qed.

Lemma split_0_none p s : contains p s = false -> split_0 p s = s.
Proof.
  unfold contains, split_0. rewrite bool_decide_eq_false. destruct (cut p s) as [[? ?]|]; [|done].
  intros []. eauto.
Qed.

Lemma strip_slashes_app sl s :
  sl ∈ [""; "/"; "//"] -> String.prefix "/" s = false -> strip_slashes (sl +:+ s) = s.
Proof.
  intros H P. assert (E : strip_slashes s = s).
  { destruct s as [|c s]; [done|]. cbn [String.prefix] in P. unfold strip_slashes.
    destruct (Ascii.ascii_dec "/" c) as [|N]; [by destruct s|].
    destruct c as [[] [] [] [] [] [] [] []]; try done. }
  repeat (apply elem_of_cons in H as [->|H]); [exact E| |done|by apply elem_of_nil in H].
  change ("/" +:+ s) with (String "/" s). destruct s as [|c s]; [done|].
  cbn [String.prefix] in P. unfold strip_slashes.
  destruct (Ascii.ascii_dec "/" c) as [|N]; [by destruct s|].
  by destruct c as [[] [] [] [] [] [] [] []].
Qed.

Abbreviation pay_uri := (parseBip21 qsParse parseFloat validateBitcoinAddress).

(** The on-chain payment a uri asks for. *)
Definition onchain_payment (address : string) (q : obj) : ParsedData :=
  mkParsed Bip21 (JObj
    [("address", JStr address);
     ("amount", let amount := param q "amount" in
                if truthy amount then JNum (parseFloat (to_str amount)) else JUndef);
     ("label", param q "label"); ("message", param q "message")]).

(** A payment uri, its scheme in any case and with up to two slashes, is read
    on every branch as follows: without an invoice it is an on-chain payment of
    its address, amount, label and message; with one and no federation it is
    nothing; with one the bridge can read it is that invoice, with the address to
    fall back to; and otherwise the on-chain payment. *)
Theorem payment_uri u sl address q fed b h :
  toLowerCase u = "bitcoin" -> sl ∈ [""; "/"; "//"] -> validateBitcoinAddress address = true ->
  String.prefix "/" address = false -> contains "?" address = false -> contains "?" q = false ->
  let query := qsParse q in
  let c := mkCall "parseInvoice" [JObj [("invoice", JStr (to_str (param query "lightning")))]] in
  pay_uri (u +:+ ":" +:+ sl +:+ address +:+ "?" +:+ q) fed b h =
    if negb (truthy (param query "lightning")) then (h, Ok (Some (onchain_payment address query)))
    else if decide (fed = "") then (h, Ok None)
    else (h ++ [c],
      match b h c with
      | Ok invoice => Ok (Some (mkParsed Bolt11
          (JObj (spread [("fallbackAddress", JStr address)] (own_props invoice)))))
      | Throw _ => Ok (Some (onchain_payment address query))
      end).
Proof.
  intros Hu Hs V N Ca Cq query c. rewrite <- str_app_assoc.
  assert (L : toLowerCase (u +:+ ":") = "bitcoin:") by (rewrite toLowerCase_app, Hu; done).
  assert (A : after_ci "bitcoin:" ((u +:+ ":") +:+ sl +:+ address +:+ "?" +:+ q)
              = Some (sl +:+ address +:+ "?" +:+ q)) by (rewrite <- L; apply after_ci_app).
  assert (P : String.prefix "/" (address +:+ "?" +:+ q) = false).
  { destruct address as [|x address]; [done|]. change (String x address +:+ "?" +:+ q) with (String x (address +:+ "?" +:+ q)).
    cbn [String.prefix] in N |- *. destruct (Ascii.ascii_dec "/" x); [by destruct address|done]. }
  unfold parseBip21. rewrite toLowerCase_app, L. unfold startsWith at 1. rewrite prefix_app. cbn [negb].
  cbn [stripProtocol]. change ("bitcoin" +:+ ":") with "bitcoin:". rewrite A.
  rewrite strip_slashes_app by done.
  change ("?" +:+ q) with (String "?" q) in *.
  assert (S0 : split_0 "?" (address +:+ String "?" q) = address) by (unfold split_0; by rewrite cut_char).
  rewrite S0, V. cbn [negb]. unfold split_1. rewrite cut_char by done.
  change (default "" (Some (split_0 "?" q))) with (split_0 "?" q). rewrite split_0_none by done.
  fold query. destruct (truthy (param query "lightning")); cbn [negb]; [|done].
  unfold try_else, t_catch. case_decide; [done|]. unfold parseInvoice. rewrite run_rpc. fold c.
  by destruct (b h c).
Qed.
End Scan.

(** A room of a server given by an IPv6 address has [::] in its id, where the
    link is cut off. *)
Example ipv6_room_truncated :
  isValidMatrixRoomId "!lounge:[2001:db8::1]" = true /\
  decodeFediMatrixRoomUri (encodeFediMatrixRoomUri id "!lounge:[2001:db8::1]" false)
    = Ok "!lounge:[2001:db8".
Proof. vm_compute. by split. Qed.

(** The deep forms escape the id, and the decoders do not undo it. *)
Example deep_room_refused :
  decodeFediMatrixRoomUri
    (encodeFediMatrixRoomUri (fun _ => "%21lounge%3Afedi.xyz") "!lounge:fedi.xyz" true)
    = Throw "feature.chat.invalid-room".
Proof. vm_compute. reflexivity. Qed.

(** ** Witnesses *)

Definition no_url (_ : string) : result URL := Throw type_error.
Definition demo_query (q : string) : obj :=
  if decide (q = "amount=1.5") then [("amount", JStr "1.5")]
  else if decide (q = "lightning=lnbc1") then [("lightning", JStr "lnbc1")] else [].
Definition demo_address (s : string) : bool := bool_decide (s = "bc1qdemo").
(** A bridge that knows a user and an invoice. *)
Definition demo_bridge : bridge := fun _ c =>
  if decide (rpc_name c = "matrixUserProfile")
  then Ok (JObj [("data", JObj [("displayname", JStr "Ann")])])
  else if decide (rpc_name c = "parseInvoice") then Ok (JObj [("amount", JNum (of_Z 21))])
  else Throw "not found".

Abbreviation demo_input := (parseUserInput no_url (fun _ => []) (fun _ => "") (fun _ => Throw "SyntaxError")
  demo_query (fun _ => of_frac 3 2) demo_address JStr id (fun s _ => Ok s) false).

Lemma demo_unclaimed uri : demo_address uri = false ->
  unclaimed no_url (fun _ => []) demo_address false uri demo_bridge.
Proof. intros V. split_and!; [done..|]. intros h. split; by exists "not found". Qed.


Lemma payment_uri_witness :
  parseBip21 demo_query (fun _ => of_frac 3 2) demo_address "BITCOIN://bc1qdemo?amount=1.5" "fed" demo_bridge []
    = ([], Ok (Some (mkParsed Bip21 (JObj [("address", JStr "bc1qdemo"); ("amount", JNum (of_frac 3 2));
        ("label", JUndef); ("message", JUndef)])))) /\
  (parseBip21 demo_query (fun _ => of_frac 3 2) demo_address "bitcoin:bc1qdemo?lightning=lnbc1" "fed" demo_bridge []).2
    = Ok (Some (mkParsed Bolt11 (JObj [("fallbackAddress", JStr "bc1qdemo"); ("amount", JNum (of_Z 21))]))).
Proof.
  split.
  - etransitivity; [apply (payment_uri demo_query (fun _ => of_frac 3 2) demo_address "BITCOIN" "//"
      "bc1qdemo" "amount=1.5" "fed" demo_bridge []); try done; by right; right; left|].
    vm_compute. reflexivity.
  - etransitivity; [apply (f_equal snd), (payment_uri demo_query (fun _ => of_frac 3 2) demo_address
      "bitcoin" "" "bc1qdemo" "lightning=lnbc1" "fed" demo_bridge []); try done; by left|].
    vm_compute. reflexivity.
Defined.

Lemma parse_user_input_total_demo :
  (run (demo_input " fed11invite " "" true) demo_bridge).2 =
    Ok (mkParsed FedimintInvite (JObj [("invite", JStr "fed11invite")])) /\
  p_type <$> (run (demo_input "lnurl1abc" "" true) demo_bridge).2 = Ok OfflineError.
Proof. vm_compute. by split. Qed.
