(* ===== verification/Browser.v ===== *)
(** The browser of mini apps: [ui/common/redux/browser.ts].

    Each mini app has a session: the pages visited, of which the last ten are
    kept, and the index of the one shown.  [browser_refines] relates the slice
    to a browser whose sessions are a page with the pages behind and ahead of
    it. *)
From Stdlib Require Import ZArith Lia Ascii.
From stdpp Require Import base tactics strings list option gmap.
From S2P Require Import Prelude JsNum Js JsStr Matrix.
Local Open Scope string_scope.
Local Open Scope list_scope.

Definition MAX_TAB_HISTORY_LENGTH : nat := 10.

(** ** The state

    [history[i]] of an index out of range is [undefined], which [None] stands
    for, as it does for the holes an assignment past the end leaves. *)
Record MiniAppSession := mkSession {
  miniAppId : string;
  history : list (option string);
  historyIndex : Z
}.

#[export] Instance MiniAppSession_eta : Eta MiniAppSession := fun s =>
  mkSession (miniAppId s) (history s) (historyIndex s).

(** The requests of a mini app that an overlay asks the user about. *)
Record Overlays := mkOverlays {
  requestInvoiceArgs : jval;
  invoiceToPay : jval;
  lnurlWithdrawal : jval;
  lnurlPayment : jval;
  lnurlAuthRequest : jval;
  nostrUnsignedEvent : jval;
  ecashRequest : jval;
  receiveEcashRequest : option string;
  requestedPermission : jval
}.

#[export] Instance Overlays_eta : Eta Overlays := fun o =>
  mkOverlays (requestInvoiceArgs o) (invoiceToPay o) (lnurlWithdrawal o) (lnurlPayment o)
    (lnurlAuthRequest o) (nostrUnsignedEvent o) (ecashRequest o) (receiveEcashRequest o)
    (requestedPermission o).

Definition no_overlays : Overlays :=
  mkOverlays JNull JNull JNull JNull JNull JNull JNull None JNull.

(** [currentUrl] is read by its truth and by identity with a page: [None] is
    [null] and [undefined] alike. *)
Record BrowserState := mkBrowser {
  siteInfo : jval;
  overlays : Overlays;
  addressOverlayOpen : bool;
  currentUrl : option string;
  currentMiniAppId : option string;
  miniAppSessions : record MiniAppSession
}.

#[export] Instance BrowserState_eta : Eta BrowserState := fun s =>
  mkBrowser (siteInfo s) (overlays s) (addressOverlayOpen s) (currentUrl s)
    (currentMiniAppId s) (miniAppSessions s).

Definition browser_initialState : BrowserState := mkBrowser JNull no_overlays false None None [].

(** ** Arrays *)

(** [l[i]] *)
Definition item (l : list (option string)) (i : Z) : option string :=
  if (i <? 0)%Z then None else mjoin (l !! Z.to_nat i).

(** [l[i] = x]: past the end the array grows; a negative index names a property
    that is not an element. *)
Definition set_item (l : list (option string)) (i : Z) (x : option string)
    : list (option string) :=
  if (i <? 0)%Z then l
  else if (i <? Z.of_nat (length l))%Z then <[Z.to_nat i := x]> l
  else l ++ replicate (Z.to_nat i - length l) None ++ [x].

(** [l.slice(-n)] for [n] positive. *)
Definition last_n {A} (n : nat) (l : list A) : list A := drop (length l - n) l.

(** [l.slice(0, n)]: a negative [n] counts from the end. *)
Definition slice_to {A} (n : Z) (l : list A) : list A :=
  if (n <? 0)%Z then take (length l - Z.to_nat (- n)) l else take (Z.to_nat n) l.

(** [Math.min(session.historyIndex, session.history.length - 1)] *)
Definition page_index (session : MiniAppSession) : Z :=
  Z.min (historyIndex session) (Z.of_nat (length (history session)) - 1).

(** The pages up to the one shown, and a new one. *)
Definition new_history (session : MiniAppSession) (url : string) : list (option string) :=
  last_n MAX_TAB_HISTORY_LENGTH
    (slice_to (page_index session + 1) (history session) ++ [Some url]).

(** ** Reducers *)

Section Reducers.
(** lodash's [omit] of one key. *)
Context (omit : record MiniAppSession -> string -> record MiniAppSession).

(** [if (state.currentMiniAppId)], and the session under that id. *)
Definition current_session (s : BrowserState) : option MiniAppSession :=
  match currentMiniAppId s with
  | None | Some "" => None
  | Some appId => lookup_prop appId (miniAppSessions s)
  end.

(** [{ ...state.miniAppSessions, [session.miniAppId]: session }] *)
Definition put_session (session : MiniAppSession) (s : BrowserState) : BrowserState :=
  s <| miniAppSessions := set_prop (miniAppId session) session (miniAppSessions s) |>.

Definition setCurrentUrl (url : string) (s : BrowserState) : BrowserState :=
  s <| currentUrl := Some url |>.

Definition openMiniAppSession (appId url : string) (s : BrowserState) : BrowserState :=
  let session :=
    default (mkSession appId [Some url] 0) (lookup_prop appId (miniAppSessions s)) in
  s <| currentUrl := item (history session) (historyIndex session) |>
    <| currentMiniAppId := Some appId |>
    <| miniAppSessions := set_prop appId session (miniAppSessions s) |>.

(** The part that [goBackInHistory] and [goForwardInHistory] share. *)
Definition move_to (session : MiniAppSession) (newIndex : Z) (s : BrowserState) : BrowserState :=
  put_session (session <| historyIndex := newIndex |>) s
    <| currentUrl := item (history session) newIndex |>.

Definition goBackInHistory (s : BrowserState) : BrowserState :=
  match current_session s with
  | Some session =>
      if (0 <? historyIndex session)%Z then move_to session (historyIndex session - 1) s else s
  | None => s
  end.

Definition goForwardInHistory (s : BrowserState) : BrowserState :=
  match current_session s with
  | Some session =>
      if (historyIndex session <? Z.of_nat (length (history session)) - 1)%Z
      then move_to session (historyIndex session + 1) s else s
  | None => s
  end.

(** The part that [commitUrlToHistory] and [goToPage] share. *)
Definition push_page (session : MiniAppSession) (url : string) (s : BrowserState) : BrowserState :=
  let newHistory := new_history session url in
  put_session (session <| history := newHistory |>
    <| historyIndex := (Z.of_nat (length newHistory) - 1)%Z |>) s.

Definition commitUrlToHistory (s : BrowserState) : BrowserState :=
  match current_session s, currentUrl s with
  | _, None | _, Some "" | None, _ => s
  | Some session, Some url =>
      if decide (item (history session) (page_index session) = Some url) then s
      else push_page session url s
  end.

Definition goToPage (targetUrl : string) (s : BrowserState) : BrowserState :=
  match current_session s with
  | Some session =>
      if decide (item (history session) (page_index session) = Some targetUrl) then s
      else push_page session targetUrl s <| currentUrl := Some targetUrl |>
  | None => s
  end.

Definition replaceCurrentPage (targetUrl : string) (s : BrowserState) : BrowserState :=
  match current_session s with
  | Some session =>
      put_session
        (session <| history := set_item (history session) (historyIndex session) (Some targetUrl) |>)
        s <| currentUrl := Some targetUrl |>
  | None => s
  end.

Definition clearMiniAppHistory (s : BrowserState) : BrowserState :=
  match current_session s with
  | Some session => s <| miniAppSessions := omit (miniAppSessions s) (miniAppId session) |>
  | None => s
  end.

Definition clearAllMiniAppSessions (s : BrowserState) : BrowserState :=
  s <| miniAppSessions := [] |>.

Definition closeBrowser (s : BrowserState) : BrowserState :=
  s <| currentUrl := None |> <| currentMiniAppId := None |>.

(** The setters of one field. *)
Inductive overlay_field : Type :=
  | f_requestInvoiceArgs | f_invoiceToPay | f_lnurlWithdrawal | f_lnurlPayment
  | f_lnurlAuthRequest | f_nostrUnsignedEvent | f_ecashRequest | f_requestedPermission.

Definition set_overlay (f : overlay_field) (v : jval) (o : Overlays) : Overlays :=
  match f with
  | f_requestInvoiceArgs => o <| requestInvoiceArgs := v |>
  | f_invoiceToPay => o <| invoiceToPay := v |>
  | f_lnurlWithdrawal => o <| lnurlWithdrawal := v |>
  | f_lnurlPayment => o <| lnurlPayment := v |>
  | f_lnurlAuthRequest => o <| lnurlAuthRequest := v |>
  | f_nostrUnsignedEvent => o <| nostrUnsignedEvent := v |>
  | f_ecashRequest => o <| ecashRequest := v |>
  | f_requestedPermission => o <| requestedPermission := v |>
  end.

Definition resetBrowserOverlayState (s : BrowserState) : BrowserState :=
  s <| overlays := no_overlays |>.

Inductive browser_action : Type :=
  | SetCurrentUrl (url : string)
  | OpenMiniAppSession (appId url : string)
  | GoBackInHistory
  | GoForwardInHistory
  | CommitUrlToHistory
  | GoToPage (targetUrl : string)
  | ReplaceCurrentPage (targetUrl : string)
  | ClearMiniAppHistory
  | ClearAllMiniAppSessions
  | CloseBrowser
  | SetSiteInfo (info : jval)
  | SetAddressOverlayOpen (b : bool)
  | SetOverlay (f : overlay_field) (v : jval)
  | SetReceiveEcashRequest (ecash : option string)
  | ResetBrowserOverlayState.

(** [browserSlice.reducer] *)
Definition browser_reduce (s : BrowserState) (a : browser_action) : BrowserState :=
  match a with
  | SetCurrentUrl url => setCurrentUrl url s
  | OpenMiniAppSession appId url => openMiniAppSession appId url s
  | GoBackInHistory => goBackInHistory s
  | GoForwardInHistory => goForwardInHistory s
  | CommitUrlToHistory => commitUrlToHistory s
  | GoToPage targetUrl => goToPage targetUrl s
  | ReplaceCurrentPage targetUrl => replaceCurrentPage targetUrl s
  | ClearMiniAppHistory => clearMiniAppHistory s
  | ClearAllMiniAppSessions => clearAllMiniAppSessions s
  | CloseBrowser => closeBrowser s
  | SetSiteInfo info => s <| siteInfo := info |>
  | SetAddressOverlayOpen b => s <| addressOverlayOpen := b |>
  | SetOverlay f v => s <| overlays := set_overlay f v (overlays s) |>
  | SetReceiveEcashRequest ecash => s <| overlays := overlays s <| receiveEcashRequest := ecash |> |>
  | ResetBrowserOverlayState => resetBrowserOverlayState s
  end.

Definition browser_run : list browser_action -> BrowserState :=
  foldl browser_reduce browser_initialState.
End Reducers.

(** ** Selectors *)

Definition selectCurrentMiniAppSession := current_session.

Definition selectCanGoBack (s : BrowserState) : bool :=
  match current_session s with Some session => (0 <? historyIndex session)%Z | None => false end.

Definition selectCanGoForward (s : BrowserState) : bool :=
  match current_session s with
  | Some session => (historyIndex session <? Z.of_nat (length (history session)) - 1)%Z
  | None => false
  end.

(** [s.replace(/\/+$/, '')] *)
Fixpoint trim_slashes (s : string) : string :=
  match s with
  | EmptyString => EmptyString
  | String c s =>
      match trim_slashes s with
      | EmptyString => if decide (c = "/"%char) then EmptyString else String c EmptyString
      | s' => String c s'
      end
  end.

(** [s.replace(/^https?:\/\//, '')] *)
Definition strip_protocol (s : string) : string :=
  if String.prefix "https://" s then String.substring 8 (String.length s - 8) s
  else if String.prefix "http://" s then String.substring 7 (String.length s - 7) s
  else s.

(** [new URL(s).href], or nothing when the constructor throws. *)
Definition selectCurrentUrlFormatted (href : string -> option string) (s : BrowserState) : string :=
  match currentUrl s with
  | None | Some "" => ""
  | Some url => match href url with Some h => trim_slashes (strip_protocol h) | None => url end
  end.

(** ** A browser of tabs

    What the slice implements: each mini app has a tab, a page with the pages
    behind it, the nearest first, and the pages ahead. *)
Record Tab := mkTab { behind : list string; page : string; ahead : list string }.

Record Tabs := mkTabs { shown : option string; app : option string; tabs : gmap string Tab }.

#[export] Instance Tabs_eta : Eta Tabs := fun b => mkTabs (shown b) (app b) (tabs b).

Definition tab_of (b : Tabs) : option (string * Tab) :=
  match app b with
  | None | Some "" => None
  | Some a => pair a <$> tabs b !! a
  end.

(** Show the page of a tab. *)
Definition show_tab (a : string) (t : Tab) (b : Tabs) : Tabs :=
  b <| tabs := <[a := t]> (tabs b) |> <| shown := Some (page t) |>.

(** A page that is visited forgets what was ahead, and the tenth page behind. *)
Definition visit (url : string) (t : Tab) : Tab :=
  mkTab (take (MAX_TAB_HISTORY_LENGTH - 1) (page t :: behind t)) url [].

Definition tabs_step (b : Tabs) (act : browser_action) : Tabs :=
  match act, tab_of b with
  | SetCurrentUrl url, _ => b <| shown := Some url |>
  | OpenMiniAppSession a url, _ =>
      show_tab a (default (mkTab [] url []) (tabs b !! a)) (b <| app := Some a |>)
  | GoBackInHistory, Some (a, mkTab (p :: ps) q qs) => show_tab a (mkTab ps p (q :: qs)) b
  | GoForwardInHistory, Some (a, mkTab ps p (q :: qs)) => show_tab a (mkTab (p :: ps) q qs) b
  | CommitUrlToHistory, Some (a, t) =>
      match shown b with
      | None | Some "" => b
      | Some url => if decide (page t = url) then b else show_tab a (visit url t) b
      end
  | GoToPage url, Some (a, t) => if decide (page t = url) then b else show_tab a (visit url t) b
  | ReplaceCurrentPage url, Some (a, t) => show_tab a (mkTab (behind t) url (ahead t)) b
  | ClearMiniAppHistory, Some (a, t) => b <| tabs := delete a (tabs b) |>
  | ClearAllMiniAppSessions, _ => b <| tabs := ∅ |>
  | CloseBrowser, _ => b <| shown := None |> <| app := None |>
  | _, _ => b
  end.

Definition tabs_run : list browser_action -> Tabs := foldl tabs_step (mkTabs None None ∅).

(** ** The slice implements it *)

Definition pages (t : Tab) : list string := reverse (behind t) ++ page t :: ahead t.

#[global] Arguments pages : simpl never.

(** The session that represents a tab. *)
Definition session_of (a : string) (t : Tab) : MiniAppSession :=
  mkSession a (Some <$> pages t) (Z.of_nat (length (behind t))).

Definition tab_ok (t : Tab) : Prop := length (pages t) <= MAX_TAB_HISTORY_LENGTH.

Record simulates (s : BrowserState) (b : Tabs) : Prop := {
  sim_shown : currentUrl s = shown b;
  sim_app : currentMiniAppId s = app b;
  sim_tabs : forall a, lookup_prop a (miniAppSessions s) = session_of a <$> tabs b !! a;
  sim_bound : forall a t, tabs b !! a = Some t -> tab_ok t }.

Lemma length_pages t : length (pages t) = length (behind t) + 1 + length (ahead t).
Proof. unfold pages. rewrite length_app, length_reverse. simpl. lia. Qed.

Lemma item_fmap l i : item (Some <$> l) (Z.of_nat i) = l !! i.
Proof.
  unfold item. rewrite (proj2 (Z.ltb_ge _ _)) by lia.
  rewrite Nat2Z.id, list_lookup_fmap. by destruct (l !! i).
Qed.

Lemma pages_lookup t : pages t !! length (behind t) = Some (page t).
Proof. unfold pages. apply list_lookup_middle. by rewrite length_reverse. Qed.

Lemma item_session a t :
  item (history (session_of a t)) (historyIndex (session_of a t)) = Some (page t).
Proof. cbn [session_of history historyIndex]. by rewrite item_fmap, pages_lookup. Qed.

Lemma page_index_session a t : page_index (session_of a t) = historyIndex (session_of a t).
Proof.
  unfold page_index. cbn [session_of history historyIndex].
  rewrite length_fmap, length_pages. lia.
Qed.

Lemma last_n_reverse {A} n (l : list A) x : last_n (S n) (reverse l ++ [x]) = reverse (take n l) ++ [x].
Proof.
  unfold last_n. rewrite <- (take_drop n l) at 1 2. rewrite reverse_app, <- app_assoc.
  apply drop_app_length'. rewrite !length_app, !length_reverse, length_drop, length_take.
  simpl. lia.
Qed.

Lemma new_history_session a t url :
  new_history (session_of a t) url = Some <$> pages (visit url t).
Proof.
  unfold new_history. rewrite page_index_session. cbn [session_of history historyIndex].
  unfold slice_to. rewrite (proj2 (Z.ltb_ge _ _)) by lia.
  replace (take _ _) with (Some <$> reverse (page t :: behind t)).
  2: { symmetry. unfold pages. rewrite cons_middle, app_assoc, fmap_app, reverse_cons.
       apply take_app_length'. rewrite length_fmap, length_app, length_reverse. simpl. lia. }
  change [Some url] with (Some <$> [url]). rewrite <- fmap_app.
  unfold last_n. rewrite length_fmap, <- fmap_drop. f_equal.
  apply (last_n_reverse (MAX_TAB_HISTORY_LENGTH - 1)).
Qed.

Lemma visit_ok url t : tab_ok (visit url t).
Proof.
  unfold tab_ok. rewrite length_pages. unfold visit. cbn [behind ahead length].
  rewrite length_take. unfold MAX_TAB_HISTORY_LENGTH. lia.
Qed.

Lemma session_of_moved a t i t' :
  pages t' = pages t -> i = Z.of_nat (length (behind t')) ->
  session_of a t <| historyIndex := i |> = session_of a t'.
Proof. intros E ->. unfold session_of. by rewrite E. Qed.

Lemma session_of_visited a t url :
  (session_of a t <| history := new_history (session_of a t) url |>
     <| historyIndex := (Z.of_nat (length (new_history (session_of a t) url)) - 1)%Z |>) =
  session_of a (visit url t).
Proof.
  rewrite new_history_session. unfold session_of at 2. cbn. f_equal.
  rewrite length_fmap, length_pages. unfold visit. cbn. lia.
Qed.

Lemma session_of_replaced a t url :
  (session_of a t <| history :=
     set_item (history (session_of a t)) (historyIndex (session_of a t)) (Some url) |>) =
  session_of a (mkTab (behind t) url (ahead t)).
Proof.
  unfold session_of. cbn. f_equal. unfold set_item.
  rewrite length_fmap, length_pages, (proj2 (Z.ltb_ge _ _)) by lia.
  rewrite (proj2 (Z.ltb_lt _ _)) by lia.
  rewrite Nat2Z.id, <- list_fmap_insert. f_equal. unfold pages. cbn [behind page ahead].
  rewrite insert_app_r_alt by (rewrite length_reverse; lia).
  by rewrite length_reverse, Nat.sub_diag.
Qed.

Lemma tab_ok_pages t t' : pages t' = pages t -> tab_ok t -> tab_ok t'.
Proof. unfold tab_ok. by intros ->. Qed.

Lemma current_sim s b :
  simulates s b -> current_session s = (fun at' => session_of at'.1 at'.2) <$> tab_of b.
Proof.
  intros [_ A T _]. unfold current_session, tab_of. rewrite A.
  destruct (app b) as [[|c a]|]; [done | | done]. rewrite T. by destruct (tabs b !! _).
Qed.

Lemma tab_of_ok s b a t : simulates s b -> tab_of b = Some (a, t) -> tab_ok t.
Proof.
  intros [_ _ _ B]. unfold tab_of. destruct (app b) as [[|c a']|]; try done.
  destruct (tabs b !! _) eqn:E; intros [= <- <-]. eauto.
Qed.

(** A session that is stored shows its page. *)
Lemma sim_show s b a t s' :
  simulates s b -> tab_ok t ->
  currentUrl s' = Some (page t) -> currentMiniAppId s' = app b ->
  miniAppSessions s' = set_prop a (session_of a t) (miniAppSessions s) ->
  simulates s' (show_tab a t b).
Proof.
  intros [U A T B] Ht Eu Ea Es. split; [done | done | |]; cbn.
  - intros a'. rewrite Es. destruct (decide (a' = a)) as [->|N].
    + by rewrite lookup_set_eq, lookup_insert_eq.
    + by rewrite lookup_set_ne, lookup_insert_ne, T by done.
  - intros a' t'. destruct (decide (a' = a)) as [->|N].
    + rewrite lookup_insert_eq. by intros [= <-].
    + rewrite lookup_insert_ne by done. apply B.
Qed.

(** What the slice keeps beside the tabs. *)
Lemma sim_same s b s' b' :
  simulates s b -> currentUrl s' = shown b' -> currentMiniAppId s' = app b' ->
  miniAppSessions s' = miniAppSessions s -> tabs b' = tabs b -> simulates s' b'.
Proof. intros [U A T B] Eu Ea Es Et. split; [done | done | by rewrite Es, Et | by rewrite Et]. Qed.

Section Refinement.
Context (omit : record MiniAppSession -> string -> record MiniAppSession).
(** The key of a property is not read as a path. *)
Context (omit_key : forall m k k', is_Some (lookup_prop k m) ->
  lookup_prop k' (omit m k) = if decide (k' = k) then None else lookup_prop k' m).

Lemma step_simulates s b act :
  simulates s b -> simulates (browser_reduce omit s act) (tabs_step b act).
Proof using omit_key.
  intros Hs. pose proof (current_sim s b Hs) as C. pose proof (tab_of_ok s b) as K.
  destruct act as [url | a url | | | | url | url | | | | | | | | ]; cbn [browser_reduce tabs_step].
  - by apply (sim_same s b); [|..|by destruct Hs| |].
  - unfold openMiniAppSession. rewrite (sim_tabs s b Hs).
    set (t := default (mkTab [] url []) (tabs b !! a)).
    replace (default _ _) with (session_of a t) by (unfold t; by destruct (tabs b !! a)).
    rewrite item_session. assert (tab_ok t).
    { unfold t. destruct (tabs b !! a) eqn:E; [by apply (sim_bound s b Hs a)|].
      unfold tab_ok, MAX_TAB_HISTORY_LENGTH. simpl. lia. }
    apply (sim_show (s <| currentMiniAppId := Some a |>)); try done.
    by apply (sim_same s b); [| apply Hs |..].
  - unfold goBackInHistory. rewrite C. destruct (tab_of b) as [[a t]|] eqn:Et; [|done].
    cbn [fmap option_fmap option_map fst snd]. specialize (K a t Hs eq_refl).
    destruct t as [[|p ps] q qs]; [done|]. cbn [session_of historyIndex behind].
    rewrite (proj2 (Z.ltb_lt _ _)) by (simpl; lia).
    pose (t' := mkTab ps p (q :: qs)).
    assert (P : pages t' = pages (mkTab (p :: ps) q qs))
      by (unfold pages; cbn [t' behind page ahead]; by rewrite reverse_cons, <- app_assoc).
    unfold move_to.
    rewrite (session_of_moved a (mkTab (p :: ps) q qs) _ t') by (done || cbn; lia).
    apply (sim_show s); [done | by apply (tab_ok_pages _ t' P) | | apply Hs | done].
    pose proof (item_session a t') as I. cbn in I |- *. rewrite <- P.
    rewrite <- I. f_equal. lia.
  - unfold goForwardInHistory. rewrite C. destruct (tab_of b) as [[a t]|] eqn:Et; [|done].
    cbn [fmap option_fmap option_map fst snd]. specialize (K a t Hs eq_refl).
    destruct t as [ps p [|q qs]]; cbn [session_of historyIndex history behind];
      rewrite length_fmap, length_pages; cbn [behind ahead length].
    { by rewrite (proj2 (Z.ltb_ge _ _)) by lia. }
    rewrite (proj2 (Z.ltb_lt _ _)) by lia.
    pose (t' := mkTab (p :: ps) q qs).
    assert (P : pages t' = pages (mkTab ps p (q :: qs)))
      by (unfold pages; cbn [t' behind page ahead]; by rewrite reverse_cons, <- app_assoc).
    unfold move_to.
    rewrite (session_of_moved a (mkTab ps p (q :: qs)) _ t') by (done || cbn; lia).
    apply (sim_show s); [done | by apply (tab_ok_pages _ t' P) | | apply Hs | done].
    pose proof (item_session a t') as I. cbn in I |- *. rewrite <- P.
    rewrite <- I. f_equal. lia.
  - unfold commitUrlToHistory. rewrite C, (sim_shown s b Hs).
    destruct (tab_of b) as [[a t]|] eqn:Et; [|by destruct (shown b) as [[]|]].
    cbn [fmap option_fmap option_map fst snd]. destruct (shown b) as [[|c u]|] eqn:Eu; [done | | done].
    rewrite page_index_session, item_session. destruct (decide (page t = String c u)) as [E|N].
    { by rewrite decide_True by congruence. }
    rewrite decide_False by congruence. unfold push_page. cbv zeta. rewrite session_of_visited.
    apply (sim_show s); [done | apply visit_ok | | apply Hs | done].
    cbn. by rewrite (sim_shown s b Hs).
  - unfold goToPage. rewrite C. destruct (tab_of b) as [[a t]|] eqn:Et; [|done].
    cbn [fmap option_fmap option_map fst snd]. rewrite page_index_session, item_session.
    destruct (decide (page t = url)) as [E|N]; [by rewrite decide_True by congruence|].
    rewrite decide_False by congruence. unfold push_page. cbv zeta. rewrite session_of_visited.
    apply (sim_show s); [done | apply visit_ok | done | apply Hs | done].
  - unfold replaceCurrentPage. rewrite C. destruct (tab_of b) as [[a t]|] eqn:Et; [|done].
    cbn [fmap option_fmap option_map fst snd]. rewrite session_of_replaced.
    specialize (K a t Hs eq_refl).
    apply (sim_show s); [done | | done | apply Hs | done].
    unfold tab_ok in *. by rewrite length_pages in *.
  - unfold clearMiniAppHistory. rewrite C. destruct (tab_of b) as [[a t]|] eqn:Et; [|done].
    cbn [fmap option_fmap option_map fst snd session_of miniAppId].
    assert (Ht : tabs b !! a = Some t).
    { unfold tab_of in Et. destruct (app b) as [[|c a']|]; try done.
      destruct (tabs b !! _) eqn:E; [|done]. by injection Et as <- <-. }
    destruct Hs as [U A T B]. split; [done | done | |]; cbn.
    + intros a'. rewrite omit_key by (rewrite T, Ht; by eexists).
      destruct (decide (a' = a)) as [->|N]; [by rewrite lookup_delete_eq|].
      by rewrite lookup_delete_ne, T by done.
    + intros a' t' [_ H]%lookup_delete_Some. by apply (B a').
  - destruct Hs as [U A T B]. split; cbn; [done | done | done |].
    intros a' t'. by rewrite lookup_empty.
  - by apply (sim_same s b).
  - by apply (sim_same s b); [|apply Hs..| |].
  - by apply (sim_same s b); [|apply Hs..| |].
  - by apply (sim_same s b); [|apply Hs..| |].
  - by apply (sim_same s b); [|apply Hs..| |].
  - by apply (sim_same s b); [|apply Hs..| |].
Qed.

Lemma run_simulates l : simulates (browser_run omit l) (tabs_run l).
Proof using omit_key.
  unfold browser_run, tabs_run.
  assert (H : simulates browser_initialState (mkTabs None None ∅)).
  { split; [done | done | done |]. intros a t. cbn. by rewrite lookup_empty. }
  revert H. generalize browser_initialState, (mkTabs None None ∅).
  induction l as [|act l IH]; intros s b H; [done|]. by apply IH, step_simulates.
Qed.

(** C36: the browser of mini apps behaves as a browser of tabs.  After any
    actions, the url and the app on screen are those of [tabs_run], and each
    session is the one that represents the tab of its app: the pages behind it,
    its page and the pages ahead, in order, with the index at the page.  A
    session holds ten pages at most, and the buttons back and forward are enabled
    exactly when the tab on screen has a page to go to. *)
Theorem browser_refines l :
  let s := browser_run omit l in
  let b := tabs_run l in
  currentUrl s = shown b /\ currentMiniAppId s = app b /\
  (forall a, lookup_prop a (miniAppSessions s) = session_of a <$> tabs b !! a) /\
  (forall a session, lookup_prop a (miniAppSessions s) = Some session ->
     length (history session) <= MAX_TAB_HISTORY_LENGTH /\
     is_Some (item (history session) (historyIndex session))) /\
  (selectCanGoBack s = true <-> exists a t, tab_of b = Some (a, t) /\ behind t <> []) /\
  (selectCanGoForward s = true <-> exists a t, tab_of b = Some (a, t) /\ ahead t <> []).
Proof using omit_key.
  cbv zeta. pose proof (run_simulates l) as H. pose proof (current_sim _ _ H) as C.
  split; [apply H|]. split; [apply H|]. split; [apply H|]. split; [|split].
  - intros a session. rewrite (sim_tabs _ _ H). intros (t & Ht & ->)%fmap_Some.
    rewrite item_session. split; [|by eexists]. cbn [session_of history].
    rewrite length_fmap. by apply (sim_bound _ _ H a).
  - unfold selectCanGoBack. rewrite C. destruct (tab_of _) as [[a [ps q qs]]|]; cbn.
    + rewrite Z.ltb_lt. split.
      * intros L. exists a, (mkTab ps q qs). split; [done|]. by destruct ps; [simpl in L; lia|].
      * intros (a' & t & [= <- <-] & N). by destruct ps; [|simpl; lia].
    + split; [done|]. by intros (a & t & E & _).
  - unfold selectCanGoForward. rewrite C. destruct (tab_of _) as [[a [ps q qs]]|]; cbn.
    + rewrite length_fmap, length_pages, Z.ltb_lt. cbn [behind ahead]. split.
      * intros L. exists a, (mkTab ps q qs). split; [done|]. by destruct qs; [simpl in L; lia|].
      * intros (a' & t & [= <- <-] & N). by destruct qs; [|simpl; lia].
    + split; [done|]. by intros (a & t & E & _).
Qed.
End Refinement.

(** ** A concrete run

    Twelve pages, two steps back, and a page in place of another. *)
Definition omit_prop (m : record MiniAppSession) (k : string) : record MiniAppSession :=
  remove_key k m.

Definition demo_visits : list browser_action :=
  [OpenMiniAppSession "shop" "u0"] ++
  ((fun i => GoToPage ("u" +:+ int_string (Z.of_nat i))) <$> seq 1 11) ++
  [GoBackInHistory; GoBackInHistory; ReplaceCurrentPage "cart"; OpenMiniAppSession "mail" "m";
   ClearMiniAppHistory; OpenMiniAppSession "shop" "u0"].

Lemma omit_prop_key m k k' : is_Some (lookup_prop k m) ->
  lookup_prop k' (omit_prop m k) = if decide (k' = k) then None else lookup_prop k' m.
Proof.
  intros _. unfold omit_prop, remove_key. induction m as [|[k2 v] m IH]; [by case_decide|].
  rewrite filter_cons. cbn [fst lookup_prop]. destruct (decide (k2 <> k)) as [N|E].
  - cbn [lookup_prop]. rewrite IH. repeat case_decide; congruence.
  - rewrite IH. repeat case_decide; try done. exfalso. apply E. congruence.
Qed.

Lemma browser_refines_witness :
  currentUrl (browser_run omit_prop demo_visits) = Some "cart" /\
  lookup_prop "mail" (miniAppSessions (browser_run omit_prop demo_visits)) = None /\
  (fun s => length (history s)) <$>
    lookup_prop "shop" (miniAppSessions (browser_run omit_prop demo_visits)) = Some 10 /\
  selectCanGoForward (browser_run omit_prop demo_visits) = true.
Proof.
  destruct (browser_refines omit_prop omit_prop_key demo_visits) as (U & _ & S & _ & _ & F).
  rewrite U, !S. split; [vm_compute; reflexivity|]. split; [vm_compute; reflexivity|].
  split; [vm_compute; reflexivity|].
  apply F. eexists _, _. split; [vm_compute; reflexivity | discriminate].
Defined.
