(* ===== verification/Environment.v ===== *)
(** The environment of the app: [ui/common/redux/environment.ts] and the
    comparison of releases of [utils/release.ts].

    Settings of the user and of the developer, what the device reported, and the
    start of the app ([refreshOnboardingStatus]), which is a program of calls to
    the bridge and of actions dispatched. *)
From Stdlib Require Import ZArith Lia Ascii.
From stdpp Require Import base tactics strings list option.
From S2P Require Import Prelude JsNum Js JsStr Effects.
Local Open Scope string_scope.
Local Open Scope list_scope.

(** ** Reading a document whose fields have declared types *)

Definition as_bool (v : jval) : bool := match v with JBool b => b | _ => false end.
Definition as_str (v : jval) : option string := match v with JStr s => Some s | _ => None end.
Definition as_num (v : jval) : num := match v with JNum n => n | _ => NaN end.
Definition of_str (o : option string) : jval := match o with Some s => JStr s | None => JNull end.
(** The same for a field that is [undefined] when there is no value. *)
Definition of_ustr (o : option string) : jval := match o with Some s => JStr s | None => JUndef end.

(** ** The state *)

Record EnvironmentState := mkEnvironment {
  isInternetUnreachable : bool;
  developerMode : bool;
  fedimodDebugMode : bool;
  fedimodCacheEnabled : bool;
  fedimodShowClearCacheButton : bool;
  fedimodCacheMode : string;
  onchainDepositsEnabled : bool;
  stableBalanceEnabled : bool;
  language : option string;
  amountInputType : option string;
  transactionDisplayType : string;
  deviceId : option string;
  nostrNpub : jval;
  nostrNsec : jval;
  fedimintVersion : option string;
  pwaVersion : option string;
  featureFlags : option obj;
  internetUnreachableBadgeShown : bool;
  onboardingCompleted : bool;
  onboardingMethod : option string;
  appFlavor : option string;
  sessionCount : num;
  redirectTo : option string;
  eventListenersReady : bool;
  lastUsedTab : string;
  paymentType : string;
  latestAwareReleaseTag : option string;
  versionTag : option string;
  shouldRequestAppUpdate : bool;
  platform : option string
}.

#[export] Instance EnvironmentState_eta : Eta EnvironmentState := fun s =>
  mkEnvironment (isInternetUnreachable s) (developerMode s) (fedimodDebugMode s)
    (fedimodCacheEnabled s) (fedimodShowClearCacheButton s) (fedimodCacheMode s)
    (onchainDepositsEnabled s) (stableBalanceEnabled s) (language s) (amountInputType s)
    (transactionDisplayType s) (deviceId s) (nostrNpub s) (nostrNsec s) (fedimintVersion s)
    (pwaVersion s) (featureFlags s) (internetUnreachableBadgeShown s) (onboardingCompleted s)
    (onboardingMethod s) (appFlavor s) (sessionCount s) (redirectTo s) (eventListenersReady s)
    (lastUsedTab s) (paymentType s) (latestAwareReleaseTag s) (versionTag s)
    (shouldRequestAppUpdate s) (platform s).

Definition environment_initialState : EnvironmentState :=
  mkEnvironment false false false true false "LOAD_DEFAULT" false false None None "fiat" None
    JUndef JUndef None None None false false None None (of_Z 0) None false "wallets" "bitcoin"
    None None false None.

(** ** Reducers *)

Inductive environment_action : Type :=
  | SetIsInternetUnreachable (b : bool)
  | SetDeveloperMode (b : bool)
  | SetFediModDebugMode (b : bool)
  | SetFediModCacheEnabled (b : bool)
  | SetFediModShowClearCacheButton (b : bool)
  | SetFediModCacheMode (m : string)
  | SetAmountInputType (t : option string)
  | SetOnchainDepositsEnabled (b : bool)
  | SetStableBalanceEnabled (b : bool)
  | SetDeviceId (id : string)
  | SetNostrNpub (k : jval)
  | SetNostrNsec (k : jval)
  | SetFedimintVersion (v : string)
  | SetPwaVersion (v : string)
  | SetFeatureFlags (flags : obj)
  | SetInternetUnreachableBadgeVisibility (b : bool)
  | SetOnboardingCompleted (b : bool)
  | SetOnboardingMethod (m : option string)
  | SetAppFlavor (f : string)
  | ClearSessionCount
  | SetRedirectTo (r : option string)
  | SetTransactionDisplayType (t : string)
  | SetEventListenersReady (b : bool)
  | SetLastUsedTab (t : string)
  | SetPaymentType (t : string)
  | SetLatestAwareReleaseTag (t : option string)
  | SetVersionTag (t : option string)
  | SetShouldRequestAppUpdate (b : bool)
  | SetPlatform (p : string)
  | LanguageChanged (l : string)
  | Environment_LoadFromStorage (payload : option obj).

(** [if (payload.k) state.f = payload.k] for a flag *)
Definition load_flag (payload : obj) (k : string) (current : bool) : bool :=
  if truthy (get k payload) then as_bool (get k payload) else current.

Definition load_optional (payload : obj) (k : string) (current : option string) : option string :=
  if truthy (get k payload) then as_str (get k payload) else current.

(** [if (payload.k !== undefined) state.f = payload.k] *)
Definition load_defined {A} (payload : obj) (k : string) (f : jval -> A) (current : A) : A :=
  match get k payload with JUndef => current | v => f v end.

Definition environment_loadFromStorage (payload : option obj) (s : EnvironmentState)
    : EnvironmentState :=
  match payload with
  | None => s
  | Some p =>
      s <| language := as_str (get "language" p) |>
        <| amountInputType := load_optional p "amountInputType" (amountInputType s) |>
        <| onchainDepositsEnabled :=
             load_flag p "onchainDepositsEnabled" (onchainDepositsEnabled s) |>
        <| stableBalanceEnabled := load_flag p "stableBalanceEnabled" (stableBalanceEnabled s) |>
        <| developerMode := load_flag p "developerMode" (developerMode s) |>
        <| transactionDisplayType :=
             default "" (load_optional p "transactionDisplayType"
                           (Some (transactionDisplayType s))) |>
        <| deviceId := load_defined p "deviceId" as_str (deviceId s) |>
        <| sessionCount :=
             load_defined p "sessionCount" (fun v => add (as_num v) (of_Z 1)) (sessionCount s) |>
        <| lastUsedTab :=
             load_defined p "lastUsedTab" (fun v => default "" (as_str v)) (lastUsedTab s) |>
        <| paymentType :=
             load_defined p "paymentType" (fun v => default "" (as_str v)) (paymentType s) |>
        <| latestAwareReleaseTag :=
             load_defined p "latestAwareReleaseTag" as_str (latestAwareReleaseTag s) |>
  end.

(** [environmentSlice.reducer] *)
Definition environment_reduce (s : EnvironmentState) (a : environment_action) : EnvironmentState :=
  match a with
  | SetIsInternetUnreachable b => s <| isInternetUnreachable := b |>
  | SetDeveloperMode b => s <| developerMode := b |>
  | SetFediModDebugMode b => s <| fedimodDebugMode := b |>
  | SetFediModCacheEnabled b => s <| fedimodCacheEnabled := b |>
  | SetFediModShowClearCacheButton b => s <| fedimodShowClearCacheButton := b |>
  | SetFediModCacheMode m => s <| fedimodCacheMode := m |>
  | SetAmountInputType t => s <| amountInputType := t |>
  | SetOnchainDepositsEnabled b => s <| onchainDepositsEnabled := b |>
  | SetStableBalanceEnabled b => s <| stableBalanceEnabled := b |>
  | SetDeviceId id => s <| deviceId := Some id |>
  | SetNostrNpub k => s <| nostrNpub := k |>
  | SetNostrNsec k => s <| nostrNsec := k |>
  | SetFedimintVersion v => s <| fedimintVersion := Some v |>
  | SetPwaVersion v => s <| pwaVersion := Some v |>
  | SetFeatureFlags flags => s <| featureFlags := Some flags |>
  | SetInternetUnreachableBadgeVisibility b =>
      let s := s <| internetUnreachableBadgeShown := b |> in
      if b then s <| internetUnreachableBadgeShown := true |> else s
  | SetOnboardingCompleted b => s <| onboardingCompleted := b |>
  | SetOnboardingMethod m => s <| onboardingMethod := m |>
  | SetAppFlavor f => s <| appFlavor := Some f |>
  | ClearSessionCount => s <| sessionCount := of_Z 0 |>
  | SetRedirectTo r => s <| redirectTo := r |>
  | SetTransactionDisplayType t => s <| transactionDisplayType := t |>
  | SetEventListenersReady b => s <| eventListenersReady := b |>
  | SetLastUsedTab t => s <| lastUsedTab := t |>
  | SetPaymentType t => s <| paymentType := t |>
  | SetLatestAwareReleaseTag t => s <| latestAwareReleaseTag := t |>
  | SetVersionTag t => s <| versionTag := t |>
  | SetShouldRequestAppUpdate b => s <| shouldRequestAppUpdate := b |>
  | SetPlatform p => s <| platform := Some p |>
  | LanguageChanged l => s <| language := Some l |>
  | Environment_LoadFromStorage p => environment_loadFromStorage p s
  end.

(** ** Selectors *)

(** [s.environment.featureFlags?.[featureFlag]] *)
Definition selectFeatureFlag (s : EnvironmentState) (featureFlag : string) : jval :=
  match featureFlags s with Some flags => get featureFlag flags | None => JUndef end.

Definition selectMessageReactionsEnabled (s : EnvironmentState) : bool :=
  truthy (selectFeatureFlag s "message_reactions").

Definition selectIsNostrClientEnabled (s : EnvironmentState) : bool :=
  match opt_prop (selectFeatureFlag s "nostr_client") "relays" with JArr _ => true | _ => false end.

Definition shouldShowRearrangeMiniapps (s : EnvironmentState) : bool :=
  truthy (selectFeatureFlag s "rearrange_miniapps").

(** ** Releases *)

(** [s.split('.')] *)
Fixpoint split_dots (s : string) : list string :=
  match s with
  | EmptyString => [""]
  | String c s =>
      if decide (c = "."%char) then "" :: split_dots s
      else match split_dots s with
           | w :: ws => String c w :: ws
           | [] => [String c ""]
           end
  end.

Definition is_digit (c : ascii) : bool := (48 <=? code c)%Z && (code c <=? 57)%Z.

(** Whether a string begins with [n] numbers joined by dots, of which the first
    has digits already when [started]. *)
Fixpoint numbers_ahead (n : nat) (started : bool) (s : string) : bool :=
  match n, s with
  | 0, _ => true
  | S 0, EmptyString => started
  | _, EmptyString => false
  | S n', String c s =>
      if is_digit c then numbers_ahead n true s
      else started && (bool_decide (n' = 0) ||
        (bool_decide (c = "."%char) && numbers_ahead n' false s))
  end.

(** [/[0-9]+\.[0-9]+\.[0-9]+/.test(s)] *)
Fixpoint has_numbers (s : string) : bool :=
  numbers_ahead 3 false s || match s with EmptyString => false | String _ s => has_numbers s end.

Definition parseReleaseTag (releaseTag : string) : option (num * num * num) :=
  if has_numbers releaseTag then
    match to_number <$> split_dots releaseTag with
    | major :: minor :: patch :: _ => Some (major, minor, patch)
    | _ => None
    end
  else None.

Section Build.
(** [isDevOrExperimental], a constant of the build. *)
Context (isDevOrExperimental : bool).

Definition hasNewRelease (currentTag newTag : string) : bool :=
  match parseReleaseTag currentTag, parseReleaseTag newTag with
  | Some (major, minor, patch), Some (major', minor', patch') =>
      ltb major major' ||
      (leb major major' && ltb minor minor') ||
      (isDevOrExperimental && leb major major' && leb minor minor' && ltb patch patch')
  | _, _ => false
  end.

Definition selectShouldPresentAppUpdate (s : EnvironmentState) : bool :=
  match versionTag s, latestAwareReleaseTag s with
  | None, _ | Some "", _ | _, None | _, Some "" => false
  | Some current, Some latest => hasNewRelease current latest
  end.

(** ** Thunks *)

(** [refreshAppVersion], up to its request: what it asks, and the tag the app
    knew then.  Nothing is asked without the feature. *)
Inductive release_request : Type := lookupIosAppMetadata | fetchGithubRelease.

Definition refreshAppVersion_request (s : EnvironmentState)
    : option (release_request * option string) :=
  if truthy (selectFeatureFlag s "update_screen") then
    Some (if decide (platform s = Some "ios") then lookupIosAppMetadata else fetchGithubRelease,
          latestAwareReleaseTag s)
  else None.

(** What it dispatches once it is answered; a failure is logged. *)
Definition refreshAppVersion_answer (currentReleaseTag : option string) (answer : result string)
    (s : EnvironmentState) : EnvironmentState :=
  match answer with
  | Throw _ => s
  | Ok releaseTag =>
      let s := environment_reduce s (SetLatestAwareReleaseTag (Some releaseTag)) in
      match currentReleaseTag with
      | Some current =>
          if hasNewRelease current releaseTag
          then environment_reduce s (SetShouldRequestAppUpdate true) else s
      | None => s
      end
  end.
End Build.

Definition initializeDeviceIdWeb (id : string) (s : EnvironmentState) : EnvironmentState * string :=
  match deviceId s with
  | None | Some "" => (environment_reduce s (SetDeviceId id), id)
  | Some cached => (s, cached)
  end.

(** A thunk that dispatches records the action among its calls.  [dispatch] does
    not wait for what it starts, [dispatch_settled] waits for it and ignores its
    failure, [dispatch_unwrap] throws when it failed. *)
Definition dispatch (action : string) (args : list jval) : thunk unit := fun _ h =>
  (h ++ [mkCall action args], Ok tt).
Definition dispatch_unwrap (action : string) (args : list jval) : thunk unit :=
  _ ← rpc action args; mret tt.
Definition dispatch_settled (action : string) (args : list jval) : thunk unit :=
  t_catch (dispatch_unwrap action args) (fun _ => mret tt).

(** [await Promise.all(l)] *)
Definition t_all (l : list (thunk unit)) : thunk unit :=
  rs ← t_allSettled l; t_ret (mapM_res id rs ≫= fun _ => Ok tt).

Definition initializeNostrKeys (forceRefresh : bool) (s : EnvironmentState) : thunk unit :=
  if negb forceRefresh && truthy (nostrNpub s) then mret tt
  else npub ← rpc "getNostrPubkey" []; _ ← dispatch "setNostrNpub" [npub];
       nsec ← rpc "getNostrSecret" []; dispatch "setNostrNsec" [nsec].

Definition initializeFedimintVersion : thunk unit :=
  version ← rpc "fedimintVersion" []; dispatch "setFedimintVersion" [version].

Definition initializeFeatureFlags : thunk unit :=
  features ← rpc "getFeatureCatalog" []; dispatch "setFeatureFlags" [features].

(** The dispatched thunks settle: a failure of one does not make it throw. *)
Definition getBridgeInfo : thunk unit :=
  t_all [dispatch_settled "initializeFeatureFlags" []; dispatch_settled "initializeFedimintVersion" [];
         dispatch_settled "initializeNostrKeys" []].

(** [refreshOnboardingStatus] *)
Section Onboarding.
Context (now : num).

Definition offboarding (status : jval) : thunk unit :=
  reason ← t_ret (prop status "reason"); type ← t_ret (prop reason "type");
  if decide (type = JStr "deviceIdentifierMismatch") then
    dispatch "setShouldMigrateSeed" [JBool true]
  else if decide (type = JStr "internalBridgeExport") then
    dispatch "setShouldMigrateSeed" [JBool true]
  else if decide (type = JStr "deviceIndexConflict") then
    dispatch "setShouldLockDevice" [JBool true]
  else mret tt.

Definition onboarded (status : jval) : thunk unit :=
  _ ← dispatch "startMatrixClient" [];
  _ ← dispatch_settled "getBridgeInfo" [];
  _ ← t_all [dispatch_unwrap "refreshFederations" []; dispatch_unwrap "refreshCommunities" [];
             dispatch_unwrap "refreshAppVersion" []];
  _ ← dispatch "checkJoinedFederationsForAutojoinCommunities" [];
  method ← t_ret (prop status "onboarding_method");
  _ ← dispatch "setOnboardingMethod" [method];
  _ ← dispatch "setOnboardingCompleted" [JBool true];
  _ ← dispatch "refreshHistoricalCurrencyRates" [];
  dispatch "checkSurveyCondition" [].

Definition onboarding (status : jval) : thunk unit :=
  _ ← dispatch "setSurveyTimestamp" [JNum now];
  stage ← t_ret (prop status "stage"); type ← t_ret (prop stage "type");
  if decide (type = JStr "deviceIndexSelection") then
    dispatch_settled "initializeDeviceRegistration" []
  else if decide (type = JStr "socialRecovery") then dispatch "fetchSocialRecovery" []
  else if decide (type = JStr "init") then dispatch "setOnboardingCompleted" [JBool false]
  else t_throw "Unknown onboarding stage".

Definition refreshOnboardingStatus : thunk unit :=
  status ← rpc "bridgeStatus" [];
  type ← t_ret (prop status "type");
  if decide (type = JStr "offboarding") then offboarding status
  else
    _ ← (if decide (type = JStr "onboarded") then onboarded status
         else if decide (type = JStr "onboarding") then onboarding status
         else t_throw "Unknown bridge status type");
    dispatch "preloadFederationLists" [].
End Onboarding.

(** ** Releases are ordered *)

Definition release_tag (major minor patch : string) : string :=
  major +:+ "." +:+ minor +:+ "." +:+ patch.

(** A numeral and its value. *)
Definition numeral (s : string) (n : Z) : Prop :=
  s <> "" /\ Forall (fun c => is_digit c = true) (chars s) /\ safe n /\
  (take_digits 10 0 0 (chars s)).1.1 = n.

Lemma is_digit_dot : is_digit "."%char = false.
Proof. reflexivity. Qed.

Lemma split_dots_numeral s t :
  Forall (fun c => is_digit c = true) (chars s) -> split_dots (s +:+ "." +:+ t) = s :: split_dots t.
Proof.
  unfold chars. induction s as [|c s IH]; cbn [String.list_ascii_of_string]; intros H; [done|].
  apply list.Forall_cons in H as [Hc H].
  change (split_dots (String c s +:+ "." +:+ t)) with (split_dots (String c (s +:+ "." +:+ t))).
  cbn [split_dots]. rewrite IH by done. rewrite decide_False; [done|].
  intros ->. by rewrite is_digit_dot in Hc.
Qed.

Lemma split_dots_last s :
  Forall (fun c => is_digit c = true) (chars s) -> split_dots s = [s].
Proof.
  unfold chars. induction s as [|c s IH]; cbn [String.list_ascii_of_string]; intros H; [done|].
  apply list.Forall_cons in H as [Hc H]. cbn [split_dots]. rewrite IH by done.
  rewrite decide_False; [done|]. intros ->. by rewrite is_digit_dot in Hc.
Qed.

Lemma numbers_ahead_numeral n b s t :
  Forall (fun c => is_digit c = true) (chars s) ->
  numbers_ahead (S n) b (s +:+ t) = numbers_ahead (S n) (b || negb (bool_decide (s = ""))) t.
Proof.
  unfold chars. revert b. induction s as [|c s IH]; intros b H; cbn [String.list_ascii_of_string] in H.
  { by rewrite bool_decide_true, orb_false_r. }
  apply list.Forall_cons in H as [Hc H].
  change (numbers_ahead (S n) b (String c s +:+ t)) with (numbers_ahead (S n) b (String c (s +:+ t))).
  cbn [numbers_ahead]. rewrite Hc.
  replace (match n with 0 | _ => numbers_ahead (S n) true (s +:+ t) end)
    with (numbers_ahead (S n) true (s +:+ t)) by (by destruct n).
  rewrite IH by done. rewrite orb_true_l. by rewrite bool_decide_false, orb_true_r by done.
Qed.

Lemma digit_value_digit c : is_digit c = true -> exists d, digit_value 10 c = Some d.
Proof.
  unfold is_digit, digit_value. intros H. cbv zeta. rewrite H. bools.
  rewrite (proj2 (Z.ltb_lt _ _)) by lia. eauto.
Qed.

Lemma take_digits_all acc cnt l :
  Forall (fun c => is_digit c = true) l ->
  exists n, take_digits 10 acc cnt l = (n, (cnt + Z.of_nat (length l))%Z, []).
Proof.
  intros H. revert acc cnt. induction H as [|c l Hc H IH]; intros acc cnt.
  { exists acc. cbn. by rewrite Z.add_0_r. }
  cbn [take_digits]. destruct (digit_value_digit c Hc) as [d ->].
  destruct (IH (acc * 10 + d)%Z (cnt + 1)%Z) as [n ->]. exists n. f_equal. f_equal. simpl. lia.
Qed.

Lemma digit_code c : is_digit c = true -> (48 <= code c <= 57)%Z.
Proof. unfold is_digit. intros H. bools. lia. Qed.

Lemma not_space c : is_digit c = true -> is_space c = false.
Proof.
  intros H%digit_code. unfold is_space. apply not_true_iff_false.
  rewrite !orb_true_iff, andb_true_iff, !Z.leb_le, !Z.eqb_eq. lia.
Qed.

Lemma trim_start_digits l : Forall (fun c => is_digit c = true) l -> trim_start l = l.
Proof. intros [|c l' H _]; [done|]. cbn. by rewrite not_space. Qed.

Lemma trim_digits l : Forall (fun c => is_digit c = true) l -> trim l = l.
Proof.
  intros H. unfold trim. rewrite (trim_start_digits l) by done.
  rewrite trim_start_digits; [apply rev_involutive|].
  by apply List.Forall_rev.
Qed.

Lemma unsigned_digits l n :
  l <> [] -> Forall (fun c => is_digit c = true) l -> (take_digits 10 0 0 l).1.1 = n ->
  unsigned l = Some (of_Z n).
Proof.
  intros N H E. unfold unsigned. rewrite decide_False.
  2: { intros ->. by apply list.Forall_cons in H as [H _]. }
  unfold decimal. destruct (take_digits_all 0 0 l H) as [m Em]. rewrite Em in E |- *.
  cbn in E. subst m. destruct l as [|c l]; [done|].
  rewrite (proj2 (Z.eqb_neq _ _)) by (simpl; lia). cbn. unfold scale10. cbn.
  by rewrite Z.mul_1_r.
Qed.

Lemma signed_digits l n :
  l <> [] -> Forall (fun c => is_digit c = true) l -> (take_digits 10 0 0 l).1.1 = n ->
  signed l = of_Z n.
Proof.
  intros N H E. pose proof (unsigned_digits l n N H E) as U. unfold signed.
  destruct l as [|c l]; [done|]. apply list.Forall_cons in H as [Hc%digit_code H].
  rewrite !(proj2 (Z.eqb_neq _ _)) by lia. by rewrite U.
Qed.

Lemma to_number_numeral s n : numeral s n -> to_number s = of_Z n.
Proof.
  intros (N & H & S & E). unfold to_number. rewrite trim_digits by done.
  assert (N' : chars s <> []) by (by destruct s).
  pose proof (signed_digits _ n N' H E) as R. unfold chars in *.
  destruct (String.list_ascii_of_string s) as [|z [|x l]] eqn:El; [done | done |].
  apply list.Forall_cons in H as [Hz H]. apply list.Forall_cons in H as [Hx%digit_code H].
  destruct (code z =? 48)%Z; [|done].
  by rewrite !(proj2 (Z.eqb_neq _ _)) by lia.
Qed.

Lemma parse_release_tag ma mi pa a b c :
  numeral ma a -> numeral mi b -> numeral pa c ->
  parseReleaseTag (release_tag ma mi pa) = Some (of_Z a, of_Z b, of_Z c).
Proof.
  intros Ha Hb Hc. unfold parseReleaseTag, release_tag.
  assert (T : has_numbers (ma +:+ "." +:+ mi +:+ "." +:+ pa) = true).
  { destruct Ha as (Na & Fa & _), Hb as (Nb & Fb & _), Hc as (Nc & Fc & _).
    assert (A : numbers_ahead 3 false (ma +:+ "." +:+ mi +:+ "." +:+ pa) = true).
    { rewrite (numbers_ahead_numeral _ _ ma), bool_decide_false by done.
      change (numbers_ahead 2 false (mi +:+ "." +:+ pa) = true).
      rewrite (numbers_ahead_numeral _ _ mi), bool_decide_false by done.
      change (numbers_ahead 1 false pa = true).
      rewrite <- (str_app_nil_r pa), (numbers_ahead_numeral _ _ pa) by done.
      by rewrite bool_decide_false. }
    destruct (ma +:+ _); cbn [has_numbers]; by rewrite A. }
  rewrite T, !split_dots_numeral by apply Ha || apply Hb.
  rewrite split_dots_last by apply Hc. cbn.
  by rewrite (to_number_numeral ma a), (to_number_numeral mi b), (to_number_numeral pa c).
Qed.

(** an update is announced exactly when the new release comes after the
    current one: tags are compared by their major number, then by their minor
    number, and then, in builds for development, by their patch number. *)
Theorem new_releases dev ma mi pa a b c ma' mi' pa' a' b' c' :
  numeral ma a -> numeral mi b -> numeral pa c ->
  numeral ma' a' -> numeral mi' b' -> numeral pa' c' ->
  hasNewRelease dev (release_tag ma mi pa) (release_tag ma' mi' pa') =
  bool_decide (a < a' \/ a = a' /\ (b < b' \/ b = b' /\ dev = true /\ c < c'))%Z.
Proof.
  intros Ha Hb Hc Ha' Hb' Hc'. unfold hasNewRelease.
  rewrite (parse_release_tag _ _ _ _ _ _ Ha Hb Hc), (parse_release_tag _ _ _ _ _ _ Ha' Hb' Hc').
  destruct Ha as (_ & _ & Sa & _), Hb as (_ & _ & Sb & _), Hc as (_ & _ & Sc & _).
  destruct Ha' as (_ & _ & Sa' & _), Hb' as (_ & _ & Sb' & _), Hc' as (_ & _ & Sc' & _).
  rewrite !ltb_int, !leb_int by done. apply eq_iff_eq_true.
  rewrite bool_decide_eq_true, !orb_true_iff, !andb_true_iff, !Z.ltb_lt, !Z.leb_le.
  destruct dev; intuition (discriminate || lia).
Qed.

Lemma new_releases_witness :
  hasNewRelease false (release_tag "25" "4" "0") (release_tag "26" "0" "9") = true /\
  hasNewRelease false (release_tag "25" "10" "0") (release_tag "25" "9" "0") = false.
Proof.
  assert (N : forall s n, bool_decide (s <> "" /\ (take_digits 10 0 0 (chars s)).1.1 = n) = true ->
    forallb is_digit (chars s) = true -> (Z.abs n <=? 2 ^ 53)%Z = true -> numeral s n).
  { intros s n [N E]%bool_decide_eq_true F S%Z.leb_le. split_and!; [done | | done | done].
    apply list.Forall_forall. intros c Hc. apply (proj1 (forallb_forall _ _) F), list_elem_of_In, Hc. }
  split.
  - rewrite (new_releases false _ _ _ 25 4 0 _ _ _ 26 0 9) by (apply N; reflexivity). reflexivity.
  - rewrite (new_releases false _ _ _ 25 10 0 _ _ _ 25 9 0) by (apply N; reflexivity). reflexivity.
Defined.

(** ** Opening the app *)

Definition opened : call := mkCall "setOnboardingCompleted" [JBool true].
Definition locked : call := mkCall "setShouldLockDevice" [JBool true].
Definition migrating : call := mkCall "setShouldMigrateSeed" [JBool true].

(** The calls of a user who is onboarded, until the lists are there. *)
Definition opening : list call :=
  [mkCall "bridgeStatus" []; mkCall "startMatrixClient" []; mkCall "getBridgeInfo" [];
   mkCall "refreshFederations" []; mkCall "refreshCommunities" []; mkCall "refreshAppVersion" []].

(** Whether the bridge answered the [i]-th of them. *)
Definition answered (b : bridge) (i : nat) : bool :=
  match opening !! i with Some c => is_ok (b (take i opening) c) | None => false end.

Lemma run_returned {A B} (a : A) (k : A -> thunk B) b h : (x ← t_ret (Ok a); k x) b h = k a b h.
Proof. reflexivity. Qed.

Lemma onboarded_calls now b status :
  b [] (mkCall "bridgeStatus" []) = Ok status -> prop status "type" = Ok (JStr "onboarded") ->
  (run (refreshOnboardingStatus now) b).1 =
  opening ++ if answered b 3 && answered b 4 && answered b 5 then
    [mkCall "checkJoinedFederationsForAutojoinCommunities" [];
     mkCall "setOnboardingMethod" [opt_prop status "onboarding_method"]; opened;
     mkCall "refreshHistoricalCurrencyRates" []; mkCall "checkSurveyCondition" [];
     mkCall "preloadFederationLists" []] else [].
Proof.
  intros E T. destruct status as [| | | | | |o]; try done.
  unfold run, refreshOnboardingStatus, answered. cbn [opening lookup list_lookup take].
  rewrite run_rpc, E, T, run_returned, decide_False, decide_True by done.
  unfold onboarded, dispatch_settled, t_catch, dispatch_unwrap, t_all, t_allSettled, rpc, dispatch,
    t_ret, mbind, thunk_bind, mret, thunk_ret. cbn.
  repeat (match goal with |- context [b ?h ?c] => destruct (b h c) end; cbn); reflexivity.
Qed.

Lemma obeys_dispatch N Q X action args :
  N (mkCall action args) -> Q tt -> obeys N Q X (dispatch action args).
Proof. intros H Ht b h. exists [mkCall action args]. split_and!; [done | by repeat constructor | done]. Qed.

(** Nothing but the two ways of opening touches what [N] leaves out. *)
Lemma other_statuses N now status :
  N migrating -> N locked -> (forall args, N (mkCall "setSurveyTimestamp" args)) ->
  N (mkCall "initializeDeviceRegistration" []) -> N (mkCall "fetchSocialRecovery" []) ->
  N (mkCall "setOnboardingCompleted" [JBool false]) ->
  obeys N (fun _ => True) (fun _ => True) (offboarding status) /\
  obeys N (fun _ => True) (fun _ => True) (onboarding now status).
Proof.
  intros M L Sv D F O.
  assert (R : forall r : result jval, obeys N (fun _ => True) (fun _ => True) (t_ret r))
    by (intros [a|e]; by apply obeys_ret).
  split.
  - unfold offboarding. eapply obeys_bind; [apply R|]. intros reason _.
    eapply obeys_bind; [apply R|]. intros type _.
    repeat case_decide; try (apply obeys_dispatch; [assumption | exact I]). by apply obeys_mret.
  - unfold onboarding. eapply obeys_bind; [by apply (obeys_dispatch _ (fun _ => True))|]. intros _ _.
    eapply obeys_bind; [apply R|]. intros stage _. eapply obeys_bind; [apply R|]. intros type _.
    repeat case_decide; try (apply obeys_dispatch; [assumption | exact I]); [|by apply obeys_throw].
    apply (obeys_catch _ _ _ (fun _ => True)); [|intros; by apply obeys_mret].
    apply (obeys_bind _ (fun _ => True)); [by apply obeys_rpc | intros; by apply obeys_mret].
Qed.

(** the app opens only for a user who is onboarded, once the wallets, the
    communities and the version are there, and it is not locked or migrated
    then. *)
Theorem app_opens_ready now b :
  let calls := (run (refreshOnboardingStatus now) b).1 in
  opened ∈ calls ->
  (exists status, b [] (mkCall "bridgeStatus" []) = Ok status /\
     prop status "type" = Ok (JStr "onboarded")) /\
  answered b 3 = true /\ answered b 4 = true /\ answered b 5 = true /\
  locked ∉ calls /\ migrating ∉ calls.
Proof.
  cbv zeta. intros H. destruct (b [] (mkCall "bridgeStatus" [])) as [status|e] eqn:E.
  2: { unfold run, refreshOnboardingStatus in H. rewrite run_rpc, E in H. cbn in H.
       apply list_elem_of_singleton in H. done. }
  destruct (decide (prop status "type" = Ok (JStr "onboarded"))) as [T|N].
  - rewrite (onboarded_calls now b status E T) in H |- *.
    destruct (answered b 3), (answered b 4), (answered b 5); cbn in H;
      try (exfalso; revert H; unfold opened; rewrite !elem_of_cons, elem_of_nil; intuition discriminate).
    split_and!; try done; [by eexists | unfold locked | unfold migrating]; cbn;
      rewrite !elem_of_cons, elem_of_nil; intuition discriminate.
  - exfalso. unfold run, refreshOnboardingStatus in H. rewrite run_rpc, E in H.
    destruct (prop status "type") as [type|e]; [|cbn in H; by apply list_elem_of_singleton in H].
    rewrite run_returned in H. cbn [app] in H.
    destruct (other_statuses (fun c => c <> opened) now status) as [F O]; try done.
    destruct (decide (type = JStr "offboarding")).
    { destruct (F b [mkCall "bridgeStatus" []]) as (l & El & Fl & _). rewrite El in H.
      apply elem_of_app in H as [H|H]; [by apply list_elem_of_singleton in H|].
      rewrite list.Forall_forall in Fl. by apply (Fl _ H). }
    rewrite decide_False in H by congruence.
    assert (G : obeys (fun c => c <> opened) (fun _ => True) (fun _ => True)
      (_ ← (if decide (type = JStr "onboarding") then onboarding now status
            else t_throw "Unknown bridge status type");
       dispatch "preloadFederationLists" [])).
    { apply (obeys_bind _ (fun _ => True)); [|intros; by apply obeys_dispatch].
      case_decide; [done | by apply obeys_throw]. }
    destruct (G b [mkCall "bridgeStatus" []]) as (l & El & Fl & _). rewrite El in H.
    apply elem_of_app in H as [H|H]; [by apply list_elem_of_singleton in H|].
    rewrite list.Forall_forall in Fl. by apply (Fl _ H).
Qed.

(** A bridge that answers everything, and reports an onboarded user. *)
Definition onboarded_bridge : bridge := fun _ c =>
  if decide (c = mkCall "bridgeStatus" [])
  then Ok (JObj [("type", JStr "onboarded"); ("onboarding_method", JStr "newSeed")]) else Ok JNull.

Lemma app_opens_ready_witness :
  let calls := (run (refreshOnboardingStatus (of_Z 0)) onboarded_bridge).1 in
  opened ∈ calls /\ answered onboarded_bridge 3 = true /\ locked ∉ calls /\ migrating ∉ calls.
Proof.
  cbv zeta.
  assert (H : opened ∈ (run (refreshOnboardingStatus (of_Z 0)) onboarded_bridge).1)
    by (eapply bool_decide_eq_true_1; vm_compute; reflexivity).
  destruct (app_opens_ready (of_Z 0) onboarded_bridge H) as (_ & A & _ & _ & L & M). by split_and!.
Defined.
