(* ===== verification/Slices.v ===== *)
(** The small slices of the store: [ui/common/redux/nux.ts],
    [redux/personal-backup-reminder], [redux/recovery.ts], [redux/security.ts],
    [redux/support.ts], [redux/survey.ts] with [hooks/survey.ts],
    [redux/analytics.ts], [redux/toast.ts] and [redux/storage.ts].

    A thunk that waits for a request is split there; what it does once answered
    is a function of the answer and of the state by then. *)
From Stdlib Require Import ZArith Lia.
From stdpp Require Import base tactics strings list option.
From S2P Require Import Prelude JsNum Js Amount Federation Currency Wallet Environment Effects.
Local Open Scope string_scope.
Local Open Scope list_scope.

(** The loop of two slices that restore the flags they know:
    [Object.entries(stored).forEach(([k, v]) => if (k in known && v !== undefined) acc[k] = v)]. *)
Definition restore_known (known acc stored : obj) : obj :=
  foldl (fun acc kv =>
    if has kv.1 known && negb (bool_decide (kv.2 = JUndef)) then set_prop kv.1 kv.2 acc else acc)
    acc stored.

(** ** New user experience *)

Definition nux_initial_steps : obj :=
  [("hasViewedMemberQr", JBool false); ("hasOpenedNewChat", JBool false);
   ("hasPerformedPersonalBackup", JBool false); ("hasSeenMultispendIntro", JBool false);
   ("pwaHasDismissedInstallPrompt", JBool false); ("hasRequestedReferrer", JBool false);
   ("hasSeenWalletServiceTour", JBool false)].

(** The slice's state has one field, [steps]. *)
Record NuxState := mkNux { steps : obj }.

Definition nux_initialState : NuxState := mkNux nux_initial_steps.

Definition completeNuxStep (step : string) (s : NuxState) : NuxState :=
  mkNux (set_prop step (JBool true) (steps s)).
Definition resetNuxSteps (s : NuxState) : NuxState := mkNux nux_initial_steps.
Definition resetNuxStep (step : string) (s : NuxState) : NuxState :=
  mkNux (set_prop step (JBool false) (steps s)).

Definition nux_loadFromStorage (payload : option obj) (s : NuxState) : NuxState :=
  match payload with
  | None => s
  | Some p => mkNux (restore_known (steps s) [] (own_props (get "nuxSteps" p)))
  end.

Definition selectNuxStep (s : NuxState) (step : string) : jval := get step (steps s).

(** ** Personal backup reminder *)

Record PersonalBackupReminderState := mkReminder {
  countdownStartedAt : option num;
  dismissedThisSession : bool;
  hasReachedThresholds : bool
}.

#[export] Instance Reminder_eta : Eta PersonalBackupReminderState := fun s =>
  mkReminder (countdownStartedAt s) (dismissedThisSession s) (hasReachedThresholds s).

Definition reminder_initialState : PersonalBackupReminderState := mkReminder None false false.

Definition dismissForSession (s : PersonalBackupReminderState) := s <| dismissedThisSession := true |>.
Definition reachedThresholds (s : PersonalBackupReminderState) := s <| hasReachedThresholds := true |>.
Definition setCountdownStartedAt (t : num) (s : PersonalBackupReminderState) :=
  s <| countdownStartedAt := Some t |>.
Definition setCountdownForTesting (t : option num) (s : PersonalBackupReminderState) :=
  s <| dismissedThisSession := false |> <| hasReachedThresholds := false |>
    <| countdownStartedAt := t |>.
(** The slice's answer to [nux/resetNuxSteps]. *)
Definition reminder_resetNuxSteps (s : PersonalBackupReminderState) : PersonalBackupReminderState :=
  s <| countdownStartedAt := countdownStartedAt reminder_initialState |>
    <| dismissedThisSession := dismissedThisSession reminder_initialState |>
    <| hasReachedThresholds := hasReachedThresholds reminder_initialState |>.

Definition as_onum (v : jval) : option num := match v with JNum n => Some n | _ => None end.
Definition of_num (o : option num) : jval := match o with Some n => JNum n | None => JNull end.

Definition reminder_loadFromStorage (payload : option obj) (s : PersonalBackupReminderState)
    : PersonalBackupReminderState :=
  match payload with
  | None => s
  | Some p =>
      let persisted := get "personalBackupReminder" p in
      if truthy persisted then
        s <| countdownStartedAt := as_onum (opt_prop persisted "countdownStartedAt") |>
          <| hasReachedThresholds := as_bool (opt_prop persisted "hasReachedThresholds") |>
      else s
  end.

Definition BACKUP_REMINDER_THRESHOLD_SATS : num := of_Z 210.
Definition BACKUP_REMINDER_ELAPSED_MS : num := of_Z (30 * 24 * 60 * 60 * 1000).

Definition selectPersonalBackupReminderTriggersMet (now : num) (cs : CommonState)
    (s : PersonalBackupReminderState) : bool :=
  leb BACKUP_REMINDER_THRESHOLD_SATS
    (add (msatToSat (Federation.selectTotalBalanceMsats (federation cs)))
       (selectTotalStableBalanceSats cs)) ||
  match countdownStartedAt s with
  | None => false
  | Some startedAt => leb BACKUP_REMINDER_ELAPSED_MS (sub now startedAt)
  end.

Definition selectShouldShowBackupReminder (now : num) (cs : CommonState)
    (nux : NuxState) (env : EnvironmentState) (s : PersonalBackupReminderState) : bool :=
  truthy (selectFeatureFlag env "personal_backup_reminder") &&
  negb (truthy (selectNuxStep nux "hasPerformedPersonalBackup")) &&
  bool_decide (onboardingMethod env = Some "new_seed") &&
  negb (dismissedThisSession s) &&
  (hasReachedThresholds s || selectPersonalBackupReminderTriggersMet now cs s).

(** The effect of [usePersonalBackupReminder]. *)
Definition usePersonalBackupReminder (now : num) (cs : CommonState)
    (nux : NuxState) (env : EnvironmentState) (s : PersonalBackupReminderState)
    : PersonalBackupReminderState :=
  if truthy (selectNuxStep nux "hasPerformedPersonalBackup") ||
     negb (bool_decide (onboardingMethod env = Some "new_seed")) then s
  else
    let met := selectPersonalBackupReminderTriggersMet now cs s in
    let recorded := hasReachedThresholds s in
    let s := match countdownStartedAt s with None => setCountdownStartedAt now s | Some _ => s end in
    if negb recorded && met then reachedThresholds s else s.

(** ** Recovery *)

Record RecoveryState := mkRecovery {
  hasCheckedForSocialRecovery : bool;
  socialRecoveryQr : option string;
  socialRecoveryState : jval;
  registeredDevices : option (list obj);
  deviceIndexRequired : bool;
  shouldLockDevice : bool;
  shouldMigrateSeed : bool
}.

#[export] Instance RecoveryState_eta : Eta RecoveryState := fun s =>
  mkRecovery (hasCheckedForSocialRecovery s) (socialRecoveryQr s) (socialRecoveryState s)
    (registeredDevices s) (deviceIndexRequired s) (shouldLockDevice s) (shouldMigrateSeed s).

Definition recovery_initialState : RecoveryState := mkRecovery false None JNull None false false false.

Inductive recovery_action : Type :=
  | SetSocialRecoveryState (st : jval)
  | SetDeviceIndexRequired (b : bool)
  | ResetDeviceRegistration
  | SetShouldLockDevice (b : bool)
  | SetShouldMigrateSeed (b : bool)
  | SocialRecoveryFetched (payload : option (string * jval))
  | SocialRecoveryRefreshed (st : jval)
  | SocialRecoveryCompleted
  | SocialRecoveryCanceled
  | RegisteredDevicesFetched (devices : list obj).

(** [recoverySlice.reducer]; [restoreMnemonic.fulfilled] only logs. *)
Definition recovery_reduce (s : RecoveryState) (a : recovery_action) : RecoveryState :=
  match a with
  | SetSocialRecoveryState st => s <| socialRecoveryState := st |>
  | SetDeviceIndexRequired b => s <| deviceIndexRequired := b |>
  | ResetDeviceRegistration => s <| deviceIndexRequired := false |> <| registeredDevices := None |>
  | SetShouldLockDevice b => s <| shouldLockDevice := b |>
  | SetShouldMigrateSeed b => s <| shouldMigrateSeed := b |>
  | SocialRecoveryFetched payload =>
      let s := s <| hasCheckedForSocialRecovery := true |> in
      match payload with
      | Some (qr, st) => s <| socialRecoveryQr := Some qr |> <| socialRecoveryState := st |>
      | None => s <| socialRecoveryQr := None |> <| socialRecoveryState := JNull |>
      end
  | SocialRecoveryRefreshed st => s <| socialRecoveryState := st |>
  | SocialRecoveryCompleted | SocialRecoveryCanceled =>
      s <| socialRecoveryQr := None |> <| socialRecoveryState := JNull |>
  | RegisteredDevicesFetched devices => s <| registeredDevices := Some devices |>
  end.

(** The thunks that make more than one call. *)
Definition fetchSocialRecovery (stringify : jval -> string) : thunk (option (string * jval)) :=
  qr ← rpc "recoveryQr" [];
  if truthy qr then st ← rpc "socialRecoveryApprovals" []; mret (Some (stringify qr, st))
  else mret None.

Definition initializeDeviceRegistration : thunk unit :=
  _ ← dispatch "setDeviceIndexRequired" [JBool true]; dispatch_unwrap "fetchRegisteredDevices" [].

Definition completeSocialRecovery : thunk unit :=
  _ ← rpc "completeSocialRecovery" []; dispatch_settled "refreshOnboardingStatus" [].

Definition resetUnrecognizedSeed : thunk unit :=
  _ ← rpc "resetUnrecognizedSeed" []; dispatch "resetDeviceRegistration" [].

Definition approveSocialRecoveryRequest (recoveryId peerId federationId : jval) : thunk jval :=
  guardianPassword ← rpc "getGuardianPassword" [federationId; peerId];
  rpc "approveSocialRecoveryRequest" [recoveryId; peerId; guardianPassword; federationId].

Definition socialRecoveryDownloadVerificationDoc (recoveryId peerId federationId : jval)
    : thunk jval :=
  guardianPassword ← rpc "getGuardianPassword" [federationId; peerId];
  rpc "socialRecoveryDownloadVerificationDoc" [recoveryId; federationId; peerId; guardianPassword].

Definition setGuardianAssist (federationId peerId name url password : jval) : thunk unit :=
  _ ← rpc "setGuardianPassword" [federationId; peerId; password];
  dispatch "changeAuthenticatedGuardian"
    [JObj [("peerId", peerId); ("name", name); ("url", url); ("federationId", federationId)]].

(** ** Security *)

(** The features of both fields, [app], [changePin], [nostrSettings],
    [personalBackup] and [miniAppSeed], with a flag each. *)
Definition features (b : bool) : obj :=
  [("app", JBool b); ("changePin", JBool b); ("nostrSettings", JBool b);
   ("personalBackup", JBool b); ("miniAppSeed", JBool b)].

Record PinState := mkPin {
  protectedFeatures : obj;
  unlockedFeatures : obj;
  isBackingUpBeforePin : bool
}.

#[export] Instance PinState_eta : Eta PinState := fun s =>
  mkPin (protectedFeatures s) (unlockedFeatures s) (isBackingUpBeforePin s).

Definition security_initialState : PinState := mkPin (features true) (features false) false.

Definition setFeatureUnlocked (key : string) (unlocked : bool) (s : PinState) : PinState :=
  s <| unlockedFeatures := set_prop key (JBool unlocked) (unlockedFeatures s) |>.
Definition setProtectedFeature (key : string) (enabled : bool) (s : PinState) : PinState :=
  s <| protectedFeatures := set_prop key (JBool enabled) (protectedFeatures s) |>.
Definition setIsBackingUpBeforePin (b : bool) (s : PinState) : PinState :=
  s <| isBackingUpBeforePin := b |>.

Definition security_loadFromStorage (payload : option obj) (s : PinState) : PinState :=
  match payload with
  | None => s
  | Some p =>
      let stored := get "protectedFeatures" p in
      if truthy stored then
        s <| protectedFeatures :=
          restore_known (protectedFeatures s) (protectedFeatures s) (own_props stored) |>
      else s
  end.

Definition selectIsFeatureUnlocked (s : PinState) (feature : string) : jval :=
  get feature (unlockedFeatures s).

(** ** Support *)

Record SupportState := mkSupport {
  supportPermissionGranted : bool;
  zendeskPushNotificationToken : option string;
  zendeskInitialized : bool;
  zendeskUnreadMessageCount : num
}.

#[export] Instance SupportState_eta : Eta SupportState := fun s =>
  mkSupport (supportPermissionGranted s) (zendeskPushNotificationToken s) (zendeskInitialized s)
    (zendeskUnreadMessageCount s).

Definition support_initialState : SupportState := mkSupport false None false (of_Z 0).

Definition setSupportPermission (b : bool) (s : SupportState) := s <| supportPermissionGranted := b |>.
Definition setZendeskPushNotificationToken (t : string) (s : SupportState) :=
  s <| zendeskPushNotificationToken := Some t |>.
Definition setZendeskInitialized (b : bool) (s : SupportState) := s <| zendeskInitialized := b |>.
Definition setZendeskUnreadMessageCount (n : num) (s : SupportState) :=
  s <| zendeskUnreadMessageCount := n |>.

Definition support_loadFromStorage (payload : option obj) (s : SupportState) : SupportState :=
  let stored := match payload with Some p => get "support" p | None => JUndef end in
  if truthy stored then
    s <| supportPermissionGranted :=
           as_bool (nullish (opt_prop stored "supportPermissionGranted")
                            (JBool (supportPermissionGranted s))) |>
      <| zendeskPushNotificationToken :=
           as_str (nullish (opt_prop stored "zendeskPushNotificationToken")
                           (of_str (zendeskPushNotificationToken s))) |>
  else s.

(** ** Surveys *)

Record ActiveSurvey := mkSurvey {
  survey_url : string; survey_title : string; survey_description : string;
  survey_buttonText : string; survey_id : string; survey_enabled : bool
}.

Record Completion := mkCompletion { timesDismissed : num; isCompleted : bool }.

Record SurveyState := mkSurveys {
  surveyCompletions : list (string * Completion);
  lastShownSurveyTimestamp : num;
  activeSurvey : option ActiveSurvey
}.

#[export] Instance SurveyState_eta : Eta SurveyState := fun s =>
  mkSurveys (surveyCompletions s) (lastShownSurveyTimestamp s) (activeSurvey s).

Definition survey_initialState : SurveyState := mkSurveys [] (of_Z (-1)) None.

Definition setActiveSurvey (a : option ActiveSurvey) (s : SurveyState) := s <| activeSurvey := a |>.
Definition setSurveyTimestamp (t : num) (s : SurveyState) := s <| lastShownSurveyTimestamp := t |>.

(** [state.surveyCompletions[id] = f(state.surveyCompletions[id])], with the
    entry of a survey that has none. *)
Definition update_completion (fresh : Completion) (f : Completion -> Completion) (s : SurveyState)
    : SurveyState :=
  match survey_id <$> activeSurvey s with
  | None | Some "" => s
  | Some id =>
      let c := match lookup_prop id (surveyCompletions s) with None => fresh | Some c => f c end in
      s <| surveyCompletions := set_prop id c (surveyCompletions s) |>
  end.

Definition dismissActiveSurvey : SurveyState -> SurveyState :=
  update_completion (mkCompletion (of_Z 1) false)
    (fun c => mkCompletion (add (timesDismissed c) (of_Z 1)) (isCompleted c)).

Definition acceptActiveSurvey : SurveyState -> SurveyState :=
  update_completion (mkCompletion (of_Z 0) true) (fun c => mkCompletion (timesDismissed c) true).

Definition resetSurveyCompletions (s : SurveyState) := s <| surveyCompletions := [] |>.

Definition as_completion (v : jval) : Completion :=
  mkCompletion (as_num (opt_prop v "timesDismissed")) (as_bool (opt_prop v "isCompleted")).
Definition of_completion (c : Completion) : jval :=
  JObj [("isCompleted", JBool (isCompleted c)); ("timesDismissed", JNum (timesDismissed c))].

Definition survey_loadFromStorage (payload : option obj) (s : SurveyState) : SurveyState :=
  match payload with
  | None => s
  | Some p =>
      s <| lastShownSurveyTimestamp := as_num (get "lastShownSurveyTimestamp" p) |>
        <| surveyCompletions :=
             prod_map id as_completion <$> own_props (get "surveyCompletions" p) |>
  end.

Definition oneWeekMs : num := of_Z (7 * 24 * 60 * 60 * 1000).

(** [checkSurveyCondition] up to its request: the state, and whether it asks. *)
Definition checkSurveyCondition_request (now : num) (onboardingCompleted : bool) (s : SurveyState)
    : SurveyState * bool :=
  let s := setActiveSurvey None s in
  let last := lastShownSurveyTimestamp s in
  (s, onboardingCompleted && (num_truthy last && leb oneWeekMs (sub now last))).

(** Once answered; a request that fails is logged. *)
Definition checkSurveyCondition_answer (answer : result ActiveSurvey) (s : SurveyState)
    : SurveyState :=
  match answer with
  | Throw _ => s
  | Ok survey =>
      let completion := lookup_prop (survey_id survey) (surveyCompletions s) in
      if negb (survey_enabled survey) then s
      else if default false (isCompleted <$> completion) then s
      else if leb (of_Z 2) (default (of_Z 0) (timesDismissed <$> completion)) then s
      else setActiveSurvey (Some survey) s
  end.

(** [useSurveyForm]: what the buttons of the form dispatch, the last of them
    [checkSurveyCondition]. *)
Definition handleDismiss (now : num) (onboardingCompleted : bool) (s : SurveyState)
    : SurveyState * bool :=
  checkSurveyCondition_request now onboardingCompleted (setSurveyTimestamp now (dismissActiveSurvey s)).

Definition handleAccept (now : num) (onboardingCompleted : bool) (s : SurveyState)
    : SurveyState * bool :=
  match activeSurvey s with
  | None => (s, false)
  | Some _ =>
      checkSurveyCondition_request now onboardingCompleted
        (setSurveyTimestamp now (acceptActiveSurvey s))
  end.

(** [getSurveyLanguage] of [utils/survey.ts]. *)
Definition getSurveyLanguage (language : string) : string :=
  if decide (language ∈ ["en"; "es"; "fr"; "id"; "tl"; "so"; "am"; "sw"; "uk"]) then language
  else if decide (language = "pt") then "pt-br"
  else if decide (language ∈ ["ar"; "ara"]) then "ar"
  else if decide (language ∈ ["rn"; "rw"]) then "rw"
  else "en".

(** ** Analytics *)

Record AnalyticsState := mkAnalytics {
  hasConsentedToAnalytics : option bool;
  hasSeenAnalyticsConsentModal : bool;
  analyticsId : option string
}.

#[export] Instance AnalyticsState_eta : Eta AnalyticsState := fun s =>
  mkAnalytics (hasConsentedToAnalytics s) (hasSeenAnalyticsConsentModal s) (analyticsId s).

Definition analytics_initialState : AnalyticsState := mkAnalytics None false None.

Definition setHasConsentedToAnalytics (b : bool) (s : AnalyticsState) :=
  s <| hasConsentedToAnalytics := Some b |>.
Definition setHasSeenAnalyticsConsentModal (b : bool) (s : AnalyticsState) :=
  s <| hasSeenAnalyticsConsentModal := b |>.
Definition setAnalyticsId (id : string) (s : AnalyticsState) := s <| analyticsId := Some id |>.
Definition clearAnalyticsState (s : AnalyticsState) : AnalyticsState := mkAnalytics None false None.

Definition as_obool (v : jval) : option bool := match v with JBool b => Some b | _ => None end.
Definition of_bool (o : option bool) : jval := match o with Some b => JBool b | None => JNull end.

(** [uuid] is the identifier generated when none was stored. *)
Definition analytics_loadFromStorage (uuid : string) (payload : option obj) (s : AnalyticsState)
    : AnalyticsState :=
  let p := default [] payload in
  let storedId := get "analyticsId" p in
  mkAnalytics (as_obool (get "hasConsentedToAnalytics" p))
    (as_bool (get "hasSeenAnalyticsConsentModal" p))
    (if truthy storedId then as_str storedId else Some uuid).

(** [submitAnalyticsConsent] up to its request, and once it is answered: consent
    is recorded when the server took it. *)
Definition submitAnalyticsConsent_request (s : AnalyticsState) : result AnalyticsState :=
  match analyticsId s with
  | None | Some "" => Throw "Analytics ID is not set"
  | Some _ => Ok (setHasSeenAnalyticsConsentModal true s)
  end.
Definition submitAnalyticsConsent_answer (consent : bool) (answer : result unit) (s : AnalyticsState)
    : AnalyticsState :=
  match answer with Ok _ => setHasConsentedToAnalytics consent s | Throw _ => s end.

Definition shouldShowAnalyticsConsentModal (env : EnvironmentState) (s : AnalyticsState) : bool :=
  ltb (of_Z 3) (sessionCount env) && onboardingCompleted env &&
  negb (hasSeenAnalyticsConsentModal s).

(** ** Toasts *)

Record Toast := mkToast { toast_key : string; toast_content : string; toast_status : string }.

(** The slice's state has one field, [toast]. *)
Record ToastState := mkToasts { toast : option Toast }.

Definition toast_initialState : ToastState := mkToasts None.

Definition setToast (t : Toast) (s : ToastState) : ToastState := mkToasts (Some t).
Definition closeToast (key : option string) (s : ToastState) : ToastState :=
  match key with
  | None | Some "" => mkToasts None
  | Some k => if decide (toast_key <$> toast s = Some k) then mkToasts None else s
  end.

(** [showToast]: the toast, and the key that a timer closes. *)
Definition showToast (now : num) (content : string) (key status : option string) (s : ToastState)
    : ToastState * option string :=
  let t := mkToast (default (num_string now) key) content (default "info" status) in
  (setToast t s, if decide (toast_status t = "success") then Some (toast_key t) else None).

(** ** Storage *)

Record StorageState := mkStorage { hasLoaded : bool; lastSavedAt : num; readyToSave : bool }.

#[export] Instance StorageState_eta : Eta StorageState := fun s =>
  mkStorage (hasLoaded s) (lastSavedAt s) (readyToSave s).

Definition storage_initialState : StorageState := mkStorage false (of_Z 0) false.

Definition setReadyToSave (b : bool) (s : StorageState) : StorageState := s <| readyToSave := b |>.
Definition storage_loadFromStorage (s : StorageState) : StorageState := s <| hasLoaded := true |>.
Definition saveToStorage_fulfilled (now : num) (s : StorageState) : StorageState :=
  s <| lastSavedAt := now |>.
Definition selectStorageIsReady (s : StorageState) : bool := hasLoaded s && readyToSave s.

(** ** How often surveys are shown

    The form and the start of the app ask for a survey, requests that wait are
    answered later; the second component counts them. *)
Inductive survey_event : Type :=
  | Ask (now : Z)
  | Answer (answer : result ActiveSurvey)
  | Dismiss (now : Z)
  | Accept (now : Z).

Section Surveys.
Context (onboardingCompleted : bool).

Definition asked (n : nat) (r : SurveyState * bool) : SurveyState * nat :=
  (r.1, if r.2 then S n else n).

Definition survey_step (sn : SurveyState * nat) (ev : survey_event) : SurveyState * nat :=
  let '(s, n) := sn in
  match ev with
  | Ask now => asked n (checkSurveyCondition_request (of_Z now) onboardingCompleted s)
  | Answer answer =>
      match n with 0 => (s, 0) | S n => (checkSurveyCondition_answer answer s, n) end
  | Dismiss now => asked n (handleDismiss (of_Z now) onboardingCompleted s)
  | Accept now => asked n (handleAccept (of_Z now) onboardingCompleted s)
  end.

Definition survey_run : SurveyState * nat -> list survey_event -> SurveyState * nat :=
  foldl survey_step.

(** The time of an event is less than a week after [t]. *)
Definition within_a_week (t : Z) (ev : survey_event) : Prop :=
  match ev with
  | Ask now | Dismiss now | Accept now => (t <= now < t + 604800000)%Z /\ safe now
  | Answer _ => True
  end.

(** A survey is dismissed twice at most. *)
Definition count_ok (c : Completion) : Prop :=
  exists k, timesDismissed c = of_Z k /\ (0 <= k <= 2)%Z.

(** A survey may be shown when it was not taken and was dismissed once at most. *)
Definition may_show (s : SurveyState) (a : ActiveSurvey) : Prop :=
  survey_enabled a = true /\
  forall c, lookup_prop (survey_id a) (surveyCompletions s) = Some c ->
    isCompleted c = false /\ exists k, timesDismissed c = of_Z k /\ (0 <= k <= 1)%Z.

Record surveys_ok (s : SurveyState) : Prop := {
  ok_counts : forall id c, lookup_prop id (surveyCompletions s) = Some c -> count_ok c;
  ok_active : forall a, activeSurvey s = Some a -> may_show s a }.

Lemma small_safe k : (Z.abs k <= 604800000)%Z -> safe k.
Proof. unfold safe. lia. Qed.

Lemma request_ok now s : surveys_ok s ->
  surveys_ok (checkSurveyCondition_request now onboardingCompleted s).1.
Proof. intros [C A]. by split. Qed.

Lemma timestamp_ok t s : surveys_ok s -> surveys_ok (setSurveyTimestamp t s).
Proof. intros [C A]. by split. Qed.

(** What an answer to the form leaves, as the survey is hidden next. *)
Lemma update_counts fresh f s id c :
  surveys_ok s -> count_ok fresh ->
  (forall a c, activeSurvey s = Some a -> lookup_prop (survey_id a) (surveyCompletions s) = Some c ->
     count_ok (f c)) ->
  lookup_prop id (surveyCompletions (update_completion fresh f s)) = Some c -> count_ok c.
Proof.
  intros [C A] F U. unfold update_completion.
  destruct (activeSurvey s) as [a|] eqn:E; [|by apply C].
  destruct (fmap _ _) as [[|ch i]|] eqn:Ei; [by apply C | | by apply C]. cbn.
  injection Ei as Ei. destruct (decide (id = String ch i)) as [->|N].
  - rewrite lookup_set_eq. intros [= <-]. rewrite <- Ei.
    destruct (lookup_prop (survey_id a) _) eqn:L; [by eapply U | done].
  - rewrite lookup_set_ne by done. apply C.
Qed.

Lemma dismiss_counts s id c :
  surveys_ok s -> lookup_prop id (surveyCompletions (dismissActiveSurvey s)) = Some c -> count_ok c.
Proof.
  intros H. apply update_counts; [done | exists 1%Z; split; [done | lia] |].
  intros a c' Ha Hc. destruct (ok_active s H a Ha) as [_ M]. destruct (M c' Hc) as (_ & k & E & K).
  exists (k + 1)%Z. cbn. rewrite E, add_int by (apply small_safe; lia). split; [done | lia].
Qed.

Lemma accept_counts s id c :
  surveys_ok s -> lookup_prop id (surveyCompletions (acceptActiveSurvey s)) = Some c -> count_ok c.
Proof.
  intros H. apply update_counts; [done | exists 0%Z; split; [done | lia] |].
  intros a c' _ Hc. destruct (ok_counts s H _ _ Hc) as (k & E & K). by exists k.
Qed.

Lemma answer_ok r s : surveys_ok s -> surveys_ok (checkSurveyCondition_answer r s).
Proof.
  intros [C A]. destruct r as [a|]; [|done]. unfold checkSurveyCondition_answer.
  destruct (survey_enabled a) eqn:En; [|done]. cbn [negb].
  destruct (lookup_prop (survey_id a) (surveyCompletions s)) as [c|] eqn:L; cbn.
  - destruct (isCompleted c) eqn:Cc; [done|].
    destruct (C _ _ L) as (k & E & K). rewrite E, leb_int by (apply small_safe; lia).
    destruct (2 <=? k)%Z eqn:K2; [done|]. bools. split; cbn; [done|].
    intros a' [= <-]. split; [done|]. intros c' Hc. cbn in Hc. rewrite L in Hc. injection Hc as <-.
    split; [done|]. exists k. split; [done | lia].
  - change (leb (of_Z 2) (of_Z 0)) with false. split; cbn; [done|]. intros a' [= <-].
    split; [done|]. intros c' Hc. cbn in Hc. congruence.
Qed.

Lemma survey_step_ok s n ev : surveys_ok s -> surveys_ok (survey_step (s, n) ev).1.
Proof.
  intros H. destruct ev as [now | r | now | now]; cbn [survey_step asked fst].
  - by apply request_ok.
  - destruct n; [done | by apply answer_ok].
  - split; cbn; [|done]. intros id c. by apply dismiss_counts.
  - unfold handleAccept. destruct (activeSurvey s); [|done].
    split; cbn; [|done]. intros id c. by apply accept_counts.
Qed.

Lemma survey_run_ok l s n : surveys_ok s -> surveys_ok (survey_run (s, n) l).1.
Proof.
  revert s n. induction l as [|ev l IH]; intros s n H; [done|].
  unfold survey_run in *. cbn [foldl]. pose proof (survey_step_ok s n ev H) as K.
  destruct (survey_step (s, n) ev) as [s' n']. by apply IH.
Qed.

(** No survey is shown or asked for, in the week after [t]. *)
Definition resting (t : Z) (sn : SurveyState * nat) : Prop :=
  activeSurvey sn.1 = None /\ sn.2 = 0 /\
  exists t', lastShownSurveyTimestamp sn.1 = of_Z t' /\ (t <= t' < t + 604800000)%Z /\ safe t'.

Lemma request_rests t s now :
  (t <= now < t + 604800000)%Z -> safe now ->
  (exists t', lastShownSurveyTimestamp s = of_Z t' /\ (t <= t' < t + 604800000)%Z /\ safe t') ->
  resting t (asked 0 (checkSurveyCondition_request (of_Z now) onboardingCompleted s)).
Proof.
  intros N Sn (t' & E & T & S). split; [done|]. split; [|by exists t'].
  unfold asked, checkSurveyCondition_request. cbn [snd]. cbn [setActiveSurvey].
  change (lastShownSurveyTimestamp (setActiveSurvey None s)) with (lastShownSurveyTimestamp s).
  rewrite E, sub_int by (done || apply small_safe; lia).
  unfold oneWeekMs. rewrite leb_int by (apply small_safe; lia).
  rewrite (proj2 (Z.leb_gt _ _)) by lia. by rewrite !andb_false_r.
Qed.

Lemma rest_step t sn ev : resting t sn -> within_a_week t ev -> resting t (survey_step sn ev).
Proof.
  destruct sn as [s n]. intros (A & N & T). cbn in A, N, T. subst n.
  destruct ev as [now | r | now | now]; cbn [within_a_week survey_step]; intros W.
  - destruct W as [W S]. by apply request_rests.
  - by split.
  - destruct W as [W S]. apply request_rests; [done | done |]. exists now.
    split; [|done]. unfold dismissActiveSurvey, update_completion. by rewrite A.
  - unfold handleAccept. rewrite A. by split.
Qed.

(** surveys do not pester.  Whatever the requests for surveys answer, and in
    whatever order, a survey on screen is enabled, was never accepted and was
    dismissed once at most; and once the user has dismissed or accepted a
    survey, with no request under way, none is shown for a week. *)
Theorem surveys_pace completions last l :
  surveys_ok (mkSurveys completions last None) ->
  let sn := survey_run (mkSurveys completions last None, 0) l in
  (forall a, activeSurvey sn.1 = Some a -> may_show sn.1 a) /\
  (forall t ev l', ev = Dismiss t \/ ev = Accept t /\ activeSurvey sn.1 <> None ->
     safe t -> sn.2 = 0 -> Forall (within_a_week t) l' ->
     activeSurvey (survey_run (survey_step sn ev) l').1 = None).
Proof.
  intros H. cbv zeta. pose proof (survey_run_ok l _ 0 H) as K.
  destruct (survey_run _ l) as [s n]. cbn [fst snd] in *. split; [apply K|].
  intros t ev l' Hev S -> W.
  assert (R : resting t (survey_step (s, 0) ev)).
  { assert (T : exists t', of_Z t = of_Z t' /\ (t <= t' < t + 604800000)%Z /\ safe t')
      by (exists t; split; [done | split; [lia | done]]).
    destruct Hev as [-> | [-> A]]; cbn [survey_step].
    - apply request_rests; [lia | done | exact T].
    - unfold handleAccept. destruct (activeSurvey s); [|done].
      apply request_rests; [lia | done | exact T]. }
  revert R. generalize (survey_step (s, 0) ev). induction W as [|ev' l' We W IH]; intros sn R.
  - apply R.
  - cbn. by apply IH, rest_step.
Qed.
End Surveys.

Definition demo_survey : ActiveSurvey := mkSurvey "https://s" "t" "d" "b" "s1" true.
Definition day : Z := 86400000.

Lemma surveys_pace_witness :
  activeSurvey (survey_run true (survey_initialState, 0)
    [Ask (30 * day); Answer (Ok demo_survey)]).1 = Some demo_survey /\
  activeSurvey (survey_run true (survey_initialState, 0)
    [Ask (30 * day); Answer (Ok demo_survey); Dismiss (31 * day);
     Ask (37 * day); Answer (Ok demo_survey)]).1 = None.
Proof.
  assert (O : surveys_ok (mkSurveys [] (of_Z (-1)) None)) by (split; [intros ? ? [=] | intros ? [=]]).
  split; [vm_compute; reflexivity|].
  destruct (surveys_pace true [] (of_Z (-1)) [Ask (30 * day); Answer (Ok demo_survey)] O) as [_ R].
  apply (R (31 * day)%Z (Dismiss (31 * day)) [Ask (37 * day); Answer (Ok demo_survey)]).
  - by left.
  - vm_compute. discriminate.
  - vm_compute. reflexivity.
  - repeat constructor; vm_compute; discriminate || reflexivity.
Defined.
