(* ===== verification/Store.v ===== *)
(** The store: [ui/common/redux/index.ts].

    The slices are combined into one state ([RootState]), whose transitions are
    those of the slices and the actions several slices react to.  The state
    projects to the one of Storage.v; a listener saves it 100 ms after a change
    and a start of the app restores it. *)
From Stdlib Require Import ZArith Lia.
From stdpp Require Import base tactics strings list option relations.
From S2P Require Import Prelude JsNum Js Upsert Federation Currency Wallet Fi Matrix Transactions.
From S2P Require Import Mods Browser Environment Slices Storage.
Local Open Scope string_scope.
Local Open Scope list_scope.

(** ** The state *)

Record RootState := mkRoot {
  s_currency : CurrencyState;
  s_environment : EnvironmentState;
  s_federation : FederationState;
  s_fi : FiState;
  s_matrix : MatrixState;
  s_mod : ModState;
  s_nux : NuxState;
  s_reminder : PersonalBackupReminderState;
  s_recovery : RecoveryState;
  s_storage : StorageState;
  s_toast : ToastState;
  s_transactions : TransactionsState;
  s_wallet : WalletState;
  s_security : PinState;
  s_browser : BrowserState;
  s_support : SupportState;
  s_survey : SurveyState;
  s_analytics : AnalyticsState
}.

#[export] Instance RootState_eta : Eta RootState := fun s =>
  mkRoot (s_currency s) (s_environment s) (s_federation s) (s_fi s) (s_matrix s) (s_mod s)
    (s_nux s) (s_reminder s) (s_recovery s) (s_storage s) (s_toast s) (s_transactions s)
    (s_wallet s) (s_security s) (s_browser s) (s_support s) (s_survey s) (s_analytics s).

(** ** What a stored document holds of each slice

    The fields that [transformStateToStorage] reads, as values. *)
Definition strs (l : list string) : jval := JArr (JStr <$> l).
Definition as_strs (v : jval) : list string :=
  match v with JArr l => omap as_str l | _ => [] end.
Definition as_oobj (v : jval) : option obj := if truthy v then Some (own_props v) else None.
Definition as_ostrs (v : jval) : option (list string) :=
  if truthy v then Some (as_strs v) else None.

Definition environment_fields (s : EnvironmentState) : obj :=
  [("onchainDepositsEnabled", JBool (onchainDepositsEnabled s));
   ("developerMode", JBool (developerMode s));
   ("stableBalanceEnabled", JBool (stableBalanceEnabled s));
   ("language", of_str (language s));
   ("amountInputType", of_ustr (amountInputType s));
   ("transactionDisplayType", JStr (transactionDisplayType s));
   ("deviceId", of_ustr (deviceId s));
   ("sessionCount", JNum (sessionCount s));
   ("lastUsedTab", JStr (lastUsedTab s));
   ("paymentType", JStr (paymentType s));
   ("latestAwareReleaseTag", of_str (latestAwareReleaseTag s))].

Definition currency_fields (s : CurrencyState) : obj :=
  [("overrideCurrency", of_str (overrideCurrency s));
   ("btcUsdRate", JNum (Currency.btcUsdRate s));
   ("fiatUsdRates", JObj (fiatUsdRates s));
   ("customFederationCurrencies", JObj (customFederationCurrencies s));
   ("balanceDisplay", JStr (balanceDisplay s))].

Definition federation_fields (s : FederationState) : obj :=
  [("authenticatedGuardian", authenticatedGuardian s);
   ("customFediMods", JObj (customFediMods s));
   ("seenFederationRatings", strs (seenFederationRatings s));
   ("lastSelectedCommunityId", of_str (lastSelectedCommunityId s));
   ("recentlyUsedFederationIds", strs (recentlyUsedFederationIds s));
   ("previouslyAutojoinedCommunities", JObj (previouslyAutojoinedCommunities s));
   ("autojoinNoticesToDisplay", strs (autojoinNoticesToDisplay s));
   ("selectedFederationId", of_str (selectedFederationId s))].

Definition matrix_fields (s : MatrixState) : obj :=
  [("auth", match auth s with Some a => JObj a | None => JNull end);
   ("drafts", JObj (prod_map id JStr <$> drafts s));
   ("rejectedRoomInvites", strs (rejectedRoomInvites s));
   ("seenRoomInvites", strs (seenRoomInvites s));
   ("seenKnockRequests", JObj (prod_map id strs <$> seenKnockRequests s))].

Definition mod_fields (s : ModState) : obj :=
  [("customGlobalMods", JObj (customGlobalMods s));
   ("modVisibility", JObj (modVisibility s));
   ("miniAppPermissions", JObj (miniAppPermissions s));
   ("newMods", strs (newMods s));
   ("miniAppOrder", strs (miniAppOrder s))].

Definition small_fields (s : RootState) (slice : string) : obj :=
  if decide (slice = "nux") then [("steps", JObj (steps (s_nux s)))]
  else if decide (slice = "personalBackupReminder") then
    [("countdownStartedAt", of_num (countdownStartedAt (s_reminder s)));
     ("hasReachedThresholds", JBool (hasReachedThresholds (s_reminder s)))]
  else if decide (slice = "security") then
    [("protectedFeatures", JObj (protectedFeatures (s_security s)))]
  else if decide (slice = "support") then
    [("supportPermissionGranted", JBool (supportPermissionGranted (s_support s)));
     ("zendeskPushNotificationToken", of_str (zendeskPushNotificationToken (s_support s)))]
  else if decide (slice = "survey") then
    [("lastShownSurveyTimestamp", JNum (lastShownSurveyTimestamp (s_survey s)));
     ("surveyCompletions", JObj (prod_map id of_completion <$> surveyCompletions (s_survey s)))]
  else if decide (slice = "analytics") then
    [("analyticsId", of_str (analyticsId (s_analytics s)));
     ("hasConsentedToAnalytics", of_bool (hasConsentedToAnalytics (s_analytics s)));
     ("hasSeenAnalyticsConsentModal", JBool (hasSeenAnalyticsConsentModal (s_analytics s)))]
  else [].

(** The state as Storage.v reads it. *)
Definition to_common (s : RootState) : Storage.CommonState := fun slice =>
  if decide (slice = "environment") then environment_fields (s_environment s)
  else if decide (slice = "currency") then currency_fields (s_currency s)
  else if decide (slice = "federation") then federation_fields (s_federation s)
  else if decide (slice = "matrix") then matrix_fields (s_matrix s)
  else if decide (slice = "mod") then mod_fields (s_mod s)
  else small_fields s slice.

(** What [saveToStorage] stores, as [JSON.parse] reads it back. *)
Definition saved_document (s : RootState) : obj :=
  json_props (transformStateToStorage (to_common s)).

(** ** Restoring

    A document has the declared types: each slice reads its fields at them. *)
Definition read_currency (doc : obj) : RestoredCurrency :=
  mkRestoredCurrency (as_str (get "currency" doc)) (as_num (get "btcUsdRate" doc))
    (own_props (get "fiatUsdRates" doc)) (own_props (get "customFederationCurrencies" doc))
    (default "" (as_str (get "balanceDisplay" doc))).

Definition read_federation (doc : obj) : Federation.Restored :=
  Federation.mkRestored (as_strs (get "recentlyUsedFederationIds" doc))
    (as_str (get "lastSelectedCommunityId" doc)) (get "authenticatedGuardian" doc)
    (as_oobj (get "customFediMods" doc)) (as_strs (get "seenFederationRatings" doc))
    (as_oobj (get "previouslyAutojoinedCommunities" doc))
    (as_ostrs (get "autojoinNoticesToDisplay" doc)) (as_str (get "selectedFederationId" doc)).

Definition read_chat (doc : obj) : StoredChat :=
  mkStored (prod_map id (fun v => default "" (as_str v)) <$> own_props (get "chatDrafts" doc))
    (as_strs (get "rejectedRoomInvites" doc)) (as_strs (get "seenRoomInvites" doc))
    (prod_map id as_strs <$> own_props (get "seenKnockRequests" doc)).

Definition read_mods (doc : obj) : StoredMods :=
  mkStoredMods (as_oobj (get "customGlobalMods" doc)) (as_oobj (get "modVisibility" doc))
    (as_ostrs (get "newMods" doc)) (as_oobj (get "miniAppPermissions" doc))
    (as_ostrs (get "miniAppOrder" doc)).

Section Store.
Context (isEqual : jval -> jval -> bool).
Context (orderByCounterDesc : list MatrixEvents.MultispendListedEvent ->
  list MatrixEvents.MultispendListedEvent).
Context (url_string : string -> string -> list (string * string) -> result string).
Context (origin : string -> result string).
Context (omit : record MiniAppSession -> string -> record MiniAppSession).
Context (isExperimental isDev : bool).

Definition root_initialState : RootState :=
  mkRoot currency_initialState environment_initialState Federation.initialState fi_initialState
    matrix_initialState (mod_initialState isExperimental isDev) nux_initialState
    reminder_initialState recovery_initialState storage_initialState toast_initialState
    transactions_initialState ∅ security_initialState browser_initialState support_initialState
    survey_initialState analytics_initialState.

(** [loadFromStorage.fulfilled] reaches every slice that has a case for it. *)
Definition root_load (uuid : string) (payload : option obj) (s : RootState) : RootState :=
  s <| s_currency := currency_loadFromStorage (read_currency <$> payload) (s_currency s) |>
    <| s_environment := environment_loadFromStorage payload (s_environment s) |>
    <| s_federation := Federation.loadFromStorage_fulfilled (read_federation <$> payload) (s_federation s) |>
    <| s_matrix := matrix_loadFromStorage (read_chat <$> payload) (s_matrix s) |>
    <| s_mod := mods_loadFromStorage isExperimental isDev (read_mods <$> payload) (s_mod s) |>
    <| s_nux := nux_loadFromStorage payload (s_nux s) |>
    <| s_reminder := reminder_loadFromStorage payload (s_reminder s) |>
    <| s_storage := storage_loadFromStorage (s_storage s) |>
    <| s_security := security_loadFromStorage payload (s_security s) |>
    <| s_support := support_loadFromStorage payload (s_support s) |>
    <| s_survey := survey_loadFromStorage payload (s_survey s) |>
    <| s_analytics := analytics_loadFromStorage uuid payload (s_analytics s) |>.
End Store.

(** ** Objects of the language that a copy rebuilds *)

Lemma spread_disjoint acc p :
  NoDup (keys (acc ++ p)) -> Forall (fun k => array_index k = None) (keys p) ->
  spread acc p = acc ++ p.
Proof.
  unfold spread, keys. revert acc. induction p as [|[k v] p IH]; intros acc D I; csimpl.
  { by rewrite app_nil_r. }
  csimpl in I. apply list.Forall_cons in I as [Ik I].
  assert (N : lookup_prop k acc = None).
  { destruct (lookup_prop k acc) eqn:E; [|done]. exfalso.
    assert (K : k ∈ acc.*1) by (apply lookup_prop_keys; by eexists).
    rewrite fmap_app in D. apply list.NoDup_app in D as (_ & D & _). apply (D k K). left. }
  assert (E : set_prop k v acc = acc ++ [(k, v)]) by (unfold set_prop; by rewrite N, Ik).
  rewrite E, IH; [by rewrite <- app_assoc | by rewrite <- app_assoc | done].
Qed.

(** The keys of a record that is not indexed, each once. *)
Definition plain (ks : list string) : Prop := NoDup ks /\ Forall (fun k => array_index k = None) ks.

#[export] Instance plain_dec ks : Decision (plain ks).
Proof. unfold plain. apply _. Defined.

Lemma spread_plain p : plain (keys p) -> spread [] p = p.
Proof. intros [D I]. by apply spread_disjoint. Qed.

Lemma eq_by_lookup (o p : obj) :
  keys o = keys p -> NoDup (keys o) -> (forall k, lookup_prop k o = lookup_prop k p) -> o = p.
Proof.
  unfold keys. revert p. induction o as [|[k v] o IH]; intros [|[k' v'] p]; csimpl; try done.
  intros [= <- E] [N D]%list.NoDup_cons L. pose proof (L k) as Lk. cbn in Lk.
  rewrite !decide_True in Lk by done. injection Lk as <-. f_equal. apply IH; [done | done |].
  intros k'. pose proof (L k') as L'. cbn in L'. destruct (decide (k' = k)) as [->|]; [|done].
  destruct (lookup_prop k o) eqn:E1.
  { exfalso. apply N, lookup_prop_keys. by eexists. }
  destruct (lookup_prop k p) eqn:E2; [|done].
  exfalso. apply N. rewrite E. apply lookup_prop_keys. by eexists.
Qed.

Lemma keys_spread_known o p : Forall (fun k => k ∈ keys o) (keys p) -> keys (spread o p) = keys o.
Proof.
  unfold spread, keys. revert o. induction p as [|[k v] p IH]; intros o F; csimpl; [done|].
  csimpl in F. apply list.Forall_cons in F as [Hk F].
  assert (E : (set_prop k v o).*1 = o.*1).
  { unfold set_prop. apply lookup_prop_keys in Hk as [w ->]. apply keys_replace. }
  rewrite IH; [done|]. by rewrite E.
Qed.

Lemma spread_same_keys o p : keys o = keys p -> NoDup (keys p) -> spread o p = p.
Proof.
  intros E D. apply eq_by_lookup.
  - rewrite keys_spread_known; [done|]. rewrite E. by apply list.Forall_forall.
  - rewrite keys_spread_known; [by rewrite E|]. rewrite E. by apply list.Forall_forall.
  - intros k. rewrite lookup_spread_wf by done.
    destruct (lookup_prop k p) eqn:L; [done|]. destruct (lookup_prop k o) eqn:L'; [|done].
    exfalso. assert (H : k ∈ keys o) by (apply lookup_elem_keys; by eexists).
    rewrite E in H. apply lookup_elem_keys in H as [w H]. congruence.
Qed.

(** Flags: a boolean for each of some keys. *)
Definition flags (ks : list string) (o : obj) : Prop :=
  keys o = ks /\ Forall (fun kv => exists b, kv.2 = JBool b) o.

Lemma restore_flags known acc stored :
  flags (keys known) stored -> restore_known known acc stored = spread acc stored.
Proof.
  intros [E F]. unfold restore_known, spread.
  assert (K : Forall (fun kv => has kv.1 known = true) stored).
  { apply list.Forall_forall. intros kv H. unfold has. apply bool_decide_eq_true, lookup_elem_keys.
    rewrite <- E. apply list_elem_of_fmap. by exists kv. }
  clear E. revert acc. induction stored as [|[k v] l IH]; intros acc; cbn [foldl]; [done|].
  apply list.Forall_cons in F as [[b Eb] F]. apply list.Forall_cons in K as [Hk K].
  cbn in Eb, Hk |- *. subst v. rewrite Hk, bool_decide_false by done. cbn [negb andb].
  by apply IH.
Qed.

(** ** Values that JSON keeps *)

Lemma json_strs l : json_copy (strs l) = Some (strs l).
Proof.
  unfold strs. cbn [json_copy]. do 2 f_equal.
  induction l as [|x l IH]; csimpl; [done|]. by f_equal.
Qed.

Lemma as_strs_strs l : as_strs (strs l) = l.
Proof. unfold as_strs, strs. induction l as [|x l IH]; csimpl; [done|]. by f_equal. Qed.

Lemma as_ostrs_strs l : as_ostrs (strs l) = Some l.
Proof. unfold as_ostrs. cbn [strs truthy]. by rewrite as_strs_strs. Qed.

Lemma json_record {V} (f : V -> jval) (r : list (string * V)) :
  (forall kv, kv ∈ r -> json_copy (f kv.2) = Some (f kv.2)) ->
  json_props (prod_map id f <$> r) = prod_map id f <$> r.
Proof.
  unfold json_props. induction r as [|[k v] r IH]; intros H; csimpl; [done|].
  assert (E : json_copy (f v) = Some (f v)) by (apply (H (k, v)); left).
  rewrite E. csimpl. f_equal. apply IH. intros kv Hkv. apply H. by right.
Qed.

Lemma json_flags ks o : flags ks o -> json_props o = o.
Proof.
  intros [_ F]. unfold json_props. induction F as [|[k v] o [b E] F IH]; csimpl; [done|].
  cbn in E. subst v. csimpl. by rewrite IH.
Qed.

Lemma read_record {V} (f : V -> jval) (g : jval -> V) (r : list (string * V)) :
  (forall v, g (f v) = v) -> prod_map id g <$> (prod_map id f <$> r) = r.
Proof.
  intros H. induction r as [|[k v] r IH]; csimpl; [done|]. rewrite IH. unfold prod_map. csimpl.
  by rewrite H.
Qed.

Lemma of_str_json o : json_copy (of_str o) = Some (of_str o).
Proof. by destruct o. Qed.
Lemma as_of_str o : as_str (of_str o) = o.
Proof. by destruct o. Qed.

(** ** Reading a saved document *)

Lemma lookup_json_props k o :
  NoDup (keys o) -> lookup_prop k (json_props o) = lookup_prop k o ≫= json_copy.
Proof.
  unfold json_props, keys. induction o as [|[k' v] o IH]; intros D; csimpl; [done|].
  csimpl in D. apply list.NoDup_cons in D as [N D].
  destruct (decide (k = k')) as [->|E].
  - csimpl. destruct (json_copy v) as [v'|]; csimpl; [by rewrite decide_True|].
    rewrite IH by done. destruct (lookup_prop k' o) eqn:L; [|done].
    exfalso. apply N, lookup_prop_keys. by eexists.
  - destruct (json_copy v); csimpl; [rewrite decide_False by done|]; by rewrite IH.
Qed.

(** The document of a state, field by field. *)
Definition saved_fields (s : RootState) : obj := [
  ("version", vnum 49);
  ("onchainDepositsEnabled", JBool (onchainDepositsEnabled (s_environment s)));
  ("developerMode", JBool (developerMode (s_environment s)));
  ("stableBalanceEnabled", JBool (stableBalanceEnabled (s_environment s)));
  ("language", of_str (language (s_environment s)));
  ("amountInputType", of_ustr (amountInputType (s_environment s)));
  ("transactionDisplayType", JStr (transactionDisplayType (s_environment s)));
  ("deviceId", of_ustr (deviceId (s_environment s)));
  ("currency", of_str (overrideCurrency (s_currency s)));
  ("btcUsdRate", JNum (Currency.btcUsdRate (s_currency s)));
  ("fiatUsdRates", JObj (fiatUsdRates (s_currency s)));
  ("customFederationCurrencies", JObj (customFederationCurrencies (s_currency s)));
  ("authenticatedGuardian", authenticatedGuardian (s_federation s));
  ("customFediMods", JObj (customFediMods (s_federation s)));
  ("nuxSteps", JObj (steps (s_nux s)));
  ("personalBackupReminder", JObj [
    ("countdownStartedAt", of_num (countdownStartedAt (s_reminder s)));
    ("hasReachedThresholds", JBool (hasReachedThresholds (s_reminder s)))]);
  ("matrixAuth", match auth (s_matrix s) with Some a => JObj a | None => JNull end);
  ("protectedFeatures", JObj (protectedFeatures (s_security s)));
  ("customGlobalMods", JObj (customGlobalMods (s_mod s)));
  ("miniAppPermissions", JObj (miniAppPermissions (s_mod s)));
  ("miniAppOrder", strs (miniAppOrder (s_mod s)));
  ("modVisibility", JObj (modVisibility (s_mod s)));
  ("newMods", strs (newMods (s_mod s)));
  ("chatDrafts", JObj (prod_map id JStr <$> drafts (s_matrix s)));
  ("support", JObj [
    ("supportPermissionGranted", JBool (supportPermissionGranted (s_support s)));
    ("zendeskPushNotificationToken", of_str (zendeskPushNotificationToken (s_support s)))]);
  ("seenFederationRatings", strs (seenFederationRatings (s_federation s)));
  ("lastShownSurveyTimestamp", JNum (lastShownSurveyTimestamp (s_survey s)));
  ("surveyCompletions", JObj (prod_map id of_completion <$> surveyCompletions (s_survey s)));
  ("lastSelectedCommunityId", of_str (lastSelectedCommunityId (s_federation s)));
  ("recentlyUsedFederationIds", strs (recentlyUsedFederationIds (s_federation s)));
  ("previouslyAutojoinedCommunities", JObj (previouslyAutojoinedCommunities (s_federation s)));
  ("autojoinNoticesToDisplay", strs (autojoinNoticesToDisplay (s_federation s)));
  ("analyticsId", of_str (analyticsId (s_analytics s)));
  ("hasConsentedToAnalytics", of_bool (hasConsentedToAnalytics (s_analytics s)));
  ("sessionCount", JNum (sessionCount (s_environment s)));
  ("hasSeenAnalyticsConsentModal", JBool (hasSeenAnalyticsConsentModal (s_analytics s)));
  ("balanceDisplay", JStr (balanceDisplay (s_currency s)));
  ("lastUsedTab", JStr (lastUsedTab (s_environment s)));
  ("rejectedRoomInvites", strs (rejectedRoomInvites (s_matrix s)));
  ("seenRoomInvites", strs (seenRoomInvites (s_matrix s)));
  ("seenKnockRequests", JObj (prod_map id strs <$> seenKnockRequests (s_matrix s)));
  ("paymentType", JStr (paymentType (s_environment s)));
  ("selectedFederationId", of_str (selectedFederationId (s_federation s)));
  ("latestAwareReleaseTag", of_str (latestAwareReleaseTag (s_environment s)))].

Lemma transform_fields s : transformStateToStorage (to_common s) = saved_fields s.
Proof. reflexivity. Qed.

Lemma saved_keys s : plain (keys (transformStateToStorage (to_common s))).
Proof.
  rewrite transform_fields. replace (keys _) with (keys (transformStateToStorage (fun _ => [])))
    by reflexivity. apply (bool_decide_unpack _). vm_compute. exact I.
Qed.

Lemma saved_get s k v :
  lookup_prop k (saved_fields s) = Some v ->
  get k (saved_document s) = default JUndef (json_copy v).
Proof.
  intros H. unfold get, saved_document. rewrite lookup_json_props by apply saved_keys.
  rewrite transform_fields. by rewrite H.
Qed.

(** ** What a restart restores *)

(** The fields that are saved have their declared types, and the values without
    a type are JSON: numbers are finite and no property is [undefined]. *)
Record storable (s : RootState) : Prop := {
  so_input : amountInputType (s_environment s) ∈ [None; Some "sats"; Some "fiat"];
  so_display : transactionDisplayType (s_environment s) ∈ ["sats"; "fiat"];
  so_sessions : is_finite (sessionCount (s_environment s)) = true;
  so_rate : is_finite (Currency.btcUsdRate (s_currency s)) = true;
  so_rates : json_props (fiatUsdRates (s_currency s)) = fiatUsdRates (s_currency s);
  so_currencies : json_props (customFederationCurrencies (s_currency s)) =
    customFederationCurrencies (s_currency s);
  so_guardian : json_copy (authenticatedGuardian (s_federation s)) =
    Some (authenticatedGuardian (s_federation s));
  so_community_mods : json_props (customFediMods (s_federation s)) = customFediMods (s_federation s);
  so_autojoined : json_props (previouslyAutojoinedCommunities (s_federation s)) =
    previouslyAutojoinedCommunities (s_federation s);
  so_selected : selectedFederationId (s_federation s) <> Some "";
  so_mods : json_props (customGlobalMods (s_mod s)) = customGlobalMods (s_mod s);
  so_visibility : json_props (modVisibility (s_mod s)) = modVisibility (s_mod s);
  so_permissions : json_props (miniAppPermissions (s_mod s)) = miniAppPermissions (s_mod s);
  so_steps : flags (keys nux_initial_steps) (steps (s_nux s));
  so_countdown : forall t, countdownStartedAt (s_reminder s) = Some t -> is_finite t = true;
  so_protected : flags (keys (features true)) (protectedFeatures (s_security s));
  so_surveyed : is_finite (lastShownSurveyTimestamp (s_survey s)) = true;
  so_dismissed : Forall (fun kc => is_finite (timesDismissed kc.2) = true)
    (surveyCompletions (s_survey s));
  so_analytics : exists id, analyticsId (s_analytics s) = Some id /\ id <> "" }.

(** Replace the fields of the saved document of [s] by their values. *)
Ltac note_saved s k := pose proof (saved_get s k _ eq_refl).
Ltac forget_document s :=
  let doc := fresh "doc" in set (doc := saved_document s) in *; clearbody doc.
Ltac read_saved :=
  repeat match goal with H : get ?k ?doc = _ |- context [get ?k ?doc] => rewrite H; clear H end.

Section Restart.
Context (isExperimental isDev : bool).

Lemma environment_restored s : storable s ->
  environment_fields
    (environment_loadFromStorage (Some (saved_document s)) environment_initialState) =
  environment_fields
    (s_environment s <| sessionCount := add (sessionCount (s_environment s)) (of_Z 1) |>).
Proof.
  intros H. note_saved s "language". note_saved s "amountInputType".
  note_saved s "onchainDepositsEnabled". note_saved s "stableBalanceEnabled".
  note_saved s "developerMode". note_saved s "transactionDisplayType". note_saved s "deviceId".
  note_saved s "sessionCount". note_saved s "lastUsedTab". note_saved s "paymentType".
  note_saved s "latestAwareReleaseTag". forget_document s.
  unfold environment_loadFromStorage, load_flag, load_optional, load_defined. read_saved.
  pose proof (so_input s H) as I. pose proof (so_display s H) as D. pose proof (so_sessions s H) as F.
  destruct (s_environment s) as [? dev ? ? ? ? onchain stable lang input display device ? ? ? ? ? ? ?
    ? ? count ? ? tab pay tag ? ? ?]. cbn in I, D, F |- *. rewrite F.
  unfold environment_fields. cbn.
  repeat (apply elem_of_cons in I as [->|I]); [| | |by apply elem_of_nil in I];
    repeat (apply elem_of_cons in D as [->|D]); try (by apply elem_of_nil in D);
    destruct dev, onchain, stable, lang, device, tag; reflexivity.
Qed.

Lemma json_obj o : json_props o = o -> json_copy (JObj o) = Some (JObj o).
Proof. rewrite json_copy_obj. by intros ->. Qed.

Lemma json_num n : is_finite n = true -> json_copy (JNum n) = Some (JNum n).
Proof. cbn [json_copy]. by intros ->. Qed.

Lemma currency_restored s : storable s ->
  currency_fields (currency_loadFromStorage (Some (read_currency (saved_document s)))
                     currency_initialState) =
  currency_fields (s_currency s).
Proof.
  intros H. unfold read_currency. note_saved s "currency". note_saved s "btcUsdRate".
  note_saved s "fiatUsdRates". note_saved s "customFederationCurrencies".
  note_saved s "balanceDisplay". forget_document s. read_saved.
  rewrite (json_num _ (so_rate s H)), (json_obj _ (so_rates s H)), (json_obj _ (so_currencies s H)).
  rewrite of_str_json. cbn [from_option id]. rewrite as_of_str. by destruct (s_currency s).
Qed.

Lemma federation_restored s : storable s ->
  federation_fields (Federation.loadFromStorage_fulfilled (Some (read_federation (saved_document s)))
                       Federation.initialState) =
  federation_fields (s_federation s).
Proof.
  intros H. unfold read_federation. note_saved s "recentlyUsedFederationIds".
  note_saved s "lastSelectedCommunityId". note_saved s "authenticatedGuardian".
  note_saved s "customFediMods". note_saved s "seenFederationRatings".
  note_saved s "previouslyAutojoinedCommunities". note_saved s "autojoinNoticesToDisplay".
  note_saved s "selectedFederationId". forget_document s. read_saved.
  rewrite !json_strs, !of_str_json, (so_guardian s H), (json_obj _ (so_community_mods s H)),
    (json_obj _ (so_autojoined s H)). cbn [from_option id]. rewrite !as_of_str, !as_strs_strs, as_ostrs_strs.
  unfold federation_fields. cbn -[strs].
  pose proof (so_selected s H) as N. destruct (selectedFederationId _) as [[|]|]; done.
Qed.

Lemma chat_restored s :
  matrix_fields (matrix_loadFromStorage (Some (read_chat (saved_document s))) matrix_initialState) =
  matrix_fields (s_matrix s <| auth := None |>).
Proof.
  unfold read_chat. note_saved s "chatDrafts". note_saved s "rejectedRoomInvites".
  note_saved s "seenRoomInvites". note_saved s "seenKnockRequests". forget_document s. read_saved.
  rewrite !json_strs, !json_copy_obj, !json_record by (intros; apply json_strs || reflexivity).
  cbn [from_option id own_props]. rewrite !as_strs_strs, !read_record by (apply as_strs_strs || reflexivity).
  reflexivity.
Qed.

Definition with_first_party (s : ModState) : ModState :=
  s <| miniAppPermissions :=
    spread (FIRST_PARTY_PERMISSIONS isExperimental isDev) (miniAppPermissions s) |>.

Lemma mods_restored s : storable s ->
  mod_fields (mods_loadFromStorage isExperimental isDev (Some (read_mods (saved_document s)))
                (mod_initialState isExperimental isDev)) =
  mod_fields (with_first_party (s_mod s)).
Proof.
  intros H. unfold read_mods. note_saved s "customGlobalMods". note_saved s "modVisibility".
  note_saved s "newMods". note_saved s "miniAppPermissions". note_saved s "miniAppOrder".
  forget_document s. read_saved.
  rewrite !json_strs, (json_obj _ (so_mods s H)), (json_obj _ (so_visibility s H)),
    (json_obj _ (so_permissions s H)). cbn [from_option id].
  by rewrite !as_ostrs_strs.
Qed.

Lemma plain_known ks (o : obj) : bool_decide (plain ks) = true -> flags ks o -> plain (keys o).
Proof. intros B [-> _]. by apply bool_decide_eq_true in B. Qed.

Lemma nux_restored s : storable s ->
  nux_loadFromStorage (Some (saved_document s)) nux_initialState = s_nux s.
Proof.
  intros H. unfold nux_loadFromStorage. note_saved s "nuxSteps". forget_document s. read_saved.
  pose proof (so_steps s H) as F. rewrite (json_obj _ (json_flags _ _ F)). cbn [from_option id own_props].
  rewrite restore_flags by exact F. rewrite spread_plain by (by eapply plain_known; [|exact F]).
  by destruct (s_nux s).
Qed.

Lemma security_restored s : storable s ->
  protectedFeatures (security_loadFromStorage (Some (saved_document s)) security_initialState) =
  protectedFeatures (s_security s).
Proof.
  intros H. unfold security_loadFromStorage. note_saved s "protectedFeatures". forget_document s.
  read_saved. pose proof (so_protected s H) as F. rewrite (json_obj _ (json_flags _ _ F)).
  cbn -[restore_known features]. rewrite restore_flags by exact F.
  apply spread_same_keys; [symmetry; apply F|]. by apply (plain_known (keys (features true)) _ eq_refl F).
Qed.

Lemma json_completions (l : list (string * Completion)) :
  Forall (fun kc => is_finite (timesDismissed kc.2) = true) l ->
  json_copy (JObj (prod_map id of_completion <$> l)) = Some (JObj (prod_map id of_completion <$> l)).
Proof.
  intros F. apply json_obj, json_record. intros [k c] Hc. rewrite list.Forall_forall in F.
  specialize (F _ Hc). cbn in F |- *. by rewrite F.
Qed.

Lemma reminder_restored s : storable s ->
  let r := reminder_loadFromStorage (Some (saved_document s)) reminder_initialState in
  countdownStartedAt r = countdownStartedAt (s_reminder s) /\
  hasReachedThresholds r = hasReachedThresholds (s_reminder s).
Proof.
  intros H. unfold reminder_loadFromStorage. note_saved s "personalBackupReminder".
  forget_document s. read_saved. pose proof (so_countdown s H) as F.
  destruct (s_reminder s) as [[t|] d r]; cbn in F |- *; [by rewrite (F t eq_refl) | done].
Qed.

Lemma support_restored s :
  let r := support_loadFromStorage (Some (saved_document s)) support_initialState in
  supportPermissionGranted r = supportPermissionGranted (s_support s) /\
  zendeskPushNotificationToken r = zendeskPushNotificationToken (s_support s).
Proof.
  unfold support_loadFromStorage. note_saved s "support". forget_document s. read_saved.
  by destruct (s_support s) as [b [t|] ? ?].
Qed.

Lemma survey_restored s : storable s ->
  let r := survey_loadFromStorage (Some (saved_document s)) survey_initialState in
  lastShownSurveyTimestamp r = lastShownSurveyTimestamp (s_survey s) /\
  surveyCompletions r = surveyCompletions (s_survey s).
Proof.
  intros H. unfold survey_loadFromStorage. note_saved s "lastShownSurveyTimestamp".
  note_saved s "surveyCompletions". forget_document s. read_saved.
  rewrite (json_num _ (so_surveyed s H)), (json_completions _ (so_dismissed s H)).
  cbn [from_option id own_props]. rewrite read_record; [done|]. by intros [k b].
Qed.

Lemma analytics_restored uuid s : storable s ->
  analytics_loadFromStorage uuid (Some (saved_document s)) analytics_initialState = s_analytics s.
Proof.
  intros H. unfold analytics_loadFromStorage. note_saved s "analyticsId".
  note_saved s "hasConsentedToAnalytics". note_saved s "hasSeenAnalyticsConsentModal".
  cbn [from_option id]. forget_document s. read_saved.
  destruct (so_analytics s H) as (i & E & N).
  destruct (s_analytics s) as [consent seen ?]. cbn in E |- *. subst.
  rewrite of_str_json. cbn [from_option id of_str truthy].
  rewrite bool_decide_false by done. by destruct consent.
Qed.

(** What a restart changes of what is saved: the session is counted, the user is
    not signed in to the chat yet, and the mini apps of the app itself have their
    permissions. *)
Definition after_restart (s : RootState) : RootState :=
  s <| s_environment := s_environment s
         <| sessionCount := add (sessionCount (s_environment s)) (of_Z 1) |> |>
    <| s_matrix := s_matrix s <| auth := None |> |>
    <| s_mod := with_first_party (s_mod s) |>.

(** The app started on a document. *)
Definition restarted (uuid : string) (doc : obj) : RootState :=
  root_load isExperimental isDev uuid (Some doc) (root_initialState isExperimental isDev).

Lemma restored_fields uuid s slice : storable s ->
  to_common (restarted uuid (saved_document s)) slice = to_common (after_restart s) slice.
Proof.
  intros H. unfold to_common, small_fields.
  repeat case_decide; [exact (environment_restored s H) | exact (currency_restored s H) |
    exact (federation_restored s H) | exact (chat_restored s) | exact (mods_restored s H) |
    | | | | | | done];
    cbn [restarted root_load after_restart s_nux s_reminder s_security s_support s_survey
      s_analytics setter eta RootState_eta root_initialState].
  - by rewrite nux_restored.
  - by destruct (reminder_restored s H) as [-> ->].
  - by rewrite security_restored.
  - by destruct (support_restored s) as [-> ->].
  - by destruct (survey_restored s H) as [-> ->].
  - by rewrite analytics_restored.
Qed.

Section Migrated.
(** What migrations read, as in Storage.v. *)
Context (getItem : string -> option string) (now : num).
Context (orderByDesc : (jval -> jval) -> list jval -> list jval).
Context (omitProps : obj -> list string -> obj).

(** [getStoredState] on the document saved last. *)
Definition getStoredState (saved : option obj) : result (option obj) :=
  match saved with
  | None => Ok None
  | Some doc => Some <$> migrateStoredState getItem now orderByDesc omitProps doc
  end.

Lemma saved_plain s : plain (keys (saved_document s)).
Proof.
  destruct (saved_keys s) as [D I]. unfold saved_document.
  assert (K : sublist (keys (json_props (transformStateToStorage (to_common s))))
                (keys (transformStateToStorage (to_common s)))).
  { generalize (transformStateToStorage (to_common s)). clear D I. intros o.
    unfold json_props, keys. induction o as [|[k v] o IH]; csimpl; [constructor|].
    destruct (json_copy v); csimpl; by constructor. }
  split; [by eapply sublist_NoDup|].
  apply list.Forall_forall. intros k Hk. rewrite list.Forall_forall in I. apply I.
  by eapply elem_of_submseteq; [|apply sublist_submseteq].
Qed.

Lemma saved_is_current s :
  getStoredState (Some (saved_document s)) = Ok (Some (saved_document s)).
Proof.
  unfold getStoredState, migrateStoredState. rewrite spread_plain by apply saved_plain.
  change (migrations getItem now orderByDesc omitProps)
    with (drop 0 (migrations getItem now orderByDesc omitProps)).
  rewrite (run_skip _ _ _ _ 0 49); [done | | lia | lia].
  unfold ver, version_of. by rewrite (saved_get s "version" _ eq_refl).
Qed.

End Migrated.
End Restart.

(** ** Transitions of the store *)

Inductive currency_action : Type :=
  | ChangeOverrideCurrency (c : option string)
  | SetCurrencyLocale (l : string)
  | ResetCurrencyState
  | SetFederationCurrency (federationId currency : string)
  | SetBalanceDisplay (d : string)
  | CurrencyPricesFetched (btcUsdRate : num) (fiatUsdRates : obj).

(** [currencySlice.reducer] *)
Definition currency_reduce (s : CurrencyState) (a : currency_action) : CurrencyState :=
  match a with
  | ChangeOverrideCurrency c => changeOverrideCurrency c s
  | SetCurrencyLocale l => setCurrencyLocale l s
  | ResetCurrencyState => resetCurrencyState s
  | SetFederationCurrency f c => setFederationCurrency f c s
  | SetBalanceDisplay d => setBalanceDisplay d s
  | CurrencyPricesFetched r rates => fetchCurrencyPrices_fulfilled (r, rates) s
  end.

Inductive wallet_action : Type :=
  | SetStabilityPoolState (federationId : string) (p : StabilityPool.StabilityPoolState)
  | SetStabilityPoolAvailableLiquidity (federationId : string) (l : num)
  | ResetFederationWalletState (federationId : string)
  | ResetWalletState
  | SetLnurlReceiveCode (federationId code : string)
  | SetSupportsRecurringdLnurl (federationId : string) (b : bool)
  | AvailableLiquidityFetched (federationId : string) (l : num)
  | AverageFeeRateFetched (federationId : string) (r : num).

(** [walletSlice.reducer] *)
Definition wallet_reduce (s : WalletState) (a : wallet_action) : WalletState :=
  match a with
  | SetStabilityPoolState f p => setStabilityPoolState f p s
  | SetStabilityPoolAvailableLiquidity f l => setStabilityPoolAvailableLiquidity f l s
  | ResetFederationWalletState f => resetFederationWalletState f s
  | ResetWalletState => resetWalletState s
  | SetLnurlReceiveCode f c => setLnurlReceiveCode f c s
  | SetSupportsRecurringdLnurl f b => setSupportsRecurringdLnurl f b s
  | AvailableLiquidityFetched f l => fetchStabilityPoolAvailableLiquidity_fulfilled f l s
  | AverageFeeRateFetched f r => fetchStabilityPoolAverageFeeRate_fulfilled f r s
  end.

Section Transitions.
Context (isEqual : jval -> jval -> bool).
Context (orderByCounterDesc : list MatrixEvents.MultispendListedEvent ->
  list MatrixEvents.MultispendListedEvent).
Context (url_string : string -> string -> list (string * string) -> result string).
Context (orderBy : list obj -> list obj) (origin : string -> result string).
Context (omit : record MiniAppSession -> string -> record MiniAppSession).
Context (isExperimental isDev : bool).

(** [rootReducer], one action at a time: those of a slice, and those that
    several slices react to. *)
Inductive root_step (s : RootState) : RootState -> Prop :=
  | on_currency a : root_step s (s <| s_currency := currency_reduce (s_currency s) a |>)
  | on_environment a : root_step s (s <| s_environment := environment_reduce (s_environment s) a |>)
  | on_federation f : Federation.fed_step isEqual (s_federation s) f ->
      root_step s (s <| s_federation := f |>)
  | on_fi a : root_step s (s <| s_fi := fi_reduce (s_fi s) a |>)
  | on_matrix a : root_step s (s <| s_matrix :=
      matrix_reduce isEqual orderByCounterDesc url_string (s_matrix s) a |>)
  | on_mod a : root_step s (s <| s_mod := mods_step isEqual origin isExperimental isDev (s_mod s) a |>)
  | on_completeNuxStep step : root_step s (s <| s_nux := completeNuxStep step (s_nux s) |>)
  | on_resetNuxStep step : root_step s (s <| s_nux := resetNuxStep step (s_nux s) |>)
  | on_resetNuxSteps :
      root_step s (s <| s_nux := resetNuxSteps (s_nux s) |>
                     <| s_reminder := reminder_resetNuxSteps (s_reminder s) |>)
  | on_reminder f : f ∈ [dismissForSession; reachedThresholds] ->
      root_step s (s <| s_reminder := f (s_reminder s) |>)
  | on_countdown t : root_step s (s <| s_reminder := setCountdownStartedAt t (s_reminder s) |>)
  | on_countdownForTesting t :
      root_step s (s <| s_reminder := setCountdownForTesting t (s_reminder s) |>)
  | on_recovery a : root_step s (s <| s_recovery := recovery_reduce (s_recovery s) a |>)
  | on_readyToSave b : root_step s (s <| s_storage := setReadyToSave b (s_storage s) |>)
  | on_saved now : root_step s (s <| s_storage := saveToStorage_fulfilled now (s_storage s) |>)
  | on_setToast t : root_step s (s <| s_toast := setToast t (s_toast s) |>)
  | on_closeToast key : root_step s (s <| s_toast := closeToast key (s_toast s) |>)
  | on_transactions a : root_step s (s <| s_transactions := txs_reduce orderBy (s_transactions s) a |>)
  | on_wallet a : root_step s (s <| s_wallet := wallet_reduce (s_wallet s) a |>)
  | on_unlocked key b : root_step s (s <| s_security := setFeatureUnlocked key b (s_security s) |>)
  | on_protected key b : root_step s (s <| s_security := setProtectedFeature key b (s_security s) |>)
  | on_backingUp b : root_step s (s <| s_security := setIsBackingUpBeforePin b (s_security s) |>)
  | on_browser a : root_step s (s <| s_browser := browser_reduce omit (s_browser s) a |>)
  | on_supportPermission b : root_step s (s <| s_support := setSupportPermission b (s_support s) |>)
  | on_zendeskToken t :
      root_step s (s <| s_support := setZendeskPushNotificationToken t (s_support s) |>)
  | on_zendeskInitialized b :
      root_step s (s <| s_support := setZendeskInitialized b (s_support s) |>)
  | on_zendeskCount n :
      root_step s (s <| s_support := setZendeskUnreadMessageCount n (s_support s) |>)
  | on_activeSurvey a : root_step s (s <| s_survey := setActiveSurvey a (s_survey s) |>)
  | on_surveyTimestamp t : root_step s (s <| s_survey := setSurveyTimestamp t (s_survey s) |>)
  | on_survey f : f ∈ [dismissActiveSurvey; acceptActiveSurvey; resetSurveyCompletions] ->
      root_step s (s <| s_survey := f (s_survey s) |>)
  | on_consent b : root_step s (s <| s_analytics := setHasConsentedToAnalytics b (s_analytics s) |>)
  | on_consentSeen b :
      root_step s (s <| s_analytics := setHasSeenAnalyticsConsentModal b (s_analytics s) |>)
  | on_analyticsId id : root_step s (s <| s_analytics := setAnalyticsId id (s_analytics s) |>)
  | on_clearAnalytics : root_step s (s <| s_analytics := clearAnalyticsState (s_analytics s) |>)
  | on_communityMods id mods :
      root_step s (s <| s_federation := Federation.setCommunityCustomFediMods isEqual id
                          match mods with Some l => JArr (JObj <$> l) | None => JUndef end
                          (s_federation s) |>
                     <| s_mod := mods_step isEqual origin isExperimental isDev (s_mod s)
                          (SetCommunityCustomFediMods mods) |>)
  | on_defaultChats communityId chats previews :
      root_step s (s <| s_federation := Federation.previewCommunityDefaultChats_fulfilled isEqual
                          communityId chats (s_federation s) |>
                     <| s_matrix := matrix_reduce isEqual orderByCounterDesc url_string (s_matrix s)
                          (DefaultChatsPreviewed previews) |>)
  | on_load uuid payload : root_step s (root_load isExperimental isDev uuid payload s).

(** ** Saving

    [ref_eq] is identity of references, as in Storage.v. *)
Context (ref_eq : jval -> jval -> bool).

(** What the listener's predicate says of a transition. *)
Definition noticed (s s' : RootState) : bool :=
  hasStorageStateChanged ref_eq (to_common s') (to_common s).

(** The store with its storage: the document that is stored, the writes that
    are under way in the order they were made, whether the listener was started,
    and whether a save waits for its delay. *)
Record System := mkSystem {
  root : RootState;
  disk : option obj;
  writes : list obj;
  listening : bool;
  timer : bool
}.

Context (getItem : string -> option string) (clock : num).
Context (orderByDesc : (jval -> jval) -> list jval -> list jval).
Context (omitProps : obj -> list string -> obj).
Abbreviation stored := (getStoredState getItem clock orderByDesc omitProps).

Inductive sys_step (y : System) : System -> Prop :=
  (* an action; a change that is noticed schedules a save anew *)
  | sys_dispatch s : root_step (root y) s ->
      sys_step y (mkSystem s (disk y) (writes y) (listening y)
                    (timer y || (listening y && noticed (root y) s)))
  (* [loadFromStorage] is answered; it may fail *)
  | sys_load uuid : listening y = false ->
      sys_step y (mkSystem
        match stored (disk y) with
        | Ok payload => root_load isExperimental isDev uuid payload (root y)
        | Throw _ => root y
        end (disk y) (writes y) false (timer y))
  (* once it has settled, the listener starts *)
  | sys_listen : listening y = false ->
      sys_step y (mkSystem (root y <| s_storage := setReadyToSave true (s_storage (root y)) |>)
                    (disk y) (writes y) true (timer y))
  (* the delay is over: [saveToStorage] *)
  | sys_save : timer y = true ->
      sys_step y (mkSystem (root y) (disk y) (writes y ++ [saved_document (root y)])
                    (listening y) false)
  (* the first write is done *)
  | sys_written doc ws now : writes y = doc :: ws ->
      sys_step y (mkSystem (root y <| s_storage := saveToStorage_fulfilled now (s_storage (root y)) |>)
                    (Some doc) ws (listening y) (timer y)).

(** The start of the app on a stored document. *)
Definition launched (doc : option obj) : System :=
  mkSystem (root_initialState isExperimental isDev) doc [] false false.

(** What is stored once nothing waits any more. *)
Definition settled_disk (y : System) : option obj :=
  if timer y then Some (saved_document (root y))
  else match list.last (writes y) with Some doc => Some doc | None => disk y end.

(** Two documents that agree but for the exchange rates. *)
Definition same_document (d d' : obj) : Prop :=
  forall k, k <> "btcUsdRate" -> k <> "fiatUsdRates" -> lookup_prop k d = lookup_prop k d'.

Lemma same_document_refl d : same_document d d.
Proof. done. Qed.

Lemma same_document_trans d1 d2 d3 :
  same_document d1 d2 -> same_document d2 d3 -> same_document d1 d3.
Proof. intros H1 H2 k N1 N2. by rewrite H1, H2. Qed.

Lemma saved_storage st s : saved_document (s <| s_storage := st |>) = saved_document s.
Proof. unfold saved_document. rewrite !transform_fields. by destruct s. Qed.

(** Identical references have equal contents. *)
Context (ref_eq_sound : forall a b, ref_eq a b = true -> a = b).

Lemma unnoticed s s' : noticed s s' = false -> same_document (saved_document s) (saved_document s').
Proof using ref_eq_sound.
  intros H k N1 N2. unfold saved_document. rewrite !lookup_json_props by apply saved_keys.
  by rewrite (hasStorageStateChanged_complete ref_eq ref_eq_sound (to_common s') (to_common s)).
Qed.

#[local] Opaque saved_document.

(** The document [doc] is in step with the state. *)
Definition in_step (doc : option obj) (s : RootState) : Prop :=
  exists d, doc = Some d /\ same_document d (saved_document s).

(** What waits to be saved brings the stored document in step with the state. *)
Definition caught_up (y : System) : Prop :=
  listening y = true /\ in_step (settled_disk y) (root y).

Lemma caught_up_saved y :
  listening y = true -> settled_disk y = Some (saved_document (root y)) -> caught_up y.
Proof. intros L E. split; [done|]. by eexists. Qed.

Lemma caught_up_step y y' : sys_step y y' -> caught_up y -> caught_up y'.
Proof using ref_eq_sound.
  intros H [L (d & E & D)]. destruct H as [s _|uuid N|N|T|doc ws now W]; try congruence.
  - destruct (timer y || (listening y && noticed (root y) s)) eqn:W.
    { by apply caught_up_saved. }
    rewrite L in W. apply orb_false_iff in W as [T N]. cbn in N. apply unnoticed in N.
    split; [done|]. exists d. unfold settled_disk in *. cbn [timer writes disk root]. rewrite T in E.
    split; [exact E | exact (same_document_trans _ _ _ D N)].
  - apply caught_up_saved; [done|]. unfold settled_disk. cbn [timer writes root].
    by rewrite list.last_snoc.
  - split; [done|]. exists d. unfold settled_disk in *. cbn [timer writes disk root] in *. rewrite W in E.
    rewrite saved_storage. split; [|done]. destruct (timer y); [done|].
    rewrite list.last_cons in E. by destruct (list.last ws).
Qed.

Lemma caught_up_steps y y' : rtc sys_step y y' -> caught_up y -> caught_up y'.
Proof using ref_eq_sound.
  induction 1 as [z|z1 z2 z3 St _ IH]; intros C; [exact C|].
  apply IH. exact (caught_up_step _ _ St C).
Qed.

(** What waits is done in the end, and only that. *)
Lemma settles y : exists y',
  rtc sys_step y y' /\ timer y' = false /\ writes y' = [] /\ disk y' = settled_disk y /\
  saved_document (root y') = saved_document (root y).
Proof.
  assert (W : forall l y, writes y = l -> timer y = false -> exists y',
    rtc sys_step y y' /\ timer y' = false /\ writes y' = [] /\
    disk y' = match list.last l with Some d => Some d | None => disk y end /\
    saved_document (root y') = saved_document (root y)).
  { clear y. induction l as [|d l IH]; intros y El T; [by exists y|].
    pose proof (sys_written y d l (of_Z 0) El) as St.
    match type of St with sys_step _ ?z => destruct (IH z eq_refl T) as (y' & R & T' & W' & D & S) end.
    exists y'. split; [by eapply rtc_l|]. split; [done|]. split; [done|].
    split; [|rewrite S; apply saved_storage].
    rewrite D. cbn [disk]. rewrite list.last_cons. by destruct (list.last l). }
  destruct (timer y) eqn:T.
  - pose proof (sys_save y T) as St.
    match type of St with sys_step _ ?z => destruct (W _ z eq_refl eq_refl) as (y' & R & T' & W' & D & S) end.
    exists y'. split; [by eapply rtc_l|]. split; [done|]. split; [done|]. split; [|done].
    rewrite D. cbn [writes]. rewrite list.last_snoc. unfold settled_disk. by rewrite T.
  - destruct (W _ y eq_refl T) as (y' & R & T' & W' & D & S). exists y'.
    split; [exact R|]. split; [exact T'|]. split; [exact W'|]. split; [|exact S].
    rewrite D. unfold settled_disk. by rewrite T.
Qed.

(** C8: changes reach the storage.  From a store that listens, with no save pending
    and no write under way, and with a stored document in step with the state,
    whatever actions follow and however saves and writes interleave with them:
    whenever no save is pending and no write under way, the stored document agrees
    with the state in every field but the exchange rates; and the store can always
    come to that without another action.  (Loading alone does not bring the document
    in step: see [generated_id_not_saved].) *)
Theorem saves_catch_up y0 y :
  listening y0 = true -> timer y0 = false -> writes y0 = [] -> in_step (disk y0) (root y0) ->
  rtc sys_step y0 y ->
  (timer y = false -> writes y = [] -> in_step (disk y) (root y)) /\
  exists y', rtc sys_step y y' /\ timer y' = false /\ writes y' = [] /\
    saved_document (root y') = saved_document (root y) /\ in_step (disk y') (root y).
Proof using ref_eq_sound.
  intros L T W I R. assert (C : caught_up y0).
  { split; [done|]. unfold settled_disk. by rewrite T, W. }
  apply (caught_up_steps _ _ R) in C as [_ C]. split.
  { intros T' W'. unfold settled_disk in C. by rewrite T', W' in C. }
  destruct (settles y) as (y' & R' & T' & W' & D & S). exists y'.
  split; [exact R'|]. split; [exact T'|]. split; [exact W'|]. split; [exact S|]. by rewrite D.
Qed.

(** a document that cannot be read is overwritten.  The listener starts when
    the load has settled, also when it failed; the first change that is noticed
    then replaces the user's stored document by one of the initial state. *)
Theorem failed_load_overwrites doc e s' :
  stored (Some doc) = Throw e ->
  let s := root_initialState isExperimental isDev in
  let s := s <| s_storage := setReadyToSave true (s_storage s) |> in
  root_step s s' -> noticed s s' = true ->
  exists y, rtc sys_step (launched (Some doc)) y /\ timer y = false /\ writes y = [] /\
    disk y = Some (saved_document s').
Proof.
  intros E s0 s St N. subst s0.
  set (y0 := launched (Some doc)). set (y1 := mkSystem s (Some doc) [] true false).
  set (y2 := mkSystem s' (Some doc) [] true true).
  assert (R1 : rtc sys_step y0 y1).
  { eapply rtc_l; [apply (sys_load y0 ""); done|]. cbn [launched disk y0]. rewrite E.
    apply rtc_once. by apply (sys_listen (mkSystem _ _ _ false _)). }
  assert (R2 : sys_step y1 y2).
  { pose proof (sys_dispatch y1 s' St) as H. cbn [y1 root disk writes listening timer] in H.
    rewrite N in H. exact H. }
  destruct (settles y2) as (y & R & T & W & D & _). exists y. split; [|by split].
  etrans; [exact R1|]. eapply rtc_l; [exact R2 | exact R].
Qed.

(** Loading saves nothing by itself: the identifier generated for a user without
    one, like the session counted, is stored with the next change that is
    noticed, or lost. *)
Example generated_id_not_saved uuid : exists y,
  rtc sys_step (launched None) y /\ listening y = true /\ timer y = false /\ writes y = [] /\
  disk y = None /\ analyticsId (s_analytics (root y)) = Some uuid.
Proof.
  eexists. split.
  - eapply rtc_l; [apply (sys_load (launched None) uuid); reflexivity|].
    apply rtc_once. apply sys_listen. reflexivity.
  - repeat split.
Qed.
End Transitions.

(** ** Concrete runs *)

Definition demo_user : RootState :=
  root_initialState false false
    <| s_currency := setBalanceDisplay "fiat" (setFederationCurrency "f1" "EUR" currency_initialState) |>
    <| s_nux := completeNuxStep "hasOpenedNewChat" nux_initialState |>
    <| s_security := setProtectedFeature "app" false security_initialState |>
    <| s_analytics := setAnalyticsId "u1" analytics_initialState |>.

Lemma demo_storable : storable demo_user.
Proof.
  split; try (vm_compute; reflexivity); try discriminate.
  - apply (bool_decide_unpack _). vm_compute. exact I.
  - apply (bool_decide_unpack _). vm_compute. exact I.
  - split; [reflexivity|]. repeat constructor; by eexists.
  - split; [reflexivity|]. repeat constructor; by eexists.
  - constructor.
  - by exists "u1".
Qed.


Abbreviation demo_steps := (sys_step same_value id (fun _ _ _ => Throw type_error) id Ok omit_prop
  false false same_value no_item (of_Z 0) keep_order drop_keys).

Definition demo_listening : System := mkSystem demo_user (Some (saved_document demo_user)) [] true false.

Lemma same_value_sound a b : same_value a b = true -> a = b.
Proof. apply bool_decide_eq_true. Qed.

Lemma saves_catch_up_witness :
  exists y', timer y' = false /\ writes y' = [] /\ exists d, disk y' = Some d /\
    lookup_prop "balanceDisplay" d = Some (JStr "hidden").
Proof.
  pose proof (sys_dispatch same_value id (fun _ _ _ => Throw type_error) id Ok omit_prop false false
    same_value no_item (of_Z 0) keep_order drop_keys demo_listening _
    (on_currency _ _ _ _ _ _ _ _ demo_user (SetBalanceDisplay "hidden"))) as St.
  destruct (saves_catch_up _ _ _ _ _ _ _ _ _ _ _ _ _ same_value_sound demo_listening _
    eq_refl eq_refl eq_refl (ex_intro _ _ (conj eq_refl (same_document_refl _))) (rtc_once _ _ St))
    as (_ & y' & _ & T & W & _ & (d & E & H)).
  exists y'. split; [exact T|]. split; [exact W|]. exists d. split; [exact E|].
  rewrite (H "balanceDisplay") by discriminate. vm_compute. reflexivity.
Defined.

(** A document of version 1 that lost its [chatIdentities] cannot be migrated. *)
Lemma failed_load_overwrites_witness :
  exists y, rtc demo_steps (launched false false (Some [("version", vnum 1); ("language", JStr "es")])) y /\
    disk y = Some (saved_document (root_initialState false false
      <| s_storage := mkStorage false (of_Z 0) true |>
      <| s_environment := environment_reduce environment_initialState (SetDeveloperMode true) |>)).
Proof.
  edestruct (failed_load_overwrites same_value id (fun _ _ _ => Throw type_error) id Ok omit_prop
    false false same_value no_item (of_Z 0) keep_order drop_keys
    [("version", vnum 1); ("language", JStr "es")] type_error
    (root_initialState false false <| s_storage := mkStorage false (of_Z 0) true |>
      <| s_environment := environment_reduce environment_initialState (SetDeveloperMode true) |>))
    as (y & R & _ & _ & D).
  - vm_compute. reflexivity.
  - exact (on_environment _ _ _ _ _ _ _ _ (root_initialState false false
      <| s_storage := mkStorage false (of_Z 0) true |>) (SetDeveloperMode true)).
  - vm_compute. reflexivity.
  - exists y. split; [exact R | exact D].
Defined.
