(* ===== verification/Intl.v ===== *)
(** Numbers and locales: [Intl.NumberFormat] and [parseFloat] of the language,
    and the methods of [ui/common/utils/AmountUtils.ts] that print amounts for
    a locale and read them back.

    A locale says how numbers are written in digits 0-9: its separators and
    where digits are grouped, which is what the CLDR records of it.  Which locale
    a language tag denotes, and the decimals of a currency, are data of the host. *)
From Stdlib Require Import ZArith Lia Ascii.
From stdpp Require Import base tactics strings list option.
From S2P Require Import Prelude JsNum JsStr Amount Currency.
Local Open Scope Z_scope.
Local Open Scope list_scope.

(** The strings of this file are lists of code units. *)
Notation text := (list ascii).

(** ** Locales *)

(** [secondary] is the size of the groups left of the first, which has three
    digits; there are no groups unless [minGrouping] digits stand before the
    first.  A separator outside of the code units is represented by another. *)
Record Locale := mkLocale {
  decimalSep : ascii;
  groupSep : ascii;
  secondary : nat;
  minGrouping : nat
}.

Definition is_decimal_digit (c : ascii) : bool := Amount.is_digit c.

(** Separators are not digits, differ, and do not start a negative number. *)
Record locale_ok (l : Locale) : Prop := mkLocaleOk {
  ok_decimal : is_decimal_digit (decimalSep l) = false;
  ok_group : is_decimal_digit (groupSep l) = false;
  ok_differ : decimalSep l <> groupSep l;
  ok_secondary : (1 <= secondary l)%nat
}.

Definition en_US : Locale := mkLocale "."%char ","%char 3 1.
Definition de_DE : Locale := mkLocale ","%char "."%char 3 1.
Definition en_IN : Locale := mkLocale "."%char ","%char 2 1.
Definition es_ES : Locale := mkLocale ","%char "."%char 3 2.

(** The digits from right to left, with a separator after [k] more of them and
    then after each [size]. *)
Fixpoint group_from (sep : ascii) (size k : nat) (ds : text) : text :=
  match ds, k with
  | [], _ => []
  | d :: ds, O => sep :: d :: group_from sep size (size - 1) ds
  | d :: ds, S k => d :: group_from sep size k ds
  end.

Definition group_digits (l : Locale) (ds : text) : text :=
  if (length ds <? 3 + minGrouping l)%nat then ds
  else rev (group_from (groupSep l) (secondary l) 3 (rev ds)).

(** The fraction of [Intl.NumberFormat]: at least [lo] of its digits are kept
    when the last ones are zeros. *)
Fixpoint cut_zeros (n : nat) (ds : text) : text :=
  match n, ds with
  | S n, "0"%char :: ds => cut_zeros n ds
  | _, _ => ds
  end.

Definition digits (n : Z) : text := chars (int_string n).
Definition padded (k : nat) (n : Z) : text := chars (pad_left k (int_string n)).

Definition fraction_digits (lo hi : nat) (n : Z) : text :=
  rev (cut_zeros (hi - lo) (rev (padded hi n))).

(** [x.toLocaleString(locale, { minimumFractionDigits: lo, maximumFractionDigits: hi })] *)
Definition format_number (l : Locale) (lo hi : nat) (x : num) : text :=
  match x with
  | NaN => chars "NaN"
  | Inf s => chars (if s then "-∞" else "∞")
  | Fin m =>
      let n := to_fixed_mag m (Z.of_nat hi) in
      let f := if decide (hi = 0%nat) then []
               else fraction_digits lo hi (n mod 10 ^ Z.of_nat hi) in
      (if m <? 0 then ["-"%char] else []) ++
      group_digits l (digits (n / 10 ^ Z.of_nat hi)) ++
      (if decide (f = []) then [] else decimalSep l :: f)
  end.

(** [s.replace(/[0-9]/g, '')] and [s.replace(/[^0-9]/g, '')] *)
Definition without_digits (s : text) : text := filter (fun c => is_decimal_digit c = false) s.
Definition only_digits (s : text) : text := filter (fun c => is_decimal_digit c = true) s.

(** Without, and after, every occurrence of a text that is not empty. *)
Fixpoint remove_from (p : text) (skip : nat) (s : text) : text :=
  match s, skip with
  | [], _ => []
  | _ :: s, S skip => remove_from p skip s
  | c :: s', O =>
      if decide (take (length p) s = p) then remove_from p (length p - 1) s'
      else c :: remove_from p 0 s'
  end.
Definition remove_all (p s : text) : text := if decide (p = []) then s else remove_from p 0 s.

(** What stands before and after the first occurrence of [p]. *)
Fixpoint cut_at (p s : text) : option (text * text) :=
  if decide (take (length p) s = p) then Some ([], drop (length p) s)
  else match s with
       | [] => None
       | c :: s => (fun ab => (c :: ab.1, ab.2)) <$> cut_at p s
       end.

Definition includes_text (p s : text) : bool := bool_decide (is_Some (cut_at p s)).

(** The second part of [s.split(p)]. *)
Definition second_part (p s : text) : option text :=
  ab ← cut_at p s; Some (match cut_at p ab.2 with Some cd => cd.1 | None => ab.2 end).

(** [s.replace(p, r)] of the first occurrence. *)
Definition replace_first (p r s : text) : text :=
  match cut_at p s with Some ab => ab.1 ++ r ++ ab.2 | None => s end.

(** ** [parseFloat] *)

(** The exponent part of the longest prefix that is a number. *)
Definition exponent_prefix (l : text) : Z :=
  match l with
  | c :: l =>
      if (code c =? 101) || (code c =? 69) then
        let '(sg, l) := match l with
          | s :: l' => if code s =? 43 then (1, l') else if code s =? 45 then (-1, l') else (1, l)
          | [] => (1, []) end in
        sg * (take_digits 10 0 0 l).1.1
      else 0
  | [] => 0
  end.

Definition unsigned_prefix (l : text) : num :=
  if decide (take 8 l = chars "Infinity") then Inf false
  else
    let '(ip, ci, l) := take_digits 10 0 0 l in
    let '(m, cf, l) := match l with
      | c :: l' => if code c =? 46 then take_digits 10 ip 0 l' else (ip, 0, l)
      | [] => (ip, 0, []) end in
    if ci + cf =? 0 then NaN else scale10 m (exponent_prefix l - cf).

Definition parse_float (s : text) : num :=
  match trim_start s with
  | c :: l =>
      if code c =? 43 then unsigned_prefix l
      else if code c =? 45 then neg (unsigned_prefix l) else unsigned_prefix (c :: l)
  | [] => NaN
  end.

(** ** Language tags

    The tags that [Intl] accepts, of those without extensions. *)

Definition is_alpha (c : ascii) : bool :=
  let n := code c in (65 <=? n) && (n <=? 90) || (97 <=? n) && (n <=? 122).
Definition is_alnum (c : ascii) : bool := is_alpha c || is_decimal_digit c.

Fixpoint split_tag (l : text) : list (text) :=
  match l with
  | [] => [[]]
  | c :: l =>
      if decide (c = "-"%char) then [] :: split_tag l
      else match split_tag l with w :: ws => (c :: w) :: ws | [] => [[c]] end
  end.

Definition language_subtag (w : text) : bool :=
  forallb is_alpha w && (bool_decide (length w = 2%nat) || bool_decide (length w = 3%nat) ||
    (4 <? length w)%nat && (length w <? 9)%nat).
Definition script_subtag (w : text) : bool :=
  forallb is_alpha w && bool_decide (length w = 4%nat).
Definition region_subtag (w : text) : bool :=
  forallb is_alpha w && bool_decide (length w = 2%nat) ||
  forallb is_decimal_digit w && bool_decide (length w = 3%nat).
Definition variant_subtag (w : text) : bool :=
  forallb is_alnum w &&
  ((4 <? length w)%nat && (length w <? 9)%nat ||
   bool_decide (length w = 4%nat) && default false (is_decimal_digit <$> head w)).

Definition drop_if (P : text -> bool) (ws : list (text)) : list (text) :=
  match ws with w :: ws' => if P w then ws' else ws | [] => [] end.

Definition valid_tag (tag : string) : bool :=
  match split_tag (chars (toLowerCase tag)) with
  | w :: ws =>
      let variants := drop_if region_subtag (drop_if script_subtag ws) in
      language_subtag w && forallb variant_subtag variants && bool_decide (NoDup variants)
  | [] => false
  end.

(** ** Amounts of a locale: [AmountUtils] *)

Section Amounts.
(** The locale the host takes for a tag, or for none, and the decimals of a
    currency. *)
Context (locale_of : option string -> Locale) (currency_digits : string -> nat).

(** [Intl.NumberFormat(tag)] *)
Definition number_format (tag : option string) : result Locale :=
  match tag with
  | Some t => if valid_tag t then Ok (locale_of tag) else Throw "RangeError"
  | None => Ok (locale_of None)
  end.

Definition well_formed_currency (code : string) : bool :=
  bool_decide (String.length code = 3%nat) && forallb is_alpha (chars code).

(** [Intl.NumberFormat(tag, { style: 'currency', currency }).resolvedOptions().maximumFractionDigits] *)
Definition currency_format (code : string) (tag : option string) : result nat :=
  _ ← number_format tag;
  if well_formed_currency code then Ok (currency_digits code) else Throw "RangeError".

Definition formatSats (sats : num) : text := format_number (locale_of None) 0 3 sats.

Definition formatBtc (btc : num) : text := format_number (locale_of None) 2 2 btc.

(** [formatFiat] with [symbolPosition: 'none'], the rest of its options being the
    locale and the fraction digits asked for. *)
Definition formatFiat (amount : num) (currency : string) (locale : option string)
    (minimumFractionDigits maximumFractionDigits : option nat) : result text :=
  let defaultFractionDigits :=
    match currency_format (getCurrencyCode currency) locale with Ok n => n | Throw _ => 2%nat end in
  let minDigits := default defaultFractionDigits minimumFractionDigits in
  let maxDigits := default defaultFractionDigits maximumFractionDigits in
  l ← number_format locale;
  if (maxDigits <? minDigits)%nat then Throw "RangeError"
  else Ok (format_number l minDigits maxDigits amount).

Definition getCurrencyDecimals (currency : string) (locale : option string) : result nat :=
  currency_format (getCurrencyCode currency) locale.

Definition getThousandsSeparator (locale : option string) : result text :=
  l ← number_format locale; Ok (without_digits (format_number l 0 3 (of_Z 11111))).

Definition getDecimalSeparator (locale : option string) : result text :=
  l ← number_format locale; Ok (without_digits (format_number l 0 3 (of_frac 11 10))).

(** [s || d] *)
Definition or_text (s d : text) : text := if decide (s = []) then d else s.

Definition parseFiatString (fiat : text) (locale : option string) : result num :=
  thousandSeparator ← getThousandsSeparator locale;
  decimalSeparator ← getDecimalSeparator locale;
  let fiat := remove_all (or_text thousandSeparator (chars ",")) fiat in
  let fiat := replace_first (or_text decimalSeparator (chars ".")) (chars ".") fiat in
  Ok (parse_float (filter (fun c => is_decimal_digit c = true \/ c = "."%char \/ c = "-"%char) fiat)).

Definition stripSatsValue (value : text) (currencyLocale : option string) : result num :=
  thousandsSeparator ← getThousandsSeparator currencyLocale;
  Ok (clampSats (parse_int (String.string_of_list_ascii (remove_all thousandsSeparator value)))).
End Amounts.

(** ** Digits *)

Definition all_digits (s : text) : Prop := Forall (fun c => is_decimal_digit c = true) s.

Definition digit_char (d : Z) : ascii := pretty.pretty_N_char (Z.to_N d).

Definition char_value (c : ascii) : Z := code c - 48.

(** The number a text of digits stands for. *)
Fixpoint text_value (s : text) : Z :=
  match s with [] => 0 | c :: s => char_value c * 10 ^ Z.of_nat (length s) + text_value s end.

Lemma decimal_code c : is_decimal_digit c = true <-> 48 <= code c <= 57.
Proof. unfold is_decimal_digit, Amount.is_digit, code, Ascii.nat_of_ascii.
  rewrite andb_true_iff, !Nat.leb_le. lia. Qed.

Lemma decimal_value c : is_decimal_digit c = true -> digit_value 10 c = Some (char_value c).
Proof.
  intros H%decimal_code. unfold digit_value, char_value.
  rewrite (proj2 (Z.leb_le 48 (code c))), (proj2 (Z.leb_le (code c) 57)) by lia. cbn [andb].
  by rewrite (proj2 (Z.ltb_lt _ 10)) by lia.
Qed.

Lemma digit_value_other c : is_decimal_digit c = false -> digit_value 10 c = None.
Proof.
  intros H. unfold digit_value.
  assert (N : ~ (48 <= code c <= 57)) by (rewrite <- decimal_code; congruence).
  destruct (Z.leb_spec 48 (code c)), (Z.leb_spec (code c) 57); try lia; cbn [andb];
    repeat case_match; bools; try done; lia.
Qed.

Lemma char_value_bound c : is_decimal_digit c = true -> 0 <= char_value c <= 9.
Proof. intros H%decimal_code. unfold char_value. lia. Qed.

Lemma digit_char_spec d : 0 <= d < 10 ->
  is_decimal_digit (digit_char d) = true /\ char_value (digit_char d) = d.
Proof.
  intros H. assert (d = 0 \/ d = 1 \/ d = 2 \/ d = 3 \/ d = 4 \/ d = 5 \/ d = 6 \/ d = 7 \/ d = 8 \/ d = 9) by lia.
  by destruct_or!; subst d.
Qed.

Lemma char_value_inj c d : char_value c = char_value d -> c = d.
Proof.
  unfold char_value, code. intros H. rewrite <- (ascii_N_embedding c), <- (ascii_N_embedding d).
  f_equal. lia.
Qed.

Lemma text_value_bound s : all_digits s -> 0 <= text_value s < 10 ^ Z.of_nat (length s).
Proof.
  induction 1 as [|c s Hc _ IH]; [done|]. apply char_value_bound in Hc. cbn [text_value length].
  rewrite Nat2Z.inj_succ, Z.pow_succ_r by lia. nia.
Qed.

Lemma text_value_app s t :
  text_value (s ++ t) = text_value s * 10 ^ Z.of_nat (length t) + text_value t.
Proof.
  induction s as [|c s IH]; [done|]. cbn [text_value app].
  rewrite IH, length_app, Nat2Z.inj_add, Z.pow_add_r by lia. ring.
Qed.

Lemma text_value_inj s t :
  all_digits s -> all_digits t -> length s = length t -> text_value s = text_value t -> s = t.
Proof.
  intros Hs. revert t. induction Hs as [|c s Hc Hs IH]; intros [|d t] Ht L E; try done.
  apply list.Forall_cons in Ht as [Hd Ht]. injection L as L. cbn [text_value] in E.
  rewrite L in E. pose proof (text_value_bound s Hs) as Bs. pose proof (text_value_bound t Ht) as Bt.
  rewrite L in Bs. set (k := 10 ^ Z.of_nat (length t)) in *.
  assert (char_value c = char_value d) as Ec by nia. apply char_value_inj in Ec as ->.
  f_equal. apply IH; [done | done | lia].
Qed.

Lemma take_digits_run acc cnt s rest :
  all_digits s -> (forall c, head rest = Some c -> is_decimal_digit c = false) ->
  take_digits 10 acc cnt (s ++ rest) =
  (acc * 10 ^ Z.of_nat (length s) + text_value s, cnt + Z.of_nat (length s), rest).
Proof.
  intros Hs Hr. revert acc cnt. induction Hs as [|c s Hc Hs IH]; intros acc cnt.
  - cbn [app length text_value]. rewrite Z.mul_1_r, !Z.add_0_r. destruct rest as [|c rest]; [done|].
    cbn [take_digits]. by rewrite digit_value_other by (by apply Hr).
  - cbn [app take_digits]. rewrite decimal_value, IH by done.
    cbn [length text_value]. rewrite Nat2Z.inj_succ, Z.pow_succ_r by lia. f_equal. f_equal; [ring | lia].
Qed.

(** ** The digits of an integer *)

Lemma chars_app s t : chars (s +:+ t) = chars s ++ chars t.
Proof. induction s as [|c s IH]; [done|]. exact (f_equal (cons c) IH). Qed.

Lemma pretty_go_app n s : pretty.pretty_N_go n s = pretty.pretty_N_go n "" +:+ s.
Proof.
  induction (N.lt_wf_0 n) as [n _ IH] in s |- *.
  destruct (decide (n = 0)%N) as [->|]; [by rewrite !pretty.pretty_N_go_0|].
  rewrite !(pretty.pretty_N_go_step n) by lia.
  assert (L : (n `div` 10 < n)%N) by (apply N.div_lt; lia).
  rewrite (IH _ L (String _ s)), (IH _ L (String _ "")). by rewrite str_app_assoc.
Qed.

Lemma digits_go n : 0 < n -> digits n = chars (pretty.pretty_N_go (Z.to_N n) "").
Proof.
  intros H. destruct n as [|n|n]; [lia| |lia]. unfold digits, int_string, pretty.pretty, pretty.pretty_Z, pretty.pretty, pretty.pretty_positive,
    pretty.pretty, pretty.pretty_N.
  by rewrite decide_False by lia.
Qed.

Lemma digits_small d : 0 <= d < 10 -> digits d = [digit_char d].
Proof.
  intros H. assert (d = 0 \/ d = 1 \/ d = 2 \/ d = 3 \/ d = 4 \/ d = 5 \/ d = 6 \/ d = 7 \/ d = 8 \/ d = 9) by lia.
  by destruct_or!; subst d.
Qed.

Lemma digits_snoc n d : 0 < n -> 0 <= d < 10 -> digits (10 * n + d) = digits n ++ [digit_char d].
Proof.
  intros Hn Hd. rewrite !digits_go by lia. rewrite pretty.pretty_N_go_step by lia.
  rewrite pretty_go_app, chars_app.
  replace (Z.to_N (10 * n + d) `div` 10)%N with (Z.to_N n).
  2: { change 10%N with (Z.to_N 10). rewrite <- Z2N.inj_div by lia. f_equal.
       apply (Z.div_unique_pos _ _ _ d); lia. }
  replace (Z.to_N (10 * n + d) `mod` 10)%N with (Z.to_N d); [done|].
  change 10%N with (Z.to_N 10). rewrite <- Z2N.inj_mod by lia. f_equal.
  apply (Z.mod_unique_pos _ _ n); lia.
Qed.

(** Every integer is a digit, or a smaller integer with a digit appended. *)
Lemma digits_ind (P : Z -> Prop) :
  (forall d, 0 <= d < 10 -> P d) ->
  (forall n d, 0 < n -> 0 <= d < 10 -> P n -> P (10 * n + d)) ->
  forall n, 0 <= n -> P n.
Proof.
  intros P0 PS n Hn. pattern n. apply Zlt_0_ind; [|done]. clear n Hn. intros n IH Hn.
  destruct (Z.lt_ge_cases n 10); [apply P0; lia|].
  rewrite (Z.div_mod n 10) by lia. pose proof (Z.mod_pos_bound n 10 ltac:(lia)).
  assert (1 <= n / 10 < n) by (split; [apply Z.div_le_lower_bound | apply Z.div_lt]; lia).
  apply PS; [lia | lia | apply IH; lia].
Qed.

Lemma digits_spec n : 0 <= n ->
  all_digits (digits n) /\ text_value (digits n) = n /\ digits n <> [] /\
  (0 < n -> 10 ^ (Z.of_nat (length (digits n)) - 1) <= n).
Proof.
  revert n. apply digits_ind.
  - intros d Hd. rewrite digits_small by done. destruct (digit_char_spec d Hd) as [H V].
    split_and!; [by repeat constructor | cbn; lia | done | cbn; lia].
  - intros n d Hn Hd (A & V & N & L). rewrite digits_snoc by done.
    destruct (digit_char_spec d Hd) as [H W]. split_and!.
    + apply list.Forall_app. by repeat constructor.
    + rewrite text_value_app. cbn [text_value length]. rewrite V, W. change (10 ^ Z.of_nat 1) with 10. lia.
    + by destruct (digits n).
    + intros _. specialize (L Hn). rewrite length_app. cbn [length].
      replace (Z.of_nat (length (digits n) + 1) - 1) with (Z.succ (Z.of_nat (length (digits n)) - 1)) by lia.
      rewrite Z.pow_succ_r by (destruct (digits n); [done | cbn [length]; lia]). lia.
Qed.

Lemma digits_length n k : 0 <= n < 10 ^ Z.of_nat k -> (0 < k)%nat -> (length (digits n) <= k)%nat.
Proof.
  intros H Hk. destruct (digits_spec n ltac:(lia)) as (_ & _ & _ & L).
  destruct (Z.eq_dec n 0) as [->|]; [by cbn|]. specialize (L ltac:(lia)).
  destruct (Nat.le_gt_cases (length (digits n)) k) as [|G]; [done|].
  assert (10 ^ Z.of_nat k <= 10 ^ (Z.of_nat (length (digits n)) - 1)) by (apply Z.pow_le_mono_r; lia).
  lia.
Qed.

Lemma chars_zeros k : chars (zeros k) = replicate k "0"%char.
Proof. induction k as [|k IH]; [done|]. exact (f_equal (cons "0"%char) IH). Qed.

Lemma length_chars s : length (chars s) = String.length s.
Proof. induction s as [|c s IH]; [done|]. exact (f_equal S IH). Qed.

Lemma text_value_zeros k s : text_value (replicate k "0"%char ++ s) = text_value s.
Proof. induction k as [|k IH]; [done|]. cbn [replicate app text_value]. by rewrite IH. Qed.

Lemma padded_spec k n : (0 < k)%nat -> 0 <= n < 10 ^ Z.of_nat k ->
  all_digits (padded k n) /\ text_value (padded k n) = n /\ length (padded k n) = k.
Proof.
  intros Hk H. pose proof (digits_length n k H Hk) as L.
  destruct (digits_spec n ltac:(lia)) as (A & V & _ & _).
  unfold padded, pad_left. rewrite chars_app, chars_zeros. fold (digits n). split_and!.
  - apply list.Forall_app. split; [|done]. apply list.Forall_replicate. reflexivity.
  - by rewrite text_value_zeros.
  - rewrite length_app, length_replicate. unfold digits in *. rewrite length_chars in *. lia.
Qed.

Lemma padded_text s : s <> [] -> all_digits s -> padded (length s) (text_value s) = s.
Proof.
  intros N A. pose proof (text_value_bound s A) as B.
  destruct (padded_spec (length s) (text_value s)) as (A' & V & L); [destruct s; [done | cbn; lia] | done |].
  by apply text_value_inj.
Qed.

(** ** Texts with a separator *)

Lemma cut_at_char c a b : c ∉ a -> cut_at [c] (a ++ c :: b) = Some (a, b).
Proof.
  induction a as [|x a IH]; intros H.
  - cbn. rewrite take_0. by rewrite decide_True.
  - apply not_elem_of_cons in H as [Hx H]. cbn. rewrite take_0, decide_False by congruence.
    by rewrite IH by done.
Qed.

Lemma cut_at_none c s : c ∉ s -> cut_at [c] s = None.
Proof.
  induction s as [|x s IH]; intros H; [done|].
  apply not_elem_of_cons in H as [Hx H]. cbn. rewrite take_0, decide_False by congruence.
  by rewrite IH by done.
Qed.

Lemma remove_char c s : remove_all [c] s = filter (fun x => x <> c) s.
Proof.
  unfold remove_all. rewrite decide_False by done.
  induction s as [|x s IH]; [done|]. cbn. rewrite take_0.
  destruct (decide (x = c)) as [->|N].
  - rewrite decide_True by done. by rewrite decide_False by (intros H; by apply H).
  - rewrite decide_False by congruence. rewrite decide_True by done. by rewrite IH.
Qed.

Lemma filter_digits (P : ascii -> Prop) `{forall c, Decision (P c)} s :
  (forall c, is_decimal_digit c = true -> P c) -> all_digits s -> filter P s = s.
Proof. intros HP A. apply filter_all. eapply list.Forall_impl; [exact A | done]. Qed.

Lemma digit_not_in c s : is_decimal_digit c = false -> all_digits s -> c ∉ s.
Proof. intros N A H. pose proof (proj1 (list.Forall_forall _ _) A c H). simpl in *. congruence. Qed.

(** ** Numbers in a locale *)

(** Grouping only adds separators. *)
Lemma group_from_digits sep size k ds (P : ascii -> Prop) `{forall c, Decision (P c)} :
  ~ P sep -> filter P (group_from sep size k ds) = filter P ds.
Proof.
  intros N. induction ds as [|d ds IH] in k |- *; [by destruct k|]. destruct k as [|k]; cbn [group_from].
  - rewrite filter_cons_False by done.
    by destruct (decide (P d)); [rewrite !filter_cons_True by done | rewrite !filter_cons_False by done];
      rewrite IH.
  - by destruct (decide (P d)); [rewrite !filter_cons_True by done | rewrite !filter_cons_False by done];
      rewrite IH.
Qed.

Lemma filter_of_rev {A} (P : A -> Prop) `{forall x, Decision (P x)} l :
  filter P (rev l) = rev (filter P l).
Proof.
  induction l as [|x l IH]; [done|]. cbn [rev]. rewrite list.filter_app, IH.
  destruct (decide (P x)).
  - by rewrite !filter_cons_True by done.
  - rewrite !filter_cons_False by done. apply app_nil_r.
Qed.

Lemma group_digits_filter l ds (P : ascii -> Prop) `{forall c, Decision (P c)} :
  ~ P (groupSep l) -> filter P (group_digits l ds) = filter P ds.
Proof.
  intros N. unfold group_digits. destruct (length ds <? 3 + minGrouping l)%nat; [done|].
  rewrite filter_of_rev, group_from_digits by done. by rewrite filter_of_rev, rev_involutive.
Qed.

(** The first group of digits, which the first separator ends. *)
Lemma group_from_short sep size k ds : (length ds <= k)%nat -> group_from sep size k ds = ds.
Proof.
  induction ds as [|d ds IH] in k |- *; intros L; [by destruct k|]. cbn in L.
  destruct k as [|k]; [lia|]. cbn [group_from]. by rewrite IH by lia.
Qed.

Lemma group_from_first sep size k ds : (k < length ds)%nat ->
  exists i tl, (k <= i < length ds)%nat /\
    rev (group_from sep size k ds) = rev (drop i ds) ++ sep :: tl.
Proof.
  induction ds as [|d ds IH] in k |- *; intros L; [cbn in L; lia|]. cbn [length] in L.
  destruct k as [|k]; cbn [group_from rev].
  - destruct (Nat.le_gt_cases (length ds) (size - 1)) as [S|S].
    + exists 0%nat, []. rewrite group_from_short by done. split; [cbn; lia|]. cbn [drop rev].
      by rewrite <- app_assoc.
    + destruct (IH _ S) as (i & tl & Hi & ->). exists (Datatypes.S i), (tl ++ [d; sep]).
      split; [cbn; lia|]. cbn [drop]. by rewrite <- !app_assoc.
  - destruct (IH k ltac:(lia)) as (i & tl & Hi & ->). exists (Datatypes.S i), (tl ++ [d]).
    split; [cbn; lia|]. cbn [drop]. by rewrite <- !app_assoc.
Qed.

Lemma group_digits_first l ds : (3 + minGrouping l <= length ds)%nat -> (1 <= minGrouping l)%nat ->
  exists i tl, (3 <= i < length ds)%nat /\
    group_digits l ds = take (length ds - i) ds ++ groupSep l :: tl.
Proof.
  intros L M. unfold group_digits. rewrite (proj2 (Nat.ltb_ge _ _)) by done.
  destruct (group_from_first (groupSep l) (secondary l) 3 (rev ds)) as (i & tl & Hi & ->);
    rewrite length_rev in *; [lia|].
  exists i, tl. split; [done|]. f_equal. by rewrite skipn_rev, rev_involutive.
Qed.

(** The separators of a locale, as the code finds them. *)
Definition locale_usual (l : Locale) : Prop :=
  locale_ok l /\ (2 <= secondary l)%nat /\ (minGrouping l <= 2)%nat.

Lemma decimal_separator l : is_decimal_digit (decimalSep l) = false ->
  without_digits (format_number l 0 3 (of_frac 11 10)) = [decimalSep l].
Proof.
  intros N. assert (E : exists m, of_frac 11 10 = Fin m /\ to_fixed_mag m 3 = 1100 /\ (m <? 0) = false)
    by (eexists; split; [vm_compute; reflexivity | by vm_compute]).
  destruct E as (m & -> & E & S). unfold format_number. rewrite S.
  change (Z.of_nat 3) with 3. rewrite E. rewrite decide_False by done.
  change (fraction_digits 0 3 (1100 mod 10 ^ 3)) with ["1"%char]. rewrite decide_False by done.
  change (digits (1100 / 10 ^ 3)) with ["1"%char]. cbn [group_digits length].
  unfold group_digits. cbn [length Nat.ltb Nat.leb plus app].
  unfold without_digits. rewrite filter_cons_False, filter_cons_True, filter_cons_False by done. done.
Qed.

(** Numbers with as many decimals as are asked for. *)
Lemma format_fixed l k m n : (0 < k)%nat -> 0 <= m -> to_fixed_mag m (Z.of_nat k) = n -> 0 <= n ->
  format_number l k k (Fin m) =
  group_digits l (digits (n / 10 ^ Z.of_nat k)) ++ decimalSep l :: padded k (n mod 10 ^ Z.of_nat k).
Proof.
  intros Hk Hm E Hn. unfold format_number. cbv zeta. rewrite E, (proj2 (Z.ltb_ge m 0)) by done.
  destruct (decide (k = 0%nat)) as [?|_]; [lia|]. unfold fraction_digits. rewrite Nat.sub_diag. cbn [cut_zeros].
  rewrite rev_involutive. rewrite decide_False; [done|].
  intros F. apply (f_equal length) in F.
  destruct (padded_spec k (n mod 10 ^ Z.of_nat k) Hk) as (_ & _ & L); [apply Z.mod_pos_bound; lia|].
  rewrite L in F. cbn in F. lia.
Qed.

Lemma format_whole l m n : 0 <= m -> to_fixed_mag m 0 = n ->
  format_number l 0 0 (Fin m) = group_digits l (digits n).
Proof.
  intros Hm E. unfold format_number. cbv zeta. change (Z.of_nat 0) with 0.
  rewrite E, (proj2 (Z.ltb_ge m 0)) by done. change (10 ^ 0) with 1. rewrite Z.div_1_r.
  rewrite !decide_True by done. apply app_nil_r.
Qed.

(** Integers have no decimals. *)
Lemma format_integer l n : 0 <= n -> format_number l 0 3 (Fin (n * unit1)) = group_digits l (digits n).
Proof.
  intros Hn. unfold format_number. cbv zeta. pose proof unit1_pos.
  rewrite to_fixed_mag_int, (proj2 (Z.ltb_ge _ 0)) by nia. rewrite Z.abs_eq by done.
  change (10 ^ Z.of_nat 3) with 1000. rewrite Z.div_mul, Z.mod_mul by lia.
  destruct (decide (3%nat = 0%nat)) as [?|_]; [lia|]. change (fraction_digits 0 3 0) with (@nil ascii).
  rewrite decide_True by done. apply app_nil_r.
Qed.

Lemma thousands_separator l : locale_usual l ->
  without_digits (format_number l 0 3 (of_Z 11111)) = [groupSep l].
Proof.
  intros ([D G N _] & S & M). rewrite of_Z_safe by (unfold safe; lia).
  rewrite format_integer by lia. change (digits 11111) with (chars "11111").
  unfold group_digits. rewrite (proj2 (Nat.ltb_ge _ _)) by (cbn; lia).
  destruct (secondary l) as [|[|k]]; [lia | lia |]. cbn [chars String.list_ascii_of_string rev app].
  cbn [group_from Nat.sub rev app]. unfold without_digits.
  do 2 (rewrite filter_cons_False by done). rewrite filter_cons_True by done.
  by do 3 (rewrite filter_cons_False by done).
Qed.

(** ** Reading numbers *)

Lemma head_digit s : s <> [] -> all_digits s -> exists c s', s = c :: s' /\ is_decimal_digit c = true.
Proof. intros N A. destruct A as [|c s' H _]; [done|]. by exists c, s'. Qed.

Lemma digit_plain c : is_decimal_digit c = true ->
  is_space c = false /\ (code c =? 43) = false /\ (code c =? 45) = false.
Proof.
  intros H%decimal_code. unfold is_space.
  rewrite (proj2 (Z.leb_gt (code c) 13)), (proj2 (Z.eqb_neq (code c) 32)),
    (proj2 (Z.eqb_neq (code c) 160)), (proj2 (Z.eqb_neq (code c) 43)), (proj2 (Z.eqb_neq (code c) 45))
    by lia.
  by rewrite andb_false_r.
Qed.

Lemma parse_int_digits s rest : s <> [] -> all_digits s ->
  (forall c, head rest = Some c -> is_decimal_digit c = false) ->
  parse_int (String.string_of_list_ascii (s ++ rest)) = of_Z (text_value s).
Proof.
  intros N A R. destruct (head_digit s N A) as (c & s' & -> & H).
  destruct (digit_plain c H) as (S & P & M). unfold parse_int, chars.
  rewrite String.list_ascii_of_string_of_list_ascii. cbn [app trim_start]. rewrite S, P, M.
  change (c :: s' ++ rest) with ((c :: s') ++ rest). rewrite (take_digits_run 0 0 (c :: s') rest A R).
  rewrite (proj2 (Z.eqb_neq _ 0)) by (cbn [length]; lia).
  f_equal. lia.
Qed.

Lemma parse_int_nothing rest : (forall c, head rest = Some c -> is_decimal_digit c = false) ->
  (length rest <= 1)%nat -> parse_int (String.string_of_list_ascii rest) = NaN.
Proof.
  intros R L. destruct rest as [|c [|]]; [done | | cbn in L; lia]. specialize (R c eq_refl).
  unfold parse_int, chars. rewrite String.list_ascii_of_string_of_list_ascii. cbn [trim_start].
  destruct (is_space c); [done|]. destruct (code c =? 43); [done|]. destruct (code c =? 45); [done|].
  cbn [take_digits]. by rewrite digit_value_other.
Qed.

Lemma parse_float_fixed s f : s <> [] -> f <> [] -> all_digits s -> all_digits f ->
  parse_float (s ++ "."%char :: f) =
  of_frac (text_value s * 10 ^ Z.of_nat (length f) + text_value f) (10 ^ Z.of_nat (length f)).
Proof.
  intros N Nf A Af. destruct (head_digit s N A) as (c & s' & -> & H).
  destruct (digit_plain c H) as (S & P & M). unfold parse_float. cbn [app trim_start].
  rewrite S, P, M. unfold unsigned_prefix.
  destruct (decide (take 8 (c :: s' ++ "."%char :: f) = chars "Infinity")) as [E|_].
  { exfalso. injection E as E _. by subst c. }
  change (c :: s' ++ "."%char :: f) with ((c :: s') ++ "."%char :: f).
  rewrite (take_digits_run 0 0 (c :: s') _ A) by (by intros x [= <-]).
  change (code "."%char =? 46) with true. cbv iota.
  pose proof (take_digits_run (0 * 10 ^ Z.of_nat (length (c :: s')) + text_value (c :: s')) 0 f [] Af) as T.
  rewrite app_nil_r in T. rewrite T by done. clear T.
  rewrite (proj2 (Z.eqb_neq _ 0)) by (cbn [length]; lia). cbn [exponent_prefix]. unfold scale10.
  assert (L : 0 < Z.of_nat (length f)) by (destruct f; [done | cbn [length]; lia]).
  rewrite (proj2 (Z.leb_gt _ _)) by lia.
  by replace (- (0 - (0 + Z.of_nat (length f)))) with (Z.of_nat (length f)) by lia.
Qed.

(** A decimal with few digits is recovered from the nearest double. *)
Lemma fixed_double k n : (k <= 20)%nat -> 0 <= n < 2 ^ 52 ->
  exists m, of_frac n (10 ^ Z.of_nat k) = Fin m /\ 0 <= m <= 2 ^ 53 * unit1 /\
    to_fixed_mag m (Z.of_nat k) = n /\
    2 ^ 53 * Z.abs (m * 10 ^ Z.of_nat k - n * unit1) <= n * unit1.
Proof.
  intros Hk Hn. set (q := 10 ^ Z.of_nat k). assert (Q : 0 < q) by (apply Z.pow_pos_nonneg; lia).
  assert (Q' : q <= 10 ^ 20) by (apply Z.pow_le_mono_r; lia).
  pose proof unit1_pos as U. pose proof unit1_large as UL. pose proof supply_units as [U1 U2].
  pose proof (round_mag_nonneg (n * unit1) q ltac:(nia) Q) as P.
  assert (E : 2 ^ 53 * Z.abs (round_mag (n * unit1) q * q - n * unit1) <= n * unit1).
  { destruct (Z.eq_dec n 0) as [->|].
    - rewrite Z.mul_0_l. assert (round_mag 0 q = 0) as ->; [|lia].
      apply (round_mag_exact 0 q Q). exists 0, 0. lia.
    - apply round_mag_err; [done|]. nia. }
  set (m := round_mag (n * unit1) q) in *.
  assert (B : m <= 2 ^ 53 * unit1) by nia.
  exists m. split_and!; [|done|done| |exact E].
  - unfold of_frac. apply fin_round_pos; [nia | done | fold m; nia].
  - apply to_fixed_mag_near; [done | lia |]. fold q. nia.
Qed.

(** ** Fiat texts *)

Section Texts.
Context (locale_of : option string -> Locale) (tag : option string) (l : Locale).
Context (tag_ok : number_format locale_of tag = Ok l) (usual : locale_usual l).

Lemma decimal_found : getDecimalSeparator locale_of tag = Ok [decimalSep l].
Proof.
  unfold getDecimalSeparator. rewrite tag_ok. cbn.
  rewrite decimal_separator; [done|]. apply usual.
Qed.

Lemma thousands_found : getThousandsSeparator locale_of tag = Ok [groupSep l].
Proof. unfold getThousandsSeparator. rewrite tag_ok. cbn. by rewrite thousands_separator. Qed.

(** A decimal is read whether its whole part is grouped or not. *)
Lemma parse_fiat_text v s f :
  filter (fun c => c <> groupSep l) v = s -> s <> [] -> f <> [] -> all_digits s -> all_digits f ->
  parseFiatString locale_of (v ++ decimalSep l :: f) tag =
  Ok (of_frac (text_value s * 10 ^ Z.of_nat (length f) + text_value f) (10 ^ Z.of_nat (length f))).
Proof.
  intros V N Nf A Af. unfold parseFiatString. rewrite decimal_found, thousands_found. cbn [mbind result_bind].
  destruct usual as ([D G N' _] & _ & _). unfold or_text. rewrite !decide_False by done.
  rewrite remove_char, list.filter_app, V, filter_cons_True by done.
  rewrite (filter_digits (fun c => c <> groupSep l) f) by (done || congruence).
  unfold replace_first. rewrite cut_at_char by (by apply digit_not_in). cbn [fst snd].
  rewrite list.filter_app, (filter_digits _ s) by (done || tauto).
  cbn [app chars String.list_ascii_of_string]. rewrite filter_cons_True by auto.
  rewrite (filter_digits _ f) by (done || tauto). by rewrite parse_float_fixed.
Qed.
End Texts.

(** Ten times a decimal, and a tenth of it, in doubles. *)
Lemma fixed_shift m n j : 0 <= n < 10 ^ 15 -> 0 <= m <= 2 ^ 53 * unit1 -> 0 <= j <= 20 ->
  2 ^ 53 * Z.abs (m * 10 ^ j - n * unit1) <= n * unit1 ->
  (exists m', mul (Fin m) (of_Z 10) = Fin m' /\ 0 <= m' /\
    (1 <= j -> to_fixed_mag m' (j - 1) = n)) /\
  (exists m', div (Fin m) (of_Z 10) = Fin m' /\ 0 <= m' /\ to_fixed_mag m' (j + 1) = n).
Proof.
  intros Hn Hm Hj E. pose proof unit1_pos as U. pose proof unit1_large as UL.
  assert (U2 : 2 ^ 60 * unit1 < max_units) by (by vm_compute). set (q := 10 ^ j) in *.
  assert (Q : 0 < q) by (apply Z.pow_pos_nonneg; lia).
  assert (Q' : q <= 10 ^ 20) by (apply Z.pow_le_mono_r; lia).
  assert (M0 : m = 0 \/ 2 ^ 100 <= m) by (destruct (Z.eq_dec n 0) as [->|]; [left; nia | right; nia]).
  rewrite (of_Z_safe 10) by (unfold safe; lia). cbn [mul div].
  split.
  - assert (R : round_mag (m * (10 * unit1)) unit1 = round_mag (m * 10) 1).
    { replace (m * (10 * unit1)) with (m * 10 * unit1) by ring. rewrite <- (Z.mul_1_l unit1) at 2.
      by apply round_mag_scale. }
    assert (Er : 2 ^ 53 * Z.abs (round_mag (m * 10) 1 - m * 10) <= m * 10).
    { destruct M0 as [->|M1]; [by vm_compute|].
      assert (M2 : 1 * 2 ^ 52 <= m * 10) by lia.
      pose proof (round_mag_err (m * 10) 1 ltac:(lia) M2). lia. }
    pose proof (round_mag_nonneg (m * 10) 1 ltac:(lia) ltac:(lia)) as P.
    exists (round_mag (m * 10) 1). set (m' := round_mag (m * 10) 1) in *. split_and!; [|done|].
    + rewrite <- R. apply fin_round_pos; [nia | done |]. rewrite R. lia.
    + intros Hj1. apply to_fixed_mag_near; [done | lia |]. set (q1 := 10 ^ (j - 1)).
      assert (Eq : q = 10 * q1) by (unfold q, q1; rewrite <- Z.pow_succ_r by lia; f_equal; lia).
      assert (0 < q1) by lia. rewrite Eq in *.
      assert (2 ^ 53 * Z.abs (m' * q1 - m * (10 * q1)) <= m * (10 * q1)) by nia. nia.
  - destruct (Z.eqb_spec (10 * unit1) 0) as [?|_]; [lia|].
    rewrite (Z.sgn_pos (10 * unit1)), Z.mul_1_l, (Z.abs_eq (10 * unit1)) by lia.
    assert (R : round_mag (m * unit1) (10 * unit1) = round_mag m 10) by (apply round_mag_scale; lia).
    assert (Er : 2 ^ 53 * Z.abs (round_mag m 10 * 10 - m) <= m).
    { destruct M0 as [->|M1]; [by vm_compute|]. apply round_mag_err; [done|]. lia. }
    pose proof (round_mag_nonneg m 10 ltac:(lia) ltac:(lia)) as P.
    exists (round_mag m 10). set (m' := round_mag m 10) in *. split_and!; [|done|].
    + rewrite <- R. apply fin_round_pos; [nia | lia |]. rewrite R. lia.
    + apply to_fixed_mag_near; [done | lia |]. rewrite Z.pow_add_r by lia. fold q. change (10 ^ 1) with 10.
      assert (2 ^ 53 * Z.abs (m' * (q * 10) - m * q) <= m * q) by nia. nia.
Qed.
