(* ===== verification/AmountInput.v ===== *)
(** The amount input: [ui/common/hooks/amount/useAmountInput.ts].

    An amount is entered in sats or in a fiat currency, on a keypad or in a text
    field; the hook shows it in both and tells the form the sats.  What is on
    screen is the only memory of what was typed: each press reads the displayed
    text back, edits it, parses it into a double, converts it and prints it
    again.  The theorems compare this with an editor of integers. *)
From Stdlib Require Import ZArith Lia Ascii.
From stdpp Require Import base tactics strings list option.
From S2P Require Import Prelude JsNum JsStr Amount Currency Intl.
Local Open Scope Z_scope.
Local Open Scope list_scope.

(** ** The hook *)

(** [numpadButtons] *)
Inductive numpadButton : Type :=
  | Digit (d : Z)
  | Dot
  | Backspace.

Definition numpadButtons : list numpadButton :=
  [Digit 1; Digit 2; Digit 3; Digit 4; Digit 5; Digit 6; Digit 7; Digit 8; Digit 9;
   Dot; Digit 0; Backspace].

(** What the component is rendered with: the exchange rate of the currency and
    the limits, which are [null] or missing when there are none. *)
Record Props := mkProps {
  btcToFiatRate : num;
  minimumAmount : option num;
  maximumAmount : option num
}.

(** The state and the ref of the hook, and the amount the form was told. *)
Record AmountInput := mkInput {
  isFiat : bool;
  satsValue : text;
  fiatValue : text;
  fractionIndex : nat;
  amount : num
}.
#[export] Instance AmountInput_eta : Eta AmountInput := fun s =>
  mkInput (isFiat s) (satsValue s) (fiatValue s) (fractionIndex s) (amount s).

Record Validation := mkValidation {
  i18nKey : string;
  limit : num;
  limitFiat : num;
  onlyShowOnSubmit : bool
}.

Section Hook.
Context (locale_of : option string -> Locale) (currency_digits : string -> nat).
Context (currency : string) (currencyLocale : option string).

Definition format_fiat (fiat : num) (lo hi : option nat) : result text :=
  formatFiat locale_of currency_digits fiat currency currencyLocale lo hi.

(** The first render. *)
Definition initial (defaultAmountInputType : option string) (p : Props) (sats : num)
    : result AmountInput :=
  let fiatAmount := satToFiat sats (btcToFiatRate p) in
  fiat ← (if eqb fiatAmount (to_fixed_num (floor fiatAmount) 0)
          then format_fiat fiatAmount (Some 0%nat) (Some 0%nat)
          else format_fiat fiatAmount None None);
  Ok (mkInput (negb (bool_decide (defaultAmountInputType = Some "sats")))
        (formatSats locale_of sats) fiat 0 sats).

Definition setIsFiat (value : bool) (s : AmountInput) : AmountInput := s <| isFiat := value |>.

Definition handleChangeSats (p : Props) (value : text) (s : AmountInput) : result AmountInput :=
  sats ← stripSatsValue locale_of value (Some currency);
  let fiat := mul (satToBtc sats) (btcToFiatRate p) in
  fiat ← format_fiat fiat None None;
  Ok (s <| amount := sats |> <| satsValue := formatSats locale_of sats |> <| fiatValue := fiat |>).

(** [if (Number.isNaN(fiat) || fiat < 0) fiat = 0] *)
Definition not_negative (fiat : num) : num :=
  if is_nan fiat || ltb fiat (of_Z 0) then of_Z 0 else fiat.

(** The fiat amount a text stands for. *)
Definition entered_fiat (value : text) : result num :=
  decimalSeparator ← getDecimalSeparator locale_of currencyLocale;
  if decide (value = []) then Ok (of_Z 0)
  else if negb (includes_text decimalSeparator value) then
    Ok (not_negative (parse_int (String.string_of_list_ascii value)))
  else
    fiat ← parseFiatString locale_of value currencyLocale;
    let fiat := not_negative fiat in
    decimals ← getCurrencyDecimals locale_of currency_digits currency currencyLocale;
    let valueDecimals := length (default [] (second_part decimalSeparator value)) in
    Ok (if (decimals <? valueDecimals)%nat then mul fiat (of_Z 10)
        else if (valueDecimals <? decimals)%nat then div fiat (of_Z 10) else fiat).

(** A limit is taken for a fiat amount that shows as it, to two decimals. *)
Definition snap (bound : option num) (rate fiat sats : num) : num :=
  match bound with
  | None => sats
  | Some m =>
      let boundFiat := mul (satToBtc m) rate in
      if eqb (to_fixed_num boundFiat 2) (to_fixed_num fiat 2) && ltb (of_Z 0) fiat then m else sats
  end.

Definition sats_of_fiat (p : Props) (fiat : num) : num :=
  let sats := clampSats (fiatToSat fiat (btcToFiatRate p)) in
  let sats := snap (minimumAmount p) (btcToFiatRate p) fiat sats in
  snap (maximumAmount p) (btcToFiatRate p) fiat sats.

Definition handleChangeFiat (p : Props) (value : text) (s : AmountInput) : result AmountInput :=
  decimalSeparator ← getDecimalSeparator locale_of currencyLocale;
  fiat ← entered_fiat value;
  let sats := sats_of_fiat p fiat in
  shown ← (if negb (includes_text decimalSeparator value)
           then format_fiat fiat (Some 0%nat) (Some 0%nat) else format_fiat fiat None None);
  Ok (s <| amount := sats |> <| fiatValue := shown |> <| satsValue := formatSats locale_of sats |>).

(** [v.replace(new RegExp(`[^0-9${decimalSeparator}]`, 'g'), '')] *)
Definition sanitise (decimalSeparator v : text) : text :=
  filter (fun c => is_decimal_digit c = true \/ c ∈ decimalSeparator) v.

Definition zero_text : text := ["0"%char].

(** [rawValue === '0' ? String(button) : rawValue + button] *)
Definition append_button (rawValue button : text) : text :=
  if decide (rawValue = zero_text) then button else rawValue ++ button.

(** [rawValue.slice(0, -1) || '0'] *)
Definition drop_last (rawValue : text) : text := or_text (removelast rawValue) zero_text.

Definition zeros_text (n : nat) : text := replicate n "0"%char.

(** The whole part and the fraction, as [maxDecimals] digits. *)
Definition split_value (decimalSeparator rawValue : text) (maxDecimals : nat) : text * text :=
  match cut_at decimalSeparator rawValue with
  | Some ab => (ab.1, take maxDecimals (default [] (second_part decimalSeparator rawValue) ++
                                        zeros_text maxDecimals))
  | None => (rawValue, zeros_text maxDecimals)
  end.

(** [fractionArr[index] = c], and the array joined: an assignment past the end
    leaves holes, which are joined as nothing. *)
Definition put (index : nat) (c fraction : text) : text :=
  take index fraction ++ c ++ drop (S index) fraction.

Section Press.
Context (p : Props) (s : AmountInput) (decimalSeparator : text) (button : numpadButton).

(** [String(button)], after the dot was mapped to the separator. *)
Definition button_text : text :=
  match button with Digit d => digits d | Dot => decimalSeparator | Backspace => chars "backspace" end.

(** What the handlers return with the new state: whether the key is rejected. *)
Definition changed (value : text) (s : AmountInput) : result (AmountInput * bool) :=
  s ← handleChangeFiat p value s; Ok (s, false).

Definition handleNoDecimals (rawValue : text) : result (AmountInput * bool) :=
  match button with
  | Backspace => changed (drop_last rawValue) s
  | Dot => Ok (s, true)
  | Digit _ => changed (append_button rawValue button_text) s
  end.

Definition handleSeparator (rawValue : text) (maxDecimals : nat) : result (AmountInput * bool) :=
  s ← (if includes_text decimalSeparator rawValue then Ok s
       else handleChangeFiat p (rawValue ++ decimalSeparator ++ zeros_text maxDecimals) s);
  Ok (s <| fractionIndex := 0%nat |>, false).

Definition handleBackspace (rawValue : text) (maxDecimals : nat) : result (AmountInput * bool) :=
  if includes_text decimalSeparator rawValue then
    let '(whole, fraction) := split_value decimalSeparator rawValue maxDecimals in
    let index := if decide (fractionIndex s = 0%nat /\ Exists (fun d => d <> "0"%char) fraction)
                 then maxDecimals else fractionIndex s in
    let index := (index - 1)%nat in
    let newFraction := put index zero_text fraction in
    let s := s <| fractionIndex := index |> in
    if decide (newFraction = zeros_text maxDecimals /\ index = 0%nat) then changed whole s
    else changed (whole ++ decimalSeparator ++ newFraction) s
  else changed (drop_last rawValue) s.

Definition handleDigit (rawValue : text) (maxDecimals : nat) : result (AmountInput * bool) :=
  if includes_text decimalSeparator rawValue then
    if (maxDecimals <=? fractionIndex s)%nat then Ok (s, true)
    else
      let '(whole, fraction) := split_value decimalSeparator rawValue maxDecimals in
      changed (whole ++ decimalSeparator ++ put (fractionIndex s) button_text fraction)
        (s <| fractionIndex := S (fractionIndex s) |>)
  else changed (append_button rawValue button_text) s.

Definition pressInSats : result (AmountInput * bool) :=
  let rawSats := only_digits (satsValue s) in
  s ← handleChangeSats p (match button with
                          | Backspace => removelast rawSats
                          | _ => append_button rawSats button_text
                          end) s;
  Ok (s, false).
End Press.

Definition handleNumpadPress (p : Props) (button : numpadButton) (s : AmountInput)
    : result (AmountInput * bool) :=
  decimalSeparator ← getDecimalSeparator locale_of currencyLocale;
  if isFiat s then
    maxDecimals ← getCurrencyDecimals locale_of currency_digits currency currencyLocale;
    let rawValue := sanitise decimalSeparator (fiatValue s) in
    if decide (maxDecimals = 0%nat) then handleNoDecimals p s decimalSeparator button rawValue
    else match button with
         | Dot => handleSeparator p s decimalSeparator rawValue maxDecimals
         | Backspace => handleBackspace p s decimalSeparator rawValue maxDecimals
         | Digit _ => handleDigit p s decimalSeparator button rawValue maxDecimals
         end
  else pressInSats p s decimalSeparator button.

Definition validation (p : Props) (s : AmountInput) : option Validation :=
  let above := match maximumAmount p with Some m => ltb m (amount s) | None => false end in
  let below := match minimumAmount p with Some m => ltb (amount s) m | None => false end in
  if above then
    let m := default (of_Z 0) (maximumAmount p) in
    Some (mkValidation "errors.invalid-amount-max" m (satToFiat m (btcToFiatRate p)) false)
  else if below then
    let m := default (of_Z 0) (minimumAmount p) in
    Some (mkValidation "errors.invalid-amount-min" m (satToFiat m (btcToFiatRate p))
            (eqb (amount s) (of_Z 0)))
  else None.

(** What a user does: press a key, switch the unit, or edit the text field, which
    is the one of the unit that is shown. *)
Inductive event : Type :=
  | Press (button : numpadButton)
  | Switch
  | Edit (value : text).

Definition step (p : Props) (e : event) (s : AmountInput) : result AmountInput :=
  match e with
  | Press button => r ← handleNumpadPress p button s; Ok r.1
  | Switch => Ok (setIsFiat (negb (isFiat s)) s)
  | Edit value => if isFiat s then handleChangeFiat p value s else handleChangeSats p value s
  end.

Definition run (s : AmountInput) (l : list (Props * event)) : result AmountInput :=
  foldM (fun s pe => step pe.1 pe.2 s) s l.
End Hook.

(** ** An editor of integers

    What the hook is meant to be: the whole part as an integer, the fraction as
    its digits when it is shown, with the place where the next digit goes, and
    the sats that were told. *)

Record Editor := mkEditor {
  in_fiat : bool;
  cursor : nat;
  whole : Z;
  slots : option text;
  told : Z
}.

#[export] Instance Editor_eta : Eta Editor := fun e =>
  mkEditor (in_fiat e) (cursor e) (whole e) (slots e) (told e).

Section Editor.
Context (decimals : nat).

(** The fiat amount on display, as the nearest double. *)
Definition shown_fiat (w : Z) (f : option text) : num :=
  match f with
  | None => of_Z w
  | Some f => of_frac (w * 10 ^ Z.of_nat decimals + text_value f) (10 ^ Z.of_nat decimals)
  end.

Definition integer_part (x : num) : Z := match x with Fin m => m / unit1 | _ => 0 end.

Definition enter (p : Props) (w : Z) (f : option text) (e : Editor) : Editor :=
  e <| whole := w |> <| slots := f |> <| told := integer_part (sats_of_fiat p (shown_fiat w f)) |>.

Definition type_digit (p : Props) (d : Z) (e : Editor) : Editor :=
  match slots e with
  | None => enter p (10 * whole e + d) None e
  | Some f =>
      if (decimals <=? cursor e)%nat then e
      else enter p (whole e) (Some (put (cursor e) [digit_char d] f)) (e <| cursor := S (cursor e) |>)
  end.

(** A fraction is only left when nothing of it remains. *)
Definition erase (p : Props) (e : Editor) : Editor :=
  match slots e with
  | None => enter p (whole e / 10) None e
  | Some f =>
      let i := ((if decide (cursor e = 0%nat /\ f <> zeros_text decimals) then decimals
                 else cursor e) - 1)%nat in
      let f' := put i zero_text f in
      enter p (whole e) (if decide (f' = zeros_text decimals /\ i = 0%nat) then None else Some f')
        (e <| cursor := i |>)
  end.

Definition start_fraction (p : Props) (e : Editor) : Editor :=
  match slots e with
  | None =>
      if decide (decimals = 0%nat) then e
      else enter p (whole e) (Some (zeros_text decimals)) (e <| cursor := 0%nat |>)
  | Some _ => e <| cursor := 0%nat |>
  end.

(** In sats, what is shown in fiat is rounded to its decimals. *)
Definition enter_sats (p : Props) (n : Z) (e : Editor) : Editor :=
  let k := match mul (satToBtc (of_Z n)) (btcToFiatRate p) with
           | Fin m => to_fixed_mag m (Z.of_nat decimals) | _ => 0 end in
  e <| told := n |> <| whole := k / 10 ^ Z.of_nat decimals |>
    <| slots := if decide (decimals = 0%nat) then None
                else Some (padded decimals (k mod 10 ^ Z.of_nat decimals)) |>.

Definition edit (p : Props) (ev : event) (e : Editor) : Editor :=
  match ev with
  | Press (Digit d) =>
      if in_fiat e then type_digit p d e else enter_sats p (10 * told e + d) e
  | Press Backspace => if in_fiat e then erase p e else enter_sats p (told e / 10) e
  | Press Dot => if in_fiat e then start_fraction p e else enter_sats p (told e) e
  | Switch => e <| in_fiat := negb (in_fiat e) |>
  | Edit _ => e
  end.

Definition edits (e : Editor) (l : list (Props * event)) : Editor :=
  foldl (fun e pe => edit pe.1 pe.2 e) e l.

Definition editor_ok (e : Editor) : Prop :=
  0 <= whole e /\ 0 <= told e /\ (cursor e <= decimals)%nat /\
  match slots e with
  | Some f => (0 < decimals)%nat /\ length f = decimals /\ all_digits f
  | None => True
  end.

(** Amounts within what doubles hold: fiat of fifteen digits, and sats up to the
    supply. *)
Definition fits (e : Editor) : Prop :=
  if in_fiat e then (whole e + 1) * 10 ^ Z.of_nat decimals <= 10 ^ 15 else told e <= max_supply.
End Editor.

(** Rates that are amounts of money, and limits in sats. *)
Definition limit_ok (m : option num) : Prop :=
  match m with Some m => exists n, 0 <= n /\ m = Fin (n * unit1) | None => True end.
Definition props_ok (p : Props) : Prop :=
  (exists r, btcToFiatRate p = Fin r /\ 0 <= r <= 10 ^ 12 * unit1) /\
  limit_ok (minimumAmount p) /\ limit_ok (maximumAmount p).

Definition key_ok (ev : event) : Prop :=
  match ev with Press (Digit d) => 0 <= d < 10 | Press _ | Switch => True | Edit _ => False end.

(** ** The hook is such an editor *)

Lemma told_integral p fiat : props_ok p ->
  0 <= integer_part (sats_of_fiat p fiat) /\
  sats_of_fiat p fiat = Fin (integer_part (sats_of_fiat p fiat) * unit1).
Proof.
  intros (_ & Lmin & Lmax). pose proof unit1_pos as U.
  assert (S : forall b x, limit_ok b -> (exists n, 0 <= n /\ x = Fin (n * unit1)) ->
    exists n, 0 <= n /\ snap b (btcToFiatRate p) fiat x = Fin (n * unit1))
    by (intros [m|] x Hb Hx; unfold snap; [case_match; done | done]).
  unfold sats_of_fiat. pose proof (proj1 (clampSats_valid (fiatToSat fiat (btcToFiatRate p)))) as C.
  apply (S _ _ Lmin) in C. apply (S _ _ Lmax) in C. destruct C as (n & Hn & ->).
  cbn [integer_part]. by rewrite Z.div_mul by lia.
Qed.

(** What an amount is worth, at a rate of money. *)
Lemma fiat_product n r : 0 <= n <= max_supply -> 0 <= r <= 10 ^ 12 * unit1 ->
  exists m, mul (satToBtc (of_Z n)) (Fin r) = Fin m /\ 0 <= m /\ m < 10 ^ 21 * unit1.
Proof.
  intros Hn Br. pose proof unit1_pos as U. pose proof (btc_units_bound n Hn) as Bb.
  rewrite satToBtc_units by done. cbn [mul].
  assert (M : round_mag (btc_units n * r) unit1 < 10 ^ 21 * unit1).
  { apply Z.le_lt_trans with (round_mag (22000000 * 10 ^ 12 * unit1 * unit1) unit1);
      [|by vm_compute].
    assert (btc_units n * r <= 22000000 * unit1 * (10 ^ 12 * unit1))
      by (apply Z.mul_le_mono_nonneg; lia).
    apply round_mag_mono; [nia | done | nia | done |]. apply Z.mul_le_mono_nonneg_r; lia. }
  eexists. split; [apply fin_round_pos|]; [nia | done | | split; [apply round_mag_nonneg; nia | exact M]].
  etrans; [exact M|]. by vm_compute.
Qed.

Lemma append_digits w d : 0 <= w -> 0 <= d < 10 ->
  append_button (digits w) (digits d) = digits (10 * w + d).
Proof.
  intros Hw Hd. unfold append_button, zero_text. destruct (Z.eq_dec w 0) as [->|].
  - change (digits 0) with ["0"%char]. by rewrite decide_True.
  - rewrite (digits_snoc w d), (digits_small d) by lia. rewrite decide_False; [done|].
    intros E. destruct (digits_spec w Hw) as (_ & V & _). rewrite E in V. change (text_value ["0"%char]) with 0 in V. lia.
Qed.

Lemma removelast_digits w : 0 <= w ->
  removelast (digits w) = if decide (w < 10) then [] else digits (w / 10).
Proof.
  intros Hw. case_decide as B; [by rewrite digits_small|].
  pose proof (Z.mod_pos_bound w 10 ltac:(lia)).
  assert (1 <= w / 10) by (apply Z.div_le_lower_bound; lia).
  assert (E : digits w = digits (w / 10) ++ [digit_char (w mod 10)]).
  { rewrite <- (digits_snoc (w / 10) (w mod 10)) by lia. f_equal. apply Z.div_mod. lia. }
  by rewrite E, removelast_last.
Qed.

Lemma drop_last_digits w : 0 <= w -> drop_last (digits w) = digits (w / 10).
Proof.
  intros Hw. unfold drop_last, or_text. rewrite removelast_digits by done. destruct (decide (w < 10)) as [B|B].
  - by rewrite Z.div_small by lia.
  - pose proof (Z.div_pos w 10 Hw ltac:(lia)) as Q. destruct (digits_spec (w / 10) Q) as (_ & _ & N & _).
    by rewrite decide_False.
Qed.

Section Refinement.
Context (locale_of : option string -> Locale) (currency_digits : string -> nat).
Context (currency : string) (currencyLocale : option string).

(** The locales of the user and of the currency are usual, and the currency has
    at most four decimals, as every currency has. *)
Context (l : Locale) (lc : Locale) (decimals : nat).
Context (user_locale : number_format locale_of currencyLocale = Ok l) (usual : locale_usual l).
Context (currency_locale : number_format locale_of (Some currency) = Ok lc) (usual_c : locale_usual lc).
Context (usual_default : locale_usual (locale_of None)).
Context (has_decimals :
  getCurrencyDecimals locale_of currency_digits currency currencyLocale = Ok decimals).
Context (few_decimals : (decimals <= 4)%nat).

Local Notation handleChangeFiat := (handleChangeFiat locale_of currency_digits currency currencyLocale).
Local Notation step := (step locale_of currency_digits currency currencyLocale).

(** What is on screen. *)
Definition fiat_text (w : Z) (f : option text) : text :=
  group_digits l (digits w) ++ match f with Some f => decimalSep l :: f | None => [] end.
Definition sats_text (n : Z) : text := group_digits (locale_of None) (digits n).

Record shows (e : Editor) (s : AmountInput) : Prop := mkShows {
  shows_mode : isFiat s = in_fiat e;
  shows_cursor : fractionIndex s = cursor e;
  shows_fiat : fiatValue s = fiat_text (whole e) (slots e);
  shows_sats : satsValue s = sats_text (told e);
  shows_told : amount s = Fin (told e * unit1)
}.

Lemma scale_pos : 0 < 10 ^ Z.of_nat decimals.
Proof. apply Z.pow_pos_nonneg; lia. Qed.

Lemma format_fiat_default x :
  format_fiat locale_of currency_digits currency currencyLocale x None None =
  Ok (format_number l decimals decimals x).
Proof.
  unfold format_fiat, formatFiat. unfold getCurrencyDecimals in has_decimals.
  rewrite has_decimals, user_locale. cbn [mbind result_bind from_option id]. by rewrite Nat.ltb_irrefl.
Qed.

Lemma format_fiat_whole x :
  format_fiat locale_of currency_digits currency currencyLocale x (Some 0%nat) (Some 0%nat) =
  Ok (format_number l 0 0 x).
Proof. unfold format_fiat, formatFiat. by rewrite user_locale. Qed.

Lemma format_sats n : 0 <= n -> formatSats locale_of (Fin (n * unit1)) = sats_text n.
Proof. intros H. by apply format_integer. Qed.

Lemma includes_none s : all_digits s -> includes_text [decimalSep l] s = false.
Proof.
  intros A. unfold includes_text. rewrite cut_at_none; [done|].
  apply digit_not_in; [apply usual | done].
Qed.

(** The whole part of an amount, grouped or not. *)
Definition whole_text (v : text) (w : Z) : Prop :=
  decimalSep l ∉ v /\ filter (fun c => c <> groupSep l) v = digits w.

Lemma digits_whole w : 0 <= w -> whole_text (digits w) w.
Proof.
  intros H. destruct (digits_spec w H) as (A & _). destruct usual as ([D G N _] & _). split.
  - by apply digit_not_in.
  - apply filter_digits; [|done]. intros c Hc ->. congruence.
Qed.

Lemma grouped_whole w : 0 <= w -> whole_text (group_digits l (digits w)) w.
Proof.
  intros H. destruct (digits_spec w H) as (A & _). destruct (digits_whole w H) as [Dw Fw].
  destruct usual as ([D G N _] & _). split.
  - intros I. apply Dw.
    assert (F : decimalSep l ∈ filter (fun c => c = decimalSep l) (group_digits l (digits w)))
      by (by apply list_elem_of_filter).
    rewrite group_digits_filter in F by congruence. by apply list_elem_of_filter in F as [_ F].
  - rewrite group_digits_filter by (intros X; by apply X). exact Fw.
Qed.

Lemma includes_whole v w f : whole_text v w -> includes_text [decimalSep l] (v ++ decimalSep l :: f) = true.
Proof. intros [D _]. unfold includes_text. by rewrite cut_at_char. Qed.

Lemma second_part_whole v w f : whole_text v w -> all_digits f ->
  second_part [decimalSep l] (v ++ decimalSep l :: f) = Some f.
Proof.
  intros [D _] Af. unfold second_part. destruct usual as ([Dd _ _ _] & _ & _).
  rewrite cut_at_char by done. cbn. by rewrite cut_at_none by (by apply digit_not_in).
Qed.

Lemma not_negative_fin m : 0 <= m -> not_negative (Fin m) = Fin m.
Proof.
  intros H. unfold not_negative. rewrite (of_Z_safe 0) by (unfold safe; lia).
  cbn [is_nan orb ltb]. by rewrite (proj2 (Z.ltb_ge m (0 * unit1))) by lia.
Qed.

(** What a change of the fiat text comes to. *)
Definition entered (p : Props) (w : Z) (f : option text) (s : AmountInput) : AmountInput :=
  let n := integer_part (sats_of_fiat p (shown_fiat decimals w f)) in
  s <| amount := Fin (n * unit1) |> <| fiatValue := fiat_text w f |> <| satsValue := sats_text n |>.

Lemma change_whole p w s : props_ok p -> 0 <= w -> w < 10 ^ 15 ->
  handleChangeFiat p (digits w) s = Ok (entered p w None s).
Proof.
  intros P H B. destruct (digits_spec w H) as (A & V & N & _).
  destruct (told_integral p (of_Z w) P) as [T E]. pose proof unit1_pos as U.
  unfold AmountInput.handleChangeFiat, entered_fiat.
  rewrite (decimal_found _ _ _ user_locale usual). cbn [mbind result_bind].
  rewrite decide_False, includes_none by done. cbn [negb].
  rewrite <- (app_nil_r (digits w)) at 1. rewrite parse_int_digits by done. rewrite V.
  rewrite of_Z_safe at 1 by (unfold safe; lia). rewrite not_negative_fin by lia.
  rewrite <- (of_Z_safe w) by (unfold safe; lia). cbn [mbind result_bind].
  rewrite format_fiat_whole. cbn [mbind result_bind]. unfold entered, shown_fiat. cbv zeta.
  set (n := integer_part (sats_of_fiat p (of_Z w))) in *. rewrite E, format_sats by done.
  do 2 f_equal. rewrite of_Z_safe by (unfold safe; lia).
  rewrite (format_whole l _ w) by (rewrite ?to_fixed_mag_int; lia).
  unfold fiat_text. by rewrite app_nil_r.
Qed.

(** A decimal is read as the nearest double, and shifted when it has more or
    fewer decimals than the currency. *)
Lemma entered_decimal v w f : whole_text v w -> 0 <= w -> f <> [] -> all_digits f ->
  (length f <= 20)%nat -> (w + 1) * 10 ^ Z.of_nat (length f) <= 10 ^ 15 ->
  exists m, of_frac (w * 10 ^ Z.of_nat (length f) + text_value f) (10 ^ Z.of_nat (length f)) = Fin m /\
    0 <= m <= 2 ^ 53 * unit1 /\
    to_fixed_mag m (Z.of_nat (length f)) = w * 10 ^ Z.of_nat (length f) + text_value f /\
    2 ^ 53 * Z.abs (m * 10 ^ Z.of_nat (length f) -
                    (w * 10 ^ Z.of_nat (length f) + text_value f) * unit1) <=
      (w * 10 ^ Z.of_nat (length f) + text_value f) * unit1 /\
    entered_fiat locale_of currency_digits currency currencyLocale (v ++ decimalSep l :: f) =
    Ok (if (decimals <? length f)%nat then mul (Fin m) (of_Z 10)
        else if (length f <? decimals)%nat then div (Fin m) (of_Z 10) else Fin m).
Proof.
  intros Hv H Nf Af Lf B. destruct (digits_spec w H) as (A & V & N & _).
  pose proof (text_value_bound f Af) as Bf.
  assert (Q : 0 < 10 ^ Z.of_nat (length f)) by (apply Z.pow_pos_nonneg; lia).
  set (k := w * 10 ^ Z.of_nat (length f) + text_value f).
  destruct (fixed_double (length f) k Lf ltac:(unfold k; nia)) as (m & Em & Bm & Fm & Rm).
  exists m. split_and!; [exact Em | apply Bm | apply Bm | exact Fm | exact Rm |].
  unfold entered_fiat. rewrite (decimal_found _ _ _ user_locale usual). cbn [mbind result_bind].
  rewrite decide_False by (by destruct v). rewrite (includes_whole v w f Hv). cbn [negb].
  rewrite (parse_fiat_text _ _ l user_locale usual v (digits w)) by (done || apply Hv).
  cbn [mbind result_bind]. rewrite has_decimals. cbn [mbind result_bind].
  rewrite (second_part_whole v w f Hv Af). cbn [from_option id].
  rewrite V. fold k. by rewrite Em, not_negative_fin by lia.
Qed.

Lemma change_decimal p v w f s : props_ok p -> whole_text v w -> 0 <= w ->
  (w + 1) * 10 ^ Z.of_nat decimals <= 10 ^ 15 ->
  (0 < decimals)%nat -> length f = decimals -> all_digits f ->
  handleChangeFiat p (v ++ decimalSep l :: f) s = Ok (entered p w (Some f) s).
Proof.
  intros P Hv H B Dp L Af. assert (Nf : f <> []) by (destruct f; [cbn in L; lia | done]).
  pose proof (text_value_bound f Af) as Bf. pose proof scale_pos as Q. rewrite L in Bf.
  destruct (entered_decimal v w f Hv H Nf Af) as (m & Em & Bm & Fm & _ & E); [lia | by rewrite L|].
  rewrite L in *. rewrite Nat.ltb_irrefl in E. set (k := w * 10 ^ Z.of_nat decimals + text_value f) in *.
  destruct (told_integral p (Fin m) P) as [T Et].
  unfold AmountInput.handleChangeFiat. rewrite (decimal_found _ _ _ user_locale usual), E.
  cbn [mbind result_bind]. rewrite (includes_whole v w f Hv). cbn [negb].
  rewrite format_fiat_default. cbn [mbind result_bind]. unfold entered, shown_fiat. cbv zeta. fold k.
  rewrite Em. set (n := integer_part (sats_of_fiat p (Fin m))) in *. rewrite Et, format_sats by done.
  do 2 f_equal. rewrite (format_fixed l decimals m k) by (done || lia || (unfold k; nia)).
  unfold fiat_text, k. rewrite Z.div_add_l, Z.div_small, Z.add_0_r by lia.
  rewrite Z.add_comm, Z.mod_add, Z.mod_small by lia.
  assert (PT : padded decimals (text_value f) = f) by (rewrite <- L; by apply padded_text).
  by rewrite PT.
Qed.

Lemma change_fraction p w f s : props_ok p -> 0 <= w -> (w + 1) * 10 ^ Z.of_nat decimals <= 10 ^ 15 ->
  (0 < decimals)%nat -> length f = decimals -> all_digits f ->
  handleChangeFiat p (digits w ++ decimalSep l :: f) s = Ok (entered p w (Some f) s).
Proof. intros P H. apply change_decimal; [done | by apply digits_whole | done]. Qed.

Lemma sanitise_fiat w f : 0 <= w -> (forall f', f = Some f' -> all_digits f') ->
  sanitise [decimalSep l] (fiat_text w f) =
  digits w ++ match f with Some f => decimalSep l :: f | None => [] end.
Proof.
  intros H Af. destruct (digits_spec w H) as (A & _). destruct usual as ([D G N _] & _).
  unfold sanitise, fiat_text. rewrite list.filter_app, group_digits_filter.
  2: { intros [?|?%list_elem_of_singleton]; congruence. }
  rewrite filter_digits by (auto). f_equal.
  destruct f as [f|]; [|done]. rewrite filter_cons_True by (right; by left).
  by rewrite filter_digits by (auto).
Qed.

Lemma only_digits_sats n : 0 <= n -> only_digits (sats_text n) = digits n.
Proof.
  intros H. destruct (digits_spec n H) as (A & _). destruct usual_default as ([D G N _] & _).
  unfold only_digits, sats_text. rewrite group_digits_filter by congruence. by apply filter_digits.
Qed.

(** What is typed in sats is read back, whatever single character follows. *)
Lemma strip_digits n rest : 0 <= n <= max_supply -> (length rest <= 1)%nat ->
  (forall c, head rest = Some c -> is_decimal_digit c = false) ->
  stripSatsValue locale_of (digits n ++ rest) (Some currency) = Ok (of_Z n).
Proof.
  intros H L R. destruct (digits_spec n ltac:(lia)) as (A & V & N & _).
  destruct usual_c as ([D G N' _] & _). unfold stripSatsValue.
  rewrite (thousands_found _ _ _ currency_locale usual_c). cbn [mbind result_bind].
  rewrite remove_char, list.filter_app, (filter_digits _ (digits n)) by (done || congruence).
  rewrite parse_int_digits, V; [|done|done|].
  2: { destruct rest as [|c [|]]; [done | | cbn in L; lia]. intros x Hx. cbn in Hx.
       case_decide; [|done]. injection Hx as <-. by apply R. }
  f_equal. rewrite (proj2 (clampSats_valid (of_Z n)) n) by (done || by apply supply_safe).
  by rewrite Z.max_r by lia.
Qed.

Lemma strip_nothing rest : (length rest <= 1)%nat ->
  (forall c, head rest = Some c -> is_decimal_digit c = false) ->
  stripSatsValue locale_of rest (Some currency) = Ok (of_Z 0).
Proof.
  intros L R. unfold stripSatsValue. rewrite (thousands_found _ _ _ currency_locale usual_c).
  cbn [mbind result_bind]. rewrite remove_char, parse_int_nothing; [done| |].
  - destruct rest as [|c [|]]; [done | | cbn in L; lia]. intros x Hx. cbn in Hx.
    case_decide; [|done]. injection Hx as <-. by apply R.
  - destruct rest as [|c [|]]; [cbn; lia | | cbn in L; lia]. cbn. case_decide; cbn; lia.
Qed.

(** The text of the sats, edited by a key. *)
Definition key_sats (k : numpadButton) (n : Z) : Z :=
  match k with Digit d => 10 * n + d | Backspace => n / 10 | Dot => n end.

Lemma typed_sats k n : key_ok (Press k) -> 0 <= n -> key_sats k n <= max_supply ->
  stripSatsValue locale_of
    (match k with Backspace => removelast (digits n)
     | _ => append_button (digits n) (button_text [decimalSep l] k) end) (Some currency) =
  Ok (of_Z (key_sats k n)).
Proof.
  intros K Hn B. assert (R : forall c, head [decimalSep l] = Some c -> is_decimal_digit c = false)
    by (intros c [= <-]; apply usual).
  destruct k as [d| |]; cbn [key_sats key_ok button_text] in *.
  - rewrite append_digits, <- (app_nil_r (digits _)) by done. apply strip_digits; [lia | cbn; lia | done].
  - unfold append_button. case_decide as E; [|apply strip_digits; [lia | cbn; lia | done]].
    destruct (digits_spec n Hn) as (_ & V & _). rewrite E in V.
    change (text_value zero_text) with 0 in V. rewrite <- V. apply strip_nothing; [cbn; lia | done].
  - rewrite removelast_digits by done. pose proof (Z.div_pos n 10 Hn ltac:(lia)). case_decide.
    + rewrite Z.div_small by lia. by apply strip_nothing; [cbn; lia|].
    + rewrite <- (app_nil_r (digits _)). apply strip_digits; [lia | cbn; lia | done].
Qed.

(** What a change of the sats text comes to. *)
Lemma change_sats p n v s e : props_ok p -> 0 <= n <= max_supply ->
  stripSatsValue locale_of v (Some currency) = Ok (of_Z n) ->
  isFiat s = in_fiat e -> fractionIndex s = cursor e -> (cursor e <= decimals)%nat ->
  exists s', handleChangeSats locale_of currency_digits currency currencyLocale p v s = Ok s' /\
    shows (enter_sats decimals p n e) s' /\ editor_ok decimals (enter_sats decimals p n e).
Proof.
  intros ((r & Er & Br) & _) Hn Hv M C Hc. unfold handleChangeSats. rewrite Hv. cbn [mbind result_bind].
  rewrite format_fiat_default. cbn [mbind result_bind]. eexists. split; [done|].
  pose proof unit1_pos as U. unfold enter_sats. rewrite Er.
  destruct (fiat_product n r Hn Br) as (m & -> & Bm & _). set (k := to_fixed_mag m (Z.of_nat decimals)).
  assert (Bk : 0 <= k) by (apply Z.div_pos; nia). pose proof scale_pos as Q.
  pose proof (Z.mod_pos_bound k _ Q) as Bmod.
  split.
  - rewrite (of_Z_safe n) by (by apply supply_safe).
    constructor; [exact M | exact C | | exact (format_sats n (proj1 Hn)) | reflexivity].
    change (format_number l decimals decimals (Fin m) = fiat_text (k / 10 ^ Z.of_nat decimals)
      (if decide (decimals = 0%nat) then None else Some (padded decimals (k mod 10 ^ Z.of_nat decimals)))).
    case_decide as D0.
    + rewrite D0. unfold fiat_text. change (10 ^ Z.of_nat 0) with 1. rewrite Z.div_1_r, app_nil_r.
      apply format_whole; [done|]. unfold k. by rewrite D0.
    + unfold fiat_text. apply format_fixed; [lia | done | reflexivity | done].
  - split; [exact (Z.div_pos _ _ Bk Q)|]. split; [exact (proj1 Hn)|]. split; [exact Hc|].
    cbn [slots]. case_decide as D0; [done|]. destruct (padded_spec decimals _ ltac:(lia) Bmod) as (A & _ & L).
    split_and!; [lia | done | done].
Qed.

Lemma enter_shows p w f e s : props_ok p ->
  isFiat s = in_fiat e -> fractionIndex s = cursor e -> 0 <= w -> (cursor e <= decimals)%nat ->
  (forall f', f = Some f' -> (0 < decimals)%nat /\ length f' = decimals /\ all_digits f') ->
  shows (enter decimals p w f e) (entered p w f s) /\ editor_ok decimals (enter decimals p w f e).
Proof.
  intros P M C H Hc Hf. split; [by constructor|].
  split; [exact H|]. split; [apply told_integral; exact P|]. split; [exact Hc|].
  cbn [slots enter]. destruct f as [f|]; [by apply Hf | done].
Qed.

(** The fraction of what is displayed. *)
Lemma split_shown w f : 0 <= w -> length f = decimals -> all_digits f ->
  split_value [decimalSep l] (digits w ++ decimalSep l :: f) decimals = (digits w, f).
Proof.
  intros H L A. destruct (digits_spec w H) as (Aw & _). destruct usual as ([D _ _ _] & _ & _).
  unfold split_value. rewrite cut_at_char by (by apply digit_not_in).
  rewrite (second_part_whole _ w f (digits_whole w H) A). cbn [fst from_option id].
  by rewrite take_app_length'.
Qed.

Lemma some_digit f : length f = decimals ->
  Exists (fun d => d <> "0"%char) f <-> f <> zeros_text decimals.
Proof.
  intros L. rewrite <- L. clear L. unfold zeros_text.
  induction f as [|c f IH]; cbn [length replicate].
  - rewrite List.Exists_nil. naive_solver.
  - rewrite List.Exists_cons, IH. destruct (decide (c = "0"%char)) as [->|N].
    + split; [intros [|N] [= E]; congruence | intros N; right; congruence].
    + split; [congruence | by left].
Qed.

Lemma zeros_ok : length (zeros_text decimals) = decimals /\ all_digits (zeros_text decimals).
Proof. split; [apply length_replicate | by apply list.Forall_replicate]. Qed.

Lemma put_digit i c f : (i < decimals)%nat -> length f = decimals -> all_digits f ->
  is_decimal_digit c = true -> length (put i [c] f) = decimals /\ all_digits (put i [c] f).
Proof.
  intros Hi L A Hc. unfold put. split.
  - rewrite !length_app, length_take, length_drop. cbn [length]. lia.
  - apply list.Forall_app. split; [by apply Forall_take|]. constructor; [done|]. by apply Forall_drop.
Qed.

Local Notation refines p ev e s := (exists s', step p ev s = Ok s' /\
  shows (edit decimals p ev e) s' /\ editor_ok decimals (edit decimals p ev e)).

(** The handlers of the keypad in fiat, from the text that is displayed. *)
Section Key.
Context (p : Props) (e : Editor) (s : AmountInput) (k : numpadButton).
Context (P : props_ok p) (O : editor_ok decimals e) (S : shows e s).

Lemma press_fiat : isFiat s = true ->
  step p (Press k) s =
  (let raw := digits (whole e) ++ match slots e with Some f => decimalSep l :: f | None => [] end in
   r ← (if decide (decimals = 0%nat) then
          handleNoDecimals locale_of currency_digits currency currencyLocale p s [decimalSep l] k raw
        else match k with
             | Dot => handleSeparator locale_of currency_digits currency currencyLocale p s
                        [decimalSep l] raw decimals
             | Backspace => handleBackspace locale_of currency_digits currency currencyLocale p s
                        [decimalSep l] raw decimals
             | Digit _ => handleDigit locale_of currency_digits currency currencyLocale p s
                        [decimalSep l] k raw decimals
             end); Ok r.1).
Proof.
  intros M. destruct O as (Hw & _ & _ & Hf). destruct S as [_ _ F _ _].
  unfold AmountInput.step, handleNumpadPress.
  rewrite (decimal_found _ _ _ user_locale usual). cbn [mbind result_bind].
  rewrite M, has_decimals. cbn [mbind result_bind]. cbv zeta.
  rewrite F, sanitise_fiat; [done | done |]. intros f' E. rewrite E in Hf. apply Hf.
Qed.

Lemma change_entered v w f s0 e0 :
  handleChangeFiat p v s0 = Ok (entered p w f s0) ->
  isFiat s0 = in_fiat e0 -> fractionIndex s0 = cursor e0 -> 0 <= w -> (cursor e0 <= decimals)%nat ->
  (forall f', f = Some f' -> (0 < decimals)%nat /\ length f' = decimals /\ all_digits f') ->
  exists s', (r ← changed locale_of currency_digits currency currencyLocale p v s0; Ok r.1) = Ok s' /\
    shows (enter decimals p w f e0) s' /\ editor_ok decimals (enter decimals p w f e0).
Proof.
  intros H M C Hw Hc Hf. unfold changed. rewrite H. cbn. eexists. split; [done|].
  by apply enter_shows.
Qed.

Lemma press_whole : slots e = None -> in_fiat e = true -> key_ok (Press k) ->
  fits decimals (edit decimals p (Press k) e) -> refines p (Press k) e s.
Proof.
  intros N M K F. destruct O as (Hw & _ & Hc & _). destruct S as [SM SC _ _ _].
  rewrite press_fiat by congruence. rewrite N, app_nil_r. cbv zeta. pose proof scale_pos as Q.
  destruct (digits_spec (whole e) Hw) as (A & _).
  unfold handleDigit, handleBackspace, handleSeparator. rewrite includes_none by done.
  assert (D : forall d, 0 <= d < 10 -> fits decimals (type_digit decimals p d e) ->
    exists s', (r ← changed locale_of currency_digits currency currencyLocale p
                  (append_button (digits (whole e)) (digits d)) s; Ok r.1) = Ok s' /\
      shows (type_digit decimals p d e) s' /\ editor_ok decimals (type_digit decimals p d e)).
  { intros d Hd Fd. unfold type_digit in *. rewrite N in *. unfold fits in Fd. cbn in Fd. rewrite M in Fd.
    apply change_entered; [|done|done|lia|done|done].
    rewrite append_digits by lia. apply change_whole; [done | lia | nia]. }
  assert (B : fits decimals (erase decimals p e) ->
    exists s', (r ← changed locale_of currency_digits currency currencyLocale p
                  (drop_last (digits (whole e))) s; Ok r.1) = Ok s' /\
      shows (erase decimals p e) s' /\ editor_ok decimals (erase decimals p e)).
  { unfold erase. rewrite N. unfold fits. cbn. rewrite M. intros Fd.
    pose proof (Z.div_pos (whole e) 10 Hw ltac:(lia)).
    apply change_entered; [|done|done|done|done|done].
    rewrite drop_last_digits by done. apply change_whole; [done | done | nia]. }
  destruct k as [d| |]; cbn [edit] in *; rewrite M in *.
  - destruct (decide (decimals = 0%nat)); by apply D.
  - unfold start_fraction in *. rewrite N in *. destruct (decide (decimals = 0%nat)) as [Z0|NZ].
    + eexists. split; [reflexivity|]. by split.
    + change ([decimalSep l] ++ zeros_text decimals) with (decimalSep l :: zeros_text decimals).
      rewrite change_fraction.
      * exists (entered p (whole e) (Some (zeros_text decimals)) (s <| fractionIndex := 0%nat |>)).
        split; [reflexivity|].
        apply (enter_shows p (whole e) (Some (zeros_text decimals)) (e <| cursor := 0%nat |>)
                 (s <| fractionIndex := 0%nat |>));
          [exact P | cbn; congruence | done | exact Hw | cbn; lia |].
        intros f' [= <-]. split; [lia | exact zeros_ok].
      * done.
      * done.
      * unfold fits in F. cbn in F. by rewrite M in F.
      * lia.
      * apply zeros_ok.
      * apply zeros_ok.
  - destruct (decide (decimals = 0%nat)); by apply B.
Qed.

Lemma press_fraction f : slots e = Some f -> in_fiat e = true -> key_ok (Press k) ->
  fits decimals (edit decimals p (Press k) e) -> refines p (Press k) e s.
Proof.
  intros N M K F. destruct O as (Hw & Ht & Hc & Hf). rewrite N in Hf. destruct Hf as (Dp & L & Af).
  pose proof S as [SM SC SF SS ST].
  rewrite press_fiat by congruence. rewrite N. cbv zeta.
  destruct (decide (decimals = 0%nat)) as [?|_]; [lia|].
  destruct (digits_spec (whole e) Hw) as (A & _).
  unfold handleDigit, handleBackspace, handleSeparator. 
  rewrite (includes_whole _ (whole e) f (digits_whole _ Hw)), split_shown by done.
  rewrite SC.
  destruct k as [d| |]; cbn [edit key_ok] in *; rewrite M in *.
  - unfold type_digit in *. rewrite N in *.
    destruct (decimals <=? cursor e)%nat eqn:C.
    + eexists. split; [reflexivity|]. by split.
    + apply Nat.leb_gt in C. unfold button_text. rewrite (digits_small d) by done.
      destruct (put_digit (cursor e) (digit_char d) f C L Af) as [L' A']; [by apply digit_char_spec|].
      unfold fits in F. cbn in F. rewrite M in F.
      apply change_entered; [|cbn; congruence|done|done|cbn; lia|].
      * by apply change_fraction.
      * intros f' [= <-]. by split_and!.
  - unfold start_fraction in *. rewrite N in *. eexists. split; [reflexivity|].
    split; [constructor; [apply S | reflexivity | apply S | apply S | apply S]|].
    split; [exact Hw|]. split; [exact Ht|]. split; [cbn; lia|].
    cbn [slots]. change (slots (e <| cursor := 0%nat |>)) with (slots e). by rewrite N.
  - unfold erase in *. rewrite N in *. cbv zeta.
    rewrite (decide_ext (cursor e = 0%nat /\ Exists (fun d => d <> "0"%char) f)
      (cursor e = 0%nat /\ f <> zeros_text decimals)) by (by rewrite some_digit).
    set (i := ((if decide (cursor e = 0%nat /\ f <> zeros_text decimals) then decimals
                else cursor e) - 1)%nat) in *.
    assert (Hi : (i < decimals)%nat) 
      by (unfold i; destruct (decide (cursor e = 0%nat /\ f <> zeros_text decimals)); lia).
    destruct (put_digit i "0"%char f Hi L Af eq_refl) as [L' A']. fold zero_text in L', A'.
    unfold fits in F. cbn in F. rewrite M in F.
    destruct (decide (put i zero_text f = zeros_text decimals /\ i = 0%nat)) as [[E _]|_].
    + apply change_entered; [|cbn; congruence|done|done|cbn; lia|done].
      apply change_whole; [done | done | nia].
    + apply change_entered; [|cbn; congruence|done|done|cbn; lia|].
      * by apply change_fraction.
      * intros f' [= <-]. by split_and!.
Qed.

Lemma press_sats : in_fiat e = false -> key_ok (Press k) ->
  fits decimals (edit decimals p (Press k) e) -> refines p (Press k) e s.
Proof.
  intros M K F. destruct O as (Hw & Ht & Hc & Hf). pose proof S as [SM SC SF SS ST].
  unfold AmountInput.step, handleNumpadPress.
  rewrite (decimal_found _ _ _ user_locale usual). cbn [mbind result_bind].
  rewrite SM, M. unfold pressInSats. rewrite SS, only_digits_sats by done.
  set (v := match k with Backspace => removelast (digits (told e))
            | _ => append_button (digits (told e)) (button_text [decimalSep l] k) end).
  set (n := key_sats k (told e)).
  assert (E : edit decimals p (Press k) e = enter_sats decimals p n e)
    by (destruct k; cbn [edit]; by rewrite M).
  rewrite E in *. unfold fits in F. cbn in F. rewrite M in F.
  assert (Hn : 0 <= n) by (unfold n; destruct k; cbn in *; [lia | lia | apply Z.div_pos; lia]).
  assert (Hv : stripSatsValue locale_of v (Some currency) = Ok (of_Z n)) by (apply typed_sats; done || lia).
  destruct (change_sats p n v s e P ltac:(lia) Hv) as (s' & Es & R); [congruence | done | done |].
  exists s'. rewrite Es. by split.
Qed.
End Key.

(** ** The first render, and what follows *)

Definition first_fiat (p : Props) (n : Z) : Z :=
  match satToFiat (of_Z n) (btcToFiatRate p) with Fin m => m | _ => 0 end.

Definition first_editor (ty : option string) (p : Props) (n : Z) : Editor :=
  let m := first_fiat p n in
  let k := to_fixed_mag m (Z.of_nat decimals) in
  let whole_only := eqb (Fin m) (to_fixed_num (floor (Fin m)) 0) in
  mkEditor (negb (bool_decide (ty = Some "sats"))) 0
    (if whole_only then to_fixed_mag m 0 else k / 10 ^ Z.of_nat decimals)
    (if whole_only || bool_decide (decimals = 0%nat) then None
     else Some (padded decimals (k mod 10 ^ Z.of_nat decimals))) n.

Lemma first_render ty p n : props_ok p -> 0 <= n <= max_supply ->
  exists s, initial locale_of currency_digits currency currencyLocale ty p (of_Z n) = Ok s /\
    shows (first_editor ty p n) s /\ editor_ok decimals (first_editor ty p n).
Proof.
  intros ((r & Er & Br) & _) Hn. pose proof unit1_pos as U. pose proof supply_units as [U1 U2].
  assert (F : satToFiat (of_Z n) (btcToFiatRate p) = Fin (first_fiat p n) /\ 0 <= first_fiat p n).
  { unfold first_fiat, satToFiat, btcToFiat, FIAT_MAX_DECIMAL_PLACES. rewrite Er.
    destruct (fiat_product n r Hn Br) as (m & -> & B & C). rewrite to_fixed_num_pos by lia.
    pose proof (to_fixed_mag_err m 2 ltac:(lia)) as E. rewrite (Z.abs_eq m) in E by done.
    set (k := to_fixed_mag m 2) in *. change (10 ^ 2) with 100 in *. assert (0 <= k) by nia.
    unfold of_frac. rewrite fin_round_pos; [|nia|done|].
    - split; [done|]. apply round_mag_nonneg; nia.
    - apply Z.le_lt_trans with (round_mag (10 ^ 24 * unit1) 1); [|by vm_compute].
      apply round_mag_mono; nia. }
  unfold initial, first_editor. destruct F as [F B]. rewrite F. set (m := first_fiat p n) in *.
  pose proof scale_pos as Q. set (k := to_fixed_mag m (Z.of_nat decimals)).
  assert (Bk : forall f, 0 <= to_fixed_mag m f) by (intros f; apply Z.div_pos; [|lia]; nia).
  pose proof (Z.mod_pos_bound k _ Q) as Bmod.
  rewrite (of_Z_safe n) by (by apply supply_safe).
  destruct (eqb (Fin m) (to_fixed_num (floor (Fin m)) 0)) eqn:W; cbn [orb].
  - rewrite format_fiat_whole. eexists. split; [reflexivity|]. split.
    + constructor; [done | done | | exact (format_sats n (proj1 Hn)) | done].
      cbn [fiatValue whole slots]. rewrite (format_whole l m _ B eq_refl).
      unfold fiat_text. by rewrite app_nil_r.
    + split; [apply Bk|]. split; [apply Hn|]. split; [cbn; lia | done].
  - rewrite format_fiat_default. eexists. split; [reflexivity|]. split.
    + constructor; [done | done | | exact (format_sats n (proj1 Hn)) | done].
      cbn [fiatValue whole slots]. unfold fiat_text. destruct (decide (decimals = 0%nat)) as [D0|D0].
      * rewrite bool_decide_true by done. unfold k. rewrite D0. change (10 ^ Z.of_nat 0) with 1.
        rewrite Z.div_1_r, app_nil_r. by apply format_whole.
      * rewrite bool_decide_false by done. apply format_fixed; [lia | done | done | apply Bk].
    + split; [apply Z.div_pos; [apply Bk | done]|]. split; [apply Hn|]. split; [cbn; lia|].
      cbn [slots]. destruct (decide (decimals = 0%nat)) as [D0|D0];
        [by rewrite bool_decide_true | rewrite bool_decide_false by done].
      destruct (padded_spec decimals _ ltac:(lia) Bmod) as (A & _ & L). by split_and!; [lia| |].
Qed.

Lemma step_refines p ev e s : props_ok p -> key_ok ev -> editor_ok decimals e -> shows e s ->
  fits decimals (edit decimals p ev e) -> refines p ev e s.
Proof.
  intros P K O S F. destruct ev as [k| |v]; [| |done].
  - destruct (in_fiat e) eqn:M; [|by apply press_sats].
    destruct (slots e) as [f|] eqn:N; [by apply (press_fraction p e s k P O S f) | by apply press_whole].
  - eexists. split; [reflexivity|]. split; [|exact O].
    destruct S as [M C Fi Sa T]. constructor; try done. cbn. by rewrite M.
Qed.

Lemma run_refines events s e :
  Forall (fun pe => props_ok pe.1 /\ key_ok pe.2) events ->
  (forall k, fits decimals (edits decimals e (take (S k) events))) ->
  shows e s -> editor_ok decimals e ->
  exists s', run locale_of currency_digits currency currencyLocale s events = Ok s' /\
    shows (edits decimals e events) s'.
Proof.
  intros Hev. induction Hev as [|[p ev] l' [P K] _ IH] in s, e |- *; intros Hfit S O; [by exists s|].
  cbn [fst snd] in *. destruct (step_refines p ev e s P K O S (Hfit 0%nat)) as (s' & E & S' & O').
  unfold run. cbn [foldM fst snd]. rewrite E. cbn [mbind result_bind].
  apply (IH s' (edit decimals p ev e)); [|done|done]. intros k. apply (Hfit (Datatypes.S k)).
Qed.


(** ** Typing an amount *)

Definition typed (s : text) : list event := (fun c => Press (Digit (char_value c))) <$> s.

Lemma edits_app e l1 l2 : edits decimals e (l1 ++ l2) = edits decimals (edits decimals e l1) l2.
Proof. apply foldl_app. Qed.

Lemma edits_cons e p ev l' : edits decimals e ((p, ev) :: l') = edits decimals (edit decimals p ev e) l'.
Proof. reflexivity. Qed.

Section Typing.
Context (p : Props).
Local Notation with_props l := ((fun ev => (p, ev)) <$> l).

Lemma type_whole s e : in_fiat e = true -> slots e = None -> s <> [] ->
  edits decimals e (with_props (typed s)) =
  enter decimals p (whole e * 10 ^ Z.of_nat (length s) + text_value s) None e.
Proof.
  induction s as [|c s IH] in e |- *; intros M N Ne; [done|].
  change (with_props (typed (c :: s))) with ((p, Press (Digit (char_value c))) :: with_props (typed s)).
  rewrite edits_cons. cbn [edit]. rewrite M. unfold type_digit. rewrite N. destruct s as [|c' s].
  - cbn [typed fmap list_fmap edits foldl text_value length]. f_equal. change (10 ^ Z.of_nat 1) with 10.
    change (10 ^ Z.of_nat 0) with 1. lia.
  - set (w := 10 * whole e + char_value c). specialize (IH (enter decimals p w None e) M eq_refl ltac:(done)).
    rewrite IH. clear IH. change (whole (enter decimals p w None e)) with w.
    replace (w * 10 ^ Z.of_nat (length (c' :: s)) + text_value (c' :: s))
      with (whole e * 10 ^ Z.of_nat (length (c :: c' :: s)) + text_value (c :: c' :: s)); [done|].
    unfold w. change (text_value (c :: c' :: s)) with
      (char_value c * 10 ^ Z.of_nat (length (c' :: s)) + text_value (c' :: s)).
    change (length (c :: c' :: s)) with (S (length (c' :: s))).
    rewrite Nat2Z.inj_succ, Z.pow_succ_r by lia. ring.
Qed.

Lemma type_fraction f g e : in_fiat e = true -> slots e = Some g -> length g = decimals ->
  all_digits f -> f <> [] -> (cursor e + length f <= decimals)%nat ->
  edits decimals e (with_props (typed f)) =
  enter decimals p (whole e)
    (Some (take (cursor e) g ++ f ++ drop (cursor e + length f) g))
    (e <| cursor := (cursor e + length f)%nat |>).
Proof.
  induction f as [|c f IH] in g, e |- *; intros M N L A Ne B; [done|].
  apply list.Forall_cons in A as [Hc A]. cbn [length] in *.
  change (with_props (typed (c :: f))) with ((p, Press (Digit (char_value c))) :: with_props (typed f)).
  rewrite edits_cons. cbn [edit]. rewrite M. unfold type_digit. rewrite N.
  rewrite (proj2 (Nat.leb_gt _ _)) by lia.
  assert (digit_char (char_value c) = c) as ->.
  { apply char_value_inj. apply digit_char_spec. apply char_value_bound in Hc. lia. }
  set (g' := put (cursor e) [c] g). unfold put in g'.
  destruct f as [|c' f].
  - cbn [typed fmap list_fmap edits foldl length]. by replace (cursor e + 1)%nat with (S (cursor e)) by lia.
  - set (e1 := enter decimals p (whole e) (Some g') (e <| cursor := S (cursor e) |>)).
    assert (Lg : length g' = decimals)
      by (unfold g'; rewrite !length_app, length_take, length_drop; cbn [length]; lia).
    specialize (IH g' e1 M eq_refl Lg A ltac:(done)). change (cursor e1) with (S (cursor e)) in IH.
    rewrite IH by lia. clear IH.
    change (whole e1) with (whole e).
    replace (S (cursor e) + length (c' :: f))%nat with (cursor e + S (length (c' :: f)))%nat by lia.
    assert (E : take (S (cursor e)) g' ++ (c' :: f) ++ drop (cursor e + S (length (c' :: f))) g' =
                take (cursor e) g ++ (c :: c' :: f) ++ drop (cursor e + S (length (c' :: f))) g).
    { set (i := cursor e) in *. set (h := take i g). set (n := length (c' :: f)) in *.
      assert (Lh : length h = i) by (unfold h; rewrite length_take; lia).
      change g' with (h ++ c :: drop (S i) g).
      assert (T : take (S i) (h ++ c :: drop (S i) g) = h ++ [c]).
      { rewrite cons_middle, app_assoc. apply take_app_length'. rewrite length_app, Lh. cbn. lia. }
      assert (Dr : drop (i + S n) (h ++ c :: drop (S i) g) = drop (i + S n) g).
      { rewrite drop_app_ge by lia. rewrite Lh. replace (i + S n - i)%nat with (S n) by lia.
        cbn [drop]. rewrite drop_drop. f_equal. lia. }
      rewrite T, Dr, <- app_assoc. reflexivity. }
    by rewrite E.
Qed.

(** While digits are added the whole part does not decrease. *)
Definition adds (ev : event) : Prop :=
  match ev with Press (Digit d) => 0 <= d < 10 | Press Dot => True | _ => False end.

Lemma adds_whole evs e : Forall adds evs -> in_fiat e = true -> 0 <= whole e ->
  in_fiat (edits decimals e (with_props evs)) = true /\
  whole e <= whole (edits decimals e (with_props evs)).
Proof.
  intros H. induction H as [|ev evs A _ IH] in e |- *; intros M Hw; [done|].
  assert (S : in_fiat (edit decimals p ev e) = true /\ whole e <= whole (edit decimals p ev e)).
  { destruct ev as [[d| |]| |]; try done; cbn in A |- *; rewrite M.
    - unfold type_digit. destruct (slots e) as [f|]; [|cbn; split; [done | lia]].
      destruct (decimals <=? cursor e)%nat; cbn; split; done || lia.
    - unfold start_fraction. destruct (slots e); [by split|].
      destruct (decide _); cbn; by split. }
  destruct S as [M' W]. destruct (IH (edit decimals p ev e) M' ltac:(lia)) as [M2 W2].
  split; [exact M2|]. etrans; [exact W | exact W2].
Qed.

Lemma adds_fit evs e : Forall adds evs -> in_fiat e = true -> 0 <= whole e ->
  fits decimals (edits decimals e (with_props evs)) ->
  forall k, fits decimals (edits decimals e (take k (with_props evs))).
Proof.
  intros H M Hw F k. rewrite <- (take_drop k evs), fmap_app, edits_app in F.
  rewrite <- fmap_take. destruct (adds_whole (take k evs) e (list.Forall_take _ k _ H) M Hw) as [M1 W1].
  set (e1 := edits decimals e (with_props (take k evs))) in *.
  destruct (adds_whole (drop k evs) e1 (list.Forall_drop _ k _ H) M1 ltac:(lia)) as [M2 W2].
  unfold fits in *. rewrite M1. rewrite M2 in F. pose proof scale_pos. nia.
Qed.

(** The empty input. *)
Lemma first_empty ty : props_ok p -> ty <> Some "sats" ->
  first_editor ty p 0 = mkEditor true 0 0 None 0.
Proof.
  intros ((r & Er & _) & _) T. assert (F : first_fiat p 0 = 0).
  { unfold first_fiat, satToFiat. rewrite Er. by vm_compute. }
  unfold first_editor. rewrite F, bool_decide_false by done.
  assert (W : eqb (Fin 0) (to_fixed_num (floor (Fin 0)) 0) = true) by (by vm_compute).
  rewrite W. reflexivity.
Qed.

Lemma typed_adds s : all_digits s -> Forall adds (typed s).
Proof.
  intros A. unfold typed. apply Forall_fmap. eapply list.Forall_impl; [exact A|].
  intros c Hc. apply char_value_bound in Hc. cbn. lia.
Qed.

Lemma typed_edits w f e : in_fiat e = true -> slots e = None -> whole e = 0 ->
  w <> [] -> f <> [] -> length f = decimals -> all_digits f ->
  edits decimals e (with_props (typed w ++ Press Dot :: typed f)) =
  enter decimals p (text_value w) (Some f) (e <| cursor := decimals |>).
Proof.
  intros M N W Nw Nf L Af. rewrite fmap_app, edits_app, (type_whole w e M N Nw), W, Z.mul_0_l, Z.add_0_l.
  change (with_props (Press Dot :: typed f)) with ((p, Press Dot) :: with_props (typed f)).
  rewrite edits_cons. set (e1 := enter decimals p (text_value w) None e).
  assert (Dp : decimals <> 0%nat) by (destruct f; [done | cbn in L; lia]).
  assert (E : edit decimals p (Press Dot) e1 =
    enter decimals p (text_value w) (Some (zeros_text decimals)) (e <| cursor := 0%nat |>)).
  { cbn [edit]. change (in_fiat e1) with (in_fiat e). rewrite M. unfold start_fraction.
    change (slots e1) with (@None text). destruct (decide (decimals = 0%nat)); [done|]. reflexivity. }
  rewrite E. rewrite (type_fraction f (zeros_text decimals)); [|exact M|reflexivity|apply zeros_ok|done|done|cbn; lia].
  cbn [cursor whole enter setter take plus app]. rewrite L.
  change (cursor (enter decimals p (text_value w) (Some (zeros_text decimals)) (e <| cursor := 0%nat |>)))
    with 0%nat. cbn [plus take app].
  rewrite drop_ge, app_nil_r by (rewrite (proj1 zeros_ok); lia). reflexivity.
Qed.

(** what is typed is what is entered.  From an empty input in fiat, typing
    digits, the dot and as many digits as the currency has decimals displays that
    amount, grouped, and tells the sats of the double nearest to it. *)
Theorem typed_amount ty w f :
  props_ok p -> ty <> Some "sats" ->
  w <> [] -> f <> [] -> length f = decimals -> all_digits w -> all_digits f ->
  (text_value w + 1) * 10 ^ Z.of_nat decimals <= 10 ^ 15 ->
  exists s0 s, initial locale_of currency_digits currency currencyLocale ty p (of_Z 0) = Ok s0 /\
    run locale_of currency_digits currency currencyLocale s0
      (with_props (typed w ++ Press Dot :: typed f)) = Ok s /\
    fiatValue s = group_digits l (digits (text_value w)) ++ decimalSep l :: f /\
    amount s = sats_of_fiat p
      (of_frac (text_value w * 10 ^ Z.of_nat decimals + text_value f) (10 ^ Z.of_nat decimals)).
Proof.
  intros P T Nw Nf L Aw Af B. destruct (text_value_bound w Aw) as [Bw _].
  destruct (first_render ty p 0 P) as (s0 & E0 & S0 & O0); [split; [done | by vm_compute]|].
  rewrite (first_empty ty P T) in S0, O0. set (e0 := mkEditor true 0 0 None 0) in *.
  pose proof (typed_edits w f e0 eq_refl eq_refl eq_refl Nw Nf L Af) as Fin.
  set (evs := typed w ++ Press Dot :: typed f) in *.
  assert (Ad : Forall adds evs).
  { apply list.Forall_app. split; [by apply typed_adds|]. constructor; [done | by apply typed_adds]. }
  destruct (run_refines (with_props evs) s0 e0) as (s & Es & Sh); [| |done|done|].
  - apply Forall_fmap. eapply list.Forall_impl; [exact Ad|]. intros ev Hev. split; [exact P|].
    destruct ev as [[d| |]| |v]; [exact Hev | exact I | destruct Hev | destruct Hev | destruct Hev].
  - intros k. apply adds_fit; [done | done | done |]. rewrite Fin. exact B.
  - exists s0, s. split; [done|]. split; [done|]. rewrite Fin in Sh. destruct Sh as [_ _ F _ A].
    split; [exact F|]. rewrite A. cbn [told enter]. symmetry. by apply told_integral.
Qed.
End Typing.

(** ** Limits *)

(** A limit is taken for the hundredths it is worth. *)
Lemma limit_taken p n k : props_ok p -> 0 <= n <= max_supply -> 0 < k < 10 ^ 15 ->
  satToFiat (of_Z n) (btcToFiatRate p) = of_frac k 100 ->
  exists x, of_frac k 100 = Fin x /\ 0 <= x /\ to_fixed_mag x 2 = k /\
    forall sats, snap (Some (of_Z n)) (btcToFiatRate p) (Fin x) sats = of_Z n.
Proof.
  intros ((r & Er & Br) & _) Hn Hk E. pose proof unit1_pos as U. pose proof supply_units as [U1 U2].
  destruct (fixed_double 2 k ltac:(lia) ltac:(lia)) as (x & Ex & Bx & Fx & _).
  change (10 ^ Z.of_nat 2) with 100 in Ex. change (Z.of_nat 2) with 2 in Fx.
  exists x. split; [exact Ex|]. split; [apply Bx|]. split; [exact Fx|].
  intros sats. unfold snap. destruct (fiat_product n r Hn Br) as (m & Em & _).
  unfold satToFiat, btcToFiat, FIAT_MAX_DECIMAL_PLACES in E. rewrite Er, Em in *. rewrite E, Ex.
  rewrite to_fixed_num_pos by lia. rewrite Fx. change (10 ^ 2) with 100. rewrite Ex.
  assert (X : 0 < x).
  { destruct (Z.eq_dec x 0) as [->|]; [|lia]. change (to_fixed_mag 0 2) with 0 in Fx. lia. }
  rewrite (of_Z_safe 0) by (unfold safe; lia). unfold eqb, ltb. rewrite Z.eqb_refl. cbn [andb].
  by rewrite (proj2 (Z.ltb_lt _ _)) by lia.
Qed.

Lemma no_message p s : limit_ok (Some (amount s)) ->
  minimumAmount p = Some (amount s) \/ maximumAmount p = Some (amount s) ->
  (forall a b, minimumAmount p = Some a -> maximumAmount p = Some b -> ltb b a = false) ->
  validation p s = None.
Proof.
  intros (n & _ & En) H Hle. assert (I : ltb (amount s) (amount s) = false)
    by (rewrite En; apply Z.ltb_irrefl).
  unfold validation. destruct H as [H|H]; rewrite H, I.
  - destruct (maximumAmount p) as [b|]; [|done]. by rewrite (Hle _ _ H eq_refl).
  - destruct (minimumAmount p) as [a|]; [|done]. by rewrite (Hle _ _ eq_refl H).
Qed.

(** [b] is worth the same hundredths as the amount [k] of hundredths. *)
Definition reads_as (p : Props) (b : num) (k : Z) : Prop :=
  eqb (to_fixed_num (mul (satToBtc b) (btcToFiatRate p)) 2) (to_fixed_num (of_frac k 100) 2) = true.


(** ** The text field *)

(** [n] units of the last decimal. *)
Definition units_text (n : Z) : text :=
  fiat_text (n / 10 ^ Z.of_nat decimals) (Some (padded decimals (n mod 10 ^ Z.of_nat decimals))).

Lemma change_units p v w f m n s : props_ok p -> (0 < decimals)%nat -> whole_text v w ->
  entered_fiat locale_of currency_digits currency currencyLocale (v ++ decimalSep l :: f) = Ok (Fin m) ->
  0 <= m -> to_fixed_mag m (Z.of_nat decimals) = n -> 0 <= n ->
  exists s', handleChangeFiat p (v ++ decimalSep l :: f) s = Ok s' /\
    fiatValue s' = units_text n /\ amount s' = sats_of_fiat p (Fin m).
Proof.
  intros P Dp Hv E Hm Fm Hn. eexists. split.
  - unfold AmountInput.handleChangeFiat. rewrite (decimal_found _ _ _ user_locale usual), E.
    cbn [mbind result_bind]. rewrite (includes_whole v w f Hv). cbn [negb].
    rewrite format_fiat_default. cbn [mbind result_bind]. reflexivity.
  - split; [|reflexivity]. change (format_number l decimals decimals (Fin m) = units_text n).
    by apply format_fixed.
Qed.

Lemma text_value_snoc f c : text_value (f ++ [c]) = 10 * text_value f + char_value c.
Proof. rewrite text_value_app. cbn [text_value length]. change (10 ^ Z.of_nat 1) with 10. change (10 ^ Z.of_nat 0) with 1. lia. Qed.

Lemma removelast_decimal v f : f <> [] ->
  removelast (v ++ decimalSep l :: f) = v ++ decimalSep l :: removelast f.
Proof.
  intros N. rewrite removelast_app by done. f_equal. by destruct f.
Qed.

(** the text field is a shift register.  With decimals on display, a digit
    typed at the end of the text moves the amount one place to the left, and
    deleting the last one moves it to the right, exactly, although the code reads
    the text with one decimal more or less than the currency has and multiplies or
    divides doubles by ten. *)
Theorem text_field_shifts p w f c s :
  props_ok p -> (2 <= decimals)%nat -> 0 <= w -> (w + 1) * 10 ^ (Z.of_nat decimals + 1) <= 10 ^ 15 ->
  length f = decimals -> all_digits f -> is_decimal_digit c = true ->
  let k := w * 10 ^ Z.of_nat decimals + text_value f in
  (exists s', handleChangeFiat p (fiat_text w (Some f) ++ [c]) s = Ok s' /\
     fiatValue s' = units_text (10 * k + char_value c)) /\
  (exists s', handleChangeFiat p (removelast (fiat_text w (Some f))) s = Ok s' /\
     fiatValue s' = units_text (k / 10)).
Proof.
  intros P D2 Hw B L Af Hc k. pose proof scale_pos as Q. pose proof (text_value_bound f Af) as Bf.
  rewrite L in Bf. rewrite Z.pow_add_r in B by lia. change (10 ^ 1) with 10 in B.
  pose proof (char_value_bound c Hc) as Bc. pose proof (grouped_whole w Hw) as W.
  unfold fiat_text. split.
  - rewrite <- app_assoc. change ((decimalSep l :: f) ++ [c]) with (decimalSep l :: f ++ [c]).
    assert (Lc : length (f ++ [c]) = S decimals) by (rewrite length_app, L; cbn; lia).
    assert (Ac : all_digits (f ++ [c])) by (apply list.Forall_app; by repeat constructor).
    destruct (entered_decimal _ w (f ++ [c]) W Hw) as (m & Em & Bm & Fm & Rm & E);
      [by destruct f | done | lia | rewrite Lc, Nat2Z.inj_succ, Z.pow_succ_r by lia; lia |].
    rewrite Lc in *. rewrite (proj2 (Nat.ltb_lt _ _)) in E by lia.
    assert (Ek : w * 10 ^ Z.of_nat (S decimals) + text_value (f ++ [c]) = 10 * k + char_value c).
    { rewrite text_value_snoc, Nat2Z.inj_succ, Z.pow_succ_r by lia. unfold k. ring. }
    rewrite Ek in *.
    destruct (fixed_shift m (10 * k + char_value c) (Z.of_nat (S decimals))) as [(m' & Em' & Bm' & Fm') _];
      [unfold k; nia | exact Bm | lia | exact Rm |].
    rewrite Em' in E. replace (Z.of_nat (S decimals) - 1) with (Z.of_nat decimals) in Fm' by lia.
    specialize (Fm' ltac:(lia)). cbv iota in E.
    assert (Hn : 0 <= 10 * k + char_value c) by (unfold k; nia).
    destruct (change_units p _ w (f ++ [c]) m' _ s P ltac:(lia) W E Bm' Fm' Hn) as (s' & Es & Fs & _).
    exists s'. exact (conj Es Fs).
  - destruct (exists_last (l := f)) as (f' & c' & ->); [by destruct f; [cbn in L; lia|]|].
    rewrite removelast_decimal by (by destruct f'). rewrite removelast_last.
    rewrite length_app in L. cbn [length] in L. apply list.Forall_app in Af as [Af' Ac'].
    apply list.Forall_cons in Ac' as [Hc' _]. pose proof (char_value_bound c' Hc') as Bc'.
    assert (Nf' : f' <> []) by (destruct f'; [cbn in L; lia | done]).
    assert (Ed : 10 ^ Z.of_nat decimals = 10 * 10 ^ Z.of_nat (length f'))
      by (rewrite <- Z.pow_succ_r by lia; f_equal; lia).
    destruct (entered_decimal _ w f' W Hw Nf' Af') as (m & Em & Bm & Fm & Rm & E); [lia | nia |].
    rewrite (proj2 (Nat.ltb_ge _ _)), (proj2 (Nat.ltb_lt _ _)) in E by lia.
    set (n := w * 10 ^ Z.of_nat (length f') + text_value f') in *.
    pose proof (text_value_bound f' Af') as Bf'.
    assert (Ek : k / 10 = n).
    { symmetry. apply (Z.div_unique_pos _ _ _ (char_value c')); [lia|].
      unfold k, n. rewrite text_value_snoc, Ed. ring. }
    rewrite Ek.
    destruct (fixed_shift m n (Z.of_nat (length f'))) as [_ (m' & Em' & Bm' & Fm')];
      [unfold n; nia | exact Bm | lia | exact Rm |].
    rewrite Em' in E. replace (Z.of_nat (length f') + 1) with (Z.of_nat decimals) in Fm' by lia.
    cbv iota in E. assert (Hn : 0 <= n) by (unfold n; nia).
    destruct (change_units p _ w f' m' n s P ltac:(lia) W E Bm' Fm' Hn) as (s' & Es & Fs & _).
    exists s'. exact (conj Es Fs).
Qed.

(** without decimals the text field loses digits.  A digit typed at the end of
    a displayed whole amount that has group separators enters only the digits
    before the first of them: 1,234 becomes 1. *)
Theorem grouped_text_truncated w c :
  (1 <= minGrouping l)%nat -> 10 ^ (Z.of_nat (minGrouping l) + 2) <= w -> is_decimal_digit c = true ->
  exists i, 3 <= i /\ 10 ^ i <= w /\
    entered_fiat locale_of currency_digits currency currencyLocale (fiat_text w None ++ [c]) =
    Ok (not_negative (of_Z (w / 10 ^ i))).
Proof.
  intros M B Hc. assert (Hw : 0 < w) by (pose proof (Z.pow_nonneg 10 (Z.of_nat (minGrouping l) + 2)); lia).
  destruct (digits_spec w ltac:(lia)) as (A & V & N & Lw). specialize (Lw Hw).
  pose proof (text_value_bound _ A) as Bw. rewrite V in Bw.
  assert (Ld : (3 + minGrouping l <= length (digits w))%nat).
  { destruct (Nat.le_gt_cases (3 + minGrouping l) (length (digits w))) as [|G]; [done|].
    assert (10 ^ Z.of_nat (length (digits w)) <= 10 ^ (Z.of_nat (minGrouping l) + 2))
      by (apply Z.pow_le_mono_r; lia). lia. }
  destruct (group_digits_first l (digits w) Ld M) as (i & tl & Hi & Eg).
  set (ds := digits w) in *. set (hd := take (length ds - i) ds) in *.
  assert (Hh : ds = hd ++ drop (length ds - i) ds) by (symmetry; apply take_drop).
  assert (Lt : length (drop (length ds - i) ds) = i) by (rewrite length_drop; lia).
  assert (Ah : all_digits hd) by (by apply list.Forall_take).
  assert (Nh : hd <> []) by (intros E; apply (f_equal length) in E; unfold hd in E; rewrite length_take in E; cbn in E; lia).
  assert (Vh : text_value hd = w / 10 ^ Z.of_nat i).
  { pose proof (text_value_bound _ (list.Forall_drop _ (length ds - i) _ A)) as Bd. rewrite Lt in Bd.
    pose proof (f_equal text_value Hh) as Vd. rewrite text_value_app, Lt, V in Vd.
    apply (Z.div_unique_pos _ _ _ (text_value (drop (length ds - i) ds))); [exact Bd | lia]. }
  exists (Z.of_nat i). split; [lia|]. split.
  { etrans; [|exact Lw]. apply Z.pow_le_mono_r; lia. }
  destruct (grouped_whole w ltac:(lia)) as [D _]. fold ds in D.
  pose proof usual as ([Dd G _ _] & _).
  unfold entered_fiat. rewrite (decimal_found _ _ _ user_locale usual). cbn [mbind result_bind].
  unfold fiat_text. fold ds. rewrite app_nil_r.
  rewrite decide_False by (intros E; apply app_eq_nil in E as [_ [=]]).
  unfold includes_text. rewrite cut_at_none.
  2: { intros [H|H%list_elem_of_singleton]%elem_of_app; [done | congruence]. }
  change (negb (bool_decide (is_Some (@None (text * text))))) with true. cbv iota.
  rewrite Eg, <- app_assoc, parse_int_digits, Vh; [done | done | done |].
  intros x [= <-]. exact G.
Qed.
End Refinement.

(** sats cannot be typed in some currencies.  The code reads the text of the
    sats in the locale whose name is the currency; for nine of the names of
    countries that share a currency there is no such locale, so that every key
    throws, and nothing is entered. *)
Theorem sats_entry_throws locale_of currency_digits currency currencyLocale l p k s :
  In currency ["central_african_republic"; "chad"; "equatorial_guinea"; "republic_of_the_congo";
    "burkina_faso"; "cote_d_ivoire"; "guinea_bissau"; "mali"; "togo"]%string ->
  number_format locale_of currencyLocale = Ok l -> isFiat s = false ->
  is_Some (alias_code currency) /\
  handleNumpadPress locale_of currency_digits currency currencyLocale p k s = Throw "RangeError".
Proof.
  intros H L F.
  assert (T : valid_tag currency = false /\ is_Some (alias_code currency)).
  { cbn in H. destruct_or!; subst currency; by split; [vm_compute | eexists; vm_compute]. }
  destruct T as [T A]. split; [exact A|]. unfold handleNumpadPress, getDecimalSeparator. rewrite L.
  cbn [mbind result_bind]. rewrite F. unfold pressInSats, handleChangeSats, stripSatsValue, getThousandsSeparator.
  unfold number_format. by rewrite T.
Qed.

(** ** Concrete inputs *)

Definition demo_locales (tag : option string) : Locale :=
  if decide (tag = Some "de-DE"%string) then de_DE else en_US.
Definition demo_decimals (code : string) : nat :=
  if decide (code = "JPY"%string) then 0 else 2.
Definition demo_props : Props := mkProps (of_Z 65432) (Some (of_Z 1)) (Some (of_Z 1234567)).

(** A user who reads American English and spends dollars. *)
Lemma demo_user_locale :
  number_format demo_locales (Some "en-US"%string) = Ok en_US /\ locale_usual en_US /\
  number_format demo_locales (Some "USD"%string) = Ok en_US /\ locale_usual (demo_locales None) /\
  getCurrencyDecimals demo_locales demo_decimals "USD" (Some "en-US"%string) = Ok 2%nat.
Proof.
  assert (U : locale_usual en_US) by (split; [constructor; [reflexivity | reflexivity | discriminate | cbn; lia] | cbn; lia]).
  split_and!; [by vm_compute | exact U | by vm_compute | exact U | by vm_compute].
Qed.

Lemma demo_props_ok : props_ok demo_props.
Proof.
  split; [exists (65432 * unit1); split; [by vm_compute | by split; vm_compute] |].
  split; [exists 1 | exists 1234567]; split; (lia || by vm_compute).
Qed.

Definition demo_input : AmountInput := mkInput false (chars "0") (chars "0") 0 (of_Z 0).

Definition demo_keys : list (Props * event) :=
  (fun ev => (demo_props, ev)) <$>
  [Press (Digit 1); Press Dot; Press (Digit 5); Press Backspace].


Lemma typed_amount_witness :
  exists s0 s, initial demo_locales demo_decimals "USD" (Some "en-US"%string) None demo_props (of_Z 0) = Ok s0 /\
    run demo_locales demo_decimals "USD" (Some "en-US"%string) s0
      ((fun ev => (demo_props, ev)) <$> typed (chars "1234") ++ Press Dot :: typed (chars "50")) = Ok s /\
    fiatValue s = chars "1,234.50" /\ amount s = sats_of_fiat demo_props (of_frac 123450 100).
Proof.
  destruct demo_user_locale as (U & O & C & D & N).
  apply (typed_amount demo_locales demo_decimals "USD" (Some "en-US"%string) en_US en_US 2
    U O C O D N ltac:(lia) demo_props None (chars "1234") (chars "50"));
    try done; [exact demo_props_ok | by repeat constructor | by repeat constructor].
Defined.


Lemma text_field_shifts_witness :
  exists s', handleChangeFiat demo_locales demo_decimals "USD" (Some "en-US"%string) demo_props
      (chars "1,234.567") demo_input = Ok s' /\ fiatValue s' = chars "12,345.67".
Proof.
  destruct demo_user_locale as (U & O & C & D & N).
  apply (text_field_shifts demo_locales demo_decimals "USD" (Some "en-US"%string) en_US 2
    U O N ltac:(lia) demo_props 1234 (chars "56") "7"%char demo_input);
    try done; [exact demo_props_ok | by repeat constructor].
Defined.

Lemma grouped_text_truncated_witness :
  exists i, 3 <= i /\ 10 ^ i <= 1234 /\
    entered_fiat demo_locales demo_decimals "USD" (Some "en-US"%string) (chars "1,2345") =
    Ok (not_negative (of_Z (1234 / 10 ^ i))).
Proof.
  destruct demo_user_locale as (U & O & C & D & N).
  apply (grouped_text_truncated demo_locales demo_decimals "USD" (Some "en-US"%string) en_US
    2 U O ltac:(lia) 1234 "5"%char); [cbn; lia | cbn; lia | done].
Defined.

Lemma sats_entry_throws_witness :
  handleNumpadPress demo_locales demo_decimals "togo" (Some "en-US"%string) demo_props (Digit 5)
    demo_input = Throw "RangeError".
Proof.
  destruct demo_user_locale as (U & _).
  apply (sats_entry_throws demo_locales demo_decimals "togo" (Some "en-US"%string) en_US demo_props
    (Digit 5) demo_input); [cbn; tauto | exact U | reflexivity].
Defined.

(** In a currency without decimals the limit that is shown is refused: the
    amounts are compared to two decimals. *)
Definition yen_props : Props := mkProps (of_Z 9876543) None (Some (of_Z 1009)).

Example yen_limit_refused :
  format_number en_US 0 0 (satToFiat (of_Z 1009) (of_Z 9876543)) = chars "100" /\
  match handleChangeFiat demo_locales demo_decimals "JPY" (Some "en-US"%string) yen_props (chars "100")
          demo_input with
  | Ok s => amount s = of_Z 1013 /\ is_Some (validation yen_props s)
  | Throw _ => False
  end.
Proof. vm_compute. eauto. Qed.
