(* ===== verification/AmountLimits.v ===== *)
(** Limits of amounts and the forms that use them: the hooks
    [useMinMaxSendAmount], [useMinMaxRequestAmount], [useMinMaxDepositAmount],
    [useMinMaxWithdrawAmount] and the forms of [ui/common/hooks/amount], and
    [ui/common/utils/fees.ts].

    What a hook computes in a render is a function of the selected values, of its
    arguments and of its state; what its effects set when the bridge answers is a
    function of the answer.  Payments that were parsed stay objects. *)
From Stdlib Require Import ZArith Lia.
From stdpp Require Import base tactics strings list option gmap.
From S2P Require Import Prelude JsNum Js JsStr Amount Meta StabilityPool Federation Currency Wallet Cashu.
Import Federation.
Local Open Scope string_scope.
Local Open Scope list_scope.
Local Open Scope Z_scope.

(** ** Fees *)

(** [sumFeeDetails] and [sumFediFeeDetails] of a response of the bridge. *)
Definition fee_field (k : string) (fees : obj) : num := to_num (get k fees).
Definition sumFeeDetails (fees : obj) : num :=
  add (add (add (fee_field "federationFee" fees) (fee_field "networkFee" fees))
         (fee_field "fediAppFee" fees)) (fee_field "fediGuardianFee" fees).
Definition sumFediFeeDetails (fees : obj) : num :=
  add (fee_field "fediAppFee" fees) (fee_field "fediGuardianFee" fees).

(** ** Sending *)

(** What is to be paid; a field is [None] when it is [undefined] or [null]. *)
Record SendArgs := mkSendArgs {
  a_invoice : option obj;
  a_lnurlPayment : option obj;
  a_cashuMeltSummary : option MeltSummary;
  a_btcAddress : option obj;
  a_bip21Payment : option obj;
  a_ecashRequest : option obj
}.

(** The states of the three hooks that ask the bridge. *)
Record Estimates := mkEstimates {
  maxAmountOnchain : option num;
  maxAmountEcash : option num;
  exactAmountLightning : option num
}.

Definition no_estimates : Estimates := mkEstimates None None None.

(** [useLightningInvoiceAmount], when the fees of an invoice were estimated. *)
Definition lightning_estimated (invoice : obj) (fees : result obj) : option num :=
  match fees with
  | Ok fees => Some (add (to_num (get "amount" invoice)) (sumFeeDetails fees))
  | Throw _ => None
  end.

(** [useMaxEcashAmount] *)
Definition ecash_calculated (max : result num) : option num :=
  match max with Ok max => Some (msatToSat max) | Throw _ => None end.

(** [useMaxOnchainAmount], when the preview of paying the whole balance failed:
    the code of an error of the bridge may hold the amount that could be paid. *)
Definition onchain_refused (previous : option num) (isBridgeError : bool) (errorCode : jval)
    : option num :=
  if negb isBridgeError then previous
  else match errorCode with
       | JObj o =>
           match get "insufficientBalance" o with
           | JNum max => Some (msatToSat max)
           | _ => previous
           end
       | _ => previous
       end.

Definition useMinMaxSendAmount (args : SendArgs) (balance : num) (e : Estimates) : num * num :=
  let invoice_amount := match a_invoice args with Some i => get "amount" i | None => JUndef end in
  if ltb balance (of_Z 1000) then
    (if truthy invoice_amount then msatToSat (to_num invoice_amount) else of_Z 1, of_Z 0)
  else
    let minimumAmount := of_Z 1 in
    let maximumAmount := msatToSat balance in
    match a_cashuMeltSummary args with
    | Some summary => (msatToSat (totalAmount summary), maximumAmount)
    | None =>
        match a_lnurlPayment args with
        | Some lnurl =>
            (if truthy (get "minSendable" lnurl) then msatToSat (to_num (get "minSendable" lnurl))
             else minimumAmount,
             if truthy (get "maxSendable" lnurl)
             then min2 (msatToSat (to_num (get "maxSendable" lnurl))) maximumAmount
             else maximumAmount)
        | None =>
            if bool_decide (is_Some (a_invoice args)) &&
               default false (num_truthy <$> exactAmountLightning e)
            then (msatToSat (to_num invoice_amount), maximumAmount)
            else
              let maximumAmount :=
                match a_btcAddress args, maxAmountOnchain e with
                | Some _, Some m => min2 maximumAmount m
                | _, _ => maximumAmount
                end in
              (minimumAmount,
               match a_ecashRequest args, maxAmountEcash e with
               | Some _, Some m => min2 maximumAmount m
               | _, _ => maximumAmount
               end)
        end
    end.

(** [truncateMiddleOfString] of [utils/StringUtils.ts]. *)
Definition truncateMiddleOfString (longString : string) (numberOfCharacters : nat) : string :=
  if (String.length longString <=? numberOfCharacters * 2)%nat then longString
  else String.substring 0 numberOfCharacters longString +:+ " ... " +:+
       String.substring (String.length longString - numberOfCharacters) numberOfCharacters longString.

(** What the form of a payment shows. *)
Record SendForm := mkSendForm {
  exactAmount : option num;
  description : jval;
  sendTo : option string;
  minimumAmount : num;
  maximumAmount : num
}.

(** [useSendForm]; the text for melting is a translation. *)
Definition useSendForm (args : SendArgs) (balance : num) (e : Estimates) (confirm_melt : string)
    : SendForm :=
  let limits := useMinMaxSendAmount
    (mkSendArgs (a_invoice args) (a_lnurlPayment args) (a_cashuMeltSummary args) (a_btcAddress args)
       None None) balance e in
  let form := fun exact description sendTo =>
    mkSendForm exact description sendTo limits.1 limits.2 in
  let short := fun k o => Some (truncateMiddleOfString (to_str (get k o)) 8) in
  match a_invoice args with
  | Some invoice => form (Some limits.1) (get "description" invoice) (short "invoice" invoice)
  | None =>
      let on_address := match a_btcAddress args with
        | Some address => form None JUndef (short "address" address)
        | None =>
            match a_cashuMeltSummary args with
            | Some summary => form (Some (msatToSat (totalAmount summary))) (JStr confirm_melt) None
            | None => form None JUndef None
            end
        end in
      let on_bip21 := match a_bip21Payment args with
        | Some bip21 =>
            if truthy (get "amount" bip21)
            then form (Some (btcToSat (to_num (get "amount" bip21)))) (get "message" bip21)
                   (short "address" bip21)
            else on_address
        | None => on_address
        end in
      match a_lnurlPayment args with
      | Some lnurl =>
          if truthy (get "minSendable" lnurl) &&
             bool_decide (get "minSendable" lnurl = get "maxSendable" lnurl)
          then form (Some (msatToSat (to_num (get "minSendable" lnurl)))) (get "description" lnurl) None
          else on_bip21
      | None => on_bip21
      end
  end.

(** ** Requesting *)

Record RequestArgs := mkRequestArgs {
  r_lnurlWithdrawal : option obj;
  r_requestInvoiceArgs : option obj;
  r_ecashRequest : option obj
}.

(** [parseInt(v as string, 10)] *)
Definition parse_amount (v : jval) : num := parse_int (to_str v).

(** [Math.max(parseInt(o.minimumAmount), minimum)] and its dual, when given. *)
Definition raise_minimum (o : obj) (minimum : num) : num :=
  if truthy (get "minimumAmount" o) then max2 (parse_amount (get "minimumAmount" o)) minimum
  else minimum.
Definition lower_maximum (o : obj) (maximum : num) : num :=
  if truthy (get "maximumAmount" o) then min2 (parse_amount (get "maximumAmount" o)) maximum
  else maximum.

Definition useMinMaxRequestAmount (args : RequestArgs) (maxInvoiceAmount : num) : num * num :=
  let limits := (of_Z 1, maxInvoiceAmount) in
  let limits := match r_lnurlWithdrawal args with
    | None => limits
    | Some lnurl =>
        (if truthy (get "minWithdrawable" lnurl)
         then max2 (msatToSat (to_num (get "minWithdrawable" lnurl))) limits.1 else limits.1,
         if truthy (get "maxWithdrawable" lnurl)
         then min2 (msatToSat (to_num (get "maxWithdrawable" lnurl))) limits.2 else limits.2)
    end in
  let limits := match r_requestInvoiceArgs args with
    | None => limits
    | Some o => (raise_minimum o limits.1, lower_maximum o limits.2)
    end in
  match r_ecashRequest args with
  | None => limits
  | Some o => (raise_minimum o limits.1, lower_maximum o (of_Z 1000000000000000))
  end.

Definition of_request (k : string) (o : option obj) : jval :=
  match o with Some o => get k o | None => JUndef end.

Definition getDefaultRequestAmount (args : RequestArgs) : num :=
  let max := of_request "maxWithdrawable" (r_lnurlWithdrawal args) in
  if truthy max then msatToSat (to_num max)
  else
    let first := foldr (fun v rest => if truthy v then parse_amount v else rest) (of_Z 0) in
    first [of_request "amount" (r_requestInvoiceArgs args);
           of_request "defaultAmount" (r_requestInvoiceArgs args);
           of_request "amount" (r_ecashRequest args);
           of_request "defaultAmount" (r_ecashRequest args)].

Definition getDefaultRequestMemo (args : RequestArgs) : jval :=
  let d := of_request "defaultDescription" (r_lnurlWithdrawal args) in
  let m := of_request "defaultMemo" (r_requestInvoiceArgs args) in
  if truthy d then d else if truthy m then m else JStr "".

(** The exact amount of [useRequestForm]. *)
Definition request_exactAmount (args : RequestArgs) : option num :=
  let min := of_request "minWithdrawable" (r_lnurlWithdrawal args) in
  let exact := if truthy min && bool_decide (min = of_request "maxWithdrawable" (r_lnurlWithdrawal args))
               then Some (msatToSat (to_num min)) else None in
  let asked := fun o exact =>
    if truthy (of_request "amount" o) then Some (parse_amount (of_request "amount" o)) else exact in
  asked (r_ecashRequest args) (asked (r_requestInvoiceArgs args) exact).

(** ** The stable balance *)

Definition MAX_SAFE_INTEGER : num := of_Z 9007199254740991.

Definition useMinMaxDepositAmount (s : CommonState) (federationId : string) : num * num :=
  let balanceSats := msatToSat (Federation.selectFederationBalance (federation s) federationId) in
  let availableLiquiditySats :=
    match selectStabilityPoolAvailableLiquidity s federationId with
    | Some liquidity => if num_truthy liquidity then msatToSat liquidity else of_Z 0
    | None => of_Z 0
    end in
  let room :=
    match Federation.selectMaxStableBalanceSats (federation s) federationId with
    | JUndef => MAX_SAFE_INTEGER
    | max => max2 (of_Z 0) (sub (to_num max) (selectStableBalanceSats s federationId))
    end in
  (selectMinimumDepositAmount s federationId, min2 (min2 balanceSats availableLiquiditySats) room).

Definition useMinMaxWithdrawAmount (s : CommonState) (federationId : string) : num * num :=
  (msatToSat (selectMinimumWithdrawAmountMsats s federationId),
   msatToSat (selectWithdrawableStableBalanceMsats s federationId)).

(** [isValidAmount] of the forms of deposits and of withdrawals. *)
Definition isValidAmount (inputAmount minimumAmount maximumAmount : num) : bool :=
  (if eqb minimumAmount (of_Z 0) then ltb minimumAmount inputAmount
   else leb minimumAmount inputAmount) && leb inputAmount maximumAmount.

Definition useStabilityDepositForm (s : CommonState) (federationId : string) (inputAmount : num) : bool :=
  let limits := useMinMaxDepositAmount s federationId in isValidAmount inputAmount limits.1 limits.2.
Definition useStabilityWithdrawForm (s : CommonState) (federationId : string) (inputAmount : num) : bool :=
  let limits := useMinMaxWithdrawAmount s federationId in isValidAmount inputAmount limits.1 limits.2.

(** The conversions of [useBtcFiatPrice] that do not format. *)
Definition convertCentsToSats (s : CommonState) (federationId : string) (cents : num) : num :=
  fiatToSat cents (mul (selectBtcUsdExchangeRate s federationId) (of_Z 100)).
Definition convertSatsToCents (s : CommonState) (federationId : string) (sats : num) : num :=
  round (mul (satToFiat sats (selectBtcUsdExchangeRate s federationId)) (of_Z 100)).
Definition convertSatsToFiat (s : CommonState) (currency : option string) (federationId : string)
    (sats : num) : num :=
  satToFiat sats (selectBtcExchangeRate s currency federationId).

(** [useWithdrawForm]: the cents that are withdrawn for the sats that are entered;
    the rate is that of no federation. *)
Definition withdraw_inputAmountCents (s : CommonState) (inputAmount : num) : num :=
  convertSatsToCents s "" inputAmount.

(** [useMultispendWithdrawForm]: cents are rounded down, and shown in sats. *)
Definition multispend_maximumAmount (s : CommonState) (multispendBalance : num) : num :=
  convertCentsToSats s "" (floor multispendBalance).

(** [DISPLAY_CAROUSEL_MAP] and [changeDisplayCurrency] of [useTotalBalance]. *)
Definition next_display (balanceDisplay : string) : string :=
  if decide (balanceDisplay = "sats") then "fiat"
  else if decide (balanceDisplay = "fiat") then "hidden" else "sats".
Definition changeDisplayCurrency (s : CurrencyState) : CurrencyState :=
  setBalanceDisplay (next_display (balanceDisplay s)) s.

(** ** Within the limits *)

Lemma leb_min2 x a b : leb x (min2 a b) = true -> leb x a = true /\ leb x b = true.
Proof.
  unfold min2. intros H.
  assert (N : a <> NaN /\ b <> NaN /\ x <> NaN).
  { destruct a, b, x; split_and!; try done; cbn in H; unfold leb in H; cbn in H; try discriminate. }
  destruct N as (Na & Nb & Nx).
  assert (T : leb x (if ltb b a then b else a) = true) by (destruct a, b; done).
  clear H. destruct (ltb b a) eqn:L; split; try done.
  - unfold leb in *. destruct a as [|[]|], b as [|[]|], x as [|[]|]; cbn in *; try done; bools; lia.
  - unfold leb in *. destruct a as [|[]|], b as [|[]|], x as [|[]|]; cbn in *; try done; bools; lia.
Qed.

(** The sats of a balance of [b] msats. *)
Lemma max_send_sats args balance e n :
  leb (of_Z n) (useMinMaxSendAmount args balance e).2 = true ->
  leb (of_Z n) (of_Z 0) = true /\ ltb balance (of_Z 1000) = true \/
  leb (of_Z n) (msatToSat balance) = true.
Proof.
  unfold useMinMaxSendAmount. destruct (ltb balance (of_Z 1000)); [intros H; left; by split|].
  intros H; right; revert H.
  destruct (a_cashuMeltSummary args); cbn [snd]; [done|].
  destruct (a_lnurlPayment args); cbn [snd].
  { destruct (truthy _); [|done]. by intros [_ ?]%leb_min2. }
  destruct (_ && _); cbn [snd]; [done|].
  destruct (a_ecashRequest args), (maxAmountEcash e), (a_btcAddress args), (maxAmountOnchain e);
    intros H; repeat apply leb_min2 in H as [H _]; done.
Qed.

(** C16: whatever is paid (an invoice, an LNURL, an address, ecash or Cashu tokens) and
    whatever the bridge estimated, an amount up to the maximum of the form is never
    more than the balance that pays it. *)
Theorem send_within_balance args b e n :
  0 <= b < 2 ^ 53 -> 0 <= n < 2 ^ 53 ->
  leb (of_Z n) (useMinMaxSendAmount args (of_Z b) e).2 = true ->
  n * 1000 <= b.
Proof.
  intros Hb Hn [[H _]|H]%max_send_sats.
  - rewrite leb_int in H by (unfold safe; lia). apply Z.leb_le in H. lia.
  - destruct (msatToSat_rounds_down b Hb) as (E & _). rewrite E in H.
    pose proof (Z.div_mod b 1000 ltac:(lia)). pose proof (Z.mod_pos_bound b 1000 ltac:(lia)).
    pose proof (Z.div_pos b 1000 ltac:(lia) ltac:(lia)).
    rewrite leb_int in H by (unfold safe; lia). apply Z.leb_le in H. lia.
Qed.

(** Paying to an address, with less than the balance left after the fees. *)
Definition to_address : SendArgs :=
  mkSendArgs None None None (Some [("address", JStr "bc1q")]) None None.

Lemma send_within_balance_witness :
  (useMinMaxSendAmount to_address (of_Z 5000999) (mkEstimates (Some (of_Z 4321)) None None)).2 = of_Z 4321 /\
  4321 * 1000 <= 5000999.
Proof.
  split; [vm_compute; reflexivity|].
  apply (send_within_balance to_address 5000999 (mkEstimates (Some (of_Z 4321)) None None));
    [lia | lia | vm_compute; reflexivity].
Defined.

(** *** The amount of an invoice *)

(** the amount the form fixes for an invoice, when the balance is not below a
    sat.  With the fees estimated it is the amount of the invoice; before the bridge
    answered, and after it failed to, it is one sat whatever the invoice asks for. *)
Theorem invoice_exact_amount args invoice balance e confirm :
  a_invoice args = Some invoice ->
  a_lnurlPayment args = None -> a_cashuMeltSummary args = None ->
  ltb balance (of_Z 1000) = false ->
  exactAmount (useSendForm args balance e confirm) =
    Some (if default false (num_truthy <$> exactAmountLightning e)
          then msatToSat (to_num (get "amount" invoice)) else of_Z 1).
Proof.
  intros Hi Hl Hc Hb. unfold useSendForm. rewrite Hi. cbn [exactAmount].
  unfold useMinMaxSendAmount. rewrite Hb. cbn [a_invoice a_cashuMeltSummary a_lnurlPayment].
  rewrite Hl, Hc. rewrite bool_decide_true by eauto.
  destruct (default false _); done.
Qed.

(** An invoice over 2500 sats: what is shown before and after the estimate. *)
Definition invoice_2500 : obj :=
  [("invoice", JStr "lnbc25u1p0000000000000000"); ("amount", JNum (of_Z 2500000))].
Definition pay_invoice : SendArgs := mkSendArgs (Some invoice_2500) None None None None None.

Lemma invoice_exact_amount_witness :
  exactAmount (useSendForm pay_invoice (of_Z 90000000) no_estimates "") = Some (of_Z 1) /\
  exactAmount (useSendForm pay_invoice (of_Z 90000000)
    (mkEstimates None None
       (lightning_estimated invoice_2500
          (Ok [("federationFee", JNum (of_Z 5000)); ("networkFee", JNum (of_Z 2000));
               ("fediAppFee", JNum (of_Z 0)); ("fediGuardianFee", JNum (of_Z 0))]))) "") =
    Some (of_Z 2500).
Proof.
  split.
  - apply (invoice_exact_amount pay_invoice invoice_2500 (of_Z 90000000) no_estimates "");
      vm_compute; reflexivity.
  - rewrite (invoice_exact_amount pay_invoice invoice_2500 (of_Z 90000000) _ "") by
      (vm_compute; reflexivity).
    vm_compute; reflexivity.
Defined.

(** *** Deposits *)

Lemma leb_min2_int n a b : safe n -> safe a -> safe b ->
  leb (of_Z n) (min2 (of_Z a) (of_Z b)) = (n <=? a) && (n <=? b).
Proof.
  intros Hn Ha Hb. rewrite min2_int, leb_int by (done || (unfold safe in *; lia)).
  apply eq_iff_eq_true. rewrite andb_true_iff, !Z.leb_le. lia.
Qed.

Lemma isValidAmount_int n lo hi : safe n -> safe lo -> safe hi -> 0 <= lo ->
  isValidAmount (of_Z n) (of_Z lo) (of_Z hi) = true <-> 0 < n /\ lo <= n /\ n <= hi.
Proof.
  intros Hn Hl Hh L. unfold isValidAmount.
  rewrite eqb_int, leb_int, leb_int, ltb_int by (done || (unfold safe; lia)).
  destruct (Z.eqb_spec lo 0); rewrite andb_true_iff, ?Z.ltb_lt, !Z.leb_le; lia.
Qed.

Lemma truthy_liquidity l : 0 <= l < 2 ^ 53 ->
  (if num_truthy (of_Z l) then msatToSat (of_Z l) else of_Z 0) = of_Z (l / 1000).
Proof.
  intros Hl. rewrite truthy_int by (unfold safe; lia).
  destruct (Z.eqb_spec l 0) as [->|]; [done|]. apply (msatToSat_rounds_down l Hl).
Qed.

(** C17: a deposit into the stable balance is accepted exactly when it is positive,
    reaches the smallest deposit of the pool, and is covered by the balance, by the
    liquidity of the pool, and by what the federation allows on top of the stable
    balance there is.  Deposits that are still staged take no part in it. *)
Theorem deposit_form_accepts s id n b l m st k :
  Federation.selectFederationBalance (federation s) id = of_Z b ->
  selectStabilityPoolAvailableLiquidity s id = Some (of_Z l) ->
  Federation.selectMaxStableBalanceSats (federation s) id = JNum (of_Z m) ->
  selectStableBalanceSats s id = of_Z st ->
  config_number "min_allowed_seek" (pool_config_of s id) = of_Z k ->
  0 <= n < 2 ^ 52 -> 0 <= b < 2 ^ 53 -> 0 <= l < 2 ^ 53 -> 0 <= m < 2 ^ 52 -> 0 <= st < 2 ^ 52 ->
  0 <= k < 2 ^ 53 ->
  useStabilityDepositForm s id (of_Z n) = true <->
  0 < n /\ k / 1000 <= n /\ n * 1000 <= b /\ n * 1000 <= l /\ n + st <= m.
Proof.
  intros Eb El Em Es Ek Hn Hb Hl Hm Hs Hk.
  unfold useStabilityDepositForm, useMinMaxDepositAmount, selectMinimumDepositAmount.
  rewrite Eb, El, Em, Es, Ek, truthy_liquidity by done. cbn [fst snd to_num].
  destruct (msatToSat_rounds_down b Hb) as (-> & _). destruct (msatToSat_rounds_down k Hk) as (-> & _).
  pose proof (Z.div_mod b 1000 ltac:(lia)). pose proof (Z.mod_pos_bound b 1000 ltac:(lia)).
  pose proof (Z.div_mod l 1000 ltac:(lia)). pose proof (Z.mod_pos_bound l 1000 ltac:(lia)).
  pose proof (Z.div_mod k 1000 ltac:(lia)). pose proof (Z.mod_pos_bound k 1000 ltac:(lia)).
  rewrite sub_int, max2_int, !min2_int, isValidAmount_int by (unfold safe; lia). lia.
Qed.

(** A pool that allows 40,000 sats, half of which are held. *)
Definition capped_fed : obj :=
  set_prop "meta" (JObj [("max_stable_balance_msats", JStr "40000000")])
    (set_prop "balance" (JNum (of_Z 90000000)) pool_fed).
Definition capped_state : CommonState :=
  mkCommon (Federation.initialState <| federations := [capped_fed] |>)
    {["p" := initialFederationWalletState <| stabilityPoolAvailableLiquidity := Some (of_Z 70000000) |>
        <| stabilityPoolState :=
             Some (mkPool NaN (mkBalance zero zero) (mkBalance (of_Z 1000) zero) zero None) |>]}
    (currency_initialState <| btcUsdRate := of_Z 50000 |>).

Lemma deposit_form_accepts_witness :
  useStabilityDepositForm capped_state "p" (of_Z 20000) = true /\
  useStabilityDepositForm capped_state "p" (of_Z 20001) = false.
Proof.
  assert (A : forall n, 0 <= n < 2 ^ 52 ->
    useStabilityDepositForm capped_state "p" (of_Z n) = true <->
    0 < n /\ 0 / 1000 <= n /\ n * 1000 <= 90000000 /\ n * 1000 <= 70000000 /\ n + 20000 <= 40000).
  { intros n Hn. apply (deposit_form_accepts capped_state "p" n 90000000 70000000 40000 20000 0);
      try lia; vm_compute; reflexivity. }
  split; [apply (proj2 (A 20000 ltac:(lia))); change (0 / 1000) with 0; lia|].
  destruct (useStabilityDepositForm _ _ _) eqn:E; [|reflexivity].
  apply (proj1 (A 20001 ltac:(lia))) in E. exfalso. lia.
Defined.

(** The form of withdrawals limits sats at the price of the pool, and asks for
    cents at the price of the market: after the market rose, an amount that is
    accepted is more cents than can be withdrawn. *)
Definition risen_state : CommonState :=
  mkCommon (initialState <| federations := [capped_fed] |>)
    {["p" := initialFederationWalletState <| stabilityPoolState :=
        Some (mkPool (of_Z 5000000) (mkBalance zero zero) (mkBalance (of_Z 1000) zero) zero None) |>]}
    (currency_initialState <| btcUsdRate := of_Z 60000 |>).

Example withdraw_over_balance :
  useStabilityWithdrawForm risen_state "p" (of_Z 20000) = true /\
  selectWithdrawableStableBalanceCents risen_state "p" = of_Z 1000 /\
  withdraw_inputAmountCents risen_state (of_Z 20000) = of_Z 1200.
Proof. vm_compute. by split_and!. Qed.
