(* ===== verification/Lnurl.v ===== *)
(** LNURL services: [ui/common/utils/lnurl.ts], the wrappers it uses of
    [ui/common/utils/neverthrow.ts], and [useLnurlWithdraw] and
    [useMakeLightningRequest] of [ui/common/hooks/receive.ts].

    A [ResultAsync] is a thunk of Effects.v whose error is the tag of the
    [TaggedError], with its message when the code gives one.  A request is a call
    ["fetch"] of the url; what answers has the field [ok], and the field [json] when
    its body parses.  The host's [URL] is a parameter. *)
From Stdlib Require Import ZArith Lia.
From stdpp Require Import base tactics strings list option.
From S2P Require Import Prelude JsNum Js JsStr Amount Intl Effects.
Local Open Scope string_scope.
Local Open Scope list_scope.

(** ** Requests *)

Definition fetchResult (url : string) : thunk obj :=
  res ← t_catch (rpc "fetch" [JStr url]) (fun e =>
    t_throw (if includes_text (chars "URL") (chars e) then "UrlConstructError" else "FetchError"));
  match res with JObj o => mret o | _ => t_throw "FetchError" end.

Definition ensureHttpResponseOk (res : obj) : thunk obj :=
  if truthy (get "ok" res) then mret res else t_throw "NotOkHttpResponseError".

Definition thenJson (res : obj) : thunk jval :=
  match lookup_prop "json" res with
  | Some data => mret data
  | None => t_throw "MalformedDataError"
  end.

(** *** The schemas *)

Definition string_or_nullish (v : jval) : bool :=
  match v with JStr _ | JUndef | JNull => true | _ => false end.

Definition lnurlErrorResponseSchema (data : jval) : bool :=
  match data with
  | JObj o => bool_decide (get "status" o = JStr "ERROR") && string_or_nullish (get "reason" o)
  | _ => false
  end.

(** No element of [routes] is valid, so that only the empty array is. *)
Definition no_routes (v : jval) : bool :=
  match v with JUndef | JArr [] => true | _ => false end.

Definition lnurlPayResponseSchema (data : jval) : option string :=
  match data with
  | JObj o =>
      match get "pr" o with
      | JStr pr => if no_routes (get "routes" o) then Some pr else None
      | _ => None
      end
  | _ => None
  end.

Definition lnurlOkResponseSchema (data : jval) : bool :=
  match data with JObj o => bool_decide (get "status" o = JStr "OK") | _ => false end.

Definition throughZodSchema {A} (r : option A) : thunk A :=
  match r with Some a => mret a | None => t_throw "SchemaValidationError" end.

Definition lnurlNonError (data : jval) : thunk jval :=
  if lnurlErrorResponseSchema data
  then t_throw ("FetchError: " +:+
         to_str (jor (match data with JObj o => get "reason" o | _ => JUndef end)
                   (JStr "errors.unknown-error")))
  else mret data.

(** What every request has in common. *)
Definition request (url : string) : thunk jval :=
  res ← fetchResult url;
  res ← ensureHttpResponseOk res;
  data ← thenJson res;
  lnurlNonError data.

(** ** The operations *)

Section Lnurl.
(** [new URL(s)], [url.searchParams.set(k, v)] and [url.toString()]. *)
Context {Url : Type} (parseUrl : string -> option Url)
  (set_param : string -> string -> Url -> Url) (url_string : Url -> string).

Definition constructUrl (s : string) : thunk Url :=
  match parseUrl s with Some url => mret url | None => t_throw "UrlConstructError" end.

Definition lnurlCallback (callbackUrl : Url) : thunk unit :=
  data ← request (url_string callbackUrl);
  throughZodSchema (if lnurlOkResponseSchema data then Some tt else None).

Record LnurlAuth := mkLnurlAuth { auth_domain : string; auth_k1 : string; auth_callback : string }.
Record LnurlPay := mkLnurlPay { pay_callback : string }.
Record LnurlWithdraw := mkLnurlWithdraw { withdraw_k1 : string; withdraw_callback : string }.

Definition lnurlAuth (lnurlData : LnurlAuth) : thunk unit :=
  signed ← rpc "signLnurlMessage" [JStr (auth_domain lnurlData); JStr (auth_k1 lnurlData)];
  let field k := match signed with JObj o => to_str (get k o) | _ => "undefined" end in
  url ← constructUrl (auth_callback lnurlData);
  lnurlCallback (set_param "key" (field "pubkey") (set_param "sig" (field "signature") url)).

(** [notes || null] *)
Definition or_null (notes : option string) : jval :=
  match notes with Some (String _ _ as n) => JStr n | _ => JNull end.
Definition or_empty (notes : option string) : jval := JStr (default "" notes).

Definition frontendMetadata (initialNotes : jval) : jval :=
  JObj [("initialNotes", initialNotes); ("recipientMatrixId", JNull); ("senderMatrixId", JNull)].

Definition payInvoice (invoice federationId : string) (notes : option string) : thunk jval :=
  rpc "payInvoice" [JStr invoice; JStr federationId; frontendMetadata (or_null notes)].

Definition lnurlPay (federationId : string) (lnurlData : LnurlPay) (amount : num)
    (notes : option string) : thunk jval :=
  url ← constructUrl (pay_callback lnurlData);
  data ← request (url_string (set_param "amount" (num_string amount) url));
  pr ← throughZodSchema (lnurlPayResponseSchema data);
  payInvoice pr federationId notes.

Definition lnurlWithdraw (federationId : string) (lnurlData : LnurlWithdraw) (amount : num)
    (note : option string) : thunk string :=
  url ← constructUrl (withdraw_callback lnurlData);
  answer ← rpc "generateInvoice"
    [JStr federationId; JNum amount; or_empty note; JNull; frontendMetadata (or_empty note)];
  let invoice := to_str answer in
  _ ← lnurlCallback (set_param "pr" invoice (set_param "k1" (withdraw_k1 lnurlData) url));
  mret invoice.
End Lnurl.

(** ** Withdrawing

    [handleWithdraw] asks the service, and then listens for the transaction that
    pays the invoice; [setIsWithdrawing(false)] follows the [await], which throws
    when the withdrawal failed. *)
Inductive withdraw_phase : Type :=
  | Asking
  | Listening (invoice : string)
  | WithdrawPaid (txn : jval)
  | WithdrawFailed (e : string).

Record Withdrawal := mkWithdrawal { phase : withdraw_phase; isWithdrawing : bool }.

(** What happens to a withdrawal that has been started. *)
Inductive withdraw_input : Type :=
  | ServiceAnswer (r : result string)
  | TransactionEvent (lnReceive : bool) (ln_invoice : string) (txn : jval)
  | WithdrawTimeout
  | ResetWithdraw.

Definition started : Withdrawal := mkWithdrawal Asking true.

Definition withdraw_step (w : Withdrawal) (i : withdraw_input) : Withdrawal :=
  match phase w, i with
  | _, ResetWithdraw => mkWithdrawal (phase w) false
  | Asking, ServiceAnswer (Ok invoice) => mkWithdrawal (Listening invoice) (isWithdrawing w)
  | Asking, ServiceAnswer (Throw e) => mkWithdrawal (WithdrawFailed e) (isWithdrawing w)
  | Listening invoice, TransactionEvent lnReceive ln_invoice txn =>
      if lnReceive && bool_decide (ln_invoice = invoice)
      then mkWithdrawal (WithdrawPaid txn) false else w
  | Listening _, WithdrawTimeout => mkWithdrawal (WithdrawFailed "TimeoutError") (isWithdrawing w)
  | _, _ => w
  end.

Definition handleWithdraw (l : list withdraw_input) : Withdrawal := foldl withdraw_step started l.

(** [useMakeLightningRequest] reports every receive of its invoice. *)
Definition invoice_paid (invoice : option string) (i : withdraw_input) : option jval :=
  match invoice, i with
  | Some invoice, TransactionEvent true ln_invoice txn =>
      if decide (ln_invoice = invoice) then Some txn else None
  | _, _ => None
  end.

(** ** A payment pays what the service answered *)

(** The invoice that an answer of the service offers. *)
Definition offered (answer : result jval) : option string :=
  match answer with
  | Ok (JObj res) =>
      if truthy (get "ok" res) then
        match lookup_prop "json" res with
        | Some data => if lnurlErrorResponseSchema data then None else lnurlPayResponseSchema data
        | None => None
        end
      else None
  | _ => None
  end.

Definition fetch_call (url : string) : call := mkCall "fetch" [JStr url].
Definition pay_call (invoice federationId : string) (notes : option string) : call :=
  mkCall "payInvoice" [JStr invoice; JStr federationId; frontendMetadata (or_null notes)].

Lemma request_answer url b h :
  (exists data, request url b h = (h ++ [fetch_call url], Ok data) /\
     offered (b h (fetch_call url)) = lnurlPayResponseSchema data) \/
  (exists e, request url b h = (h ++ [fetch_call url], Throw e) /\ offered (b h (fetch_call url)) = None).
Proof.
  unfold request, fetchResult, t_catch, rpc, t_throw, t_ret, mbind, thunk_bind, mret, thunk_ret, t_ret.
  fold (fetch_call url).
  destruct (b h (fetch_call url)) as [v|e] eqn:A; [|right; by case_match; eauto].
  destruct v as [| | | | | |res]; try (right; by eauto).
  cbn. unfold ensureHttpResponseOk, thenJson, lnurlNonError, t_throw, t_ret, mret, thunk_ret, t_ret.
  destruct (truthy (get "ok" res)); [|right; by eauto].
  destruct (lookup_prop "json" res) as [data|]; [|right; by eauto].
  destruct (lnurlErrorResponseSchema data); [right | left]; by eauto.
Qed.

Section Payments.
Context {Url : Type} (parseUrl : string -> option Url)
  (set_param : string -> string -> Url -> Url) (url_string : Url -> string).

(** C18: an LNURL payment asks the service for an invoice over the amount, and pays
    the invoice of a valid answer, once; after any other answer nothing is paid.
    Nothing relates the invoice to the amount that was asked for: an invoice over
    any other amount is paid as well. *)
Theorem lnurl_pays_the_answer federationId lnurlData amount notes url b :
  parseUrl (pay_callback lnurlData) = Some url ->
  let asked := fetch_call (url_string (set_param "amount" (num_string amount) url)) in
  let payment := run (lnurlPay parseUrl set_param url_string federationId lnurlData amount notes) b in
  (forall invoice, offered (b [] asked) = Some invoice ->
     payment = ([asked; pay_call invoice federationId notes],
                b [asked] (pay_call invoice federationId notes))) /\
  (offered (b [] asked) = None -> exists e, payment = ([asked], Throw e)).
Proof.
  intros P asked payment. subst payment. unfold run, lnurlPay, constructUrl. rewrite P.
  rewrite run_ret. unfold mbind at 1 3, thunk_bind at 1 3.
  set (u := url_string _) in *.
  destruct (request_answer u b []) as [(data & R & O) | (e & R & O)]; fold asked in R, O; rewrite R, O.
  - unfold throughZodSchema, payInvoice, rpc, t_throw, t_ret, mbind, thunk_bind, mret, thunk_ret, t_ret.
    destruct (lnurlPayResponseSchema data) as [pr|]; split; try done; [|by eauto].
    intros invoice [= ->]. reflexivity.
  - split; [done|]. intros _. by eauto.
Qed.
End Payments.

(** ** A withdrawal is reported when its payment is seen while it listens *)

Definition settled (w : Withdrawal) : Prop :=
  match phase w with WithdrawPaid _ | WithdrawFailed _ => True | _ => False end.

Lemma settled_stays w l : settled w -> phase (foldl withdraw_step w l) = phase w.
Proof.
  revert w. induction l as [|i l IH]; intros w S; [done|]. cbn [foldl].
  assert (E : phase (withdraw_step w i) = phase w)
    by (unfold withdraw_step, settled in *; destruct w as [[] ?], i; done).
  rewrite IH by (unfold settled; by rewrite E). exact E.
Qed.

(** What ends the listening for [invoice]. *)
Definition ends (invoice : string) (i : withdraw_input) : bool :=
  match i with
  | WithdrawTimeout => true
  | TransactionEvent lnReceive ln_invoice _ => lnReceive && bool_decide (ln_invoice = invoice)
  | _ => false
  end.
Definition is_answer (i : withdraw_input) : bool :=
  match i with ServiceAnswer _ => true | _ => false end.

(** The first element of [l] that satisfies [P], with what follows it. *)
Definition first_where (P : withdraw_input -> bool) (l : list withdraw_input)
    : option (withdraw_input * list withdraw_input) :=
  (fix go l := match l with [] => None | i :: l => if P i then Some (i, l) else go l end) l.

(** What the user is told: the transaction, when after the answer of the service
    it comes before the timeout. *)
Definition reported (l : list withdraw_input) : option jval :=
  match first_where is_answer l with
  | Some (ServiceAnswer (Ok invoice), l) =>
      match first_where (ends invoice) l with
      | Some (TransactionEvent _ _ txn, _) => Some txn
      | _ => None
      end
  | _ => None
  end.

Definition paid_of (w : Withdrawal) : option jval :=
  match phase w with WithdrawPaid txn => Some txn | _ => None end.

Lemma listening_reports invoice w l : phase w = Listening invoice ->
  paid_of (foldl withdraw_step w l) =
    match first_where (ends invoice) l with Some (TransactionEvent _ _ txn, _) => Some txn | _ => None end.
Proof.
  revert w. induction l as [|i l IH]; intros w P; [by unfold paid_of; cbn; rewrite P|].
  cbn [foldl first_where]. unfold withdraw_step at 2. rewrite P.
  destruct i as [r|re inv txn| |]; cbn [ends]; try by rewrite IH.
  - destruct (re && bool_decide (inv = invoice)); [|by rewrite IH].
    unfold paid_of. by rewrite settled_stays.
  - unfold paid_of. by rewrite settled_stays.
Qed.

Lemma asking_reports w l : phase w = Asking -> paid_of (foldl withdraw_step w l) = reported l.
Proof.
  revert w. induction l as [|i l IH]; intros w P; [by unfold paid_of; cbn; rewrite P|].
  cbn [foldl]. unfold reported. cbn [first_where]. unfold withdraw_step at 2. rewrite P.
  destruct i as [[invoice|e]|re inv txn| |]; cbn [is_answer]; try by apply IH.
  - by apply listening_reports.
  - unfold paid_of. by rewrite settled_stays.
Qed.

(** The form is only released by a payment that is seen, and by a reset. *)
Lemma busy_until_paid w l : ResetWithdraw ∉ l ->
  isWithdrawing w = bool_decide (paid_of w = None) ->
  isWithdrawing (foldl withdraw_step w l) = bool_decide (paid_of (foldl withdraw_step w l) = None).
Proof.
  revert w. induction l as [|i l IH]; intros w N B; [done|]. cbn [foldl].
  apply not_elem_of_cons in N as [N N']. apply IH; [done|].
  destruct w as [p busy]. unfold withdraw_step, paid_of in *. cbn in *.
  destruct p, i as [[]| | |]; cbn in *; try done; case_match; done.
Qed.

(** a withdrawal is reported as paid exactly when a receive of its invoice is
    seen after the service answered and before the timeout.  A payment that is faster
    than the answer of the service is not seen; and as long as nothing is reported,
    after a failure or a timeout too, the form stays busy. *)
Theorem withdrawal_reported l :
  ResetWithdraw ∉ l ->
  paid_of (handleWithdraw l) = reported l /\
  isWithdrawing (handleWithdraw l) = bool_decide (reported l = None).
Proof.
  intros N. assert (P : paid_of (handleWithdraw l) = reported l) by (apply asking_reports; reflexivity).
  split; [done|]. rewrite <- P. by apply busy_until_paid.
Qed.

(** The same payment, after the answer of the service and before it. *)
Definition withdraw_receive : withdraw_input := TransactionEvent true "lnbc1" (JStr "txn").

Lemma withdrawal_reported_witness :
  handleWithdraw [ServiceAnswer (Ok "lnbc1"); withdraw_receive] =
    mkWithdrawal (WithdrawPaid (JStr "txn")) false /\
  paid_of (handleWithdraw [withdraw_receive; ServiceAnswer (Ok "lnbc1"); WithdrawTimeout]) = None /\
  isWithdrawing (handleWithdraw [withdraw_receive; ServiceAnswer (Ok "lnbc1"); WithdrawTimeout]) = true.
Proof.
  split; [reflexivity|].
  apply (withdrawal_reported [withdraw_receive; ServiceAnswer (Ok "lnbc1"); WithdrawTimeout]).
  rewrite !not_elem_of_cons. split_and!; try done. apply not_elem_of_nil.
Defined.

(** *** A service that asks for more *)

Definition DemoUrl : Type := string * list (string * string).
Definition demo_parse (s : string) : option DemoUrl := if decide (s = "") then None else Some (s, []).
Definition demo_set (k v : string) (u : DemoUrl) : DemoUrl := (u.1, u.2 ++ [(k, v)]).
Definition demo_string (u : DemoUrl) : string :=
  u.1 +:+ foldr (fun kv s => "&" +:+ kv.1 +:+ "=" +:+ kv.2 +:+ s) "" u.2.

(** An invoice over ten thousand sats for whatever amount is asked. *)
Definition greedy_service : bridge := fun _ c =>
  if decide (rpc_name c = "fetch")
  then Ok (JObj [("ok", JBool true); ("json", JObj [("pr", JStr "lnbc100u1"); ("routes", JArr [])])])
  else Ok (JObj [("preimage", JStr "ff")]).

Lemma lnurl_pays_the_answer_witness :
  run (lnurlPay demo_parse demo_set demo_string "f" (mkLnurlPay "https://pay.me/cb") (of_Z 1000) None)
    greedy_service =
  ([fetch_call (demo_string ("https://pay.me/cb", [("amount", num_string (of_Z 1000))]));
    pay_call "lnbc100u1" "f" None], Ok (JObj [("preimage", JStr "ff")])).
Proof.
  apply (lnurl_pays_the_answer demo_parse demo_set demo_string "f" (mkLnurlPay "https://pay.me/cb")
           (of_Z 1000) None ("https://pay.me/cb", []) greedy_service); reflexivity.
Defined.
