(* ===== verification/Pay.v ===== *)
(** Paying and claiming: [ui/common/hooks/pay.ts].

    [useOmniPaymentState] turns what was scanned or pasted into a payment, and sends
    it.  Its handlers await the bridge, so that several may be in flight: what a
    handler still waits for is a pending request, and an answer runs the rest of the
    handler on the state of that time.  Errors stay as they are thrown; putting them
    into words ([formatErrorMessage]) is presentation. *)
From Stdlib Require Import ZArith Lia.
From stdpp Require Import base tactics strings list option.
From S2P Require Import Prelude JsNum Js JsStr Amount Meta Federation Wallet Effects Cashu Lnurl AmountLimits.
Import Federation.
Local Open Scope string_scope.
Local Open Scope list_scope.

(** ** The state *)

(** The inputs that can be paid to, with their data. *)
Inductive OmniInput : Type :=
  | InBolt11 (data : obj)
  | InLnurlPay (data : obj)
  | InBip21 (data : obj)
  | InBitcoinAddress (data : obj)
  | InCashuEcash (data : obj).

(** What a handler or an effect waits for. *)
Inductive Pending : Type :=
  | PInvoice (raw federationId : string)
  | PFees (raw federationId : string)
  | PQuotes (tokens : Payload) (federationId : string)
  | PPreview (address : jval) (amount : num) (federationId : string).

Record Omni := mkOmni {
  isLoading : bool;
  error : option string;
  feeDetails : option obj;
  invoice : option obj;
  cashuMeltSummary : option MeltSummary;
  lnurlPayment : option obj;
  bip21Payment : option obj;
  btcAddress : option obj;
  inputAmount : num;
  pending : list Pending
}.
#[export] Instance Omni_eta : Eta Omni := fun s =>
  mkOmni (isLoading s) (error s) (feeDetails s) (invoice s) (cashuMeltSummary s) (lnurlPayment s)
    (bip21Payment s) (btcAddress s) (inputAmount s) (pending s).

Definition omni_initial : Omni := mkOmni false None None None None None None None (of_Z 0) [].

(** What the hook is rendered with: the federation, its balance, and the states of
    the hooks that estimate amounts; [""] is no federation. *)
Record Env := mkEnv { env_federationId : string; env_balance : num; env_estimates : Estimates }.

(** The form of the payment. *)
Definition form (confirm_melt : string) (env : Env) (s : Omni) : SendForm :=
  useSendForm (mkSendArgs (invoice s) (lnurlPayment s) (cashuMeltSummary s) (btcAddress s)
                 (bip21Payment s) None) (env_balance env) (env_estimates env) confirm_melt.

Definition isReadyToPay (s : Omni) : bool :=
  bool_decide (is_Some (invoice s)) || bool_decide (is_Some (lnurlPayment s)) ||
  bool_decide (is_Some (btcAddress s)) || bool_decide (is_Some (bip21Payment s)) ||
  bool_decide (is_Some (cashuMeltSummary s)).

(** ** Entering *)

(** The end of a handler: its [catch] and its [finally]. *)
Definition finished (s : Omni) : Omni := s <| isLoading := false |>.
Definition failed (e : string) (s : Omni) : Omni := finished (s <| error := Some e |>).
Definition await (p : Pending) (s : Omni) : Omni := s <| pending := pending s ++ [p] |>.

Section Entering.
(** The host functions that decoding of ecash uses. *)
Context (fromBase64 : string -> list Z) (toUtf8 : list Z -> string) (toHex : list Z -> string)
  (parse : string -> result jval) (decodeText : list Z -> string).

(** [handleOmniInput], up to its first [await]. *)
Definition handleOmniInput (federationId : string) (input : OmniInput) (s : Omni) : Omni :=
  let s := s <| isLoading := true |> <| error := None |> <| feeDetails := None |> in
  match input with
  | InBolt11 data =>
      if decide (federationId = "") then finished s
      else await (PInvoice (to_str (get "invoice" data)) federationId) s
  | InLnurlPay data =>
      let s := if truthy (get "minSendable" data)
               then s <| inputAmount := msatToSat (to_num (get "minSendable" data)) |> else s in
      finished (s <| lnurlPayment := Some data |>)
  | InBip21 data =>
      let s := if truthy (get "amount" data) && negb (bool_decide (federationId = ""))
               then s <| inputAmount := btcToSat (to_num (get "amount" data)) |> else s in
      finished (s <| bip21Payment := Some data |> <| btcAddress := Some [("address", get "address" data)] |>)
  | InBitcoinAddress data => finished (s <| btcAddress := Some data |>)
  | InCashuEcash data =>
      if decide (federationId = "") then finished s
      else match decodeCashuTokens fromBase64 toUtf8 toHex parse decodeText (to_str (get "token" data)) with
           | Ok tokens => await (PQuotes tokens federationId) s
           | Throw e => failed e s
           end
  end.

(** What an answer of the bridge makes of the state; the bridge answers objects. *)
Definition answered (p : Pending) (r : result jval) (s : Omni) : Omni :=
  match p, r with
  | PInvoice raw federationId, Ok (JObj decoded) =>
      let s := if truthy (get "amount" decoded)
               then s <| inputAmount := msatToSat (to_num (get "amount" decoded)) |> else s in
      await (PFees raw federationId) (s <| invoice := Some decoded |>)
  | PInvoice _ _, Ok _ => failed type_error s
  | PFees _ _, Ok (JObj fee) => finished (s <| feeDetails := Some fee |>)
  | PFees _ _, Ok _ => finished s
  | PPreview _ _ _, Ok (JObj fees) => s <| feeDetails := Some fees |>
  | PPreview _ _ _, _ => s <| feeDetails := None |>
  | PInvoice _ _, Throw e | PFees _ _, Throw e => failed e s
  | PQuotes _ _, _ => s
  end.

(** The fees of a Cashu payment are those of the mint. *)
Definition melt_fees (summary : MeltSummary) : obj :=
  [("fediAppFee", JNum (of_Z 0)); ("fediGuardianFee", JNum (of_Z 0));
   ("networkFee", JNum (totalFees summary)); ("federationFee", JNum (of_Z 0))].

(** The outcome of [getMeltQuotes]. *)
Definition quoted (r : result MeltSummary) (s : Omni) : Omni :=
  match r with
  | Ok summary =>
      finished (s <| cashuMeltSummary := Some summary |>
        <| inputAmount := msatToSat (totalAmount summary) |> <| feeDetails := Some (melt_fees summary) |>)
  | Throw e => failed e s
  end.

(** The effect that asks for the fees of an address.  It runs when what it reads
    was set anew; here it may run at any time. *)
Definition getOnchainFeeDetails (confirm_melt : string) (env : Env) (s : Omni) : Omni :=
  match exactAmount (form confirm_melt env s), btcAddress s with
  | Some amount, Some address =>
      if num_truthy amount && negb (bool_decide (env_federationId env = ""))
      then await (PPreview (get "address" address) amount (env_federationId env)) s else s
  | _, _ => s
  end.

(** [resetOmniPaymentState]; the amount becomes the minimum of the last render. *)
Definition resetOmniPaymentState (confirm_melt : string) (env : Env) (s : Omni) : Omni :=
  let minimum := minimumAmount (form confirm_melt env s) in
  s <| feeDetails := None |> <| invoice := None |> <| lnurlPayment := None |> <| btcAddress := None |>
    <| bip21Payment := None |> <| cashuMeltSummary := None |> <| error := None |>
    <| inputAmount := minimum |>.

Inductive omni_event : Type :=
  | Enter (federationId : string) (input : OmniInput)
  | Answered (n : nat) (r : result jval)
  | Quoted (n : nat) (r : result MeltSummary)
  | PreviewFees (env : Env)
  | EnterAmount (sats : num)
  | ResetPayment (env : Env).

Definition omni_step (confirm_melt : string) (s : Omni) (ev : omni_event) : Omni :=
  match ev with
  | Enter federationId input => handleOmniInput federationId input s
  | Answered n r =>
      match pending s !! n with
      | Some (PQuotes _ _) | None => s
      | Some p => answered p r (s <| pending := delete n (pending s) |>)
      end
  | Quoted n r =>
      match pending s !! n with
      | Some (PQuotes _ _) => quoted r (s <| pending := delete n (pending s) |>)
      | _ => s
      end
  | PreviewFees env => getOnchainFeeDetails confirm_melt env s
  | EnterAmount sats => s <| inputAmount := sats |>
  | ResetPayment env => resetOmniPaymentState confirm_melt env s
  end.

Definition omni_run (confirm_melt : string) (s : Omni) (evs : list omni_event) : Omni :=
  foldl (omni_step confirm_melt) s evs.
End Entering.

(** ** Sending *)

Inductive Sent : Type :=
  | Paid (answer : jval)
  | Melted (total : num).

(** [listGateways]: the bridge is asked on a miss only. *)
Definition t_listGateways (federationId : string) (fs : FederationState)
    : thunk (list jval * FederationState) := fun b h =>
  match get federationId (gatewaysByFederation fs) with
  | JArr (_ :: _) => (h, listGateways federationId (Throw "") fs)
  | _ =>
      let '(h, answer) := rpc "listGateways" [JStr federationId] b h in
      (h, listGateways federationId (v ← answer; as_array v) fs)
  end.

Section Sending.
Context {Url : Type} (parseUrl : string -> option Url)
  (set_param : string -> string -> Url -> Url) (url_string : Url -> string).

Definition payAddress (address : jval) (sats : num) (federationId : string) (notes : option string)
    : thunk jval :=
  rpc "payAddress" [address; JNum sats; JStr federationId; frontendMetadata (or_null notes)].

Definition pay (s : Omni) (federationId : string) (amount : num) (notes : option string) : thunk Sent :=
  match invoice s with
  | Some invoice => v ← payInvoice (to_str (get "invoice" invoice)) federationId notes; mret (Paid v)
  | None =>
  match lnurlPayment s with
  | Some lnurl =>
      v ← lnurlPay parseUrl set_param url_string federationId
            (mkLnurlPay (to_str (get "callback" lnurl))) (satToMsat amount) notes;
      mret (Paid v)
  | None =>
  match bip21Payment s with
  | Some bip21 => v ← payAddress (get "address" bip21) amount federationId notes; mret (Paid v)
  | None =>
  match btcAddress s with
  | Some address => v ← payAddress (get "address" address) amount federationId notes; mret (Paid v)
  | None =>
  match cashuMeltSummary s with
  | Some summary => total ← executeMelts summary; mret (Melted total)
  | None => t_throw "Requires invoice, lnurl payment, bip21 payment, or btc address to send"
  end end end end end.

Definition overLightning (s : Omni) : bool :=
  bool_decide (is_Some (invoice s)) || bool_decide (is_Some (lnurlPayment s)).

(** [handleOmniSend]: the calls, what was sent, and the states after it. *)
Definition handleOmniSend (federationId : string) (s : Omni) (fs : FederationState) (amount : num)
    (notes : option string) (b : bridge) : list call * result Sent * (Omni * FederationState) :=
  let caught (sent : result Sent) :=
    match sent with Throw e => s <| error := Some e |> | Ok _ => s end in
  if decide (federationId = "") then
    let sent := Throw "Must have a federation ID to send" in ([], sent, (caught sent, fs))
  else
    let '(h, gateways) :=
      if overLightning s
      then let '(h, r) := t_listGateways federationId fs b [] in (h, (fun p => (Some p.1, p.2)) <$> r)
      else ([], Ok (None, fs)) in
    let fs := match gateways with Ok (_, fs) => fs | Throw _ => fs end in
    let '(h, sent) :=
      match gateways with
      | Throw e => (h, Throw e)
      | Ok (Some [], _) => (h, Throw "errors.no-lightning-gateways")
      | Ok _ => pay s federationId amount notes b h
      end in
    (h, sent, (caught sent, setLastUsedFederationId federationId fs)).
End Sending.

(** ** What is shown is what is paid *)

(** Where a payment goes: an invoice or an address.  The invoice of an LNURL is not
    known before it is paid, and ecash is melted by several requests. *)
Definition destination (s : Omni) : option string :=
  match invoice s, lnurlPayment s with
  | Some invoice, _ => Some (to_str (get "invoice" invoice))
  | None, Some _ => None
  | None, None =>
      match bip21Payment s, btcAddress s with
      | Some o, _ | None, Some o => Some (to_str (get "address" o))
      | None, None => None
      end
  end.

Definition is_payment (c : call) : Prop := rpc_name c = "payInvoice" \/ rpc_name c = "payAddress".
#[export] Instance is_payment_dec c : Decision (is_payment c).
Proof. unfold is_payment. apply _. Defined.

(** Nothing is entered, and nothing is awaited. *)
Definition quiet (s : Omni) : Prop :=
  invoice s = None /\ cashuMeltSummary s = None /\ lnurlPayment s = None /\
  bip21Payment s = None /\ btcAddress s = None /\ pending s = [].

(** What happens while an input is being worked on. *)
Definition is_reply (ev : omni_event) : Prop :=
  match ev with Answered _ _ | Quoted _ _ | PreviewFees _ => True | _ => False end.

Definition waits_for (i : OmniInput) (p : Pending) : Prop :=
  match i, p with
  | _, PPreview _ _ _ => True
  | InBolt11 _, (PInvoice _ _ | PFees _ _) => True
  | InCashuEcash _, PQuotes _ _ => True
  | _, _ => False
  end.

(** The amount that an input fixes, once it is known. *)
Definition amount_of (i : OmniInput) (s : Omni) : Prop :=
  match i with
  | InBolt11 _ =>
      forall inv, invoice s = Some inv -> truthy (get "amount" inv) = true ->
        inputAmount s = msatToSat (to_num (get "amount" inv))
  | InLnurlPay d =>
      truthy (get "minSendable" d) = true -> inputAmount s = msatToSat (to_num (get "minSendable" d))
  | InBip21 d => truthy (get "amount" d) = true -> inputAmount s = btcToSat (to_num (get "amount" d))
  | InCashuEcash _ =>
      forall summary, cashuMeltSummary s = Some summary -> inputAmount s = msatToSat (totalAmount summary)
  | _ => True
  end.

(** Only [i] is entered. *)
Record session (i : OmniInput) (s : Omni) : Prop := mkSession {
  session_pending : Forall (waits_for i) (pending s);
  session_invoice : match i with InBolt11 _ => True | _ => invoice s = None end;
  session_melt : match i with InCashuEcash _ => True | _ => cashuMeltSummary s = None end;
  session_lnurl : lnurlPayment s = match i with InLnurlPay d => Some d | _ => None end;
  session_bip21 : bip21Payment s = match i with InBip21 d => Some d | _ => None end;
  session_address : btcAddress s =
    match i with
    | InBip21 d => Some [("address", get "address" d)]
    | InBitcoinAddress d => Some d
    | _ => None
    end;
  session_amount : amount_of i s
}.

Section Session.
Context (fromBase64 : string -> list Z) (toUtf8 : list Z -> string) (toHex : list Z -> string)
  (parse : string -> result jval) (decodeText : list Z -> string) (confirm_melt : string).
Local Abbreviation omni_step := (omni_step fromBase64 toUtf8 toHex parse decodeText confirm_melt).
Local Abbreviation omni_run := (omni_run fromBase64 toUtf8 toHex parse decodeText confirm_melt).

Lemma Forall_delete {A} (P : A -> Prop) n l : Forall P l -> Forall P (delete n l).
Proof. intros F. revert n. induction F as [|x l Hx F IH]; intros [|n]; cbn; [done|done|done|by constructor]. Qed.

Lemma session_enter federationId i s : federationId <> "" -> quiet s ->
  session i (handleOmniInput fromBase64 toUtf8 toHex parse decodeText federationId i s).
Proof.
  intros F (I & M & L & B & A & P).
  destruct i as [d|d|d|d|d]; cbn [handleOmniInput]; rewrite ?(bool_decide_false _ F), ?(decide_False _ _ F).
  - constructor; cbn; rewrite ?P; cbn; try done; [by repeat constructor|]. intros inv E. congruence.
  - destruct (truthy (get "minSendable" d)) eqn:T; constructor; cbn; rewrite ?P; try done; by rewrite T.
  - destruct (truthy (get "amount" d)) eqn:T; constructor; cbn; rewrite ?P; try done; by rewrite T.
  - constructor; cbn; rewrite ?P; done.
  - destruct (decodeCashuTokens _ _ _ _ _ _); constructor; cbn; rewrite ?P; cbn; try done;
      try (by repeat constructor); rewrite M; done.
Qed.

Lemma session_preview i s env : session i s -> session i (getOnchainFeeDetails confirm_melt env s).
Proof.
  intros S. unfold getOnchainFeeDetails.
  destruct (exactAmount _) as [n|], (btcAddress s) as [a|] eqn:E; try done.
  destruct (_ && _); [|done]. destruct S as [P I M L B A N].
  destruct i; constructor; cbn; try done; apply list.Forall_app; (split; [done|by repeat constructor]).
Qed.

Lemma session_step i s ev : is_reply ev -> session i s -> session i (omni_step s ev).
Proof.
  intros R [P I M L B A N]. destruct ev as [|n r|n r|env| |]; try done; cbn [Pay.omni_step].
  - destruct (pending s !! n) as [p|] eqn:E; [|by constructor].
    assert (W : waits_for i p) by (eapply Forall_lookup_1; done).
    assert (D : Forall (waits_for i) (delete n (pending s))) by (apply Forall_delete; done).
    destruct p; [| | by constructor |];
      destruct r as [[]|]; cbn [answered]; try (constructor; done).
    destruct i; try done. cbn in L, B, A.
    destruct (truthy (get "amount" _)) eqn:T; constructor; cbn; try done;
      try (apply list.Forall_app; split; [done|by repeat constructor]);
      intros inv [= <-] T'; [done|congruence].
  - destruct (pending s !! n) as [p|] eqn:E; [|by constructor].
    assert (W : waits_for i p) by (eapply Forall_lookup_1; done).
    assert (D : Forall (waits_for i) (delete n (pending s))) by (apply Forall_delete; done).
    destruct p; try (by constructor). destruct i; try done.
    destruct r as [summary|e]; cbn [quoted]; constructor; cbn; try done. by intros ? [= ->].
  - apply session_preview. by constructor.
Qed.

Lemma session_run i s evs : Forall is_reply evs -> session i s -> session i (omni_run s evs).
Proof.
  intros F. revert s. induction F as [|ev evs R F IH]; intros s S; [done|].
  apply IH. by apply session_step.
Qed.
End Session.

(** *** The theorem *)

Lemma gateway_calls federationId fs b :
  filter is_payment (t_listGateways federationId fs b []).1 = [].
Proof.
  unfold t_listGateways. destruct (get federationId _) as [| | | | |[|g gs]|]; reflexivity.
Qed.

Lemma one_rpc name args (k : jval -> Sent) b h :
  ((v ← rpc name args; mret (k v)) b h).1 = h ++ [mkCall name args].
Proof. rewrite run_rpc. by case_match. Qed.

Section Sends.
Context {Url : Type} (parseUrl : string -> option Url)
  (set_param : string -> string -> Url -> Url) (url_string : Url -> string).
Context (s : Omni) (federationId : string) (notes : option string) (b : bridge).

(** At most one payment is made, and it is one of these. *)
Definition at_most_one (P : call -> Prop) (calls : list call) : Prop :=
  filter is_payment calls = [] \/ exists c, filter is_payment calls = [c] /\ P c.

(** What sending does: it pays the invoice that was entered, an invoice the service of
    the LNURL offered for the amount of the form, or the amount of the form to the
    address; ecash is melted, each quote at most once. *)
Definition sends_what_is_shown (calls : list call) : Prop :=
  match invoice s with
  | Some inv => at_most_one (fun c => c = pay_call (to_str (get "invoice" inv)) federationId notes) calls
  | None =>
  match lnurlPayment s with
  | Some lnurl =>
      at_most_one (fun c => exists url h i,
        parseUrl (to_str (get "callback" lnurl)) = Some url /\
        offered (b h (fetch_call (url_string
          (set_param "amount" (num_string (satToMsat (inputAmount s))) url)))) = Some i /\
        c = pay_call i federationId notes) calls
  | None =>
  match bip21Payment s, btcAddress s with
  | Some o, _ | None, Some o =>
      at_most_one (fun c => c = mkCall "payAddress"
        [get "address" o; JNum (inputAmount s); JStr federationId; frontendMetadata (or_null notes)]) calls
  | None, None =>
      match cashuMeltSummary s with
      | Some summary => exists k, calls = melt_call <$> take k (quotes summary)
      | None => filter is_payment calls = []
      end
  end end end.

Lemma one_payment (P : call -> Prop) h c :
  filter is_payment h = [] -> is_payment c -> P c -> at_most_one P (h ++ [c]).
Proof.
  intros H C Pc. right. exists c. split; [|done].
  by rewrite list.filter_app, H, filter_cons_True, filter_nil.
Qed.

(** An LNURL is paid by the invoice the service offered, if any. *)
Lemma lnurl_sends callback amount h :
  filter is_payment h = [] ->
  at_most_one (fun c => exists url h i, parseUrl callback = Some url /\
      offered (b h (fetch_call (url_string (set_param "amount" (num_string amount) url)))) = Some i /\
      c = pay_call i federationId notes)
    (lnurlPay parseUrl set_param url_string federationId (mkLnurlPay callback) amount notes b h).1.
Proof.
  intros H. unfold lnurlPay, constructUrl. cbn [pay_callback].
  destruct (parseUrl callback) as [url|] eqn:P; [|by left].
  rewrite run_ret. unfold mbind at 1, thunk_bind at 1.
  set (u := url_string _).
  assert (Hu : filter is_payment (h ++ [fetch_call u]) = []).
  { by rewrite list.filter_app, H. }
  destruct (request_answer u b h) as [(data & R & O) | (e & R & O)]; rewrite R; [|by left].
  unfold throughZodSchema, payInvoice, rpc, t_throw, t_ret, mbind, thunk_bind, mret, thunk_ret, t_ret.
  destruct (lnurlPayResponseSchema data) as [pr|] eqn:D; [|by left].
  apply one_payment; [done|by left|]. exists url, h, pr.
  split_and!; [done|exact (eq_trans O eq_refl)|done].
Qed.

Lemma pay_sends h :
  filter is_payment h = [] -> (overLightning s = false -> h = []) ->
  sends_what_is_shown (pay parseUrl set_param url_string s federationId (inputAmount s) notes b h).1.
Proof.
  intros H N. unfold sends_what_is_shown, pay, overLightning in *.
  destruct (invoice s) as [inv|].
  { unfold payInvoice. rewrite one_rpc. apply one_payment; [done|by left|done]. }
  destruct (lnurlPayment s) as [lnurl|].
  { pose proof (lnurl_sends (to_str (get "callback" lnurl)) (satToMsat (inputAmount s)) h H) as L.
    unfold mbind, thunk_bind. by destruct (lnurlPay _ _ _ _ _ _ _ _ _) as [h' [v|e]]. }
  rewrite (N eq_refl) in *.
  destruct (bip21Payment s) as [o|]; [|destruct (btcAddress s) as [o|]];
    try (unfold payAddress; rewrite one_rpc; apply one_payment; [done|by right|done]).
  destruct (cashuMeltSummary s) as [summary|]; [|done].
  destruct (executeMelts_run b [] (of_Z 0) (quotes summary)) as (C & _).
  exists (S (length (paid_quotes b [] (quotes summary)))).
  unfold executeMelts, mbind, thunk_bind. by destruct (executeMelts_from _ _ b []) as [h' [v|e]].
Qed.

(** Sending the amount of the form. *)
Lemma sends_shown fs :
  sends_what_is_shown
    (handleOmniSend parseUrl set_param url_string federationId s fs (inputAmount s) notes b).1.1.
Proof.
  assert (nothing : forall h, filter is_payment h = [] -> (overLightning s = false -> h = []) -> sends_what_is_shown h).
  { intros h H N. unfold sends_what_is_shown, overLightning in *.
    destruct (invoice s); [by left|]. destruct (lnurlPayment s); [by left|].
    destruct (bip21Payment s); [by left|]. destruct (btcAddress s); [by left|].
    destruct (cashuMeltSummary s); [|done]. exists 0%nat. by apply N. }
  unfold handleOmniSend. destruct (decide (federationId = "")); [by apply nothing|].
  pose proof (gateway_calls federationId fs b) as G.
  destruct (overLightning s) eqn:O.
  - destruct (t_listGateways federationId fs b []) as [h [[[|g gs] fs']|e]]; cbn in G |- *;
      try (by apply nothing).
    pose proof (pay_sends h G ltac:(by rewrite O)) as X.
    by destruct (pay _ _ _ _ _ _ _ _ _).
  - pose proof (pay_sends [] eq_refl (fun _ => eq_refl)) as X.
    by destruct (pay _ _ _ _ _ _ _ _ _).
Qed.
End Sends.

Section Shown.
Context (fromBase64 : string -> list Z) (toUtf8 : list Z -> string) (toHex : list Z -> string)
  (parse : string -> result jval) (decodeText : list Z -> string) (confirm_melt : string).
Context {Url : Type} (parseUrl : string -> option Url)
  (set_param : string -> string -> Url -> Url) (url_string : Url -> string).
Local Abbreviation omni_run := (omni_run fromBase64 toUtf8 toHex parse decodeText confirm_melt).

Lemma shown_destination i s env : session i s ->
  sendTo (form confirm_melt env s) = (fun d => truncateMiddleOfString d 8) <$> destination s.
Proof.
  intros [P I M L B A N]. unfold form, useSendForm, destination. cbn [a_invoice a_lnurlPayment a_bip21Payment a_btcAddress a_cashuMeltSummary].
  rewrite L, B, A. destruct i as [d|d|d|d|d]; try rewrite I; cbn.
  - destruct (invoice s); [done|]. by rewrite M.
  - rewrite M. by destruct (truthy _ && _).
  - by destruct (truthy (get "amount" d)).
  - reflexivity.
  - by destruct (cashuMeltSummary s).
Qed.

Lemma shown_amount i s env n : session i s -> invoice s = None ->
  exactAmount (form confirm_melt env s) = Some n -> inputAmount s = n.
Proof.
  intros [P _ M L B A N] I. unfold form, useSendForm. cbn [a_invoice a_lnurlPayment a_bip21Payment a_btcAddress a_cashuMeltSummary].
  rewrite I, L, B, A. destruct i as [d|d|d|d|d]; cbn in N; try rewrite M; cbn; try done.
  - destruct (truthy (get "minSendable" d)); [|done]. cbn. destruct (bool_decide _); [|done].
    intros [= <-]. by apply N.
  - destruct (truthy (get "amount" d)); [|done]. intros [= <-]. by apply N.
  - destruct (cashuMeltSummary s) as [summary|]; [|done]. intros [= <-]. by apply N.
Qed.

Lemma shown_invoice_amount i s inv : session i s -> invoice s = Some inv ->
  truthy (get "amount" inv) = true -> inputAmount s = msatToSat (to_num (get "amount" inv)).
Proof. intros [P I M L B A N] E T. destruct i; cbn in N; try congruence. by apply N. Qed.

End Shown.

(** ** Loading ends *)

Definition works (p : Pending) : bool := match p with PPreview _ _ _ => false | _ => true end.

Inductive omni_reachable (fromBase64 : string -> list Z) (toUtf8 : list Z -> string)
    (toHex : list Z -> string) (parse : string -> result jval) (decodeText : list Z -> string)
    (confirm_melt : string) : Omni -> Prop :=
  | omni_start : omni_reachable fromBase64 toUtf8 toHex parse decodeText confirm_melt omni_initial
  | omni_next s ev :
      omni_reachable fromBase64 toUtf8 toHex parse decodeText confirm_melt s ->
      omni_reachable fromBase64 toUtf8 toHex parse decodeText confirm_melt
        (omni_step fromBase64 toUtf8 toHex parse decodeText confirm_melt s ev).

Definition busy (s : Omni) : Prop := isLoading s = true -> existsb works (pending s) = true.

Lemma busy_await p s : works p = true -> busy (await p s).
Proof. intros W _. cbn. rewrite existsb_app. cbn. rewrite W. by rewrite orb_true_r. Qed.

Lemma busy_finished s : isLoading s = false -> busy s.
Proof. intros F L. by rewrite F in L. Qed.

Lemma delete_not_works l n p : l !! n = Some p -> works p = false ->
  existsb works l = true -> existsb works (delete n l) = true.
Proof.
  intros E W H. rewrite <- (take_drop_middle l n p) in H by done. rewrite delete_take_drop.
  rewrite existsb_app in *. cbn in H. by rewrite W in H.
Qed.

(** C26: loading ends.  Once the bridge has answered whatever the handlers of the
    inputs wait for, in any order and with any errors, the form is no longer
    loading; only the fees of an address may still be asked for. *)
Theorem loading_ends fromBase64 toUtf8 toHex parse decodeText confirm_melt s :
  omni_reachable fromBase64 toUtf8 toHex parse decodeText confirm_melt s ->
  existsb works (pending s) = false -> isLoading s = false.
Proof.
  intros R. enough (busy s) as B by (destruct (isLoading s) eqn:L; [|done]; by rewrite B).
  induction R as [|s ev R IH]; [done|].
  assert (Sync : forall s', isLoading s' = false -> busy s') by apply busy_finished.
  assert (Keep : forall s', isLoading s' = isLoading s -> pending s' = pending s -> busy s')
    by (unfold busy; intros s' -> ->; exact IH).
  destruct ev as [f i|n r|n r|env|x|env]; cbn [omni_step].
  - destruct i; cbn [handleOmniInput]; repeat case_match; try (by apply Sync); by apply busy_await.
  - destruct (pending s !! n) as [[]|] eqn:E; try done.
    + destruct r as [[]|]; cbn [answered]; try (by apply Sync). by apply busy_await.
    + destruct r as [[]|]; cbn [answered]; by apply Sync.
    + assert (K : forall fees, busy (s <| pending := delete n (pending s) |> <| feeDetails := fees |>)).
      { intros fees L. apply IH in L. cbn. by eapply delete_not_works. }
      destruct r as [[]|]; apply K.
  - destruct (pending s !! n) as [[]|] eqn:E; try done. by destruct r; apply Sync.
  - unfold getOnchainFeeDetails. repeat case_match; try (by apply Keep).
    intros L. apply IH in L. cbn. by rewrite existsb_app, L.
  - by apply Keep.
  - by apply Keep.
Qed.

(** ** Ecash *)

(** [generateEcash] of [useSendEcash]: an invite is embedded unless the caller or the
    federation says no; without metadata nothing happens. *)
Definition generateEcash (federation : option obj) (amount : num) (memo : string)
    (includeInvite : option bool) : thunk (option jval) :=
  match federation with
  | Some f =>
      match get "meta" f with
      | JObj meta =>
          let include := shouldShowInviteCode meta && default true includeInvite in
          res ← rpc "generateEcash" [get "id" f; JNum (satToMsat amount); JBool include;
                                     frontendMetadata (JStr memo)];
          mret (Some res)
      | _ => mret None
      end
  | None => mret None
  end.

(** *** Reading ecash *)

Record ParseEcash := mkParseEcash {
  ecashToken : string;
  ecash_loading : bool;
  parsedEcash : option obj;
  federationPreview : option obj;
  ecash_isError : bool
}.

Section Claiming.
(** [decodeURIComponent], which throws on a malformed escape. *)
Context (decodeURIComponent : string -> result string).

(** [parseEcashFn], with the answers of the bridge: what the token holds, and the
    preview of an invite. *)
Definition parseEcash (token : string) (parse_ecash : string -> result obj)
    (preview : string -> result obj) (s : ParseEcash) : ParseEcash :=
  match (decoded ← decodeURIComponent token; parse_ecash decoded) with
  | Throw _ => mkParseEcash token false (parsedEcash s) (federationPreview s) true
  | Ok parsed =>
      if has "federation_invite" parsed then
        match preview (to_str (get "federation_invite" parsed)) with
        | Ok p => mkParseEcash token false (Some parsed) (Some p) false
        | Throw _ => mkParseEcash token false (Some parsed) (federationPreview s) true
        end
      else mkParseEcash token false (Some parsed) (federationPreview s) false
  end.

(** [federation] and [newMembersDisabled] of [useParseEcash]. *)
Definition ecash_federation (fs : FederationState) (s : ParseEcash) : option obj :=
  let loaded := match parsedEcash s with
    | Some parsed =>
        if bool_decide (get "federation_type" parsed = JStr "joined")
        then selectLoadedFederation fs (to_str (get "federation_id" parsed)) else None
    | None => None
    end in
  match loaded with Some f => Some f | None => federationPreview s end.

Definition newMembersDisabled (fs : FederationState) (s : ParseEcash) : bool :=
  match parsedEcash s, ecash_federation fs s with
  | Some parsed, Some f =>
      bool_decide (get "federation_type" parsed = JStr "notJoined") &&
      match get "meta" f with JObj meta => negb (shouldShowJoinFederation meta) | _ => false end
  | _, _ => false
  end.

(** *** Claiming ecash *)

Record ClaimEcash := mkClaim { claim_loading : bool; claimed : bool; claim_error : option string }.

(** What [claimEcash] asks for, in order; [joinFederation] and [receiveEcash] are
    the thunks. *)
Inductive claim_action : Type :=
  | JoinFederation (code : string)
  | RefreshFederations
  | ReceiveEcash (federationId ecash : string).

Definition claimEcash (parsed : obj) (token : string) (join : string -> result obj)
    (receive : string -> string -> result receive_result) (s : ClaimEcash)
    : list claim_action * ClaimEcash :=
  let invite := to_str (get "federation_invite" parsed) in
  let '(joining, joined) :=
    if has "federation_invite" parsed then
      match join invite with
      | Ok f => ([JoinFederation invite; RefreshFederations], Ok (Some f))
      | Throw e => ([JoinFederation invite], Throw e)
      end
    else ([], Ok None) in
  let '(receiving, outcome) :=
    match joined with
    | Throw e => ([], Throw e)
    | Ok joined =>
        let federationId :=
          if has "federation_id" parsed then get "federation_id" parsed
          else match joined with Some f => get "id" f | None => JUndef end in
        if negb (truthy federationId) then ([], Throw "No federation ID found for this ecash")
        else
          match decodeURIComponent token with
          | Throw e => ([], Throw e)
          | Ok ecash =>
              ([ReceiveEcash (to_str federationId) ecash],
               match receive (to_str federationId) ecash with
               | Ok (Failed _ e) => Throw (to_str (nullish e (JStr "ReceiveEcash transaction failed")))
               | Ok _ => Ok tt
               | Throw e => Throw e
               end)
          end
    end in
  (joining ++ receiving,
   match outcome with
   | Ok _ => mkClaim false true None
   | Throw e => mkClaim false (claimed s) (Some e)
   end).

(** The federation that receives the ecash of a token. *)
Definition claim_federation (parsed : obj) (join : string -> result obj) : result jval :=
  if has "federation_invite" parsed then
    f ← join (to_str (get "federation_invite" parsed));
    Ok (if has "federation_id" parsed then get "federation_id" parsed else get "id" f)
  else Ok (get "federation_id" parsed).

Definition not_failed (r : result receive_result) : bool :=
  match r with Ok (Failed _ _) | Throw _ => false | Ok _ => true end.

(** ecash is claimed exactly when it was received.  A first claim is made when the
    token names a federation, or comes with an invite that could be joined, and the
    receive of the decoded token there did not fail; otherwise an error is kept.  The
    federation is joined only with an invite and before the receive, and loading
    ends whatever happens. *)
Theorem claimed_when_received parsed token join receive s :
  claimed s = false ->
  let '(actions, s') := claimEcash parsed token join receive s in
  let invite := to_str (get "federation_invite" parsed) in
  let joins := if has "federation_invite" parsed then
                 JoinFederation invite :: (if is_ok (join invite) then [RefreshFederations] else [])
               else [] in
  claim_loading s' = false /\ claimed s' = bool_decide (claim_error s' = None) /\
  match claim_federation parsed join, decodeURIComponent token with
  | Ok id, Ok ecash =>
      if truthy id
      then actions = joins ++ [ReceiveEcash (to_str id) ecash] /\
           claimed s' = not_failed (receive (to_str id) ecash)
      else actions = joins /\ claimed s' = false
  | _, _ => actions = joins /\ claimed s' = false
  end.
Proof.
  intros C. unfold claimEcash, claim_federation.
  destruct (has "federation_invite" parsed);
    [destruct (join (to_str (get "federation_invite" parsed))) as [f|e]|];
    cbn -[truthy get has to_str].
  - destruct (truthy _), (decodeURIComponent token) as [ecash|e]; cbn -[truthy get has to_str];
      rewrite ?C; try (by split_and!).
    destruct (receive _ ecash) as [[]|]; cbn -[truthy get has to_str]; rewrite ?C; by split_and!.
  - rewrite C. by split_and!.
  - replace (if has "federation_id" parsed then get "federation_id" parsed else JUndef)
      with (get "federation_id" parsed)
      by (unfold has, get; by destruct (lookup_prop "federation_id" parsed)).
    destruct (truthy _), (decodeURIComponent token) as [ecash|e]; cbn -[truthy get has to_str];
      rewrite ?C; try (by split_and!).
    destruct (receive _ ecash) as [[]|]; cbn -[truthy get has to_str]; rewrite ?C; by split_and!.
Qed.
End Claiming.

Definition demo_claim (join : string -> result obj) : list claim_action * ClaimEcash :=
  claimEcash Ok [("federation_type", JStr "notJoined"); ("federation_invite", JStr "fed1")] "cash"
    join (fun _ _ => Ok (Received (of_Z 5))) (mkClaim false false None).

Lemma claimed_when_received_witness :
  (demo_claim (fun _ => Ok [("id", JStr "f")])).1 =
    [JoinFederation "fed1"; RefreshFederations; ReceiveEcash "f" "cash"] /\
  (demo_claim (fun _ => Throw "offline")).1 = [JoinFederation "fed1"].
Proof.
  split.
  - pose proof (claimed_when_received Ok [("federation_type", JStr "notJoined"); ("federation_invite", JStr "fed1")]
      "cash" (fun _ => Ok [("id", JStr "f")]) (fun _ _ => Ok (Received (of_Z 5)))
      (mkClaim false false None) eq_refl) as (_ & _ & A & _). exact A.
  - reflexivity.
Defined.

(** ** Concrete payments *)

Section Demo.
Local Abbreviation no_bytes := (fun _ : string => @nil Z).
Local Abbreviation no_text := (fun _ : list Z => "").
Local Abbreviation no_json := (fun _ : string => Throw "SyntaxError" : result jval).
Local Abbreviation demo_run := (omni_run no_bytes no_text no_text no_json no_text "melt").

Definition demo_env : Env := mkEnv "f" (of_Z 90000000) no_estimates.
Definition bip21_demo : obj :=
  [("address", JStr "bc1qexampleaddressexample"); ("amount", JNum (of_frac 5 10000))].
Definition preview_fees : jval :=
  JObj [("federationFee", JNum (of_Z 0)); ("networkFee", JNum (of_Z 200000));
        ("fediAppFee", JNum (of_Z 0)); ("fediGuardianFee", JNum (of_Z 0))].

Definition bip21_paying : Omni :=
  demo_run omni_initial [Enter "f" (InBip21 bip21_demo); PreviewFees demo_env; Answered 0 (Ok preview_fees)].


Definition fee_waiting : Omni :=
  demo_run omni_initial [Enter "f" (InBolt11 [("invoice", JStr "lnbc1")]);
    Answered 0 (Ok (JObj [("invoice", JStr "lnbc1")])); Answered 0 (Throw "offline")].

Lemma loading_ends_witness : isLoading fee_waiting = false /\ error fee_waiting = Some "offline".
Proof.
  split; [|reflexivity].
  apply (loading_ends no_bytes no_text no_text no_json no_text "melt" fee_waiting); [|reflexivity].
  repeat (apply omni_next). apply omni_start.
Defined.

(** Inputs are not undone by the next one.  After an LNURL and an address the form
    shows the address, and the LNURL is paid. *)
Definition lnurl_demo : obj :=
  [("callback", JStr "https://pay.me/cb"); ("minSendable", JNum (of_Z 1000)); ("maxSendable", JNum (of_Z 9000))].
Definition both_entered : Omni :=
  demo_run omni_initial [Enter "f" (InLnurlPay lnurl_demo);
    Enter "f" (InBitcoinAddress [("address", JStr "bc1q")])].

Example shown_is_not_paid :
  sendTo (form "melt" demo_env both_entered) = Some "bc1q" /\
  (run (pay demo_parse demo_set demo_string both_entered "f" (of_Z 5) None) greedy_service).1 =
    [fetch_call "https://pay.me/cb&amount=5000"; pay_call "lnbc100u1" "f" None].
Proof. split; vm_compute; reflexivity. Qed.

(** A reset does not stop what is awaited: an answer about the first invoice that is
    slower than the one about the second replaces it, and the first is paid. *)
Definition decoded (raw : string) (msats : Z) : jval :=
  JObj [("invoice", JStr raw); ("amount", JNum (of_Z msats))].
Definition late_answer : Omni :=
  demo_run omni_initial [Enter "f" (InBolt11 [("invoice", JStr "lnbc1")]); ResetPayment demo_env;
    Enter "f" (InBolt11 [("invoice", JStr "lnbc2")]);
    Answered 1 (Ok (decoded "lnbc2" 5000)); Answered 0 (Ok (decoded "lnbc1" 9000000))].

Example late_answer_is_paid :
  destination late_answer = Some "lnbc1" /\ inputAmount late_answer = of_Z 9000 /\
  (run (pay demo_parse demo_set demo_string late_answer "f" (of_Z 9000) None) greedy_service).1 =
    [pay_call "lnbc1" "f" None].
Proof. split_and!; vm_compute; reflexivity. Qed.
End Demo.
