(* ===== verification/FiHooks.v ===== *)
(** The hooks of the wallet service: [ui/common/hooks/fi.ts].

    A wallet service is attached to a Lightning provider by requests of the bridge.
    Any number of screens may ask for one, while the monitor of the app reads what is
    there and polls what runs.  Their functions wait for the bridge, so that they
    interleave with each other, with the renders of screens and with the reports of
    the formation: a function is a program that waits for an answer, the app a state
    with the programs that are under way, and an event resumes one of them. *)
From Stdlib Require Import ZArith Lia.
From stdpp Require Import base tactics strings list option functions.
From S2P Require Import Prelude JsNum Js JsStr Meta Fi.
Local Open Scope string_scope.
Local Open Scope list_scope.

(** ** Calls of the bridge and programs *)

(** A provider, as far as it is looked at; its sources are targets of an item. *)
Record RpcFiLiquidityProvider := mkProvider {
  providerPubkey : string;
  supportedSources : list RpcFiLiquidityItemTarget;
  supportedNetworks : list string
}.

Record RpcFiLiquidityOperationPage := mkPage {
  operations : list RpcFiLiquidityOperation;
  nextAfter : option string
}.

(** The amounts and approvals that go with a discovery and a start are constants. *)
Inductive fi_call : Type :=
  | LiquidityCurrent
  | LiquidityList (after : option string)
  | LiquidityStatus (operationId : string)
  | LiquidityDiscover (network : string)
  | LiquidityStart (formationId providerPubkey : string).

#[export] Instance fi_call_eq_dec : EqDecision fi_call.
Proof. solve_decision. Defined.
#[export] Instance RpcFiLiquidityItemTarget_eq_dec : EqDecision RpcFiLiquidityItemTarget.
Proof. solve_decision. Defined.

Definition answer_of (c : fi_call) : Type :=
  match c with
  | LiquidityCurrent => rpc_result (option RpcFiLiquidityOperation)
  | LiquidityList _ => rpc_result RpcFiLiquidityOperationPage
  | LiquidityStatus _ | LiquidityStart _ _ => rpc_result RpcFiLiquidityOperation
  | LiquidityDiscover _ => rpc_result (list RpcFiLiquidityProvider)
  end.

(** An answer to whatever is called; none when the call itself fails. *)
Definition answering : Type := forall c, option (answer_of c).

(** What a function shares with others of the same hook: the ref of a screen that an
    attach is under way, whether an effect was cleaned up, the failures it counts. *)
Record Locals := mkLocals {
  isStarting : bool;
  cancelled : bool;
  consecutiveErrors : nat
}.
#[export] Instance Locals_eta : Eta Locals := fun l =>
  mkLocals (isStarting l) (cancelled l) (consecutiveErrors l).

Definition new_locals : Locals := mkLocals false false 0.

(** The rest of an async function; [Diverge] is a loop whose fuel ran out. *)
Inductive prog (A : Type) : Type :=
  | Ret (a : A)
  | Raise
  | Diverge
  | Emit (a : fi_action) (k : prog A)
  | Await (c : fi_call) (k : option (answer_of c) -> prog A)
  | Read (k : Locals -> prog A)
  | Modify (f : Locals -> Locals) (k : prog A).
Arguments Ret {A} _.
Arguments Raise {A}.
Arguments Diverge {A}.
Arguments Emit {A} _ _.
Arguments Await {A} _ _.
Arguments Read {A} _.
Arguments Modify {A} _ _.

#[export] Instance prog_ret : MRet prog := @Ret.
#[export] Instance prog_bind : MBind prog := fun A B f =>
  fix bind (m : prog A) : prog B :=
    match m with
    | Ret a => f a
    | Raise => Raise
    | Diverge => Diverge
    | Emit a k => Emit a (bind k)
    | Await c k => Await c (fun r => bind (k r))
    | Read k => Read (fun l => bind (k l))
    | Modify g k => Modify g (bind k)
    end.

(** [m.catch(handler)] *)
Fixpoint p_catch {A} (m handler : prog A) : prog A :=
  match m with
  | Ret a => Ret a
  | Raise => handler
  | Diverge => Diverge
  | Emit a k => Emit a (p_catch k handler)
  | Await c k => Await c (fun r => p_catch (k r) handler)
  | Read k => Read (fun l => p_catch (k l) handler)
  | Modify g k => Modify g (p_catch k handler)
  end.

(** [m.finally(after)] *)
Fixpoint p_finally {A} (m : prog A) (after : prog unit) : prog A :=
  match m with
  | Ret a => _ ← after; Ret a
  | Raise => _ ← after; Raise
  | Diverge => Diverge
  | Emit a k => Emit a (p_finally k after)
  | Await c k => Await c (fun r => p_finally (k r) after)
  | Read k => Read (fun l => p_finally (k l) after)
  | Modify g k => Modify g (p_finally k after)
  end.

Definition call (c : fi_call) : prog (answer_of c) :=
  Await c (fun r => match r with Some v => Ret v | None => Raise end).
Definition dispatch (a : fi_action) : prog unit := Emit a (Ret tt).
Definition is_cancelled : prog bool := Read (fun l => Ret (cancelled l)).

(** [!s] for an id that may be null. *)
Definition present (s : option string) : option string :=
  match s with Some s => if decide (s = "") then None else Some s | None => None end.

(** ** The durable read *)

Section Walk.
Context (formationId : string).

Definition is_match (op : RpcFiLiquidityOperation) : Prop :=
  op_formationId op = formationId /\ gatewayViewVerified op = true.
#[export] Instance is_match_dec op : Decision (is_match op).
Proof. unfold is_match. apply _. Defined.

Definition find_match (l : list RpcFiLiquidityOperation) : option RpcFiLiquidityOperation :=
  head (filter is_match l).

(** The [for (;;)] of [readDurableLiquidity]; every turn reads a page. *)
Fixpoint walk (fuel : nat) (after : option string) (seenCursors : list string)
    : prog (option RpcFiLiquidityOperation) :=
  match fuel with
  | O => Diverge
  | S fuel =>
      page ← call (LiquidityList after);
      stop ← is_cancelled;
      if stop : bool then mret None else
      match page with
      | inl _ => mret None
      | inr p =>
          match find_match (operations p) with
          | Some op => mret (Some op)
          | None =>
              match present (nextAfter p) with
              | None => mret None
              | Some after =>
                  if decide (after ∈ seenCursors) then mret None
                  else walk fuel (Some after) (after :: seenCursors)
              end
          end
      end
  end.

(** What [current] reports is trusted when it agrees on the formation. *)
Definition trusted (r : rpc_result (option RpcFiLiquidityOperation)) : option RpcFiLiquidityOperation :=
  match r with
  | inr (Some op) => if decide (op_formationId op = formationId) then Some op else None
  | _ => None
  end.

Definition readDurableLiquidity (fuel : nat) : prog (option RpcFiLiquidityOperation) :=
  current ← call LiquidityCurrent;
  stop ← is_cancelled;
  if stop : bool then mret None else
  match trusted current with
  | Some op => mret (Some op)
  | None => walk fuel None []
  end.

(** The effect of [useMonitorWalletServiceLiquidity] that reads once per formation. *)
Definition durable_read (fuel : nat) : prog unit :=
  p_catch
    (found ← readDurableLiquidity fuel;
     stop ← is_cancelled;
     if stop : bool then mret tt
     else dispatch (match found with Some op => SetFiLiquidityOperation op | None => RecordFiLiquidityAbsent end))
    (stop ← is_cancelled;
     if stop : bool then mret tt else dispatch RecordFiLiquidityAbsent).
End Walk.

(** ** The poll *)

Definition LIQUIDITY_POLL_MAX_CONSECUTIVE_ERRORS : nat := 12.

Definition onReadFailed (code : RpcFiErrorCode) : prog unit :=
  Modify (fun l => l <| consecutiveErrors := S (consecutiveErrors l) |>)
    (Read (fun l =>
       if (consecutiveErrors l <? LIQUIDITY_POLL_MAX_CONSECUTIVE_ERRORS)%nat then mret tt
       else dispatch (SetFiLiquidityError code))).

Definition read (operationId : string) : prog unit :=
  p_catch
    (result ← call (LiquidityStatus operationId);
     stop ← is_cancelled;
     if stop : bool then mret tt else
     match result with
     | inl e => onReadFailed (error_code e)
     | inr op => Modify (fun l => l <| consecutiveErrors := 0 |>) (dispatch (SetFiLiquidityOperation op))
     end)
    (stop ← is_cancelled; if stop : bool then mret tt else onReadFailed liquidity).

(** ** The attach *)

Definition toLiquidityNetwork (network : option string) : option string :=
  match network with
  | Some n => if decide (n ∈ ["bitcoin"; "testnet"; "signet"; "regtest"]) then Some n else None
  | None => None
  end.

(** A provider that can serve the request on a network. *)
Definition serves (network : string) (p : RpcFiLiquidityProvider) : Prop :=
  gateway ∈ supportedSources p /\ network ∈ supportedNetworks p.
#[export] Instance serves_dec network p : Decision (serves network p).
Proof. unfold serves. apply _. Defined.

Definition attach (formationId network : string) : prog unit :=
  current ← call LiquidityCurrent;
  match current with
  | inr (Some op) => dispatch (SetFiLiquidityOperation op)
  | _ =>
      discovery ← call (LiquidityDiscover network);
      match discovery with
      | inl e => dispatch (SetFiLiquidityError (error_code e))
      | inr providers =>
          match head (filter (serves network) providers) with
          | None => dispatch (SetFiLiquidityError liquidity)
          | Some provider =>
              started ← call (LiquidityStart formationId (providerPubkey provider));
              match started with
              | inr op => dispatch (SetFiLiquidityOperation op)
              | inl e =>
                  recovered ← call LiquidityCurrent;
                  match recovered with
                  | inr (Some op) => dispatch (SetFiLiquidityOperation op)
                  | _ => dispatch (SetFiLiquidityError (error_code e))
                  end
              end
          end
      end
  end.

(** [attach().catch(...).finally(...)] *)
Definition run_attach (formationId network : string) : prog unit :=
  p_finally (p_catch (attach formationId network) (dispatch (SetFiLiquidityError liquidity)))
    (Modify (fun l => l <| isStarting := false |>) (dispatch (SetFiLiquidityRequesting false))).

(** Codes that a second attempt cannot move. *)
Definition TERMINAL_LIQUIDITY_ERROR_CODES : list RpcFiErrorCode :=
  [capabilityUnavailable; identity; invalidFleetManagers; invalidIntent; invalidOptions; noActiveFormation].

Definition isRetryable (s : FiState) : bool :=
  match selectWalletServiceLightningStatus s with
  | l_failed =>
      match errorCode (fi_liquidity s) with
      | Some code => negb (bool_decide (code ∈ TERMINAL_LIQUIDITY_ERROR_CODES))
      | None => true
      end
  | _ => false
  end.

(** ** The app *)

(** What a screen was rendered with. *)
Record View := mkView {
  view_formation : option RpcFiFormationSnapshot;
  view_network : option string;
  view_isRequesting : bool
}.

Definition isFormedAndFresh (v : View) : bool :=
  match view_formation v with
  | Some f => is_formed f && bool_decide (freshness f = fresh)
  | None => false
  end.

Definition view_formationId (v : View) : option string := present (formationId <$> view_formation v).

Definition canAttach (v : View) : bool :=
  isFormedAndFresh v && bool_decide (is_Some (view_formationId v)) &&
  bool_decide (is_Some (toLiquidityNetwork (view_network v))).

(** A screen that may ask for an attach, or a run of an effect of the monitor. *)
Inductive owner : Type := Host (h : nat) | Effect (n : nat).
#[export] Instance owner_eq_dec : EqDecision owner.
Proof. solve_decision. Defined.

Record App := mkApp {
  store : FiState;
  net : option string;
  views : nat -> View;
  locals : owner -> Locals;
  jobs : list (owner * prog unit);
  calls : list (owner * fi_call);
  lastFormationId : option string;
  deps : option (option string * (option string * bool));
  reader : option nat;
  poller : option (nat * string);
  effect_runs : nat
}.
#[export] Instance App_eta : Eta App := fun a =>
  mkApp (store a) (net a) (views a) (locals a) (jobs a) (calls a) (lastFormationId a) (deps a)
    (reader a) (poller a) (effect_runs a).

Definition app_initial : App :=
  mkApp fi_initialState None (fun _ => mkView None None false) (fun _ => new_locals) [] []
    None None None None 0.

Definition reduce (action : fi_action) (a : App) : App :=
  a <| store := fi_reduce (store a) action |>.
Definition set_locals (o : owner) (f : Locals -> Locals) (a : App) : App :=
  a <| locals := <[o := f (locals a o)]> (locals a) |>.

(** The function runs until it waits or ends. *)
Fixpoint exec (o : owner) (p : prog unit) (a : App) : App * prog unit :=
  match p with
  | Emit action k => exec o k (reduce action a)
  | Read k => exec o (k (locals a o)) a
  | Modify f k => exec o k (set_locals o f a)
  | Await c k => (a <| calls := calls a ++ [(o, c)] |>, p)
  | _ => (a, p)
  end.

Definition spawn (o : owner) (p : prog unit) (a : App) : App :=
  let '(a, p) := exec o p a in a <| jobs := jobs a ++ [(o, p)] |>.

Definition resume (i : nat) (b : answering) (a : App) : App :=
  match jobs a !! i with
  | Some (o, Await c k) =>
      let '(a, p) := exec o (k (b c)) a in a <| jobs := <[i := (o, p)]> (jobs a) |>
  | _ => a
  end.

(** [start], as the screen was rendered. *)
Definition start (h : nat) (a : App) : App :=
  let v := views a h in
  if isStarting (locals a (Host h)) || view_isRequesting v then a
  else match view_formationId v, toLiquidityNetwork (view_network v), isFormedAndFresh v with
  | Some f, Some n, true =>
      spawn (Host h) (run_attach f n)
        (reduce ClearFiLiquidityError
           (reduce (SetFiLiquidityRequesting true)
              (set_locals (Host h) (fun l => l <| isStarting := true |>) a)))
  | _, _, _ => reduce (SetFiLiquidityError noActiveFormation) a
  end.

(** *** The effects of the monitor *)

Definition cancel (n : nat) (a : App) : App :=
  set_locals (Effect n) (fun l => l <| cancelled := true |>) a.

Definition cleanup_reader (a : App) : App :=
  match reader a with Some n => cancel n (a <| reader := None |>) | None => a end.
Definition cleanup_poller (a : App) : App :=
  match poller a with Some (n, _) => cancel n (a <| poller := None |>) | None => a end.

(** The first effect: another formation forgets the attach of the one before. *)
Definition forget_formation (fid : option string) (a : App) : App :=
  if decide (lastFormationId a = fid) then a
  else (match lastFormationId a with Some _ => reduce ClearFiLiquidity a | None => a end)
       <| lastFormationId := fid |>.

Section App.
Context (fuel : nat).

(** The second: the durable read, with its own flag. *)
Definition start_reader (fid : option string) (a : App) : App :=
  match present fid with
  | Some f =>
      let n := effect_runs a in
      spawn (Effect n) (durable_read f fuel) (a <| effect_runs := S n |> <| reader := Some n |>)
  | None => a
  end.

(** The third: the poll of the operation that runs, with its own count. *)
Definition start_poller (op : option string * bool) (a : App) : App :=
  match present op.1, op.2 with
  | Some id, true =>
      let n := effect_runs a in
      spawn (Effect n) (read id) (a <| effect_runs := S n |> <| poller := Some (n, id) |>)
  | _, _ => a
  end.

Definition when (c : bool) (f : App -> App) (a : App) : App := if c then f a else a.

(** A render of the monitor and its effects: the clean-ups of those whose
    dependencies changed, then their bodies. *)
Definition flush (a : App) : App :=
  let fid := formationId <$> selectFiFormation (store a) in
  let op := (operationId <$> operation (fi_liquidity (store a)),
             selectIsWalletServiceLightningRunning (store a)) in
  let other_formation := negb (bool_decide (fst <$> deps a = Some fid)) in
  let other_operation := negb (bool_decide (snd <$> deps a = Some op)) in
  let a := when other_formation cleanup_reader a in
  let a := when other_operation cleanup_poller a in
  let a := when other_formation (forget_formation fid) a in
  let a := when other_formation (start_reader fid) a in
  let a := when other_operation (start_poller op) a in
  a <| deps := Some (fid, op) |>.

(** The timer of the poll. *)
Definition tick (a : App) : App :=
  match poller a with Some (n, id) => spawn (Effect n) (read id) a | None => a end.

(** The actions that only these hooks dispatch. *)
Definition liquidity_action (action : fi_action) : bool :=
  match action with
  | SetFiLiquidityOperation _ | RecordFiLiquidityAbsent | SetFiLiquidityRequesting _
  | ClearFiLiquidity | SetFiLiquidityError _ | ClearFiLiquidityError => true
  | _ => false
  end.

Inductive app_event : Type :=
  | Elsewhere (action : fi_action)
  | NetworkIs (network : option string)
  | RenderHost (h : nat)
  | Press (h : nat)
  | Flush
  | Tick
  | Answer (i : nat) (b : answering).

Definition app_step (a : App) (e : app_event) : App :=
  match e with
  | Elsewhere action => if liquidity_action action then a else reduce action a
  | NetworkIs n => a <| net := n |>
  | RenderHost h =>
      a <| views := <[h := mkView (selectFiFormation (store a)) (net a)
                             (isRequesting (fi_liquidity (store a)))]> (views a) |>
  | Press h => start h a
  | Flush => flush a
  | Tick => tick a
  | Answer i b => resume i b a
  end.

Definition app_run (a : App) (l : list app_event) : App := foldl app_step a l.
End App.

(** ** A program on its own *)

Inductive outcome (A : Type) : Type := Returned (a : A) | Raised | Diverged.
Arguments Returned {A} _.
Arguments Raised {A}.
Arguments Diverged {A}.

(** The calls of a program whose locals nobody else changes, what it dispatches, its
    locals and how it ends.  An answer may depend on the calls made before. *)
Fixpoint alone {A} (p : prog A) (b : list fi_call -> answering) (l : Locals) (h : list fi_call)
    (acts : list fi_action) : list fi_call * list fi_action * Locals * outcome A :=
  match p with
  | Ret a => (h, acts, l, Returned a)
  | Raise => (h, acts, l, Raised)
  | Diverge => (h, acts, l, Diverged)
  | Emit a k => alone k b l h (acts ++ [a])
  | Await c k => alone (k (b h c)) b l (h ++ [c]) acts
  | Read k => alone (k l) b l h acts
  | Modify f k => alone k b (f l) h acts
  end.

Lemma alone_bind {A B} (m : prog A) (f : A -> prog B) b l h acts :
  alone (m ≫= f) b l h acts =
  match alone m b l h acts with
  | (h, acts, l, Returned a) => alone (f a) b l h acts
  | (h, acts, l, Raised) => (h, acts, l, Raised)
  | (h, acts, l, Diverged) => (h, acts, l, Diverged)
  end.
Proof. revert l h acts. induction m; intros; cbn; auto. Qed.

Lemma alone_catch {A} (m handler : prog A) b l h acts :
  alone (p_catch m handler) b l h acts =
  match alone m b l h acts with
  | (h, acts, l, Raised) => alone handler b l h acts
  | r => r
  end.
Proof. revert l h acts. induction m; intros; cbn; auto. Qed.

Section Attach.
Context (b : list fi_call -> answering).

(** The operation an answer reports. *)
Definition reports (c : fi_call) : option (answer_of c) -> option RpcFiLiquidityOperation :=
  match c with
  | LiquidityCurrent => fun r => match r with Some (inr op) => op | _ => None end
  | LiquidityStatus _ | LiquidityStart _ _ => fun r => match r with Some (inr op) => Some op | _ => None end
  | _ => fun _ => None
  end.

Definition providers_of (r : option (rpc_result (list RpcFiLiquidityProvider)))
    : list RpcFiLiquidityProvider :=
  match r with Some (inr l) => l | _ => [] end.

(** What is recorded of the last answer. *)
Definition records (op : option RpcFiLiquidityOperation) (action : fi_action) : Prop :=
  match op with
  | Some op => action = SetFiLiquidityOperation op
  | None => exists code, action = SetFiLiquidityError code
  end.

Definition is_start (c : fi_call) : bool := match c with LiquidityStart _ _ => true | _ => false end.

(** What a start needs: the bridge answered without an operation (an error is such an
    answer), and the provider is the first one found that serves the network. *)
Definition start_allowed (f n : string) (c : fi_call) : Prop :=
  (b [] LiquidityCurrent = Some (inr None) \/ exists e, b [] LiquidityCurrent = Some (inl e)) /\
  exists providers p,
    b [LiquidityCurrent] (LiquidityDiscover n) = Some (inr providers) /\
    head (filter (serves n) providers) = Some p /\ c = LiquidityStart f (providerPubkey p).

Ltac ends_with h c :=
  eexists h, c, _; split; [reflexivity|]; cbn;
  repeat match goal with E : b _ _ = _ |- _ => rewrite E; clear E end; cbn;
  split_and!; [by eauto | lia |]; (left; reflexivity) || (right; eexists; split; [reflexivity|]; eauto 10).

(** C21: an attach asks for an operation at most once, for the formation of the screen and
    at the first provider found that serves its network, and never when the bridge
    reported an operation.  Whatever the bridge answers, it ends after four calls at
    most and records what the last answer says: the operation, or an error. *)
Theorem attach_records f n l :
  exists h c action,
    alone (run_attach f n) b l [] [] =
      (h ++ [c], [action; SetFiLiquidityRequesting false], l <| isStarting := false |>, Returned tt) /\
    records (reports c (b h c)) action /\ (length h <= 3)%nat /\
    (filter is_start (h ++ [c]) = [] \/
     exists started, filter is_start (h ++ [c]) = [started] /\ start_allowed f n started).
Proof.
  unfold run_attach, attach, call, dispatch, start_allowed. cbn.
  destruct (b [] LiquidityCurrent) as [[e|[op|]]|] eqn:C; cbn.
  2: by ends_with (@nil fi_call) LiquidityCurrent.
  3: by ends_with (@nil fi_call) LiquidityCurrent.
  all: set (h1 := [LiquidityCurrent]);
    destruct (b h1 (LiquidityDiscover n)) as [[e1|providers]|] eqn:D; cbn;
    [by ends_with h1 (LiquidityDiscover n) | | by ends_with h1 (LiquidityDiscover n)];
    destruct (head (filter (serves n) providers)) as [p|] eqn:P; cbn;
    [|by ends_with h1 (LiquidityDiscover n)];
    set (h2 := [LiquidityCurrent; LiquidityDiscover n]);
    destruct (b h2 (LiquidityStart f (providerPubkey p))) as [[e2|op]|] eqn:S; cbn;
    [| by ends_with h2 (LiquidityStart f (providerPubkey p))..];
    set (h3 := [LiquidityCurrent; LiquidityDiscover n; LiquidityStart f (providerPubkey p)]);
    destruct (b h3 LiquidityCurrent) as [[e3|[op|]]|] eqn:R; cbn;
    by ends_with h3 LiquidityCurrent.
Qed.
End Attach.

(** *** The durable read *)

Section DurableRead.
Context (b : list fi_call -> answering) (f : string) (l : Locals).

(** A turn of the walk. *)
Lemma walk_turn fuel after seen h acts :
  cancelled l = false ->
  let c := LiquidityList after in
  alone (walk f (S fuel) after seen) b l h acts =
  match b h c with
  | None => (h ++ [c], acts, l, Raised)
  | Some (inl _) => (h ++ [c], acts, l, Returned None)
  | Some (inr p) =>
      match find_match f (operations p), present (nextAfter p) with
      | Some op, _ => (h ++ [c], acts, l, Returned (Some op))
      | None, None => (h ++ [c], acts, l, Returned None)
      | None, Some next =>
          if decide (next ∈ seen) then (h ++ [c], acts, l, Returned None)
          else alone (walk f fuel (Some next) (next :: seen)) b l (h ++ [c]) acts
      end
  end.
Proof.
  intros C. cbn. destruct (b h _) as [[e|p]|]; cbn; [by rewrite C| |done]. rewrite C.
  destruct (find_match f _) as [op|]; [done|].
  destruct (present (nextAfter p)); [|done]. by destruct (decide _).
Qed.

(** The cursors the bridge may answer with. *)
Context (cursors : list string).
Hypothesis finitely_many : forall h after p next,
  b h (LiquidityList after) = Some (inr p) -> present (nextAfter p) = Some next -> next ∈ cursors.

Lemma walk_ends fuel after seen h acts :
  cancelled l = false -> NoDup seen -> seen ⊆ cursors ->
  (length cursors < fuel + length seen)%nat ->
  exists h' r, alone (walk f fuel after seen) b l h acts = (h', acts, l, r) /\ r <> Diverged /\
    (length h' + length seen <= length h + 1 + length cursors)%nat.
Proof.
  intros C. revert after seen h. induction fuel as [|fuel IH]; intros after seen h N I F.
  { pose proof (submseteq_length _ _ (NoDup_submseteq _ _ N I)). lia. }
  pose proof (submseteq_length _ _ (NoDup_submseteq _ _ N I)).
  rewrite walk_turn by done. pose proof (finitely_many h after) as M.
  destruct (b h _) as [[e|p]|]; try (eexists _, _; split; [done|]; rewrite length_app; cbn; split; [done|lia]).
  destruct (find_match f (operations p)), (present (nextAfter p)) as [next|] eqn:X; try case_decide as D;
    try (eexists _, _; split; [done|]; rewrite length_app; cbn; split; [done|lia]).
  specialize (M p next eq_refl X).
  destruct (IH (Some next) (next :: seen) (h ++ [LiquidityList after])) as (h' & r & E & R & L).
  - by constructor.
  - intros x [->|]%elem_of_cons; auto.
  - cbn. lia.
  - exists h', r. split_and!; [done..|]. rewrite length_app in L. cbn in L. lia.
Qed.

Lemma readDurableLiquidity_ends fuel acts :
  cancelled l = false -> (length cursors < fuel)%nat ->
  exists h r, alone (readDurableLiquidity f fuel) b l [] acts = (h, acts, l, r) /\ r <> Diverged /\
    (length h <= length cursors + 2)%nat.
Proof.
  intros C F. unfold readDurableLiquidity. cbn.
  destruct (b [] LiquidityCurrent) as [r|]; [|eexists _, _; split; [done|]; cbn; split; [done|lia]].
  cbn. rewrite C. destruct (trusted f r); [eexists _, _; split; [done|]; cbn; split; [done|lia]|].
  destruct (walk_ends fuel None [] [LiquidityCurrent] acts C) as (h & o & E & R & L).
  - constructor.
  - by intros x ?%elem_of_nil.
  - cbn. lia.
  - exists h, o. cbn in L. split_and!; [done..|lia].
Qed.

(** C24: the durable read ends.  When the cursors the bridge answers with are among
    finitely many, whatever else it answers and however often they repeat, the walk
    reads at most one page more than there are cursors, and one action says what was
    found. *)
Theorem durable_read_ends fuel :
  cancelled l = false -> (length cursors < fuel)%nat ->
  exists h action,
    alone (durable_read f fuel) b l [] [] = (h, [action], l, Returned tt) /\
    (length h <= length cursors + 2)%nat /\
    (action = RecordFiLiquidityAbsent \/ exists op, action = SetFiLiquidityOperation op).
Proof.
  intros C F. destruct (readDurableLiquidity_ends fuel [] C F) as (h & r & E & R & L).
  unfold durable_read. rewrite alone_catch, alone_bind, E.
  destruct r as [[op|]| |]; [| | |done]; cbn; rewrite C; eauto 8.
Qed.
End DurableRead.

(** The pages of a list that is walked from a cursor. *)
Fixpoint pages (list_answer : option string -> option (rpc_result RpcFiLiquidityOperationPage))
    (after : option string) (ps : list (list RpcFiLiquidityOperation)) : Prop :=
  match ps with
  | [] => False
  | ops :: ps =>
      exists next, list_answer after = Some (inr (mkPage ops next)) /\
        match ps with
        | [] => present next = None
        | _ => is_Some (present next) /\ pages list_answer (present next) ps
        end
  end.

(** A finite list has one length from each cursor. *)
Lemma pages_length g after ps qs : pages g after ps -> pages g after qs -> length ps = length qs.
Proof.
  revert after qs. induction ps as [|ops ps IH]; intros after qs; [done|].
  intros (next & E & P). destruct qs as [|ops' qs]; [done|]. intros (next' & E' & Q).
  rewrite E in E'. injection E' as <- <-. cbn. f_equal.
  destruct ps as [|o ps], qs as [|o' qs]; try done.
  - rewrite P in Q. by destruct Q as [[x [=]] _].
  - rewrite Q in P. by destruct P as [[x [=]] _].
  - apply (IH (present next)); [apply P|apply Q].
Qed.

Lemma find_match_app f l k :
  find_match f (l ++ k) = match find_match f l with Some op => Some op | None => find_match f k end.
Proof. unfold find_match. rewrite list.filter_app. by destruct (filter _ l). Qed.

Section CompleteRead.
Context (b : list fi_call -> answering) (f : string) (l : Locals)
  (list_answer : option string -> option (rpc_result RpcFiLiquidityOperationPage)).
Hypothesis durable_list : forall h after, b h (LiquidityList after) = list_answer after.
Hypothesis running : cancelled l = false.

(** A cursor that was seen is one from which the list is longer. *)
Lemma walk_finds fuel after seen ps h acts :
  pages list_answer after ps -> (length ps <= fuel)%nat ->
  (forall c, c ∈ seen -> exists qs, pages list_answer (Some c) qs /\ (length ps <= length qs)%nat) ->
  exists h', alone (walk f fuel after seen) b l h acts = (h', acts, l, Returned (find_match f (concat ps))).
Proof.
  revert after seen ps h. induction fuel as [|fuel IH]; intros after seen ps h P F S.
  { destruct ps; cbn in F; [done|lia]. }
  rewrite walk_turn by done. rewrite durable_list.
  destruct ps as [|ops ps]; [done|]. destruct P as (next & -> & P). cbn [operations nextAfter concat].
  rewrite find_match_app. destruct (find_match f ops) as [op|]; [by eexists|].
  destruct ps as [|o ps].
  { rewrite P. by eexists. }
  destruct P as [[c Ec] P]. rewrite Ec in *. rewrite decide_False.
  2: { intros H. destruct (S c H) as (qs & Q & L). rewrite (pages_length _ _ _ _ Q P) in L. cbn in L. lia. }
  apply IH; [done | cbn in *; lia |].
  intros c' [->|H]%elem_of_cons; [by eauto|].
  destruct (S c' H) as (qs & Q & L). exists qs. cbn in *. split; [done|lia].
Qed.

(** C23: the durable read finds what there is.  When the bridge lists its operations over
    any number of pages, the read reports the operation that [current] reports for the
    formation, or else the first of the whole list that is verified and of the
    formation, and finds nothing only when there is none. *)
Theorem durable_read_complete fuel ps current :
  b [] LiquidityCurrent = Some current -> pages list_answer None ps -> (length ps <= fuel)%nat ->
  let found := match trusted f current with Some op => Some op | None => find_match f (concat ps) end in
  exists h, alone (durable_read f fuel) b l [] [] =
    (h, [match found with Some op => SetFiLiquidityOperation op | None => RecordFiLiquidityAbsent end], l,
     Returned tt).
Proof.
  intros E P F. unfold durable_read. rewrite alone_catch, alone_bind.
  assert (R : exists h, alone (readDurableLiquidity f fuel) b l [] [] =
    (h, [], l, Returned (match trusted f current with Some op => Some op | None => find_match f (concat ps) end))).
  { unfold readDurableLiquidity. cbn. rewrite E. cbn. rewrite running.
    destruct (trusted f current); [by eexists|].
    apply walk_finds; [done..|]. by intros c ?%elem_of_nil. }
  destruct R as [h ->]. exists h. cbn. by rewrite running.
Qed.
End CompleteRead.

(** *** The poll *)

Section Poll.
Context (id : string).
Local Abbreviation status_result := (option (rpc_result RpcFiLiquidityOperation)).

Definition status_answer (r : status_result) : answering := fun c =>
  match c with LiquidityStatus _ => r | _ => None end.

(** What the reads of one poll dispatch, as they are answered one after the other. *)
Fixpoint polled (rs : list status_result) (l : Locals) : list (list fi_action) :=
  match rs with
  | [] => []
  | r :: rs =>
      let '(_, acts, l, _) := alone (read id) (fun _ => status_answer r) l [] [] in acts :: polled rs l
  end.

Definition failed_read (r : status_result) : Prop :=
  match r with Some (inr _) => False | _ => True end.
#[export] Instance failed_read_dec r : Decision (failed_read r).
Proof. destruct r as [[|]|]; apply _. Defined.

Definition code_of (r : status_result) : RpcFiErrorCode :=
  match r with Some (inl e) => error_code e | _ => liquidity end.

(** The last [n] answers failed. *)
Definition last_failed (n : nat) (past : list status_result) : Prop :=
  (n <= length past)%nat /\ Forall failed_read (drop (length past - n) past).

(** The failures at the end of a list. *)
Definition trailing (past : list status_result) : nat :=
  foldl (fun n r => if decide (failed_read r) then S n else O) O past.

Lemma last_failed_trailing n past : last_failed n past <-> (n <= trailing past)%nat.
Proof.
  revert n. induction past as [|r past IH] using rev_ind; intros n; unfold last_failed, trailing.
  { split; [intros [H _]; exact H | cbn; intros H; split; [lia|constructor]]. }
  rewrite foldl_app, length_app. cbn. change (foldl _ _ past) with (trailing past).
  destruct n as [|n].
  { split; [lia|]. intros _. split; [lia|].
    rewrite drop_ge by (rewrite length_app; cbn; lia). constructor. }
  replace (length past + 1 - S n)%nat with (length past - n)%nat by lia.
  rewrite drop_app_le by lia. rewrite list.Forall_app, list.Forall_singleton.
  specialize (IH n). unfold last_failed in IH. case_decide as D; [|split; [tauto|lia]].
  split.
  - intros (L & F & _). assert (n <= trailing past)%nat by (apply IH; split; [lia|done]). lia.
  - intros L. destruct (proj2 IH) as [L' F]; [lia|]. split_and!; [lia|done|done].
Qed.

#[export] Instance last_failed_dec n past : Decision (last_failed n past).
Proof. unfold last_failed. apply _. Defined.

(** What an answer makes the poll dispatch, after the answers before it. *)
Definition poll_dispatches (past : list status_result) (r : status_result) : list fi_action :=
  match r with
  | Some (inr op) => [SetFiLiquidityOperation op]
  | _ => if decide (last_failed 11 past) then [SetFiLiquidityError (code_of r)] else []
  end.

Lemma read_dispatches past r l :
  cancelled l = false -> consecutiveErrors l = trailing past ->
  exists l', alone (read id) (fun _ => status_answer r) l [] [] =
      ([LiquidityStatus id], poll_dispatches past r, l', Returned tt) /\
    cancelled l' = false /\ consecutiveErrors l' = trailing (past ++ [r]).
Proof.
  intros C E. unfold poll_dispatches, trailing at 1. rewrite foldl_app.
  fold (trailing past). change (foldl _ _ past) with (trailing past).
  pose proof (last_failed_trailing 11 past) as T.
  destruct r as [[e|op]|]; cbn; rewrite C; cbn; rewrite ?C; [| by eexists |];
    rewrite E; destruct (Nat.leb_spec (trailing past) 10) as [L|L];
    (rewrite decide_True by (apply T; lia)) || (rewrite decide_False by (rewrite T; lia)); by eexists.
Qed.

(** C25: the poll gives up exactly when it should.  A read that succeeds records the
    operation; one that fails dispatches nothing, unless the eleven answers before it
    failed as well: then the attach is reported as failed, with the code. *)
Theorem poll_gives_up rs l i :
  cancelled l = false -> consecutiveErrors l = O ->
  polled rs l !! i = poll_dispatches (take i rs) <$> rs !! i.
Proof.
  intros C E. change O with (trailing []) in E.
  enough (forall past, consecutiveErrors l = trailing past ->
    polled rs l !! i = poll_dispatches (past ++ take i rs) <$> rs !! i) as H by by apply (H []).
  clear E. revert l i C. induction rs as [|r rs IH]; intros l i C past E; [done|].
  destruct (read_dispatches past r l C E) as (l' & A & C' & E'). cbn [polled]. rewrite A.
  destruct i as [|i]; [cbn; by rewrite app_nil_r|].
  change (polled rs l' !! i = poll_dispatches (past ++ r :: take i rs) <$> rs !! i).
  rewrite (IH l' i C' _ E'). by rewrite <- (assoc_L (++)).
Qed.
End Poll.

(** ** The app: what programs may change *)

(** Every action a program dispatches satisfies [Q]. *)
Fixpoint emits {A} (Q : fi_action -> Prop) (p : prog A) : Prop :=
  match p with
  | Emit a k => Q a /\ emits Q k
  | Await c k => forall r, emits Q (k r)
  | Read k => forall l, emits Q (k l)
  | Modify _ k => emits Q k
  | _ => True
  end.

Lemma emits_bind {A B} Q (m : prog A) (f : A -> prog B) :
  emits Q m -> (forall a, emits Q (f a)) -> emits Q (m ≫= f).
Proof. intros M F. induction m; cbn in *; auto. destruct M. auto. Qed.

Lemma emits_catch {A} Q (m handler : prog A) :
  emits Q m -> emits Q handler -> emits Q (p_catch m handler).
Proof. intros M H. induction m; cbn in *; auto. destruct M. auto. Qed.

Lemma emits_finally {A} Q (m : prog A) after :
  emits Q m -> emits Q after -> emits Q (p_finally m after).
Proof.
  intros M H. induction m; cbn -[mbind] in *; auto.
  - apply emits_bind; [done|by intros].
  - apply emits_bind; [done|by intros].
  - destruct M. auto.
Qed.

Lemma emits_impl {A} (Q Q' : fi_action -> Prop) (p : prog A) :
  (forall a, Q a -> Q' a) -> emits Q p -> emits Q' p.
Proof. intros I. induction p; cbn; intuition. Qed.

(** What the programs of the hooks dispatch: what was found, or that the attach is no
    longer asked for. *)
Definition found_action (action : fi_action) : Prop :=
  match action with
  | SetFiLiquidityOperation _ | RecordFiLiquidityAbsent | SetFiLiquidityError _
  | SetFiLiquidityRequesting false => True
  | _ => False
  end.


Lemma emits_walk f fuel after seen : emits found_action (walk f fuel after seen).
Proof.
  revert after seen. induction fuel as [|fuel IH]; intros after seen; [done|]. cbn.
  intros [[e|p]|]; cbn; try done; intros l; destruct (cancelled l); cbn; try done.
  destruct (find_match f _); [done|]. destruct (present _); [|done]. by destruct (decide _).
Qed.

Lemma emits_durable_read f fuel : emits found_action (durable_read f fuel).
Proof.
  unfold durable_read. apply emits_catch.
  2: { cbn. intros l. by destruct (cancelled l). }
  apply emits_bind.
  - unfold readDurableLiquidity. cbn. intros [r|]; cbn; [|done]. intros l.
    destruct (cancelled l); [done|]. destruct (trusted f r); [done|]. apply emits_walk.
  - intros r. cbn. intros l. destruct (cancelled l), r; cbn; auto.
Qed.

Lemma emits_read id : emits found_action (read id).
Proof.
  cbn. intros [[e|op]|]; cbn; intros l; destruct (cancelled l); cbn; auto.
  all: intros l1; destruct (consecutiveErrors l1); cbn; [done|]; by case_match.
Qed.

Lemma emits_attach f n : emits found_action (run_attach f n).
Proof.
  unfold run_attach. apply emits_finally; [apply emits_catch|]; [|done..]. cbn.
  intros [[e|[op|]]|]; cbn; auto.
  all: intros [[e1|ps]|]; cbn; auto; destruct (head _); cbn; auto.
  all: intros [[e2|op2]|]; cbn; auto.
  all: intros [[e3|[op3|]]|]; cbn; auto.
Qed.

(** Running a program up to where it waits touches the slice, its own locals and the log. *)
Lemma exec_frame o p a :
  let '(a', _) := exec o p a in
  jobs a' = jobs a /\ views a' = views a /\ net a' = net a /\ lastFormationId a' = lastFormationId a /\
  deps a' = deps a /\ reader a' = reader a /\ poller a' = poller a /\ effect_runs a' = effect_runs a /\
  (forall o', o' <> o -> locals a' o' = locals a o').
Proof.
  revert a. induction p; intros b; cbn; auto 10.
  - specialize (IHp (reduce a b)). by destruct (exec _ _ _).
  - specialize (H (locals b o) b). by destruct (exec _ _ _).
  - specialize (IHp (set_locals o f b)). destruct (exec _ _ _) as [a' q].
    destruct IHp as (?&?&?&?&?&?&?&?&L). split_and!; try done. intros o' N. rewrite L by done.
    cbn. by rewrite fn_lookup_insert_ne.
Qed.

(** An assertion on the slice that the program's actions respect carries over. *)
Lemma exec_store (P : FiState -> Prop) Q o p a :
  (forall s action, Q action -> P s -> P (fi_reduce s action)) ->
  emits Q p -> P (store a) ->
  let '(a', p') := exec o p a in P (store a') /\ emits Q p'.
Proof.
  intros S. revert a. induction p; intros b E P0; cbn in *; auto.
  - destruct E. apply IHp; auto. by apply S.
  - by apply H.
  - by apply IHp.
Qed.

Definition is_await (p : prog unit) : bool := match p with Await _ _ => true | _ => false end.

(** A program that ends after at most [n] answers, and then frees the screen. *)
Definition close : prog unit :=
  Modify (fun l => l <| isStarting := false |>) (dispatch (SetFiLiquidityRequesting false)).

Fixpoint closes (n : nat) (p : prog unit) : Prop :=
  p = close \/
  match p with
  | Emit _ k => closes n k
  | Await _ k => match n with O => False | S n => forall r, closes n (k r) end
  | _ => False
  end.

Lemma attach_closes f n : closes 4 (run_attach f n).
Proof.
  unfold run_attach, attach, dispatch, close. cbn. right. intros [[e|[op|]]|]; cbn; auto.
  all: right; intros [[e1|ps]|]; cbn; auto; destruct (head _); cbn; auto.
  all: right; intros [[e2|op2]|]; cbn; auto.
  all: right; intros [[e3|[op3|]]|]; cbn; auto.
Qed.

Definition requesting (a : App) : bool := isRequesting (fi_liquidity (store a)).
Definition starting (a : App) (h : nat) : bool := isStarting (locals a (Host h)).

Lemma exec_closes n p h a :
  closes n p ->
  let '(a', p') := exec (Host h) p a in
  (p' = Ret tt /\ starting a' h = false /\ requesting a' = false) \/
  (closes n p' /\ is_await p' = true /\ starting a' h = starting a h).
Proof.
  revert a. induction p as [x| | |action k IH|c k IH|k IH|f k IH]; intros a C; cbn in C;
    try (destruct C as [[=]|[]]; done).
  - destruct C as [[=]|C]. exact (IH (reduce action a) C).
  - right. by split_and!.
  - destruct C as [[= -> ->]|[]]. left. cbn. unfold starting. cbn. rewrite fn_lookup_insert. by split_and!.
Qed.

Lemma closes_mono n m p : (n <= m)%nat -> closes n p -> closes m p.
Proof.
  revert n m. induction p as [x| | |action k IH|c k IH|k IH|f k IH]; intros n m L; cbn; auto.
  - intros [H|H]; [by left|right; by eauto].
  - destruct n as [|n], m as [|m]; [tauto|intros [?|[]]; by left|lia|].
    intros [H|H]; [by left|right]. intros r. apply (IH r n); [lia|done].
Qed.

(** ** One attach at a time *)

Record hosts_ok (a : App) : Prop := {
  jobs_found : forall i o p, jobs a !! i = Some (o, p) -> emits found_action p;
  host_jobs : forall i h p, jobs a !! i = Some (Host h, p) ->
    p = Ret tt \/ closes 4 p /\ is_await p = true /\ starting a h = true;
  host_unique : forall i j h p q,
    jobs a !! i = Some (Host h, p) -> jobs a !! j = Some (Host h, q) ->
    is_await p = true -> is_await q = true -> i = j;
  host_busy : forall h, starting a h = true -> exists i p, jobs a !! i = Some (Host h, p) /\ is_await p = true;
  host_requests : requesting a = true -> exists h, starting a h = true
}.

Lemma found_lowers s action :
  found_action action -> isRequesting (fi_liquidity (fi_reduce s action)) = true ->
  isRequesting (fi_liquidity s) = true.
Proof.
  destruct action as [| | | | | |b| | | | | | | | | | | | | |]; try done; cbn.
  - unfold setFiLiquidityOperation. by case_match.
  - by destruct b.
Qed.

(** What changes neither jobs nor screens, and asks for nothing, keeps it. *)
Lemma hosts_ok_keep a a' :
  jobs a' = jobs a -> (forall h, locals a' (Host h) = locals a (Host h)) ->
  (requesting a' = true -> requesting a = true) -> hosts_ok a -> hosts_ok a'.
Proof.
  intros J L R [F H U B Q].
  split; unfold starting in *; rewrite ?J; try setoid_rewrite L; auto.
Qed.

Lemma requests_lowered a s :
  (isRequesting (fi_liquidity s) = true -> requesting a = true) ->
  forall action, found_action action ->
  isRequesting (fi_liquidity (fi_reduce s action)) = true -> requesting a = true.
Proof. intros H action F R. by eapply H, found_lowers. Qed.

(** A program runs: its requests can only end, its rest keeps to the same actions. *)
Lemma exec_found o p a :
  emits found_action p ->
  let '(a', p') := exec o p a in
  (requesting a' = true -> requesting a = true) /\ emits found_action p'.
Proof.
  intros E. apply (exec_store (fun s => isRequesting (fi_liquidity s) = true -> requesting a = true)
    found_action); [|done|done]. intros s action F H. by apply requests_lowered.
Qed.

Lemma spawn_effect_ok n p a :
  emits found_action p -> hosts_ok a -> hosts_ok (spawn (Effect n) p a).
Proof.
  intros E [F H U B Q]. unfold spawn. pose proof (exec_frame (Effect n) p a) as X.
  pose proof (exec_found (Effect n) p a E) as Y. destruct (exec _ _ _) as [a' p'].
  destruct X as (J & _ & _ & _ & _ & _ & _ & _ & L). destruct Y as [R E'].
  assert (S : forall h, starting a' h = starting a h) by (intros h; unfold starting; by rewrite L).
  split; cbn; rewrite J.
  - intros i o q [[_ K]|[_ [= <- <-]]]%lookup_snoc_Some; [by eapply F|done].
  - intros i h q [[_ K]|[_ [=]]]%lookup_snoc_Some. change (starting _ h) with (starting a' h).
    rewrite S. eauto.
  - intros i j h q q' [[_ K]|[_ [=]]]%lookup_snoc_Some [[_ K']|[_ [=]]]%lookup_snoc_Some. eauto.
  - intros h K. change (starting a' h = true) in K. rewrite S in K.
    destruct (B h K) as (i & q & K1 & K2). exists i, q. split; [|done]. by apply lookup_app_l_Some.
  - intros K. destruct (Q (R K)) as [h K']. exists h. by rewrite <- S in K'.
Qed.

Lemma start_ok h a : hosts_ok a -> hosts_ok (start h a).
Proof.
  intros I. unfold start. destruct (isStarting (locals a (Host h))) eqn:N; [done|].
  destruct (view_isRequesting _); [done|]. cbn [orb].
  assert (X : hosts_ok (reduce (SetFiLiquidityError noActiveFormation) a)) by by apply (hosts_ok_keep a).
  destruct (view_formationId _) as [f|]; [|done]. destruct (toLiquidityNetwork _) as [n|]; [|done].
  destruct (isFormedAndFresh _); [|done]. clear X. destruct I as [F H U B Q].
  assert (none : forall i q, jobs a !! i = Some (Host h, q) -> is_await q = false).
  { intros i q K. destruct (H i h q K) as [->|(_ & _ & K')]; [done|]. unfold starting in K'. by rewrite N in K'. }
  set (l := set_locals (Host h) (fun l => l <| isStarting := true |>) a).
  assert (S : forall h', starting l h' = bool_decide (h' = h) || starting a h').
  { intros h'. unfold starting, l, set_locals. cbn. case_bool_decide as D.
    - subst. by rewrite fn_lookup_insert.
    - by rewrite fn_lookup_insert_ne by congruence. }
  pose proof (attach_closes f n) as C. pose proof (emits_attach f n) as E.
  change (hosts_ok (l <| store := fi_reduce (fi_reduce (store l) (SetFiLiquidityRequesting true)) ClearFiLiquidityError |>
    <| calls := calls l ++ [(Host h, LiquidityCurrent)] |>
    <| jobs := jobs l ++ [(Host h, run_attach f n)] |>)).
  split; cbn -[run_attach l]; change (jobs l) with (jobs a).
  - intros i o q [[_ K]|[_ [= <- <-]]]%lookup_snoc_Some; [by eapply F | done].
  - intros i h' q K. change (starting _ h') with (starting l h'). rewrite S.
    apply lookup_snoc_Some in K as [[_ K]|[_ [= <- <-]]].
    + destruct (H i h' q K) as [|(?&?&->)]; [by left|]. right. by rewrite orb_true_r.
    + right. by rewrite bool_decide_true.
  - intros i j h' q q' [[_ K]|[-> X]]%lookup_snoc_Some [[_ K']|[-> Y]]%lookup_snoc_Some A A'; [by eapply U| | |done].
    + injection Y as <- <-. by rewrite (none i q) in A.
    + injection X as <- <-. by rewrite (none j q') in A'.
  - intros h' K. change (starting l h' = true) in K. rewrite S in K.
    apply orb_true_iff in K as [->%bool_decide_eq_true|K].
    + exists (length (jobs a)), (run_attach f n). split; [|done]. apply lookup_snoc_Some. by right.
    + destruct (B h' K) as (i & q & K1 & K2). exists i, q. split; [|done]. by apply lookup_app_l_Some.
  - intros _. exists h. change (starting l h = true). rewrite S. by rewrite bool_decide_true.
Qed.

(** What an answer does: the program of the job runs on, the others wait. *)
Lemma resume_cases i b a :
  (exists o c k a' p', jobs a !! i = Some (o, Await c k) /\ exec o (k (b c)) a = (a', p') /\
     resume i b a = a' <| jobs := <[i := (o, p')]> (jobs a) |>) \/
  resume i b a = a.
Proof.
  unfold resume. destruct (jobs a !! i) as [[o p]|] eqn:E; [|by right].
  destruct p as [| | | |c k| |]; try by right. left.
  pose proof (exec_frame o (k (b c)) a) as X. destruct (exec _ _ _) as [a' p'] eqn:Y.
  destruct X as [X _]. exists o, c, k, a', p'. by rewrite X.
Qed.

Lemma closes_answered n c k r : closes n (Await c k) -> exists m, n = S m /\ closes m (k r).
Proof. destruct n as [|n]; cbn; [by intros [[=]|[]]|]. intros [[=]|C]. by exists n. Qed.

(** A job whose program waits again, or is not of a screen. *)
Lemma waits_again_ok i o c k p' a a' :
  jobs a !! i = Some (o, Await c k) -> (forall h, starting a' h = starting a h) ->
  (requesting a' = true -> requesting a = true) -> emits found_action p' ->
  (forall h, o = Host h -> closes 4 p' /\ is_await p' = true) ->
  hosts_ok a -> hosts_ok (a' <| jobs := <[i := (o, p')]> (jobs a) |>).
Proof.
  intros E S R Fp W [F H U B Q].
  assert (Li : (i < length (jobs a))%nat) by by eapply lookup_lt_Some.
  split; cbn.
  - intros j o' q [(_ & [= -> ->] & _)|[_ K]]%list_lookup_insert_Some; [done|by eapply F].
  - intros j h q K. change (starting _ h) with (starting a' h). rewrite S.
    apply list_lookup_insert_Some in K as [(_ & [= -> ->] & _)|[N K]]; [|by eapply H].
    destruct (H i h _ E) as [[=]|(_ & _ & Sh)]. right. by destruct (W h eq_refl).
  - intros j j' h q q' K K' A A'.
    assert (waits : forall m r, <[i := (o, p')]> (jobs a) !! m = Some (Host h, r) -> is_await r = true ->
      exists r', jobs a !! m = Some (Host h, r') /\ is_await r' = true).
    { intros m r [(<- & [= -> ->] & _)|[_ M]]%list_lookup_insert_Some; by eauto. }
    destruct (waits _ _ K A) as (r & K1 & A1), (waits _ _ K' A') as (r' & K1' & A1'). by eapply U.
  - intros h K. change (starting a' h = true) in K. rewrite S in K.
    destruct (B h K) as (j & q & K1 & K2). destruct (decide (i = j)) as [<-|N].
    + rewrite E in K1. injection K1 as -> <-. exists i, p'. split; [by apply list_lookup_insert_eq|].
      by apply (W h).
    + exists j, q. split; [|done]. by rewrite list_lookup_insert_ne.
  - intros K. destruct (Q (R K)) as [h K']. exists h. by rewrite <- S in K'.
Qed.

(** The job of a screen whose program ends. *)
Lemma ends_ok i h c k a a' :
  jobs a !! i = Some (Host h, Await c k) -> starting a' h = false -> requesting a' = false ->
  (forall h', h' <> h -> starting a' h' = starting a h') ->
  hosts_ok a -> hosts_ok (a' <| jobs := <[i := (Host h, Ret tt)]> (jobs a) |>).
Proof.
  intros E S R L [F H U B Q]. split; cbn.
  - intros j o' q [(_ & [= <- <-] & _)|[_ K]]%list_lookup_insert_Some; [done|by eapply F].
  - intros j h' q [(_ & [= <- <-] & _)|[N K]]%list_lookup_insert_Some; [by left|].
    destruct (H j h' q K) as [|(C' & A' & B')]; [by left|]. right. split_and!; [done..|].
    change (starting a' h' = true). rewrite L; [done|]. intros ->. apply N. by apply (U i j h _ q E K).
  - intros j j' h' q q' [(_ & [= <- <-] & _)|[N K]]%list_lookup_insert_Some; [done|].
    intros [(_ & [= <- <-] & _)|[N' K']]%list_lookup_insert_Some; [done|by eapply U].
  - intros h' K. change (starting a' h' = true) in K.
    destruct (decide (h' = h)) as [->|N]; [by rewrite S in K|]. rewrite L in K by done.
    destruct (B h' K) as (j & q & K1 & K2). exists j, q. split; [|done].
    rewrite list_lookup_insert_ne; [done|]. intros ->. rewrite E in K1. by injection K1 as <-.
  - intros K. change (requesting a' = true) in K. by rewrite R in K.
Qed.

Lemma resume_ok i b a : hosts_ok a -> hosts_ok (resume i b a).
Proof.
  intros I. destruct (resume_cases i b a) as [(o & c & k & a' & p' & E & X & ->)| ->]; [|done].
  pose proof (jobs_found a I i o _ E (b c)) as Fk. pose proof (exec_frame o (k (b c)) a) as Fr.
  pose proof (exec_found o _ a Fk) as Y. rewrite X in Fr, Y.
  destruct Fr as (_ & _ & _ & _ & _ & _ & _ & _ & L). destruct Y as [R Fp]. destruct o as [h|n].
  - destruct (host_jobs a I i h _ E) as [[=]|(C & _ & S)].
    apply (closes_answered _ _ _ (b c)) in C as (m & [= <-] & C).
    pose proof (exec_closes _ _ h a C) as Z. rewrite X in Z.
    assert (L' : forall h', h' <> h -> starting a' h' = starting a h')
      by (intros h' N; unfold starting; by rewrite L by congruence).
    destruct Z as [(-> & S' & R')|(C' & A' & S')]; [by eapply ends_ok|].
    eapply waits_again_ok; try done.
    + intros h'. destruct (decide (h' = h)) as [->|N]; [done|by apply L'].
    + intros h' _. split; [|done]. by apply (closes_mono 3); [lia|].
  - eapply waits_again_ok; try done. intros h. unfold starting. by rewrite L.
Qed.

Lemma cancel_ok n a : hosts_ok a -> hosts_ok (cancel n a).
Proof. apply hosts_ok_keep; [done| |done]. intros h. cbn. by rewrite fn_lookup_insert_ne. Qed.

Lemma when_ok c f a : (hosts_ok a -> hosts_ok (f a)) -> hosts_ok a -> hosts_ok (when c f a).
Proof. destruct c; auto. Qed.

Lemma deps_ok d a : hosts_ok a -> hosts_ok (a <| deps := d |>).
Proof. by apply hosts_ok_keep. Qed.

Lemma flush_ok fuel a : hosts_ok a -> hosts_ok (flush fuel a).
Proof.
  intros I. unfold flush. apply deps_ok.
  apply when_ok; [|apply when_ok; [|apply when_ok; [|apply when_ok; [|apply when_ok; [|done]]]]]; clear I; intros I.
  - unfold start_poller. destruct (present _); [|done]. destruct (_.2); [|done].
    apply spawn_effect_ok; [apply emits_read|]. by eapply hosts_ok_keep, I.
  - unfold start_reader. destruct (present _); [|done].
    apply spawn_effect_ok; [apply emits_durable_read|]. by eapply hosts_ok_keep, I.
  - unfold forget_formation. destruct (decide (lastFormationId _ = _)); [done|]. destruct (lastFormationId _); eapply hosts_ok_keep, I; try done.
  - unfold cleanup_poller. destruct (poller _) as [[n op]|]; [|done].
    apply cancel_ok. by eapply hosts_ok_keep, I.
  - unfold cleanup_reader. destruct (reader a) as [n|]; [|done].
    apply cancel_ok. by eapply hosts_ok_keep, I.
Qed.

(** Other actions of the slice leave the attach alone. *)
Lemma liquidity_frame s action :
  liquidity_action action = false -> fi_liquidity (fi_reduce s action) = fi_liquidity s.
Proof.
  assert (M : forall s, fi_liquidity (recordCreationHighWaterMark s) = fi_liquidity s).
  { intros s'. unfold recordCreationHighWaterMark. by repeat case_match. }
  destruct action; try done; intros _; cbn [fi_reduce].
  - unfold setFiClientStatus. destruct st; [by rewrite M|done].
  - unfold setFiStatus. by rewrite M.
  - by destruct (prepareWalletServicePayment _ _).
  - unfold refreshWalletServiceEligiblePayers_fulfilled. by repeat case_match.
  - unfold createWalletService_rejected. by repeat case_match.
Qed.

Lemma app_step_ok fuel a e : hosts_ok a -> hosts_ok (app_step fuel a e).
Proof.
  intros I. destruct e as [action|n|h|h| | |i b]; cbn.
  - destruct (liquidity_action action) eqn:L; [done|]. eapply hosts_ok_keep, I; [done..|].
    unfold requesting. cbn. by rewrite liquidity_frame.
  - by eapply hosts_ok_keep, I.
  - by eapply hosts_ok_keep, I.
  - by apply start_ok.
  - by apply flush_ok.
  - unfold tick. destruct (poller a) as [[n op]|]; [|done]. by apply spawn_effect_ok; [apply emits_read|].
  - by apply resume_ok.
Qed.

Lemma app_initial_ok : hosts_ok app_initial.
Proof. split; try done. Qed.

Lemma app_run_ok fuel l : hosts_ok (app_run fuel app_initial l).
Proof.
  unfold app_run. induction l as [|e l IH] using rev_ind; [apply app_initial_ok|].
  rewrite foldl_app. by apply app_step_ok.
Qed.

(** Another event leaves a job alone; an answer takes it further. *)
Definition answers_job (i : nat) (e : app_event) : bool :=
  match e with Answer j _ => bool_decide (j = i) | _ => false end.

Lemma spawn_keeps o p a i x : jobs a !! i = Some x -> jobs (spawn o p a) !! i = Some x.
Proof.
  intros E. unfold spawn. pose proof (exec_frame o p a) as X. destruct (exec _ _ _) as [a' p'].
  destruct X as [J _]. cbn. rewrite J. by apply lookup_app_l_Some.
Qed.

Lemma flush_keeps fuel a i x : jobs a !! i = Some x -> jobs (flush fuel a) !! i = Some x.
Proof.
  assert (W : forall c f a, (jobs a !! i = Some x -> jobs (f a) !! i = Some x) ->
    jobs a !! i = Some x -> jobs (when c f a) !! i = Some x) by (intros []; auto).
  intros E. unfold flush. cbn.
  apply W; [|apply W; [|apply W; [|apply W; [|apply W; [|done]]]]]; clear E; intros E.
  - unfold start_poller. destruct (present _); [|done]. destruct (_.2); [|done]. by apply spawn_keeps.
  - unfold start_reader. destruct (present _); [|done]. by apply spawn_keeps.
  - unfold forget_formation. destruct (decide (lastFormationId _ = _)); [done|]. by destruct (lastFormationId _).
  - unfold cleanup_poller. by destruct (poller _) as [[]|].
  - unfold cleanup_reader. by destruct (reader a).
Qed.

Lemma step_keeps fuel a e i x :
  answers_job i e = false -> jobs a !! i = Some x -> jobs (app_step fuel a e) !! i = Some x.
Proof.
  intros N E. destruct e as [action|n|h|h| | |j b]; cbn; try done.
  - by destruct (liquidity_action action).
  - unfold start. destruct (_ || _); [done|]. destruct (view_formationId _); [|done].
    destruct (toLiquidityNetwork _); [|done]. destruct (isFormedAndFresh _); [|done]. by apply spawn_keeps.
  - by apply flush_keeps.
  - unfold tick. destruct (poller a) as [[]|]; [|done]. by apply spawn_keeps.
  - cbn in N. apply bool_decide_eq_false in N.
    destruct (resume_cases j b a) as [(o & c & k & a' & p' & _ & _ & ->)| ->]; [|done].
    cbn. by rewrite list_lookup_insert_ne.
Qed.

(** Only its own press starts an attach of a screen. *)
Lemma spawn_new o p a j h q :
  o <> Host h -> jobs (spawn o p a) !! j = Some (Host h, q) -> jobs a !! j = Some (Host h, q).
Proof.
  intros N. unfold spawn. pose proof (exec_frame o p a) as X. destruct (exec _ _ _) as [a' p'].
  destruct X as [J _]. cbn. rewrite J. intros [[_ E]|[_ [= -> ->]]]%lookup_snoc_Some; done.
Qed.

Lemma when_new c f b j x :
  (forall a, jobs (f a) !! j = Some x -> jobs a !! j = Some x) ->
  jobs (when c f b) !! j = Some x -> jobs b !! j = Some x.
Proof. destruct c; auto. Qed.

Lemma flush_new fuel a j h q :
  jobs (flush fuel a) !! j = Some (Host h, q) -> jobs a !! j = Some (Host h, q).
Proof.
  unfold flush. cbn. intros E.
  repeat (apply when_new in E; [|clear E; intros b; first
    [ unfold start_poller; destruct (present _); [|done]; destruct (_.2); [|done];
      intros E; by apply spawn_new in E
    | unfold start_reader; destruct (present _); [|done]; intros E; by apply spawn_new in E
    | unfold forget_formation; destruct (decide (lastFormationId _ = _)); [done|]; by destruct (lastFormationId _)
    | unfold cleanup_poller; by destruct (poller _) as [[]|]
    | unfold cleanup_reader; by destruct (reader _) ]]).
  done.
Qed.

Lemma step_new fuel a e j h q :
  e <> Press h -> jobs (app_step fuel a e) !! j = Some (Host h, q) -> is_await q = true ->
  exists q', jobs a !! j = Some (Host h, q') /\ is_await q' = true.
Proof.
  intros N E A. destruct e as [action|n|h'|h'| | |i b]; cbn in E; try by exists q.
  - exists q. by destruct (liquidity_action action).
  - exists q. split; [|done]. revert E. unfold start. destruct (_ || _); [done|].
    destruct (view_formationId _); [|done]. destruct (toLiquidityNetwork _); [|done].
    destruct (isFormedAndFresh _); [|done]. intros E. apply spawn_new in E; [done|congruence].
  - exists q. by apply flush_new in E.
  - exists q. split; [|done]. revert E. unfold tick. destruct (poller a) as [[]|]; [|done]. by apply spawn_new.
  - destruct (resume_cases i b a) as [(o & c & k & a' & p' & J & _ & R)|R]; rewrite R in E; [|by exists q].
    cbn in E. apply list_lookup_insert_Some in E as [(<- & [= -> ->] & _)|[_ E]]; by eauto.
Qed.

Lemma run_new fuel l a j h q :
  Forall (fun e => e <> Press h) l -> jobs (app_run fuel a l) !! j = Some (Host h, q) -> is_await q = true ->
  exists q', jobs a !! j = Some (Host h, q') /\ is_await q' = true.
Proof.
  intros F. revert a. induction F as [|e l N F IH]; intros a E A; [by exists q|].
  destruct (IH _ E A) as (q' & E' & A'). by eapply step_new.
Qed.

(** The program of a screen that has at most [n] answers to go. *)
Definition left_over (n : nat) (p : prog unit) : Prop :=
  p = Ret tt \/ closes n p /\ is_await p = true.

Lemma step_left fuel a e i h p n :
  hosts_ok a -> jobs a !! i = Some (Host h, p) -> left_over n p ->
  exists p', jobs (app_step fuel a e) !! i = Some (Host h, p') /\
    left_over (n - if answers_job i e then 1 else 0) p'.
Proof.
  intros I E C. destruct (answers_job i e) eqn:N.
  2: { exists p. rewrite Nat.sub_0_r. split; [by apply step_keeps|done]. }
  destruct e as [| | | | | |j b]; try done. apply bool_decide_eq_true in N as ->. cbn.
  destruct C as [->|[C A]].
  { exists (Ret tt). unfold resume. rewrite E. split; [done|by left]. }
  destruct p as [| | | |c k| |]; try done. apply (closes_answered _ _ _ (b c)) in C as (m & -> & C).
  unfold resume. rewrite E. pose proof (exec_closes _ _ h a C) as Z.
  pose proof (exec_frame (Host h) (k (b c)) a) as X. destruct (exec _ _ _) as [a' p'].
  destruct X as [J _]. exists p'. cbn. rewrite J. split; [by apply list_lookup_insert_eq; eapply lookup_lt_Some|].
  replace (m - 0)%nat with m by lia. destruct Z as [[-> _]|(C' & A' & _)]; [by left|by right].
Qed.

(** C20: a screen has one attach under way at most, over every interleaving of presses,
    renders, answers, reports and effects.  Its ref says exactly whether it waits for
    one, and when the app says that an attach is asked for, some screen waits. *)
Theorem one_attach_at_a_time fuel l :
  let a := app_run fuel app_initial l in
  (forall h i j p q, jobs a !! i = Some (Host h, p) -> jobs a !! j = Some (Host h, q) ->
     is_await p = true -> is_await q = true -> i = j) /\
  (forall h, starting a h = true <-> exists i p, jobs a !! i = Some (Host h, p) /\ is_await p = true) /\
  (requesting a = true -> exists h, starting a h = true).
Proof.
  pose proof (app_run_ok fuel l) as I. split_and!.
  - intros h i j p q. apply (host_unique _ I).
  - intros h. split; [apply (host_busy _ I)|]. intros (i & p & E & A).
    by destruct (host_jobs _ I _ _ _ E) as [->|(_ & _ & ?)].
  - apply (host_requests _ I).
Qed.

Definition answers_to (i : nat) (l : list app_event) : nat :=
  length (filter (fun e => answers_job i e = true) l).

Lemma run_left fuel l' a i h p n :
  hosts_ok a -> jobs a !! i = Some (Host h, p) -> left_over n p ->
  exists p', jobs (app_run fuel a l') !! i = Some (Host h, p') /\ left_over (n - answers_to i l') p'.
Proof.
  revert a p n. induction l' as [|e l' IH]; intros a p n I E C.
  { exists p. by rewrite Nat.sub_0_r. }
  destruct (step_left fuel a e i h p n I E C) as (q & Eq & Cq).
  destruct (IH _ _ _ (app_step_ok fuel a e I) Eq Cq) as (p' & E' & C').
  exists p'. split; [exact E'|]. unfold answers_to in *. destruct (answers_job i e) eqn:A.
  - rewrite filter_cons_True by done. cbn.
    by replace (n - S (length (filter (fun e => answers_job i e = true) l')))%nat
      with (n - 1 - length (filter (fun e => answers_job i e = true) l'))%nat by lia.
  - rewrite filter_cons_False by congruence. by rewrite Nat.sub_0_r in C'.
Qed.

(** C22: the button comes back.  An attach that a screen waits for has ended once its calls
    were answered, four at most, whatever the answers and whatever happens between; and
    unless its button was pressed again, the screen is free to start another, and the
    app says that an attach is asked for only while another screen waits for one. *)
Theorem attach_ends fuel l l' i h p :
  jobs (app_run fuel app_initial l) !! i = Some (Host h, p) -> is_await p = true ->
  (4 <= answers_to i l')%nat ->
  let a := app_run fuel app_initial (l ++ l') in
  jobs a !! i = Some (Host h, Ret tt) /\
  (Forall (fun e => e <> Press h) l' ->
   starting a h = false /\
   (requesting a = true -> exists h', h' <> h /\ starting a h' = true)).
Proof.
  intros E W A a. pose proof (app_run_ok fuel l) as I.
  assert (C : left_over 4 p) by (destruct (host_jobs _ I _ _ _ E) as [->|(C & _)]; [done|by right]).
  destruct (run_left fuel l' _ i h p 4 I E C) as (p' & E' & C').
  assert (R : a = app_run fuel (app_run fuel app_initial l) l') by apply foldl_app.
  rewrite <- R in E'. assert (D : jobs a !! i = Some (Host h, Ret tt)).
  { rewrite E'. replace (4 - answers_to i l')%nat with 0%nat in C' by lia.
    destruct C' as [->|[C' W']]; [done|]. destruct p'; try done. by destruct C' as [[=]|[]]. }
  split; [done|]. intros F. pose proof (app_run_ok fuel (l ++ l')) as I'. fold a in I'.
  assert (S : starting a h = false).
  { destruct (starting a h) eqn:S; [|done]. destruct (host_busy _ I' h S) as (j & q & Eq & Aq).
    destruct (run_new fuel l' (app_run fuel app_initial l) j h q F) as (q' & Eq' & Aq'); [by rewrite <- R|done|].
    assert (i = j) as <- by by eapply (host_unique _ I). rewrite D in Eq. by injection Eq as <-. }
  split; [done|]. intros Q. destruct (host_requests _ I' Q) as [h' S']. exists h'.
  split; [congruence|done].
Qed.

(** ** The operation is of the formation *)

(** The monitor has taken notice of the formation that is reported. *)
Definition formation_noticed (a : App) : Prop :=
  exists f, selectFiFormation (store a) = Some f /\ formationId f <> "" /\
    lastFormationId a = Some (formationId f).

Fixpoint answers_noticed (fuel : nat) (a : App) (l : list app_event) : Prop :=
  match l with
  | [] => True
  | e :: l =>
      match e with Answer _ _ => formation_noticed a | _ => True end /\ answers_noticed fuel (app_step fuel a e) l
  end.

Definition operation_ok (a : App) : Prop :=
  forall op, operation (fi_liquidity (store a)) = Some op -> lastFormationId a = Some (op_formationId op).


Lemma forget_operation_ok fid a : operation_ok a -> operation_ok (forget_formation fid a).
Proof.
  intros I. unfold forget_formation. destruct (decide (lastFormationId a = fid)); [done|].
  unfold operation_ok in *. destruct (lastFormationId a) as [x|]; [done|]. intros op E. by specialize (I op E).
Qed.

Lemma found_keeps_formation s action : found_action action -> selectFiFormation (fi_reduce s action) = selectFiFormation s.
Proof.
  destruct action; try done. cbn. intros _. unfold setFiLiquidityOperation. by case_match.
Qed.

(** What an answer records is of the formation that is reported. *)
Lemma found_of_formation f s action :
  formationId f <> "" -> found_action action ->
  selectFiFormation s = Some f /\
    (forall op, operation (fi_liquidity s) = Some op -> op_formationId op = formationId f) ->
  selectFiFormation (fi_reduce s action) = Some f /\
    (forall op, operation (fi_liquidity (fi_reduce s action)) = Some op -> op_formationId op = formationId f).
Proof.
  intros N F [E O]. split; [by rewrite found_keeps_formation|].
  destruct action as [| | | |op'| |b| | | | | | | | | | | | | |]; try done. cbn.
  unfold setFiLiquidityOperation. rewrite E. cbn. rewrite bool_decide_false by done. cbn.
  case_bool_decide as D; [|done]. cbn. by intros op [= <-].
Qed.

Lemma answer_operation_ok i b a : hosts_ok a -> formation_noticed a -> operation_ok a -> operation_ok (resume i b a).
Proof.
  intros I (f & E & N & L) O.
  destruct (resume_cases i b a) as [(o & c & k & a' & p' & J & X & ->)| ->]; [|done].
  pose proof (exec_store (fun s => selectFiFormation s = Some f /\
    (forall op, operation (fi_liquidity s) = Some op -> op_formationId op = formationId f))
    found_action o (k (b c)) a) as S.
  pose proof (exec_frame o (k (b c)) a) as Fr. rewrite X in S, Fr.
  destruct S as [[_ S] _].
  - intros s action F. by apply found_of_formation.
  - exact (jobs_found a I i o _ J (b c)).
  - split; [done|]. intros op H. specialize (O op H). congruence.
  - intros op H. cbn in *. destruct Fr as (_ & _ & _ & -> & _). rewrite L. f_equal. symmetry. by apply S.
Qed.

Lemma step_operation_ok fuel a e :
  hosts_ok a -> match e with Answer _ _ => formation_noticed a | _ => True end ->
  operation_ok a -> operation_ok (app_step fuel a e).
Proof.
  intros I N O. destruct e as [action|n|h|h| | |i b]; cbn; try done.
  - destruct (liquidity_action action) eqn:L; [done|]. unfold operation_ok. cbn. by rewrite liquidity_frame.
  - unfold start. destruct (_ || _); [done|]. destruct (view_formationId _); [|done].
    destruct (toLiquidityNetwork _); [|done]. by destruct (isFormedAndFresh _).
  - unfold flush.
    assert (W : forall c f a, (operation_ok a -> operation_ok (f a)) -> operation_ok a -> operation_ok (when c f a))
      by (intros []; auto).
    set (r := when _ (start_poller _) _). enough (operation_ok r) by done. subst r.
    apply W; [|apply W; [|apply W; [apply forget_operation_ok|apply W; [|apply W; [|done]]]]]; clear O; intros O.
    + unfold start_poller. destruct (present _); [|done]. by destruct (_.2).
    + unfold start_reader. by destruct (present _).
    + unfold cleanup_poller. by destruct (poller _) as [[]|].
    + unfold cleanup_reader. by destruct (reader a).
  - unfold tick. by destruct (poller a) as [[]|].
  - by apply answer_operation_ok.
Qed.

(** The formation the effects of the monitor last ran for is the one it remembers. *)
Definition deps_remembered (a : App) : Prop := forall x d, deps a = Some (x, d) -> lastFormationId a = x.

Lemma resume_remembered i b a : deps_remembered a -> deps_remembered (resume i b a).
Proof.
  intros D. destruct (resume_cases i b a) as [(o & c & k & a' & p' & _ & X & ->)| ->]; [|done].
  pose proof (exec_frame o (k (b c)) a) as Fr. rewrite X in Fr.
  destruct Fr as (_ & _ & _ & L & Dp & _). intros x d E. cbn in *. rewrite L. rewrite Dp in E. by eapply D.
Qed.

(** The parts of a render that leave the slice and the formation remembered alone. *)
Definition keeps (f : App -> App) : Prop := forall a,
  lastFormationId (f a) = lastFormationId a /\ store (f a) = store a.

Lemma keeps_when c f a : keeps f ->
  lastFormationId (when c f a) = lastFormationId a /\ store (when c f a) = store a.
Proof. intros K. destruct c; [apply K|done]. Qed.

Lemma keeps_parts fuel fid op :
  keeps cleanup_reader /\ keeps cleanup_poller /\ keeps (start_reader fuel fid) /\ keeps (start_poller op).
Proof.
  split_and!; intros b.
  - unfold cleanup_reader. by destruct (reader b).
  - unfold cleanup_poller. by destruct (poller b) as [[]|].
  - unfold start_reader. by destruct (present fid).
  - unfold start_poller. destruct (present _); [|done]. by destruct (_.2).
Qed.

(** A render leaves the formation that is reported, and remembers it. *)
Lemma flush_remembers fuel a :
  deps_remembered a ->
  let fid := formationId <$> selectFiFormation (store a) in
  selectFiFormation (store (flush fuel a)) = selectFiFormation (store a) /\
  lastFormationId (flush fuel a) = fid /\ fst <$> deps (flush fuel a) = Some fid.
Proof.
  intros D fid. unfold flush. fold fid.
  set (op := (_, selectIsWalletServiceLightningRunning _)).
  destruct (keeps_parts fuel fid op) as (K1 & K2 & K3 & K4).
  set (c := negb (bool_decide (fst <$> deps a = Some fid))). set (c' := negb (bool_decide (snd <$> _ = _))).
  pose proof (keeps_when c _ a K1) as [L1 S1]. set (a1 := when c cleanup_reader a) in *.
  pose proof (keeps_when c' _ a1 K2) as [L2 S2]. set (a2 := when c' cleanup_poller a1) in *.
  set (a3 := when c (forget_formation fid) a2).
  pose proof (keeps_when c _ a3 K3) as [L4 S4]. set (a4 := when c (start_reader fuel fid) a3) in *.
  pose proof (keeps_when c' _ a4 K4) as [L5 S5]. set (a5 := when c' (start_poller op) a4) in *.
  change (selectFiFormation (store a5) = selectFiFormation (store a) /\ lastFormationId a5 = fid /\
    Some fid = Some fid).
  rewrite S5, S4, L5, L4. rewrite S1 in S2. rewrite L1 in L2. clearbody a2 a4 a5.
  unfold a3, c. case_bool_decide as E; cbn [negb when].
  - rewrite S2, L2. split_and!; [done| |done]. destruct (deps a) as [[x d]|] eqn:Dp; [|done].
    injection E as ->. by apply (D _ _ Dp).
  - unfold forget_formation. rewrite L2. destruct (decide (lastFormationId a = fid)) as [F|F].
    + by rewrite S2, L2.
    + destruct (lastFormationId a); cbn; by rewrite S2.
Qed.

Lemma step_remembered fuel a e : deps_remembered a -> deps_remembered (app_step fuel a e).
Proof.
  intros D. destruct e as [action|n|h|h| | |i b]; cbn; try done.
  - by destruct (liquidity_action action).
  - unfold start. destruct (_ || _); [done|]. destruct (view_formationId _); [|done].
    destruct (toLiquidityNetwork _); [|done]. by destruct (isFormedAndFresh _).
  - intros x d E. destruct (flush_remembers fuel a D) as (_ & -> & F). rewrite E in F. by injection F.
  - unfold tick. by destruct (poller a) as [[]|].
  - by apply resume_remembered.
Qed.

(** C19: the attach that is recorded belongs to the formation that is reported.  Whatever
    formations are reported, dropped and begun, and however many screens, reads and
    polls interleave, provided that answers come while the monitor knows the
    formation: once the monitor has rendered, an operation is recorded only while a
    formation is reported, and is of that formation. *)
Theorem operation_of_formation fuel l :
  answers_noticed fuel app_initial l ->
  let a := app_run fuel app_initial (l ++ [Flush]) in
  forall op, operation (fi_liquidity (store a)) = Some op ->
    formationId <$> selectFiFormation (store a) = Some (op_formationId op).
Proof.
  intros N a op E. subst a. unfold app_run in *. rewrite foldl_app in *. cbn [foldl app_step] in *.
  assert (I : hosts_ok app_initial /\ operation_ok app_initial /\ deps_remembered app_initial)
    by (split_and!; [apply app_initial_ok | by intros op' | by intros x d]).
  assert (R : hosts_ok (foldl (app_step fuel) app_initial l) /\
    operation_ok (foldl (app_step fuel) app_initial l) /\
    deps_remembered (foldl (app_step fuel) app_initial l)).
  { clear E. revert N I. generalize app_initial. induction l as [|e l IH]; intros a N I; [done|].
    destruct N as [N1 N2], I as (H & O & D). apply IH; [done|].
    split_and!; [by apply app_step_ok | by apply step_operation_ok | by apply step_remembered]. }
  destruct R as (H & O & D). destruct (flush_remembers fuel _ D) as (F & L & _).
  rewrite F, <- L. by apply (step_operation_ok fuel _ Flush H Logic.I O).
Qed.

(** ** Values that are held until they are read back

    The fee and the metadata are written by a vote of the guardians, which takes a
    while to show in the metadata that is read back. *)

(** [raw] is the metadata field, absent or a string. *)
Definition parseGuardianFeePpm (raw : option string) : option num :=
  match raw with
  | None => None
  | Some s =>
      if decide (trim (chars s) = []) then None
      else let parsed := to_number s in
        if is_finite parsed && leb (of_Z 0) parsed then Some parsed else None
  end.

Record AppliedFee := mkAppliedFee {
  fee_inviteCode : option string;
  consensusPpm : option num;
  pendingPpm : option num;
  fee_isLoading : bool;
  hasReadRate : bool
}.
#[export] Instance AppliedFee_eta : Eta AppliedFee := fun s =>
  mkAppliedFee (fee_inviteCode s) (consensusPpm s) (pendingPpm s) (fee_isLoading s) (hasReadRate s).

(** A refresh is asked for on a render with another code and by the screen; an answer is
    the metadata field of the preview, or a failure. *)
Inductive fee_event : Type :=
  | FeeInvite (inviteCode : option string)
  | FeeRefresh
  | FeeAnswer (preview : result (option string))
  | FeeMark (ppm : num).

(** The effect that ends the hold. *)
Definition fee_spent (s : AppliedFee) : AppliedFee :=
  match pendingPpm s, consensusPpm s with
  | Some p, Some c => if eqb c p then s <| pendingPpm := None |> else s
  | _, _ => s
  end.

Definition fee_refresh (s : AppliedFee) : AppliedFee :=
  match present (fee_inviteCode s) with Some _ => s <| fee_isLoading := true |> | None => s end.

Definition fee_read (raw : option string) (s : AppliedFee) : AppliedFee :=
  s <| consensusPpm := parseGuardianFeePpm raw |> <| hasReadRate := true |> <| fee_isLoading := false |>.

Definition fee_step (s : AppliedFee) (e : fee_event) : AppliedFee :=
  match e with
  | FeeInvite c => fee_refresh (s <| fee_inviteCode := c |>)
  | FeeRefresh => fee_refresh s
  | FeeAnswer (Ok raw) => fee_spent (fee_read raw s)
  | FeeAnswer (Throw _) => s <| fee_isLoading := false |>
  | FeeMark p => fee_spent (s <| pendingPpm := Some p |>)
  end.

Definition fee_run (s : AppliedFee) (l : list fee_event) : AppliedFee := foldl fee_step s l.

Definition feePpm (s : AppliedFee) : option num :=
  match pendingPpm s with Some p => Some p | None => consensusPpm s end.
Definition isSettled (s : AppliedFee) : bool :=
  bool_decide (present (fee_inviteCode s) = None) || hasReadRate s.

(** The rates that were read, after one that was known. *)
Definition rates (known : option num) (l : list fee_event) : list (option num) :=
  known :: omap (fun e => match e with FeeAnswer (Ok raw) => Some (parseGuardianFeePpm raw) | _ => None end) l.

Definition agrees (ppm : num) (r : option num) : bool :=
  match r with Some c => eqb c ppm | None => false end.

Definition is_mark (e : fee_event) : bool := match e with FeeMark _ => true | _ => false end.

Lemma spent_cases s p : pendingPpm s = Some p ->
  (agrees p (consensusPpm s) = true /\ pendingPpm (fee_spent s) = None /\
     consensusPpm (fee_spent s) = consensusPpm s) \/
  (agrees p (consensusPpm s) = false /\ fee_spent s = s).
Proof.
  intros P. unfold fee_spent, agrees. rewrite P. destruct (consensusPpm s) as [c|] eqn:E; [|by right].
  destruct (eqb c p); [by left|by right].
Qed.

(** A step that is no read keeps the rate that is known and the one that is held. *)
Lemma fee_step_idle s e :
  is_mark e = false -> (forall raw, e <> FeeAnswer (Ok raw)) ->
  pendingPpm (fee_step s e) = pendingPpm s /\ consensusPpm (fee_step s e) = consensusPpm s.
Proof.
  destruct e as [c| |[raw|m]|p]; cbn; intros M N; try done; unfold fee_refresh;
    try (by destruct (present _)). by destruct (N raw).
Qed.

Lemma rates_idle known e l :
  (forall raw, e <> FeeAnswer (Ok raw)) -> rates known (e :: l) = rates known l.
Proof. destruct e as [c| |[raw|m]|p]; try done. intros N. by destruct (N raw). Qed.

Lemma is_read_dec (e : fee_event) :
  (exists raw, e = FeeAnswer (Ok raw)) \/ (forall raw, e <> FeeAnswer (Ok raw)).
Proof. destruct e as [c| |[raw|m]|p]; eauto. Qed.

Lemma fee_quiet s l :
  existsb is_mark l = false -> pendingPpm s = None ->
  feePpm (fee_run s l) = List.last (rates (consensusPpm s) l) None.
Proof.
  revert s. induction l as [|e l IH]; intros s N P.
  { unfold feePpm. cbn. by rewrite P. }
  cbn [existsb] in N. apply orb_false_iff in N as [N1 N].
  change (fee_run s (e :: l)) with (fee_run (fee_step s e) l).
  destruct (is_read_dec e) as [[raw ->]|R].
  - cbn [fee_step]. unfold fee_spent. cbn. rewrite P. by rewrite IH.
  - destruct (fee_step_idle s e N1 R) as [P' C]. rewrite rates_idle by done.
    rewrite IH by congruence. by rewrite C.
Qed.

(** a rate just saved is shown until it is read back, and from then on what was read
    last is shown: over every sequence of refreshes, answers, failures and changes of
    the code after the save. *)
Theorem fee_held_until_read s l p :
  existsb is_mark l = false ->
  feePpm (fee_run s (FeeMark p :: l)) =
    if existsb (agrees p) (rates (consensusPpm s) l) then List.last (rates (consensusPpm s) l) None
    else Some p.
Proof.
  intros N. cbn [fee_run foldl fee_step].
  change (foldl fee_step ?x l) with (fee_run x l).
  set (s' := s <| pendingPpm := Some p |>). change (consensusPpm s) with (consensusPpm s').
  assert (P : pendingPpm s' = Some p) by done. clearbody s'. clear s. revert s' P.
  induction l as [|e l IH]; intros s P; destruct (spent_cases s p P) as [[A [S C]]|[A S]].
  - cbn. rewrite A. unfold feePpm. by rewrite S, C.
  - cbn. rewrite A. unfold feePpm. by rewrite S, P.
  - rewrite fee_quiet, C by done. unfold rates. cbn [existsb]. by rewrite A.
  - rewrite S. cbn [existsb] in N. apply orb_false_iff in N as [N1 N]. specialize (IH N).
    change (fee_run s (e :: l)) with (fee_run (fee_step s e) l).
    destruct (is_read_dec e) as [[raw ->]|R].
    + change (rates (consensusPpm s) (FeeAnswer (Ok raw) :: l)) with
        (consensusPpm s :: rates (consensusPpm (fee_read raw s)) l).
      cbn [existsb]. rewrite A. exact (IH (fee_read raw s) P).
    + destruct (fee_step_idle s e N1 R) as [P' C]. rewrite P in P'.
      pose proof (IH _ P') as X. destruct (spent_cases _ p P') as [[A' _]|[_ S']]; [congruence|].
      rewrite S', C in X. by rewrite rates_idle.
Qed.

(** *** The metadata *)

Inductive meta_field : Type := m_name | m_iconUrl | m_description | m_termsUrl.
#[export] Instance meta_field_eq_dec : EqDecision meta_field.
Proof. solve_decision. Defined.

(** A value per field, a string or null; of what is held, a value or none. *)
Record ServiceMetadata := mkServiceMetadata {
  consensus : meta_field -> jval;
  held : meta_field -> option jval
}.

(** What a preview says, with its [name] and [meta]. *)
Definition consensus_of (preview_name : jval) (meta : obj) (k : meta_field) : jval :=
  match k with
  | m_name => jor (getMetaField "federation_name" meta) preview_name
  | m_iconUrl => getFederationIconUrl meta
  | m_description => getFederationWelcomeMessage meta
  | m_termsUrl => getMetaField "tos_url" meta
  end.

Inductive metadata_event : Type :=
  | MetadataRead (preview_name : jval) (meta : obj)
  | MetadataFailed
  | MetadataMark (applied : meta_field -> option jval).

(** A hold is spent when a read agrees with it; the effect runs after reads only. *)
Definition metadata_step (s : ServiceMetadata) (e : metadata_event) : ServiceMetadata :=
  match e with
  | MetadataRead preview_name meta =>
      let c := consensus_of preview_name meta in
      mkServiceMetadata c (fun k => if decide (held s k = Some (c k)) then None else held s k)
  | MetadataFailed => s
  | MetadataMark applied =>
      mkServiceMetadata (consensus s) (fun k => match applied k with Some v => Some v | None => held s k end)
  end.

Definition metadata_run (s : ServiceMetadata) (l : list metadata_event) : ServiceMetadata :=
  foldl metadata_step s l.

(** [pending.k ?? consensus.k] *)
Definition shown_metadata (s : ServiceMetadata) (k : meta_field) : jval :=
  nullish (default JUndef (held s k)) (consensus s k).

Definition metadata_reads (l : list metadata_event) : list (meta_field -> jval) :=
  omap (fun e => match e with MetadataRead n m => Some (consensus_of n m) | _ => None end) l.

(** The field is not saved again. *)
Definition not_marked (k : meta_field) (l : list metadata_event) : Prop :=
  forall applied, MetadataMark applied ∈ l -> applied k = None.

Lemma metadata_quiet k l s :
  not_marked k l -> held s k = None ->
  shown_metadata (metadata_run s l) k = List.last (consensus s k :: ((fun c => c k) <$> metadata_reads l)) JUndef.
Proof.
  revert s. induction l as [|e l IH]; intros s N P.
  { unfold shown_metadata. cbn. by rewrite P. }
  change (metadata_run s (e :: l)) with (metadata_run (metadata_step s e) l).
  assert (N' : not_marked k l) by (intros a A; apply N; by right).
  destruct e as [n m| |applied]; rewrite IH; cbn; rewrite ?P; try done.
  by rewrite (N applied (list_elem_of_here _ _)).
Qed.

(** a field just saved is shown until it is read back, and from then on what was
    read last; saves of other fields do not matter. *)
Theorem metadata_held_until_read k v l s applied :
  applied k = Some v -> v <> JNull -> v <> JUndef -> not_marked k l ->
  shown_metadata (metadata_run s (MetadataMark applied :: l)) k =
    if decide (Exists (fun c => c k = v) (metadata_reads l))
    then List.last ((fun c => c k) <$> metadata_reads l) JUndef else v.
Proof.
  intros A V V' N. change (metadata_run s (_ :: l)) with (metadata_run (metadata_step s (MetadataMark applied)) l).
  assert (P : held (metadata_step s (MetadataMark applied)) k = Some v) by (cbn; by rewrite A).
  generalize dependent (metadata_step s (MetadataMark applied)). clear s A applied.
  induction l as [|e l IH]; intros s P.
  { rewrite decide_False by by intros ?%Exists_nil. unfold shown_metadata. cbn. rewrite P. by destruct v. }
  change (metadata_run s (e :: l)) with (metadata_run (metadata_step s e) l).
  assert (N' : not_marked k l) by (intros a H; apply N; by right).
  destruct e as [n m| |applied]; [|exact (IH N' _ P)|].
  2: { apply (IH N'). cbn. by rewrite (N applied (list_elem_of_here _ _)). }
  change (metadata_reads (MetadataRead n m :: l)) with (consensus_of n m :: metadata_reads l).
  destruct (decide (consensus_of n m k = v)) as [E|E].
  - rewrite decide_True by by left. rewrite metadata_quiet; [done|done|].
    cbn. rewrite P, E. by rewrite decide_True.
  - rewrite (IH N'). 2: { cbn. rewrite P. rewrite decide_False; [done|congruence]. }
    destruct (decide (Exists _ (metadata_reads l))) as [X|X].
    + rewrite decide_True by by right. by destruct X.
    + rewrite decide_False; [done|]. by intros [?|?]%Exists_cons.
Qed.

(** ** Lookups of which the last one counts *)

(** [useWalletServiceFederationId]: the id, the code of the last render, and how many
    parses were begun; the clean-up of an effect drops the answer of its parse. *)
Record ServiceFederation := mkServiceFederation {
  service_inviteCode : option string;
  service_federationId : option string;
  parses : nat
}.

Inductive service_event : Type :=
  | ServiceInvite (inviteCode : option string)
  | ServiceParsed (n : nat) (federationId : option string).

(** A render with the same code runs no effect. *)
Definition service_step (s : ServiceFederation) (e : service_event) : ServiceFederation :=
  match e with
  | ServiceInvite c =>
      if decide (c = service_inviteCode s) then s
      else mkServiceFederation c (service_federationId s) (S (parses s))
  | ServiceParsed n id =>
      if decide (n = parses s /\ is_Some (present (service_inviteCode s))) then
        match id with
        | Some id => mkServiceFederation (service_inviteCode s) (Some id) (parses s)
        | None => s
        end
      else s
  end.

Definition service_run (l : list service_event) : ServiceFederation :=
  foldl service_step (mkServiceFederation None None 0) l.

Record SetupPaymentFederation := mkSetupFederation {
  setup_federationId : string;
  setup_inviteCode : string;
  joined : bool
}.

Record JoinableWalletService := mkJoinable {
  joinable_id : string;
  joinable_name : jval;
  joinable_meta : jval;
  joinable_inviteCode : string
}.

(** The outcome of the preview of an invite: its name and metadata, or a failure. *)
Definition preview_outcome : Type := option (jval * jval).

(** [resolveJoinableWalletServices], when all previews have settled. *)
Definition resolveJoinableWalletServices (previews : string -> preview_outcome)
    (members : list SetupPaymentFederation) : list JoinableWalletService :=
  omap (fun m => (fun p => mkJoinable (setup_federationId m) p.1 p.2 (setup_inviteCode m)) <$>
                 previews (setup_inviteCode m)) members.

Inductive JoinableStatus : Type := j_loading | j_loaded | j_error.

(** The state of [useJoinableWalletServices], how many lookups were begun, and what the
    last one still waits for: nothing, the federations, or their previews. *)
Inductive lookup_phase : Type :=
  | LookupDone
  | LookupAsked
  | LookupPreviews (members : list SetupPaymentFederation).

Record Joinable := mkJoinableState {
  services : list JoinableWalletService;
  joinable_status : JoinableStatus;
  lookups : nat;
  lookup : lookup_phase
}.

(** A run of the effect; the answer to the [n]th lookup, an error as an answer, a
    failure or the federations; its previews. *)
Inductive joinable_event : Type :=
  | JoinableRender (isOnboarded : bool)
  | JoinableAnswer (n : nat) (r : option (rpc_result (list SetupPaymentFederation)))
  | JoinablePreviews (n : nat) (previews : string -> preview_outcome).

Definition joinable_step (s : Joinable) (e : joinable_event) : Joinable :=
  match e with
  | JoinableRender true => mkJoinableState (services s) j_loading (S (lookups s)) LookupAsked
  | JoinableRender false => mkJoinableState [] j_loaded (S (lookups s)) LookupDone
  | JoinableAnswer n r =>
      match lookup s with
      | LookupAsked =>
          if decide (n = lookups s) then
            match r with
            | Some (inr l) =>
                mkJoinableState (services s) (joinable_status s) n
                  (LookupPreviews (filter (fun m => joined m = false) l))
            | _ => mkJoinableState (services s) j_error n LookupDone
            end
          else s
      | _ => s
      end
  | JoinablePreviews n previews =>
      match lookup s with
      | LookupPreviews members =>
          if decide (n = lookups s)
          then mkJoinableState (resolveJoinableWalletServices previews members) j_loaded n LookupDone
          else s
      | _ => s
      end
  end.

Definition joinable_initial : Joinable := mkJoinableState [] j_loading 0 LookupDone.
Definition joinable_run (l : list joinable_event) : Joinable := foldl joinable_step joinable_initial l.

(** The lookup that counts has a render of its own after which none came. *)
Definition is_render (e : joinable_event) : bool :=
  match e with JoinableRender _ => true | _ => false end.

Definition renders (l : list joinable_event) : nat := length (filter (fun e => is_render e = true) l).

(** *** What the sheet shows

    An offer is a federation the bridge admitted in its last answer, that the user is
    not in, and whose preview answered. *)
Definition offer (l : list joinable_event) (s : JoinableWalletService) : Prop :=
  exists r m previews p,
    JoinableAnswer (renders l) (Some (inr r)) ∈ l /\ JoinablePreviews (renders l) previews ∈ l /\
    m ∈ r /\ joined m = false /\ previews (setup_inviteCode m) = Some p /\
    s = mkJoinable (setup_federationId m) p.1 p.2 (setup_inviteCode m).

Record joinable_ok (l : list joinable_event) (s : Joinable) : Prop := {
  ok_lookups : lookups s = renders l;
  ok_previews : forall members, lookup s = LookupPreviews members ->
    exists r, JoinableAnswer (renders l) (Some (inr r)) ∈ l /\ members = filter (fun m => joined m = false) r;
  ok_waits : lookup s <> LookupDone -> joinable_status s = j_loading;
  ok_loaded : joinable_status s = j_loaded -> Forall (offer l) (services s)
}.

Lemma renders_snoc l e : renders (l ++ [e]) = if is_render e then S (renders l) else renders l.
Proof.
  unfold renders. rewrite list.filter_app, length_app. destruct (is_render e) eqn:E.
  - rewrite filter_cons_True by done. cbn. lia.
  - rewrite filter_cons_False by congruence. cbn. lia.
Qed.

Lemma offer_snoc l e s : is_render e = false -> offer l s -> offer (l ++ [e]) s.
Proof.
  intros E (r & m & pv & p & A & P & H). exists r, m, pv, p. rewrite renders_snoc, E.
  rewrite !elem_of_app. split_and!; [by left|by left|apply H..].
Qed.

Lemma joinable_step_ok l s e : joinable_ok l s -> joinable_ok (l ++ [e]) (joinable_step s e).
Proof.
  intros [L P W O].
  assert (keep : is_render e = false -> joinable_ok (l ++ [e]) s).
  { intros E. split; rewrite ?renders_snoc, ?E; auto.
    - intros members M. destruct (P members M) as (r & A & F). exists r. by rewrite elem_of_app; auto.
    - intros S. eapply list.Forall_impl; [by apply O|]. intros x. by apply offer_snoc. }
  destruct e as [[]|n r|n previews]; cbn.
  - split; rewrite ?renders_snoc; cbn; [by rewrite L|done..].
  - split; rewrite ?renders_snoc; cbn; [by rewrite L|done..].
  - destruct (lookup s) eqn:E; try by apply keep. destruct (decide _) as [->|]; [|by apply keep].
    destruct r as [[e|r]|]; split; rewrite ?renders_snoc; cbn; try done.
    + intros members [= <-]. exists r. rewrite L. by rewrite elem_of_app, list_elem_of_singleton; auto.
    + intros _. by apply W.
    + intros S. by rewrite W in S.
  - destruct (lookup s) as [| |members] eqn:E; try by apply keep. destruct (decide _) as [->|]; [|by apply keep].
    destruct (P members eq_refl) as (r & A & ->). split; rewrite ?renders_snoc; cbn; try done.
    intros _. apply list.Forall_forall. intros x. unfold resolveJoinableWalletServices.
    rewrite list_elem_of_omap. intros (m & [M J]%list_elem_of_filter & X).
    destruct (previews (setup_inviteCode m)) as [p|] eqn:V; [|done]. injection X as <-.
    exists r, m, previews, p. rewrite renders_snoc. cbn. rewrite !elem_of_app, L.
    split_and!; [by left|right; by left|done..].
Qed.

(** a federation is offered only when it can be joined.  Whatever lookups overlap and
    whichever answer first, once the sheet is loaded every federation in it was
    admitted by the bridge in the answer to the last lookup, is one the user is not in,
    and its preview answered; and the sheet is never loaded while a lookup runs. *)
Theorem offers_are_joinable l :
  let s := joinable_run l in
  joinable_status s = j_loaded -> Forall (offer l) (services s) /\ lookup s = LookupDone.
Proof.
  intros s S. assert (I : joinable_ok l s).
  { subst s. clear S. unfold joinable_run. induction l as [|e l IH] using rev_ind; [by split|].
    rewrite foldl_app. by apply joinable_step_ok. }
  split; [by apply (ok_loaded _ _ I)|]. destruct (lookup s) eqn:E; [done|..];
    rewrite (ok_waits _ _ I) in S by congruence; done.
Qed.

(** ** Examples *)

Definition demo_formation (id : string) : RpcFiFormationSnapshot :=
  mkFormation id formed (mkIntent "Fed" (of_Z 10) (of_Z 0) None) [] fresh None true
    (mkMilestones true true true) (Some ("fed1" +:+ id)) None.
Definition demo_operation (id f : string) (verified : bool) : RpcFiLiquidityOperation :=
  mkOperation id f accepted None verified.
Definition demo_provider (pubkey : string) (networks : list string) : RpcFiLiquidityProvider :=
  mkProvider pubkey [gateway] networks.
Definition demo_error (code : RpcFiErrorCode) : RpcFiOperationError := mkError code "" None.

Definition no_answer : answering := fun _ => None.

(** A bridge with an operation for [current], the pages of a list, one provider and an
    answer to a start. *)
Definition demo_bridge (current : option RpcFiLiquidityOperation)
    (listed : option string -> list RpcFiLiquidityOperation * option string)
    (started : rpc_result RpcFiLiquidityOperation) : answering := fun c =>
  match c with
  | LiquidityCurrent => Some (inr current)
  | LiquidityList after => Some (inr (mkPage (listed after).1 (listed after).2))
  | LiquidityStatus id => Some (inr (demo_operation id "A" false))
  | LiquidityDiscover _ => Some (inr [demo_provider "pk0" ["signet"]; demo_provider "pk1" ["bitcoin"]])
  | LiquidityStart _ _ => Some started
  end.

Definition no_list (after : option string) : list RpcFiLiquidityOperation * option string := ([], None).

(** Two pages, of which the second has the operation of the formation. *)
Definition two_pages (after : option string) : list RpcFiLiquidityOperation * option string :=
  match after with
  | None => ([demo_operation "o0" "Z" true; demo_operation "o1" "A" false], Some "o1")
  | Some _ => ([demo_operation "o2" "A" true], None)
  end.

Definition paged : list fi_call -> answering := fun _ =>
  demo_bridge None two_pages (inr (demo_operation "o3" "A" false)).
Definition paged_list (after : option string) : option (rpc_result RpcFiLiquidityOperationPage) :=
  Some (inr (mkPage (two_pages after).1 (two_pages after).2)).

Lemma durable_read_ends_witness :
  exists h action,
    alone (durable_read "A" 2) paged new_locals [] [] = (h, [action], new_locals, Returned tt) /\
    (length h <= 3)%nat /\
    (action = RecordFiLiquidityAbsent \/ exists op, action = SetFiLiquidityOperation op).
Proof.
  apply (durable_read_ends paged "A" new_locals ["o1"]); [|reflexivity|cbn; lia].
  intros h after p next [= <-] E. destruct after as [x|]; cbn in E; [discriminate|].
  injection E as <-. by left.
Defined.

Lemma durable_read_complete_witness :
  exists h, alone (durable_read "A" 2) paged new_locals [] [] =
    (h, [SetFiLiquidityOperation (demo_operation "o2" "A" true)], new_locals, Returned tt).
Proof.
  apply (durable_read_complete paged "A" new_locals paged_list (fun _ _ => eq_refl) eq_refl 2
    [[demo_operation "o0" "Z" true; demo_operation "o1" "A" false]; [demo_operation "o2" "A" true]] (inr None)).
  - reflexivity.
  - exists (Some "o1"). split; [reflexivity|]. split; [by eexists|]. exists None. split; reflexivity.
  - cbn. lia.
Defined.

(** Twelve failures are reported, after a success that resets the count. *)
Definition demo_reads : list (option (rpc_result RpcFiLiquidityOperation)) :=
  replicate 5 None ++ [Some (inr (demo_operation "o1" "A" false))] ++ replicate 11 None ++
  [Some (inl (demo_error timeout))].

Lemma poll_gives_up_witness :
  polled "o1" demo_reads new_locals !! 17%nat = Some [SetFiLiquidityError timeout] /\
  polled "o1" demo_reads new_locals !! 16%nat = Some [].
Proof.
  split; [rewrite (poll_gives_up "o1" demo_reads new_locals 17) by reflexivity
         |rewrite (poll_gives_up "o1" demo_reads new_locals 16) by reflexivity];
    vm_compute; reflexivity.
Defined.

(** A formed formation, seen by the monitor and by the screen, whose button is pressed:
    the first job is the durable read, the second the attach. *)
Definition shown_formation (id : string) : list app_event :=
  [Elsewhere (SetFiStatus (formation (demo_formation id))); Flush].
Definition pressed : list app_event :=
  [Elsewhere (SetFiStatus (formation (demo_formation "A"))); Flush; NetworkIs (Some "bitcoin");
   RenderHost 0; Press 0].
Definition answered_by (b : answering) (n i : nat) : list app_event := replicate n (Answer i b).

Definition fresh_bridge : answering := demo_bridge None no_list (inr (demo_operation "o1" "A" false)).

Lemma attach_ends_witness :
  let a := app_run 3 app_initial (pressed ++ answered_by fresh_bridge 4 1) in
  jobs a !! 1%nat = Some (Host 0, Ret tt) /\ starting a 0 = false.
Proof.
  destruct (attach_ends 3 pressed (answered_by fresh_bridge 4 1) 1 0 (run_attach "A" "bitcoin")) as [D F].
  - reflexivity.
  - reflexivity.
  - vm_compute. repeat constructor.
  - split; [exact D|]. apply F. repeat constructor; discriminate.
Defined.

Lemma one_attach_at_a_time_witness :
  exists i p, jobs (app_run 3 app_initial pressed) !! i = Some (Host 0, p) /\ is_await p = true.
Proof. apply (one_attach_at_a_time 3 pressed). reflexivity. Defined.

(** The attach is found, and the status is the one of the formation. *)
Lemma operation_of_formation_witness :
  let a := app_run 3 app_initial ((pressed ++ answered_by fresh_bridge 3 1) ++ [Flush]) in
  formationId <$> selectFiFormation (store a) = Some (op_formationId (demo_operation "o1" "A" false)) /\
  selectWalletServiceLightningStatus (store a) = attaching.
Proof.
  split; [|vm_compute; reflexivity].
  apply (operation_of_formation 3 (pressed ++ answered_by fresh_bridge 3 1)); [|vm_compute; reflexivity].
  cbn [pressed answered_by replicate app answers_noticed]. split_and!; try exact I;
    (exists (demo_formation "A"); split_and!; [vm_compute; reflexivity | discriminate | vm_compute; reflexivity]).
Defined.

(** Without that proviso another formation shows what the first one has: the answer to the
    attach comes after its formation was abandoned, when there is none. *)
Example stale_operation_shown :
  let a := app_run 3 app_initial (pressed ++ [Elsewhere (SetFiStatus idle); Flush] ++
    answered_by (demo_bridge (Some (demo_operation "o1" "A" true)) no_list (inl (demo_error timeout))) 1 1 ++
    shown_formation "B") in
  formationId <$> selectFiFormation (store a) = Some "B" /\
  op_formationId <$> operation (fi_liquidity (store a)) = Some "A" /\
  selectWalletServiceLightningStatus (store a) = attached.
Proof. vm_compute. by split_and!. Qed.

(** The error of an attach for the first formation is shown for the second. *)
Example stale_error_shown :
  let a := app_run 3 app_initial (pressed ++ shown_formation "B" ++ [Answer 1 no_answer]) in
  formationId <$> selectFiFormation (store a) = Some "B" /\
  selectWalletServiceLightningStatus (store a) = l_failed.
Proof. vm_compute. by split_and!. Qed.

(** Two screens that were rendered before either was pressed both ask for an operation. *)
Example two_screens_start_twice :
  let a := app_run 3 app_initial ([Elsewhere (SetFiStatus (formation (demo_formation "A"))); Flush;
    NetworkIs (Some "bitcoin"); RenderHost 0; RenderHost 1; Press 0; Press 1] ++
    [Answer 1 fresh_bridge; Answer 2 fresh_bridge; Answer 1 fresh_bridge; Answer 2 fresh_bridge]) in
  filter (fun c => is_start c.2 = true) (calls a) =
    [(Host 0, LiquidityStart "A" "pk1"); (Host 1, LiquidityStart "A" "pk1")].
Proof. vm_compute. reflexivity. Qed.

(** Reads of the poll overlap, so that an older answer can replace a newer one. *)
Definition progressed (phase : RpcFiLiquidityItemPhase) : answering := fun c =>
  match c with
  | LiquidityStatus id =>
      Some (inr (mkOperation id "A" accepted (Some [mkItem gateway phase]) false))
  | _ => None
  end.

Example older_answer_wins :
  let before := pressed ++ answered_by fresh_bridge 3 1 ++ [Flush; Tick] in
  let stage l := selectWalletServiceLightningStage (store (app_run 3 app_initial (before ++ l))) in
  stage [Answer 3 (progressed completed)] = Some verifying /\
  stage [Answer 3 (progressed completed); Answer 2 (progressed item_running)] = Some allocating.
Proof. vm_compute. by split. Qed.

(** An attach that could not read whether there is an operation starts one. *)
Definition unread_bridge (h : list fi_call) : answering := fun c =>
  match c with
  | LiquidityCurrent => match h with [] => Some (inl (demo_error timeout)) | _ => Some (inr None) end
  | c => fresh_bridge c
  end.

Example error_counts_as_none :
  (alone (run_attach "A" "bitcoin") unread_bridge new_locals [] []).1.1.1 =
    [LiquidityCurrent; LiquidityDiscover "bitcoin"; LiquidityStart "A" "pk1"].
Proof. vm_compute. reflexivity. Qed.

Definition fee_text (s : string) : result (option string) := Ok (Some s).
Definition fee_initial : AppliedFee := mkAppliedFee (Some "fed1A") (Some (of_Z 100)) None false true.

Lemma fee_held_until_read_witness :
  feePpm (fee_run fee_initial (FeeMark (of_Z 500) :: [FeeRefresh; FeeAnswer (fee_text "100")])) = Some (of_Z 500) /\
  feePpm (fee_run fee_initial (FeeMark (of_Z 500) :: [FeeAnswer (fee_text "500"); FeeAnswer (fee_text "0")])) =
    Some (of_Z 0).
Proof.
  split; rewrite fee_held_until_read by reflexivity; vm_compute; reflexivity.
Defined.

(** Another wallet service shows the fee of the one before, as settled. *)
Example fee_of_other_service :
  let s := fee_run (mkAppliedFee (Some "fed1A") None None false false)
             [FeeAnswer (fee_text "500"); FeeInvite (Some "fed1B"); FeeAnswer (Throw "timeout")] in
  isSettled s = true /\ feePpm s = Some (of_Z 500).
Proof. vm_compute. by split. Qed.

Definition metadata_initial : ServiceMetadata := mkServiceMetadata (fun _ => JNull) (fun _ => None).
Definition mark_name (v : string) (k : meta_field) : option jval :=
  if decide (k = m_name) then Some (JStr v) else None.

Lemma metadata_held_until_read_witness :
  shown_metadata (metadata_run metadata_initial (MetadataMark (mark_name "New") ::
    [MetadataRead (JStr "Old") []; MetadataFailed])) m_name = JStr "New".
Proof.
  rewrite (metadata_held_until_read m_name (JStr "New")); [|done|done|done|].
  - rewrite decide_False; [done|]. vm_compute. intros H. by repeat (apply Exists_cons in H as [H|H] || inversion H).
  - intros applied H. by repeat (apply elem_of_cons in H as [[=]|H] || apply elem_of_nil in H).
Defined.

(** The id stays the one of the old invite while the new one is not parsed. *)
Example id_of_other_service :
  service_federationId (service_run [ServiceInvite (Some "fed1A"); ServiceParsed 1 (Some "A");
    ServiceInvite (Some "fed1B"); ServiceParsed 2 None]) = Some "A".
Proof. vm_compute. reflexivity. Qed.

Definition demo_members : list SetupPaymentFederation :=
  [mkSetupFederation "F" "fed1F" true; mkSetupFederation "G" "fed1G" false; mkSetupFederation "H" "fed1H" false].
Definition demo_previews (code : string) : preview_outcome :=
  if decide (code = "fed1H") then None else Some (JStr code, JObj []).

Lemma offers_are_joinable_witness :
  let l := [JoinableRender true; JoinableRender true; JoinableAnswer 1 None;
    JoinableAnswer 2 (Some (inr demo_members)); JoinablePreviews 2 demo_previews] in
  services (joinable_run l) = [mkJoinable "G" (JStr "fed1G") (JObj []) "fed1G"] /\
  Forall (offer l) (services (joinable_run l)).
Proof.
  split; [vm_compute; reflexivity|]. apply offers_are_joinable. vm_compute. reflexivity.
Defined.
