(* ===== verification/Multispend.v ===== *)
(** The hooks of multispend groups: [ui/common/hooks/multispend.ts].

    A room may have a group whose signers vote on its invitation and on withdrawals from
    its account.  The hooks put what the bridge reports of a group into what a screen
    shows, and send votes.  The texts they make are presentation. *)
From Stdlib Require Import ZArith Lia.
From stdpp Require Import base tactics strings list option.
From S2P Require Import Prelude JsNum Js Effects MatrixEvents.
Local Open Scope string_scope.
Local Open Scope list_scope.

(** ** The group *)

Record GroupInvitationWithKeys := mkGroup {
  invitation : GroupInvitation;
  proposer : string;
  pubkeys : list (string * string);
  group_rejections : list string;
  group_federationId : string
}.

(** [RpcMultispendGroupStatus] with the votes of the invitation; a finalized group has
    none to reject it. *)
Inductive GroupStatus : Type :=
  | no_group
  | active_group (active_invite_id : string) (state : GroupInvitationWithKeys)
  | final_group (invite_event_id : string) (finalized_group : GroupInvitationWithKeys).

(** The status as the utilities read it. *)
Definition status_of (st : GroupStatus) : RpcMultispendGroupStatus :=
  match st with
  | no_group => inactive
  | active_group id g => activeInvitation id (invitation g) (proposer g)
  | final_group id g => finalized id (invitation g) (proposer g)
  end.

Definition is_final (st : option GroupStatus) : bool :=
  match st with Some (final_group _ _) => true | _ => false end.

(** ** Voting on the invitation *)

Definition hasRejected (st : option GroupStatus) (myId : option string) : bool :=
  match st, myId with
  | Some (active_group _ g), Some me =>
      negb (bool_decide (me = "")) && bool_decide (me ∈ group_rejections g)
  | _, _ => false
  end.

Definition hasApproved (st : option GroupStatus) (myId : option string) : bool :=
  match st, myId with
  | Some (active_group _ g), Some me =>
      negb (bool_decide (me = "")) && bool_decide (me ∈ (pubkeys g).*1)
  | _, _ => false
  end.

Definition my_role (st : option GroupStatus) (myId : option string) : option MultispendRole :=
  st ← st; me ← myId; Some (getMultispendRole (status_of st) me).

Definition canVote (st : option GroupStatus) (myId : option string) : bool :=
  negb (hasApproved st myId) && negb (hasRejected st myId) &&
  match my_role st myId with Some voter => true | _ => false end.

(** What a press of the button to accept came to. *)
Inductive accepting : Type :=
  | NotAsked
  | NeedsToJoin
  | Approved
  | ApproveFailed (e : string).

(** [handleAcceptMultispend]; [approve] is the thunk it dispatches, and the wallets are
    the ids of the federations that are loaded. *)
Definition handleAcceptMultispend (st : option GroupStatus) (wallets : list string) (approve : thunk jval)
    : thunk accepting :=
  match st with
  | Some (active_group _ g) =>
      if decide (group_federationId g ∈ wallets)
      then t_catch (_ ← approve; mret Approved) (fun e => mret (ApproveFailed e))
      else mret NeedsToJoin
  | _ => mret NotAsked
  end.

(** ** The invitation in the chat *)

(** The message of the invitation, and the event that was observed for it. *)
Record InvitationMessage := mkInvitationMessage {
  message_id : string;
  message_sender : option string;
  message_invitation : GroupInvitation
}.

Record ObservedInvitation := mkObserved {
  observed_eventId : string;
  observed_group : GroupInvitationWithKeys
}.

Inductive InvitationStatus : Type := s_active | s_finalized | s_inactive.

Record InvitationData := mkData {
  data_status : InvitationStatus;
  data_role : MultispendRole;
  data_proposer : string;
  data_voters : nat;
  data_threshold : Z;
  data_hasVoted : bool;
  data_hasInvite : bool
}.

Definition finalizedInvitationId (st : option GroupStatus) : option string :=
  match st with Some (final_group id _) => Some id | _ => None end.

Definition activeInvitationId (st : option GroupStatus) : option string :=
  match st with
  | Some (active_group id g) => if decide (group_rejections g = []) then Some id else None
  | _ => None
  end.

Definition invitation_status (st : option GroupStatus) (id : string) : InvitationStatus :=
  if decide (activeInvitationId st = Some id) then s_active
  else if decide (finalizedInvitationId st = Some id) then s_finalized
  else s_inactive.

Definition is_signer (myId : option string) (i : GroupInvitation) : bool :=
  match myId with Some me => bool_decide (me ∈ signers i) | None => false end.

Definition extractInvitationData (message : InvitationMessage) (observed : option ObservedInvitation)
    (roomStatus : option GroupStatus) (myId : option string) : InvitationData :=
  match observed with
  | Some o =>
      let g := observed_group o in
      mkData (invitation_status roomStatus (observed_eventId o))
        (if decide (message_sender message = myId) then proposer_role
         else if is_signer myId (invitation g) then voter else member)
        (proposer g) (length (signers (invitation g))) (threshold (invitation g))
        (match myId with Some me => bool_decide (is_Some (lookup_prop me (pubkeys g))) | None => false end)
        true
  | None =>
      let i := message_invitation message in
      let proposer := default "" (message_sender message) in
      let role := if decide (Some proposer = myId) then proposer_role
                  else if is_signer myId i then voter else member in
      mkData (invitation_status roomStatus (message_id message)) role proposer
        (length (signers i)) (threshold i)
        (match role with proposer_role => true | _ => false end) false
  end.

(** ** Withdrawals *)

Inductive WithdrawalStatus : Type := w_pending | w_completed | w_failed | w_approved | w_rejected.
#[export] Instance WithdrawalStatus_eq_dec : EqDecision WithdrawalStatus.
Proof. solve_decision. Defined.

Definition is_accepted (tx : WithdrawTxSubmissionStatus) : bool :=
  match tx with tx_accepted _ => true | _ => false end.
Definition is_refused (tx : WithdrawTxSubmissionStatus) : bool :=
  match tx with tx_rejected _ => true | _ => false end.
Definition is_unknown (tx : WithdrawTxSubmissionStatus) : bool :=
  match tx with tx_unknown => true | _ => false end.

(** [getWithdrawalStatus], in the order of the code. *)
Definition getWithdrawalStatus (st : option GroupStatus) (w : WithdrawRequestWithApprovals)
    : WithdrawalStatus :=
  match st with
  | Some (final_group id g) =>
      let tx := txSubmissionStatus w in
      if is_unknown tx then w_pending
      else if is_accepted tx then w_completed
      else if is_refused tx then w_failed
      else if isWithdrawalRequestApproved w (status_of (final_group id g)) then w_approved
      else if isMultispendWithdrawalRejected w (status_of (final_group id g)) then w_rejected
      else w_pending
  | _ => w_pending
  end.

Inductive FilterOption : Type := o_all | o_pending | o_approved | o_rejected.

Definition withdrawal_of (e : MultispendListedEvent) : option WithdrawRequestWithApprovals :=
  match event e with withdrawalRequest w => Some w | _ => None end.

(** The events that are withdrawal requests, with their requests. *)
Definition withdrawalRequests (events : list MultispendListedEvent)
    : list (MultispendListedEvent * WithdrawRequestWithApprovals) :=
  omap (fun e => pair e <$> withdrawal_of e) events.

Definition passes (filter : FilterOption) (status : WithdrawalStatus) : bool :=
  match filter with
  | o_all => true
  | o_pending => bool_decide (status = w_pending)
  | o_approved => bool_decide (status = w_approved) || bool_decide (status = w_completed)
  | o_rejected => bool_decide (status = w_rejected)
  end.

Section Requests.
(** [Array.prototype.sort], which may do anything but lose elements when the
    comparator contradicts itself. *)
Context (sort : forall A, (A -> A -> num) -> list A -> list A).
Local Abbreviation request := (MultispendListedEvent * WithdrawRequestWithApprovals)%type.

Definition by_time (a b : request) : num := sub (time a.1) (time b.1).

Definition by_vote (myId : option string) (a b : request) : num :=
  match myId with
  | None => of_Z 0
  | Some me =>
      if getHasUserVotedForWithdrawal a.2 me then of_Z 1
      else if getHasUserVotedForWithdrawal b.2 me then of_Z (-1)
      else of_Z 0
  end.

Definition filteredWithdrawalRequests (filter_option : FilterOption) (st : option GroupStatus)
    (myId : option string) (events : list MultispendListedEvent) : list request :=
  let requests := withdrawalRequests events in
  match filter_option with
  | o_all => requests
  | _ =>
      if negb (is_final st) then requests
      else
        let filtered := filter (fun r => passes filter_option (getWithdrawalStatus st r.2) = true) requests in
        match filter_option with
        | o_pending => sort _ (by_vote myId) (sort _ by_time filtered)
        | _ => filtered
        end
  end.
End Requests.

(** ** What is shown of a withdrawal *)

Section Shown.
Context (sort : forall A, (A -> A -> num) -> list A -> list A).
Hypothesis sort_permutes : forall A cmp (l : list A), Permutation (sort A cmp l) l.

(** The votes on a withdrawal do not change what it is shown as: its status only
    depends on whether its transaction was submitted.  So nothing is ever listed as
    rejected, and a request that was voted down, which can never be submitted, is
    listed among those that are waiting. *)
Theorem votes_not_shown st :
  (forall w w', txSubmissionStatus w = txSubmissionStatus w' ->
     getWithdrawalStatus st w = getWithdrawalStatus st w') /\
  (forall w, getWithdrawalStatus st w <> w_approved /\ getWithdrawalStatus st w <> w_rejected) /\
  (is_final st = true -> forall me events,
     filteredWithdrawalRequests sort o_rejected st me events = [] /\
     forall r, r ∈ withdrawalRequests events -> txSubmissionStatus r.2 = tx_unknown ->
       r ∈ filteredWithdrawalRequests sort o_pending st me events).
Proof.
  assert (S : forall w, getWithdrawalStatus st w =
    match st with
    | Some (final_group _ _) =>
        match txSubmissionStatus w with
        | tx_unknown => w_pending
        | tx_accepted _ => w_completed
        | tx_rejected _ => w_failed
        end
    | _ => w_pending
    end).
  { intros w. unfold getWithdrawalStatus. destruct st as [[| |id g]|]; try done.
    by destruct (txSubmissionStatus w). }
  split_and!.
  - intros w w' E. by rewrite !S, E.
  - intros w. rewrite S. destruct st as [[| |id g]|]; try done. by destruct (txSubmissionStatus w).
  - intros F me events. unfold filteredWithdrawalRequests. rewrite F. cbn [negb]. split.
    + apply filter_none, list.Forall_forall. intros r _. cbn.
      rewrite S. destruct st as [[| |id g]|]; try done. by destruct (txSubmissionStatus _).
    + intros r R U. rewrite !sort_permutes. apply list_elem_of_filter. split; [|done]. cbn.
      rewrite S, U. by destruct st as [[| |id g]|].
Qed.

(** Every filter shows requests that were made, each as often as it is among the events
    with its status, whatever order the host puts them in. *)
Theorem requests_filtered o st me events :
  is_final st = true ->
  Permutation (filteredWithdrawalRequests sort o st me events)
    (filter (fun r => passes o (getWithdrawalStatus st r.2) = true) (withdrawalRequests events)).
Proof.
  intros F. unfold filteredWithdrawalRequests. rewrite F. cbn [negb].
  destruct o; [|by rewrite !sort_permutes|done..].
  rewrite filter_all; [done|]. by apply list.Forall_forall.
Qed.
End Shown.

(** The data shown for an invitation does not depend on whether its event was observed
    yet, but for the votes: until then only the proposer is known to have voted. *)
Theorem invitation_views_agree m o st me :
  message_id m = observed_eventId o -> message_invitation m = invitation (observed_group o) ->
  message_sender m = Some (proposer (observed_group o)) ->
  is_Some (lookup_prop (proposer (observed_group o)) (pubkeys (observed_group o))) ->
  let before := extractInvitationData m None st me in
  let after := extractInvitationData m (Some o) st me in
  data_status before = data_status after /\ data_role before = data_role after /\
  data_proposer before = data_proposer after /\ data_voters before = data_voters after /\
  data_threshold before = data_threshold after /\
  (data_hasVoted before = true -> data_hasVoted after = true).
Proof.
  intros I V P K. cbn. rewrite I, V, P. cbn. split_and!; try done.
  destruct (decide (Some (proposer (observed_group o)) = me)) as [<-|N].
  - intros _. by apply bool_decide_eq_true.
  - by destruct (is_signer me _).
Qed.

(** An invitation is shown as active exactly when the group of the room is the one it
    invites to and nobody rejected it: then signers can still make it final. *)
Theorem active_invitation m o st me :
  data_status (extractInvitationData m (Some o) st me) = s_active <->
  exists g, st = Some (active_group (observed_eventId o) g) /\ group_rejections g = [].
Proof.
  cbn. unfold invitation_status. split.
  - destruct (decide (activeInvitationId st = _)) as [E|]; [|by destruct (decide _)]. intros _.
    destruct st as [[|id g|id g]|]; try done. cbn in E. destruct (decide _); [|done].
    injection E as ->. by exists g.
  - intros (g & -> & R). rewrite decide_True; [done|]. cbn. by rewrite decide_True.
Qed.

(** The vote for an invitation is sent only when its federation is joined; its errors are
    caught. *)
Lemma accept_outcome id g wallets approve b :
  Effects.run (handleAcceptMultispend (Some (active_group id g)) wallets approve) b =
    if decide (group_federationId g ∈ wallets) then
      match Effects.run approve b with
      | (h, Ok _) => (h, Ok Approved)
      | (h, Throw e) => (h, Ok (ApproveFailed e))
      end
    else ([], Ok NeedsToJoin).
Proof.
  cbn. destruct (decide _); [|done]. unfold Effects.run, t_catch, mbind, thunk_bind.
  by destruct (approve b []) as [h []].
Qed.

(** ** Examples *)

Definition demo_group : GroupInvitationWithKeys :=
  mkGroup (mkInvitation ["a"; "b"; "c"] 2 "fed1" "Fed") "a" [("a", "pk")] [] "f".
Definition demo_final : option GroupStatus := Some (final_group "$inv" demo_group).

(** Two of three signers rejected what needs two of them. *)
Definition voted_down : MultispendListedEvent :=
  mkListed (of_Z 1) (of_Z 1000) (withdrawalRequest example_withdrawal) "$w".

Definition no_sort (A : Type) (_ : A -> A -> num) (l : list A) : list A := l.

Example voted_down_is_pending :
  isMultispendWithdrawalRejected example_withdrawal (status_of (final_group "$inv" demo_group)) = true /\
  (fun r => r.1) <$> filteredWithdrawalRequests no_sort o_pending demo_final (Some "a") [voted_down] = [voted_down] /\
  filteredWithdrawalRequests no_sort o_rejected demo_final (Some "a") [voted_down] = [].
Proof. vm_compute. by split_and!. Qed.

Lemma votes_not_shown_witness :
  filteredWithdrawalRequests no_sort o_rejected demo_final (Some "a") [voted_down] = [].
Proof. apply (votes_not_shown no_sort (fun A cmp l => Permutation_refl l) demo_final). reflexivity. Defined.

Lemma requests_filtered_witness :
  Permutation (filteredWithdrawalRequests no_sort o_pending demo_final None [voted_down])
    [(voted_down, example_withdrawal)].
Proof.
  apply (requests_filtered no_sort (fun A cmp l => Permutation_refl l) o_pending demo_final None [voted_down]).
  reflexivity.
Defined.

Lemma invitation_views_agree_witness :
  let m := mkInvitationMessage "$inv" (Some "a") (invitation demo_group) in
  let st := Some (active_group "$inv" demo_group) in
  data_status (extractInvitationData m None st (Some "b")) =
    data_status (extractInvitationData m (Some (mkObserved "$inv" demo_group)) st (Some "b")).
Proof.
  apply (invitation_views_agree (mkInvitationMessage "$inv" (Some "a") (invitation demo_group))
    (mkObserved "$inv" demo_group)); [reflexivity..|by exists "pk"].
Defined.

(** The comparator of the pending requests puts either of two requests the user voted on
    behind the other, so that their order is left to the host. *)
Example votes_compare_both_ways :
  by_vote (Some "a") (voted_down, example_withdrawal) (voted_down, example_withdrawal) = of_Z 1.
Proof. vm_compute. reflexivity. Qed.
